(* ===== verification/_CoqProject ===== *)
-Q . S2P
Prelude.v
Checksum.v
Bpf.v
Ingress.v
Egress.v
Splice.v
Loader.v
Wire.v
EntryController.v
BfRt.v
Json.v
Client.v
ClientProofs.v
Controller.v
RuleController.v
ControllerProofs.v
Main.v
MainProofs.v
System.v
Packet.v
PacketProofs.v
PacketFacts.v
PktProcessor.v
FlowSpec.v
FlowHeap.v
PktProofs.v
FrontEnd.v
Worker.v
Dpdk.v
FrontMain.v
Shutdown.v
FrontSystem.v
SplicedRequest.v
Offload.v
DataPlane.v
DataPlaneProofs.v
DataPlaneTypes.v
SwitchedPath.v
Deployment.v
