(* ===== verification/Prelude.v ===== *)
(** * Miresga: a verification development

    Miresga is a layer-7 load balancer split over three machines: a programmable
    switch that forwards the packets of connections it knows, front ends that
    accept connections, read the HTTP request and choose a back end, and back ends
    whose eBPF programs splice the two TCP connections by translating sequence
    numbers.  This library models the C and C++ of all three and the P4 program of the
    switch, and proves what they compute.

    ** The parts and where they are modelled

    Back end (src/Backend)
    - [Checksum]: [csum_folder_helper] and the contract of the kernel's
      [bpf_csum_diff] ([CsumDiff], [CsumDiffLaws]): one's complement sums are
      arithmetic modulo 65535.
    - [Bpf]: the packet as a list of bytes read and written through checked
      accessors ([ld], [st], [past_end]: an access outside the packet is the value
      [OutOfBounds], not undefined), [struct key_t], and the contract of the kernel's hash
      maps ([BpfHash], [BpfHashLaws]).
    - [Ingress]: ingress_xdp.c, [ingress_xdp_prog]; one definition per label of
      the code.
    - [Egress]: egress_tc.c, [egress_tc_prog].
    - [Splice]: both programs over the same two maps, under any sequence of packets.
    - [Loader]: xdp_loader.c over an interface for libbpf ([LibBpf], [LibBpfLaws]);
      it makes the two programs share the maps.

    Front end (src/Frontend)
    - [Wire]: the structures both ends of the control connection exchange, as bytes
      in memory, padding included (flow_data.hpp, rule_controller.hpp, the switch's
      controller.h).
    - [EntryController]: subprojects/entry_controller, the batches of flows to
      offload and to take back; its interleaving with the packet processors that
      fill the queues is [ec_run].
    - [RuleController]: subprojects/rule_controller, and the part of main.cpp that
      reads the messages of the switch into it.
    - [Packet], [PacketProofs], [PacketFacts]: the stateless half of
      subprojects/pkt_processor: message buffers, the six functions that build a
      packet to send, the checksum of a key, the search for the URL.  The proofs
      say of every field of a built packet what it is.
    - [PktProcessor]: the stateful half: [process_pkts] with the hash maps, the heap
      with its pointers, the queues and the buffers of a batch; one definition per
      case of the two [switch] statements, and the body of a worker's loop.
    - [FlowSpec]: what the packet processor promises, as a table from clients to
      flows without pointers, hash maps or buffers; [FlowHeap] relates the table to
      memory ([rep]), [PktProofs] proves that every case of the code does what the
      specification says ([refines]), and [FrontEnd] does so for batches.
    - [Worker]: any run of a worker from the empty table on: the invariant
      ([running]), the faults there are, and runs that reach them.
    - [Dpdk]: the contract of DPDK ([dpdk_call], [DpdkLaws]), and what
      pkt_processor.cpp does to the device: [init_static_variable], [run], [stop],
      the second half of [destroy_static_variable].  [EalSim] is a library in
      memory that meets the contract.
    - [Shutdown]: the first half of [destroy_static_variable], which frees the flows.
    - [FrontMain]: main.cpp: the two configuration files, the start ([start_front]),
      the loop with its three branches ([on_fe_trip]).  [FrontSim] runs it on the
      configuration of the repository.
    - [FrontSystem]: workers and loop in one program ([fe_state]): the one puts
      entries into the queues the other empties, the other changes the rules the
      one looks up.

    Switch (src/Switch/control_plane)
    - [BfRt]: the interface of the vendor's driver: the calls as a data type, the
      state they are documented to act on, and, as the class [BfRuntimeLaws], what
      a successful call does.  Every call may fail.  [Sim] is a driver in memory that
      meets the laws.
    - [Json]: the interface of cJSON and the idioms in which the code uses it.
    - [Client], [ClientProofs]: client.c; start-up, ports, the [setup_*] and [add_*]
      functions, and the contract of each.
    - [Controller], [ControllerProofs]: controller.c; reading the configuration, the
      greeting of a front end, the entry messages, the event loop.
    - [Main], [MainProofs]: main.c.
    - [System]: the controller and a front end together.

    Switch (src/Switch/data_plane)
    - [DataPlane]: the P4 program: headers as lists of bit fields with one codec
      ([Header], [emit], [extract]), the two parsers, the ingress and the egress
      control with a definition per table and action, the deparsers, and
      [switch_packet], the way of a packet through all of them.  A table is the
      [table_of] of [BfRt] that the control plane fills.
    - [DataPlaneProofs]: what is emitted is extracted again; the pipeline is the
      decision [route].
    - [DataPlaneTypes]: the widths of fields and metadata ([ingress_typed],
      [egress_typed]), which the parsers establish and every table and action keeps.

    Across the machines
    - [SplicedRequest]: the SYN and the request that the packet processor sends, on
      their way through the hooks of the back end.
    - [Offload]: packet processor, entry controller and switch in one line: the
      flows of the one and the table of the other.
    - [SwitchedPath]: the data plane and the hooks of a server: a connection in that
      table, from the client to the server and back.
    - [Deployment]: all three programs of the switch and the front end: the tables
      the files ask for ([config_tables]), and the way of every segment.

    The parts interact like this.  The packet processor puts the flows that are to
    pass through the switch alone, and those that no longer are, in two queues; the front end's [get_offloaded_entries] writes
    messages, of the layout of [Wire], that the controller's [on_recv] parses into
    calls of [BfRt]; the controller's [on_accept] writes the messages that the front
    end's [dispatch] parses into the maps of the rule controller, where the packet
    processor looks up the server of a URL.  The packets it sends to a server pass
    the two eBPF programs, which share their maps and nothing else with the rest.

    ** How the code is modelled

    A function of the code is a function in the monad [M] below: state passing,
    and an outcome that is a value or an error.  The error type names what the
    component can do wrong: leave the packet, overrun an array, exit with a
    status, crash on a null pointer or outside a buffer.  Integers are values of [Z], with the
    wrap-around of their width written out ([u8] to [u64]); bytes are values of
    [Z] and memory is a list of them.  Undefined behaviour ends the run with an
    error, so that a theorem whose conclusion has a [Ret] also says there is none.
    Statements about runs are proved with [wp], a weakest precondition on [M].

    Code outside the repository is a parameter with its documented behaviour as
    laws, and every class of laws has an instance in memory, which the witnesses
    run: hash maps and [bpf_csum_diff] ([BpfHash], [CsumDiff]), concurrent queues
    ([BulkQueue], and [CuckooMap] for the flows), libbpf ([LibBpf]), the driver ([BfRuntime], and [BfSchema] for the names of the
    compiled data plane), cJSON ([CJson]), nlohmann JSON ([NlohmannJson]), DPDK
    ([Dpdk]), sockets, timers and epoll ([Posix]), the hash and checksum units of the
    Tofino ([Tofino]: what they compute is left open, and so is whether a checksum
    the switch writes is right), the contents of files and the
    results of the calls in the two loops (arguments).  [stale] says what is found
    behind [pci_addr], which points into a string that is gone.  In the packet processor, which calls of [rte_malloc]
    fail is the argument [oom], what [rte_pktmbuf_alloc_bulk] gives and how much
    [rte_eth_tx_burst] takes are arguments of a batch.

    Memory in the packet processor is a map from addresses to blocks, [free] removes
    a block, and addresses are not used again, so that a use after [free] is
    always an error; in the code it may as well find another block.  A batch is
    one step: workers on several cores, whose batches overlap in time, are modelled
    as their batches one after the other, which is what they do to the maps as long
    as the packets of a connection are handled on one core.

    ** What the theorems show

    - Splicing: [Ingress] and [Egress] state, for every packet, what each program
      changes and that it never leaves the packet; that it keeps the TCP checksum;
      and [Splice] that after a handshake both directions are translated between
      the two sequence spaces whatever else passes.
    - Flows: [Worker.process_pkts_refines] that [process_pkts], on hash maps, heap,
      queues and buffers, does what the table of [FlowSpec] specifies, whatever the
      packets; [FrontSystem.front_end_accounts] that in every interleaving with the
      loop of main memory holds the flows and nothing more, and what the switch is
      told is which of them are offloaded; [Shutdown] that all of it is freed; and
      [SplicedRequest] that the packets sent to a server are numbered so that the
      back end's splicing gives the client the bytes it expects.
    - Offloading: [Deployment.deployment_follows_flows] that a switch started from its
      files, after the front end's messages, treats every segment as the configured
      servers and the front end's offloaded flows say, for which [Offload] shows that
      its table becomes exactly those flows; [EntryController] that no entry is lost or sent twice in any
      interleaving and that all are sent in the end; [ControllerProofs] and [System]
      that what the controller receives is applied to the table in order, and both together.
    - Forwarding: [DataPlaneProofs.switch_routes] that seven tables and eight flags
      amount to one decision on a segment, [SwitchedPath] that a segment of an
      offloaded connection reaches the server and the client with the right
      addresses and numbers, and how the switch answers a SYN; [DataPlaneTypes] that
      no assignment of the data plane gives a field a value it cannot hold.
    - Configuration: [MainProofs] that after the start the tables, the ports and the
      controller hold what the files say, and the only reasons for an early exit;
      [Dpdk] and [FrontMain] the same of the front end, its port and its workers;
      [System] that the greeting is understood by the front end.
    - Limits: where the code does not do what it should, a theorem says so: flows
      that survive the client's reset, SACK blocks at odd offsets, after which the
      checksum is right by chance only, messages longer than the buffer that receives
      them, a message of an earlier reception that is applied again, removals that
      overtake additions, messages that arrive together; a
      pointer to a freed flow left in the table, a URL longer than its buffer, a length
      field that is believed, a reset sent to a reversed address, a batch abandoned
      with its buffers, a null server, a loader that fails half way, a device that
      does not come up unnoticed, a [stop] that waits for every worker, an ARP answer
      that reaches nobody.

    ** Bounds and fuel

    The one loop that is not structural is that of [on_recv]; [parse] runs on fuel
    [2 + length data], which is enough because every trip that goes on consumes
    at least three bytes, and [reception_ends] states that the fuel never runs out.
    The loop around [epoll_wait] never ends in the code; [on_events] is one trip, and
    [main] runs any finite list of them.

    ** What is not modelled

    Of the data plane: what the chip's units compute; the intrinsic metadata in front
    of a packet; and what a parser's rejection does beyond ending the packet.
    Threads: see above; the rules are changed between batches, though the code takes
    no lock.  What is printed.

    This file is the prelude: machine integers, bytes, the monad and its rules, the
    tactics, and lemmas the components share. *)
From Stdlib Require Import ZArith Lia.
From stdpp Require Import base list gmap strings.

#[global] Open Scope Z_scope.

(** * Machine integers

    A [w]-bit C integer is the [Z] it denotes; every place where the code
    converts or wraps is written out with one of these. *)
Definition u8 (z : Z) : Z := z mod 2 ^ 8.
Definition u16 (z : Z) : Z := z mod 2 ^ 16.
Definition u32 (z : Z) : Z := z mod 2 ^ 32.
Definition u64 (z : Z) : Z := z mod 2 ^ 64.

Definition in_u8 (z : Z) : Prop := 0 <= z < 2 ^ 8.
Definition in_u16 (z : Z) : Prop := 0 <= z < 2 ^ 16.
Definition in_u32 (z : Z) : Prop := 0 <= z < 2 ^ 32.

(** * Bytes and byte order

    Memory is a list of byte values.  The programs run on little-endian
    machines (x86, and the eBPF target of its kernel), so a multi-byte load
    combines the bytes least significant first. *)
Definition is_byte (b : Z) : Prop := 0 <= b < 256.
Abbreviation bytes_ok := (Forall is_byte).

Fixpoint le_val (bs : list Z) : Z :=
  match bs with
  | [] => 0
  | b :: t => b + 256 * le_val t
  end.

Fixpoint le_bytes (n : nat) (z : Z) : list Z :=
  match n with
  | O => []
  | S n => z mod 256 :: le_bytes n (z / 256)
  end.

Definition be_val (bs : list Z) : Z := le_val (rev bs).

(** [htons]/[ntohs] and [htonl]/[ntohl] (also spelled [bpf_htonl] and
    [rte_cpu_to_be_16]): on a little-endian machine both directions swap. *)
Definition bswap16 (z : Z) : Z := be_val (le_bytes 2 z).
Definition bswap32 (z : Z) : Z := be_val (le_bytes 4 z).

(** The [n] bytes of [m] at offset [a]. *)
Definition slice {A} (m : list A) (a n : nat) : list A := take n (drop a m).

(** [m] with the bytes at [a] overwritten by [bs]. *)
Definition splice {A} (m : list A) (a : nat) (bs : list A) : list A :=
  take a m ++ bs ++ drop (a + length bs) m.

(** * A state and error monad

    Stateful, fallible code is a function from the state to an outcome and the
    state it leaves behind; an error keeps the effects made before it. *)
Inductive outcome (E A : Type) : Type :=
| Ret (a : A)
| Err (e : E).
Arguments Ret {E A} a.
Arguments Err {E A} e.

Definition M (S E A : Type) : Type := S -> outcome E A * S.

#[export] Instance M_ret S E : MRet (M S E) := fun A a s => (Ret a, s).
#[export] Instance M_bind S E : MBind (M S E) := fun A B k m s =>
  match m s with
  | (Ret a, s') => k a s'
  | (Err e, s') => (Err e, s')
  end.

Definition fail {S E A} (e : E) : M S E A := fun s => (Err e, s).
Definition get {S E} : M S E S := fun s => (Ret s, s).
Definition put {S E} (s : S) : M S E unit := fun _ => (Ret tt, s).
Definition gets {S E A} (f : S -> A) : M S E A := fun s => (Ret (f s), s).
Definition modify {S E} (f : S -> S) : M S E unit := fun s => (Ret tt, f s).

(** Run [f] over a list, in order: the body of a [for] loop. *)
Fixpoint for_each {S E A} (f : A -> M S E unit) (l : list A) : M S E unit :=
  match l with
  | [] => mret tt
  | x :: t => _ ← f x; for_each f t
  end.

(** Run [m] on a part of the state. *)
Definition within {S S' E A} (part : S' -> S) (update : S -> S' -> S') (m : M S E A) : M S' E A :=
  fun s => let '(r, x) := m (part s) in (r, update x s).

(** [wp m Q s]: running [m] from [s] ends with an outcome and a state that
    satisfy [Q].  Runs are total functions, so this is total correctness. *)
Definition wp {S E A} (m : M S E A) (Q : outcome E A -> S -> Prop) (s : S) : Prop :=
  Q (fst (m s)) (snd (m s)).

(** ** Arithmetic lemmas *)

(** [lia] with the linear facts about [/] and [mod] by constants. *)
Ltac modlia :=
  unfold u8, u16, u32, u64, in_u8, in_u16, in_u32, is_byte in *;
  change (2 ^ 8) with 256 in *; change (2 ^ 16) with 65536 in *;
  change (2 ^ 32) with 4294967296 in *; change (2 ^ 64) with 18446744073709551616 in *;
  Z.to_euclidean_division_equations; lia.

Lemma u8_id z : in_u8 z -> u8 z = z.
Proof. intros; by apply Z.mod_small. Qed.
Lemma u16_id z : in_u16 z -> u16 z = z.
Proof. intros; by apply Z.mod_small. Qed.
Lemma u32_id z : in_u32 z -> u32 z = z.
Proof. intros; by apply Z.mod_small. Qed.
Lemma u8_range z : in_u8 (u8 z).
Proof. by apply Z.mod_pos_bound. Qed.
Lemma u16_range z : in_u16 (u16 z).
Proof. by apply Z.mod_pos_bound. Qed.
Lemma u32_range z : in_u32 (u32 z).
Proof. by apply Z.mod_pos_bound. Qed.

Create HintDb words.
#[export] Hint Resolve u8_range u16_range u32_range : words.

Lemma u32_add_l a b : u32 (u32 a + b) = u32 (a + b).
Proof. apply Zplus_mod_idemp_l. Qed.
Lemma u32_sub_l a b : u32 (u32 a - b) = u32 (a - b).
Proof. apply Zminus_mod_idemp_l. Qed.
Lemma u32_add_r a b : u32 (a + u32 b) = u32 (a + b).
Proof. apply Zplus_mod_idemp_r. Qed.
Lemma u32_sub_r a b : u32 (a - u32 b) = u32 (a - b).
Proof. apply Zminus_mod_idemp_r. Qed.

(** ** Byte sequences *)

Lemma length_le_bytes n z : length (le_bytes n z) = n.
Proof. revert z; induction n; intros; simpl; auto. Qed.

Lemma le_bytes_ok n z : bytes_ok (le_bytes n z).
Proof.
  revert z; induction n as [|n IH]; intros z; simpl; constructor; auto.
  apply Z.mod_pos_bound; lia.
Qed.

Lemma le_val_bound bs : bytes_ok bs -> 0 <= le_val bs < 256 ^ Z.of_nat (length bs).
Proof.
  induction 1 as [|b t Hb _ IH]; simpl length; [done|].
  rewrite Nat2Z.inj_succ, Z.pow_succ_r by lia. unfold is_byte in Hb. simpl. lia.
Qed.

Lemma le_val_bytes n z : le_val (le_bytes n z) = z mod 256 ^ Z.of_nat n.
Proof.
  revert z; induction n as [|n IH]; intros z; simpl le_bytes; simpl le_val.
  - by rewrite Z.mod_1_r.
  - rewrite IH, Nat2Z.inj_succ, Z.pow_succ_r by lia.
    rewrite Z.rem_mul_r by (try apply Z.pow_nonzero; lia). done.
Qed.

Lemma le_bytes_val bs : bytes_ok bs -> le_bytes (length bs) (le_val bs) = bs.
Proof.
  induction 1 as [|b t Hb _ IH]; [done|]. simpl. unfold is_byte in Hb.
  rewrite (Z.mul_comm 256), Z.mod_add, Z.div_add, Z.mod_small, Z.div_small by lia.
  rewrite Z.add_0_l, IH. done.
Qed.

Lemma bytes_ok_rev bs : bytes_ok bs -> bytes_ok (rev bs).
Proof. apply Forall_rev. Qed.

Lemma be_val_bound bs : bytes_ok bs -> 0 <= be_val bs < 256 ^ Z.of_nat (length bs).
Proof.
  intros H. unfold be_val. rewrite <- (length_rev bs).
  by apply le_val_bound, bytes_ok_rev.
Qed.

Lemma bswap32_le_val bs : length bs = 4%nat -> bytes_ok bs -> bswap32 (le_val bs) = be_val bs.
Proof. intros Hl Hb. unfold bswap32. rewrite <- Hl, le_bytes_val; auto. Qed.

Lemma bswap16_le_val bs : length bs = 2%nat -> bytes_ok bs -> bswap16 (le_val bs) = be_val bs.
Proof. intros Hl Hb. unfold bswap16. rewrite <- Hl, le_bytes_val; auto. Qed.

Lemma le_bytes_bswap32 z : in_u32 z -> le_bytes 4 (bswap32 z) = rev (le_bytes 4 z).
Proof.
  intros Hz. unfold bswap32, be_val.
  assert (length (rev (le_bytes 4 z)) = 4%nat) as <- by (rewrite length_rev; apply length_le_bytes).
  apply le_bytes_val, bytes_ok_rev, le_bytes_ok.
Qed.

Lemma be_val_le_bytes_bswap32 z : in_u32 z -> be_val (le_bytes 4 (bswap32 z)) = z.
Proof.
  intros Hz. rewrite le_bytes_bswap32 by done. unfold be_val. rewrite rev_involutive, le_val_bytes.
  by apply Z.mod_small.
Qed.

Lemma bswap32_range z : in_u32 (bswap32 z).
Proof.
  unfold bswap32. pose proof (be_val_bound (le_bytes 4 z) (le_bytes_ok 4 z)) as H.
  rewrite length_le_bytes in H. exact H.
Qed.

Lemma bswap16_range z : in_u16 (bswap16 z).
Proof.
  unfold bswap16. pose proof (be_val_bound (le_bytes 2 z) (le_bytes_ok 2 z)) as H.
  rewrite length_le_bytes in H. exact H.
Qed.

Lemma bswap32_involutive z : in_u32 z -> bswap32 (bswap32 z) = z.
Proof. intros. unfold bswap32 at 1. by apply be_val_le_bytes_bswap32. Qed.

#[export] Hint Resolve le_bytes_ok bytes_ok_rev bswap32_range bswap16_range : words.

(** ** Slices and overwrites *)

Lemma length_slice {A} (m : list A) a n : (a + n <= length m)%nat -> length (slice m a n) = n.
Proof. intros. unfold slice. rewrite length_take, length_drop. lia. Qed.

Lemma slice_ok m a n : bytes_ok m -> bytes_ok (slice m a n).
Proof. intros. by apply Forall_take, Forall_drop. Qed.

Lemma length_splice {A} (m : list A) a (bs : list A) : (a + length bs <= length m)%nat -> length (splice m a bs) = length m.
Proof. intros. unfold splice. rewrite !length_app, length_take, length_drop. lia. Qed.

Lemma splice_ok m a bs : bytes_ok m -> bytes_ok bs -> bytes_ok (splice m a bs).
Proof. intros. unfold splice. rewrite !Forall_app. auto using Forall_take, Forall_drop. Qed.

Lemma slice_splice_same {A} (m : list A) a (bs : list A) :
  (a + length bs <= length m)%nat -> slice (splice m a bs) a (length bs) = bs.
Proof.
  intros. unfold slice, splice. rewrite drop_app_length' by (rewrite length_take; lia).
  by rewrite take_app_length.
Qed.

Lemma lookup_splice {A} (m : list A) a (bs : list A) i :
  (a + length bs <= length m)%nat ->
  splice m a bs !! i = if decide (a <= i < a + length bs)%nat then bs !! (i - a)%nat else m !! i.
Proof.
  intros. unfold splice. destruct (decide (i < a)%nat).
  - rewrite lookup_app_l, lookup_take by (rewrite ?length_take; lia).
    rewrite !decide_True, decide_False by lia. done.
  - rewrite lookup_app_r by (rewrite length_take; lia). rewrite length_take.
    replace (i - a `min` length m)%nat with (i - a)%nat by lia.
    destruct (decide (i < a + length bs)%nat).
    + rewrite decide_True, lookup_app_l by lia. done.
    + rewrite decide_False, lookup_app_r, lookup_drop by lia. f_equal. lia.
Qed.

Lemma slice_ext {A} (m m' : list A) a n :
  (forall i, (a <= i < a + n)%nat -> m !! i = m' !! i) -> slice m a n = slice m' a n.
Proof.
  intros H. unfold slice. apply list_eq. intros i.
  destruct (decide (i < n)%nat).
  - rewrite !lookup_take_lt, !lookup_drop by lia. apply H. lia.
  - rewrite !lookup_take_ge by lia. done.
Qed.

Lemma slice_splice_other {A} (m : list A) a (bs : list A) b n :
  (a + length bs <= length m)%nat ->
  (b + n <= a \/ a + length bs <= b)%nat ->
  slice (splice m a bs) b n = slice m b n.
Proof.
  intros Hl Hd. apply slice_ext. intros i Hi. rewrite lookup_splice by done.
  rewrite decide_False by lia. done.
Qed.

(** ** Rules for [wp] *)

Section wp_rules.
Context {S E : Type}.
Implicit Types s : S.

Lemma wp_mono {A} (m : M S E A) (Q Q' : outcome E A -> S -> Prop) s :
  wp m Q s -> (forall r s', Q r s' -> Q' r s') -> wp m Q' s.
Proof. unfold wp. auto. Qed.

Lemma wp_ret {A} (a : A) Q s : Q (Ret a) s -> wp (E:=E) (mret a) Q s.
Proof. done. Qed.

Lemma wp_fail {A} (e : E) (Q : outcome E A -> S -> Prop) s : Q (Err e) s -> wp (fail e) Q s.
Proof. done. Qed.

Lemma wp_get (Q : outcome E S -> S -> Prop) s : Q (Ret s) s -> wp get Q s.
Proof. done. Qed.

Lemma wp_put s0 (Q : outcome E unit -> S -> Prop) s : Q (Ret tt) s0 -> wp (put s0) Q s.
Proof. done. Qed.

Lemma wp_gets {A} (f : S -> A) (Q : outcome E A -> S -> Prop) s :
  Q (Ret (f s)) s -> wp (gets f) Q s.
Proof. done. Qed.

Lemma wp_modify f (Q : outcome E unit -> S -> Prop) s : Q (Ret tt) (f s) -> wp (modify f) Q s.
Proof. done. Qed.

Lemma wp_bind {A B} (m : M S E A) (k : A -> M S E B) Q s :
  wp m (fun r s' => match r with Ret a => wp (k a) Q s' | Err e => Q (Err e) s' end) s ->
  wp (mbind k m) Q s.
Proof. unfold wp, mbind, M_bind. by destruct (m s) as [[a|e] s']. Qed.

Lemma wp_conj {A} (m : M S E A) (Q Q' : outcome E A -> S -> Prop) s :
  wp m Q s -> wp m Q' s -> wp m (fun r s' => Q r s' /\ Q' r s') s.
Proof. unfold wp. auto. Qed.

(** A loop runs to its end when its body does and keeps an invariant indexed
    by what is left to visit. *)
Lemma wp_for_each {A} (f : A -> M S E unit) (I : list A -> S -> Prop) (l : list A) s :
  (forall x t s, I (x :: t) s -> wp (f x) (fun r s' => r = Ret tt /\ I t s') s) ->
  I l s -> wp (for_each f l) (fun r s' => r = Ret tt /\ I [] s') s.
Proof.
  intros Hf. revert s. induction l as [|x t IH]; intros s HI; simpl.
  - by apply wp_ret.
  - apply wp_bind. eapply wp_mono; [by apply Hf|].
    intros r s' [-> HI']. by apply IH.
Qed.
End wp_rules.

Lemma wp_within {S S' E A} (part : S' -> S) (update : S -> S' -> S') (m : M S E A) (Q : outcome E A -> S' -> Prop) s :
  wp m (fun r x => Q r (update x s)) (part s) -> wp (within part update m) Q s.
Proof. unfold wp, within. by destruct (m (part s)). Qed.

Lemma M_bind_assoc {S E A B C} (m : M S E A) (f : A -> M S E B) (g : B -> M S E C) s :
  mbind g (mbind f m) s = mbind (fun a => mbind g (f a)) m s.
Proof. unfold mbind, M_bind. by destruct (m s) as [[?|?] ?]. Qed.

Lemma bind_run {S E A B} (m : M S E A) (f : A -> M S E B) s :
  mbind f m s = match m s with (Ret a, s') => f a s' | (Err e, s') => (Err e, s') end.
Proof. done. Qed.

Lemma ret_run {S E A} (a : A) s : (mret a : M S E A) s = (Ret a, s).
Proof. done. Qed.

Lemma for_each_app {S E A} (f : A -> M S E unit) l1 l2 s :
  for_each f (l1 ++ l2) s = (for_each f l1 ≫= fun _ => for_each f l2) s.
Proof.
  revert s. induction l1 as [|x l1 IH]; intros s; cbn [app for_each]; [done|]. rewrite M_bind_assoc, !bind_run.
  destruct (f x s) as [[[]|e] s']; [apply IH | done].
Qed.

Lemma wp_run {S E A} (m : M S E A) (Q : outcome E A -> S -> Prop) s :
  wp m Q s -> exists r s', m s = (r, s') /\ Q r s'.
Proof. unfold wp. destruct (m s) as [r s']. eauto. Qed.

Lemma run_eq {S E A} (m : M S E A) s r : fst (m s) = r -> m s = (r, snd (m s)).
Proof. intros <-. by destruct (m s). Qed.

(** One step of symbolic execution. *)
Ltac wp_step :=
  cbn beta iota;
  lazymatch goal with
  | |- wp (mbind _ _) _ _ => apply wp_bind
  | |- wp (mret _) _ _ => apply wp_ret
  | |- wp (fail _) _ _ => apply wp_fail
  | |- wp (gets _) _ _ => apply wp_gets
  | |- wp (modify _) _ _ => apply wp_modify
  | |- wp get _ _ => apply wp_get
  | |- wp (put _) _ _ => apply wp_put
  end; cbn beta iota.

(** Close a decidable goal by evaluating it. *)
Ltac decide_now :=
  match goal with |- ?P => refine (bool_decide_unpack P _); vm_compute; exact I end.

(** Consecutive overwrites are one. *)
Lemma splice_splice_app {A} (m : list A) a l1 l2 :
  (a + length l1 + length l2 <= length m)%nat ->
  splice (splice m a l1) (a + length l1) l2 = splice m a (l1 ++ l2).
Proof.
  intros Hl. apply list_eq. intros i.
  assert (length (splice m a l1) = length m) by (apply length_splice; lia).
  rewrite !lookup_splice by (rewrite ?length_app; lia). rewrite length_app.
  repeat case_decide; try lia; try done.
  - rewrite lookup_app_r by lia. f_equal. lia.
  - by rewrite lookup_app_l by lia.
Qed.

Lemma take_splice_0 {A} (m l : list A) n : n = length l -> take n (splice m 0 l) = l.
Proof. intros ->. unfold splice. simpl. by rewrite take_app_length. Qed.

Lemma length_splice_0 {A} (m l : list A) : (length l <= length m)%nat -> length (splice m 0 l) = length m.
Proof. intros. by apply length_splice. Qed.

Lemma take_splice_grow {A} (m l : list A) a : (a + length l <= length m)%nat ->
  take (a + length l) (splice m a l) = take a m ++ l.
Proof.
  intros. unfold splice. rewrite app_assoc. apply take_app_length'.
  rewrite length_app, length_take. lia.
Qed.

Lemma splice_grow {A} (m l1 l2 : list A) b :
  b = length l1 -> (length l1 + length l2 <= length m)%nat ->
  splice (splice m 0 l1) b l2 = splice m 0 (l1 ++ l2).
Proof. intros -> Hl. by apply (splice_splice_app m 0). Qed.
