(* ===== verification/Checksum.v ===== *)
(** * Internet checksum arithmetic

    The checksum code of the two eBPF programs: [csum_folder_helper], which both
    files define, and the contract of the kernel's [bpf_csum_diff], which is not
    part of the repository.  Checksums are 16-bit one's complement sums, so the
    whole theory is arithmetic modulo 65535. *)
From Stdlib Require Import ZArith Lia.
From stdpp Require Import base list.
From S2P Require Import Prelude.

(** [csum_folder_helper] of Backend/ingress_xdp.c and Backend/egress_tc.c:
    both 32-bit intermediates wrap, and the result is truncated to [__u16]. *)
Definition csum_folder_helper (csum : Z) : Z :=
  let sum := u32 (Z.shiftr csum 16 + Z.land csum 0xffff) in
  let sum := u32 (sum + Z.shiftr sum 16) in
  u16 (u32 (Z.lnot sum)).

(** The sum of the 16-bit words of a buffer, in memory (little-endian) order;
    a last odd byte is padded with zero on its right. *)
Fixpoint sum16 (bs : list Z) : Z :=
  match bs with
  | [] => 0
  | [b] => b
  | b0 :: b1 :: t => b0 + 256 * b1 + sum16 t
  end.

(** The same sum in network order, the one RFC 793 speaks of. *)
Fixpoint sum16_be (bs : list Z) : Z :=
  match bs with
  | [] => 0
  | [b] => 256 * b
  | b0 :: b1 :: t => 256 * b0 + b1 + sum16_be t
  end.

(** Equality of one's complement sums. *)
Definition eq_csum (a b : Z) : Prop := a mod 65535 = b mod 65535.
Declare Scope csum_scope.
Infix "=c=" := eq_csum (at level 70) : csum_scope.
#[global] Open Scope csum_scope.

(** A buffer whose words, with the checksum field among them, sum to zero
    together with the pseudo-header sum [ph]. *)
Definition csum_valid (ph : Z) (bs : list Z) : Prop := ph + sum16 bs =c= 0.

(** [bpf_csum_diff(from, 4, to, 4, seed)]: a kernel helper.  Its documentation
    says it returns the checksum difference of the two buffers added to the
    seed; as a checksum that is a 32-bit value determined modulo 65535. *)
Class CsumDiff := bpf_csum_diff : list Z -> list Z -> Z -> Z.

Class CsumDiffLaws (CD : CsumDiff) : Prop := {
  csum_diff_range from to seed :
    length from = 4%nat -> length to = 4%nat -> bytes_ok from -> bytes_ok to -> in_u32 seed ->
    in_u32 (bpf_csum_diff from to seed);
  csum_diff_eq from to seed :
    length from = 4%nat -> length to = 4%nat -> bytes_ok from -> bytes_ok to -> in_u32 seed ->
    bpf_csum_diff from to seed =c= seed - sum16 from + sum16 to
}.

(** An implementation of the helper, as the kernel's portable [csum_partial]
    computes it: 32-bit one's complement additions with end-around carry. *)
Definition csum_add (a b : Z) : Z :=
  let s := a + b in if 2 ^ 32 <=? s then s - 2 ^ 32 + 1 else s.

Definition csum_diff_portable : CsumDiff := fun from to seed =>
  csum_add (csum_add seed (u32 (Z.lnot (le_val from)))) (le_val to).

(** ** Properties *)

#[export] Instance eq_csum_equiv : Equivalence eq_csum.
Proof. unfold eq_csum. split; red; intros; congruence. Qed.

#[export] Instance add_eq_csum : Proper (eq_csum ==> eq_csum ==> eq_csum) Z.add.
Proof. intros a a' Ha b b' Hb. unfold eq_csum in *. by rewrite Zplus_mod, Ha, Hb, <- Zplus_mod. Qed.

#[export] Instance sub_eq_csum : Proper (eq_csum ==> eq_csum ==> eq_csum) Z.sub.
Proof. intros a a' Ha b b' Hb. unfold eq_csum in *. by rewrite Zminus_mod, Ha, Hb, <- Zminus_mod. Qed.

#[export] Instance mul_eq_csum : Proper (eq_csum ==> eq_csum ==> eq_csum) Z.mul.
Proof. intros a a' Ha b b' Hb. unfold eq_csum in *. by rewrite Zmult_mod, Ha, Hb, <- Zmult_mod. Qed.

Lemma eq_csum_intro a b k : a = b + 65535 * k -> a =c= b.
Proof. intros ->. unfold eq_csum. by rewrite Z.mul_comm, Z.mod_add. Qed.

#[export] Instance opp_eq_csum : Proper (eq_csum ==> eq_csum) Z.opp.
Proof. intros a a' Ha. rewrite <- !Z.sub_0_l. by rewrite Ha. Qed.

(** Congruences that are linear up to a known multiple of 65535. *)
Ltac csum_by k := apply (eq_csum_intro _ _ k); lia.

Lemma eq_csum_elim a b : a =c= b -> exists k, a = b + 65535 * k.
Proof.
  unfold eq_csum. intros H. exists ((a / 65535) - (b / 65535)).
  pose proof (Z.div_mod a 65535). pose proof (Z.div_mod b 65535). lia.
Qed.

Lemma sum16_app bs cs : Nat.Even (length bs) -> sum16 (bs ++ cs) = sum16 bs + sum16 cs.
Proof.
  revert bs. fix IH 1. intros [|b0 [|b1 t]] He; simpl.
  - done.
  - simpl in He. destruct He; lia.
  - rewrite IH; [lia|]. destruct He as [k Hk]. exists (k - 1)%nat. simpl in Hk. lia.
Qed.

(** Each byte in front multiplies what follows by 256, which is its own inverse. *)
Lemma sum16_cons b l : sum16 (b :: l) =c= b + 256 * sum16 l.
Proof.
  revert b. induction l as [|c l IH]; intros b; [cbn; csum_by 0|].
  change (sum16 (b :: c :: l)) with (b + 256 * c + sum16 l). rewrite (IH c). apply (eq_csum_intro _ _ (- sum16 l)). lia.
Qed.

Lemma sum16_weight t l : sum16 (t ++ l) =c= sum16 t + 256 ^ Z.of_nat (length t) * sum16 l.
Proof.
  induction t as [|b t IH]; cbn [app length]; [cbn [sum16]; csum_by 0|].
  rewrite !sum16_cons, IH, Nat2Z.inj_succ, Z.pow_succ_r by lia. csum_by 0.
Qed.

Lemma pow256_even n : Nat.Even n -> 256 ^ Z.of_nat n =c= 1.
Proof.
  intros [i ->]. rewrite Nat2Z.inj_mul, Z.pow_mul_r by lia. change (256 ^ Z.of_nat 2) with 65536.
  induction i as [|i IH]; [done|]. rewrite Nat2Z.inj_succ, Z.pow_succ_r, IH by lia. csum_by 1.
Qed.

Lemma pow256_odd n : Nat.Odd n -> 256 ^ Z.of_nat n =c= 256.
Proof.
  intros [i ->]. rewrite Nat2Z.inj_add, Z.pow_add_r by lia. rewrite pow256_even by (by exists i). reflexivity.
Qed.

(** Four bytes as a number in network order. *)
Lemma sum16_be_val bs : length bs = 4%nat -> sum16 bs =c= 256 * be_val bs.
Proof.
  destruct bs as [|a [|b [|c [|d [|? ?]]]]]; try discriminate. intros _. cbn.
  apply (eq_csum_intro _ _ (- (c + 256 * b + 65537 * a))). lia.
Qed.

(** Byte order does not matter to the test: the two sums differ by the factor
    256, which is invertible modulo 65535. *)
Lemma sum16_be_le bs : sum16_be bs =c= 256 * sum16 bs.
Proof.
  revert bs. fix IH 1. intros [|b0 [|b1 t]]; cbn [sum16 sum16_be].
  - reflexivity.
  - reflexivity.
  - rewrite (IH t). apply (eq_csum_intro _ _ (- b1)). lia.
Qed.

Lemma sum16_be_zero bs : sum16_be bs =c= 0 <-> sum16 bs =c= 0.
Proof.
  split; intros H.
  - assert (256 * sum16_be bs =c= 0) as H' by (rewrite H; reflexivity).
    rewrite sum16_be_le in H'. rewrite <- H'. apply (eq_csum_intro _ _ (- sum16 bs)). lia.
  - rewrite sum16_be_le, H. reflexivity.
Qed.

Lemma sum16_bound bs : bytes_ok bs -> 0 <= sum16 bs.
Proof.
  revert bs. fix IH 1. intros [|b0 [|b1 t]] H; cbn [sum16]; [done| |].
  - inversion_clear H. unfold is_byte in *; lia.
  - inversion_clear H as [|? ? Hb H']. inversion_clear H' as [|? ? Hb' Ht].
    specialize (IH t Ht). unfold is_byte in *; lia.
Qed.

Lemma sum16_4 bs : length bs = 4%nat -> sum16 bs =c= le_val bs.
Proof.
  destruct bs as [|a [|b [|c [|d [|? ?]]]]]; try discriminate. intros _. simpl.
  apply (eq_csum_intro _ _ (- (c + 256 * d))). lia.
Qed.

Lemma sum16_2 bs : length bs = 2%nat -> sum16 bs = le_val bs.
Proof. destruct bs as [|a [|b [|? ?]]]; try discriminate. intros _. simpl. lia. Qed.

(** The folded value is the one's complement of the residue, in the
    representation where a nonzero sum folds into [1, 65535]. *)
Lemma csum_folder_exact csum : in_u32 csum ->
  csum_folder_helper csum = 65535 - (if csum =? 0 then 0 else 1 + (csum - 1) mod 65535).
Proof.
  intros H. unfold csum_folder_helper, Z.lnot.
  change (Z.land csum 0xffff) with (Z.land csum (Z.ones 16)). rewrite Z.land_ones, !Z.shiftr_div_pow2 by lia.
  destruct (Z.eqb_spec csum 0) as [->|]; [done|].
  assert (exists h l, csum = 65536 * h + l /\ 0 <= h < 65536 /\ 0 <= l < 65536) as (h & l & -> & Hh & Hl).
  { exists (csum / 65536), (csum mod 65536). modlia. }
  change (2 ^ 16) with 65536.
  replace ((65536 * h + l) / 65536) with h by modlia.
  replace ((65536 * h + l) mod 65536) with l by modlia.
  rewrite (u32_id (h + l)) by modlia.
  replace ((65536 * h + l - 1) mod 65535) with ((h + l - 1) mod 65535)
    by (apply (eq_csum_intro _ _ (- h)); lia).
  destruct (Z_lt_le_dec (h + l) 65536).
  - rewrite (Z.div_small (h + l)), (Z.mod_small (h + l - 1)) by lia. modlia.
  - replace ((h + l) / 65536) with 1 by modlia.
    replace ((h + l - 1) mod 65535) with (h + l - 65536) by modlia. modlia.
Qed.

Lemma csum_folder_range csum : in_u16 (csum_folder_helper csum).
Proof. apply u16_range. Qed.

Lemma csum_folder_eq csum : in_u32 csum -> csum_folder_helper csum =c= - csum.
Proof.
  intros H. rewrite csum_folder_exact by done. destruct (Z.eqb_spec csum 0) as [->|].
  - reflexivity.
  - unfold eq_csum. replace (65535 - (1 + (csum - 1) mod 65535)) with (65534 - (csum - 1) mod 65535) by lia.
    rewrite Zminus_mod_idemp_r. replace (65534 - (csum - 1)) with (- csum + 1 * 65535) by lia.
    by rewrite Z.mod_add.
Qed.

(** The seed both programs start from, the complement of the stored checksum. *)
Definition csum_seed (check : Z) : Z := u32 (Z.lnot (u32 check)).

Lemma csum_seed_eq check : in_u16 check -> csum_seed check =c= - check.
Proof.
  intros H. unfold csum_seed, Z.lnot. apply (eq_csum_intro _ _ 65537). modlia.
Qed.

Lemma csum_seed_range check : in_u32 (csum_seed check).
Proof. apply u32_range. Qed.

(** Nothing to add: folding the seed gives back the checksum, except that the
    two representations of zero are merged into 0. *)
Lemma csum_seed_fold check : in_u16 check ->
  csum_folder_helper (csum_seed check) = if check =? 65535 then 0 else check.
Proof.
  intros H. rewrite csum_folder_exact by apply csum_seed_range.
  unfold csum_seed, Z.lnot.
  replace (u32 (Z.pred (- u32 check))) with (4294967295 - check) by modlia.
  destruct (Z.eqb_spec check 65535); destruct (Z.eqb_spec (4294967295 - check) 0); modlia.
Qed.

Lemma csum_add_eq a b : csum_add a b =c= a + b.
Proof.
  unfold csum_add. destruct (_ <=? _); [|reflexivity].
  apply (eq_csum_intro _ _ (-65537)). lia.
Qed.

Lemma csum_add_range a b : in_u32 a -> in_u32 b -> in_u32 (csum_add a b).
Proof. intros. unfold csum_add. destruct (Z.leb_spec (2 ^ 32) (a + b)); modlia. Qed.

Lemma le_val_4_range bs : length bs = 4%nat -> bytes_ok bs -> in_u32 (le_val bs).
Proof. intros Hl Hb. pose proof (le_val_bound bs Hb) as H. by rewrite Hl in H. Qed.

#[export] Hint Resolve csum_add_range csum_seed_range csum_folder_range le_val_4_range : words.

#[export] Instance csum_diff_portable_laws : CsumDiffLaws csum_diff_portable.
Proof.
  split; intros from to seed Hf Ht Bf Bt Hs; unfold bpf_csum_diff, csum_diff_portable.
  - auto 6 with words.
  - rewrite !csum_add_eq, (sum16_4 from), (sum16_4 to) by done.
    assert (u32 (Z.lnot (le_val from)) =c= - le_val from) as ->; [|csum_by 0].
    pose proof (le_val_4_range from Hf Bf). unfold Z.lnot.
    apply (eq_csum_intro _ _ 65537). modlia.
Qed.
