(* ===== verification/Bpf.v ===== *)
(** * The eBPF execution environment of the back-end agent

    What Backend/ingress_xdp.c and Backend/egress_tc.c share: the [key_t] of
    their maps, the packet they read and write through [data]/[data_end], the
    header field offsets, and the contract of the kernel's hash maps. *)
From Stdlib Require Import ZArith Lia.
From stdpp Require Import base list gmap.
From S2P Require Import Prelude Checksum.

(** [struct key_t]: address and port in network order, as loaded. *)
Record key_t := Key { key_ip : Z; key_port : Z; key_padding : Z }.

(** [BPF_MAP_TYPE_HASH] maps are kernel objects.  The helpers' documentation:
    lookup returns the stored value or NULL; update with [BPF_ANY] creates or
    overwrites the element, and fails, changing nothing, when it would have to
    create one in a map that has no room left; delete removes the element. *)
Class BpfHash (Mp : Type) := {
  bpf_map_lookup_elem : Mp -> key_t -> option Z;
  bpf_map_update_elem : Mp -> key_t -> Z -> Mp;
  bpf_map_delete_elem : Mp -> key_t -> Mp;
  bpf_room : Mp -> key_t -> bool
}.

Class BpfHashLaws (Mp : Type) `{BpfHash Mp} : Prop := {
  bpf_lookup_update_eq m k v : bpf_room m k = true ->
    bpf_map_lookup_elem (bpf_map_update_elem m k v) k = Some v;
  bpf_lookup_update_full m k v k' : bpf_room m k = false ->
    bpf_map_lookup_elem (bpf_map_update_elem m k v) k' = bpf_map_lookup_elem m k';
  bpf_lookup_update_ne m k v k' : k <> k' ->
    bpf_map_lookup_elem (bpf_map_update_elem m k v) k' = bpf_map_lookup_elem m k';
  bpf_lookup_delete_eq m k : bpf_map_lookup_elem (bpf_map_delete_elem m k) k = None;
  bpf_lookup_delete_ne m k k' : k <> k' ->
    bpf_map_lookup_elem (bpf_map_delete_elem m k) k' = bpf_map_lookup_elem m k'
}.

#[export] Instance key_t_eq_dec : EqDecision key_t.
Proof. solve_decision. Defined.

#[export] Instance key_t_countable : Countable key_t.
Proof.
  refine (inj_countable' (fun k => (key_ip k, key_port k, key_padding k))
            (fun '(a, b, c) => Key a b c) _).
  by intros [].
Defined.

(** [max_entries] of both maps. *)
Definition max_entries : Z := 102400.

(** A finite map with that bound meets the contract. *)
#[export] Instance gmap_bpf_hash : BpfHash (gmap key_t Z) := {
  bpf_map_lookup_elem m k := m !! k;
  bpf_room m k := bool_decide (is_Some (m !! k)) || (Z.of_nat (size m) <? max_entries);
  bpf_map_update_elem m k v :=
    if bool_decide (is_Some (m !! k)) || (Z.of_nat (size m) <? max_entries)
    then <[k := v]> m else m;
  bpf_map_delete_elem m k := delete k m
}.

(** The program state: the packet bytes from [data] to [data_end] and the two
    maps the loader shares between the programs. *)
Record bpf_st {Mp : Type} := BpfSt { pkt : list Z; flow_map : Mp; seq_map : Mp }.
Arguments bpf_st : clear implicits.

(** A load or store outside [data, data_end). *)
Inductive fault : Type := OutOfBounds (a : nat).

(** Header field offsets: [struct ethhdr] (14 bytes), [struct iphdr] (20),
    [struct tcphdr] (20). *)
Definition off_h_proto : nat := 12.
Definition off_ip : nat := 14.
Definition off_protocol : nat := 23.
Definition off_saddr : nat := 26.
Definition off_daddr : nat := 30.
Definition off_tcp : nat := 34.
Definition off_source : nat := 34.
Definition off_dest : nat := 36.
Definition off_seq : nat := 38.
Definition off_ack_seq : nat := 42.
Definition off_doff : nat := 46.
Definition off_flags : nat := 47.
Definition off_check : nat := 50.
Definition off_options : nat := 54.

Definition ETH_P_IP : Z := 0x0800.
Definition IPPROTO_TCP : Z := 6.

(** The bit-fields of [struct tcphdr] in their byte. *)
Definition tcp_doff (b : Z) : Z := Z.shiftr b 4.
Definition tcp_syn (b : Z) : bool := Z.testbit b 1.
Definition tcp_rst (b : Z) : bool := Z.testbit b 2.
Definition tcp_ack (b : Z) : bool := Z.testbit b 4.

(** ** Pure views of a packet *)

Definition le_at (n : nat) (p : list Z) (a : nat) : Z := le_val (slice p a n).
Definition be_at (n : nat) (p : list Z) (a : nat) : Z := be_val (slice p a n).

(** Overwrite the 32-bit network-order word at [a]. *)
Definition set_be32 (p : list Z) (a : nat) (v : Z) : list Z := splice p a (rev (le_bytes 4 v)).

(** Apply [f] modulo 2^32 to [n] consecutive words from [a] on. *)
Fixpoint map_words (f : Z -> Z) (p : list Z) (a n : nat) : list Z :=
  match n with
  | O => p
  | S n => map_words f (set_be32 p a (u32 (f (be_at 4 p a)))) (a + 4) n
  end.

(** The TCP segment of a packet, as the programs locate it. *)
Definition tcp_segment (p : list Z) : list Z := drop off_tcp p.

(** An Ethernet/IPv4/TCP packet with its fixed headers in place. *)
Definition is_tcp4 (p : list Z) : Prop :=
  bytes_ok p /\ (off_options <= length p)%nat /\
  be_at 2 p off_h_proto = ETH_P_IP /\ le_at 1 p off_protocol = IPPROTO_TCP.

(** A packet that ends inside the headers the programs look at. *)
Definition truncated (p : list Z) : Prop :=
  (length p < off_ip)%nat \/
  (be_at 2 p off_h_proto = ETH_P_IP /\
   ((length p < off_tcp)%nat \/
    (le_at 1 p off_protocol = IPPROTO_TCP /\ (length p < off_options)%nat))).

(** A packet from its addresses, ports, numbers, option words and flag byte;
    the other header fields are those of a usual segment. *)
Definition sample_packet (saddr daddr source dest seq ack : list Z) (doff flags : Z)
    (check options : list Z) : list Z :=
  replicate 12 0 ++ [8; 0] ++
  [0x45; 0; 0; 40 + Z.of_nat (length options); 0; 0; 64; 0; 64; 6; 0; 0] ++ saddr ++ daddr ++
  source ++ dest ++ seq ++ ack ++ [16 * doff; flags; 255; 255] ++ check ++ [0; 0] ++ options.

Section memory.
Context {Mp : Type}.
Abbreviation B := (M (bpf_st Mp) fault).

Definition ld (n a : nat) : B Z := fun s =>
  if decide (a + n <= length (pkt s))%nat
  then (Ret (le_at n (pkt s) a), s) else (Err (OutOfBounds a), s).

Definition st (n a : nat) (z : Z) : B unit := fun s =>
  if decide (a + n <= length (pkt s))%nat
  then (Ret tt, BpfSt Mp (splice (pkt s) a (le_bytes n z)) (flow_map s) (seq_map s))
  else (Err (OutOfBounds a), s).

(** [(void* )(...) > data_end] for a pointer at offset [a]. *)
Definition past_end (a : nat) : B bool := gets (fun s => bool_decide (length (pkt s) < a)%nat).

Definition set_flow_map (m : Mp) : B unit := modify (fun s => BpfSt Mp (pkt s) m (seq_map s)).
Definition set_seq_map (m : Mp) : B unit := modify (fun s => BpfSt Mp (pkt s) (flow_map s) m).

Context `{CsumDiff}.

(** Rewrite the word at [a]: convert to host order, apply [f], convert back,
    fold the change into [csum] and store. *)
Definition rewrite_word (f : Z -> Z) (a : nat) (csum : Z) : B Z :=
  w ← ld 4 a;
  let new_w := bswap32 (u32 (f (bswap32 w))) in
  let csum := u32 (bpf_csum_diff (le_bytes 4 w) (le_bytes 4 new_w) csum) in
  _ ← st 4 a new_w;
  mret csum.
End memory.

(** ** The finite-map instance *)

#[export] Instance gmap_bpf_hash_laws : BpfHashLaws (gmap key_t Z).
Proof.
  split; intros; simpl in *; unfold bpf_map_lookup_elem, bpf_map_update_elem; simpl.
  - case_match; [by rewrite lookup_insert_eq | congruence].
  - by case_match.
  - case_match; [by rewrite lookup_insert_ne | done].
  - by rewrite lookup_delete_eq.
  - by rewrite lookup_delete_ne.
Qed.

(** ** Packet lemmas *)

Lemma length_set_be32 p a v : (a + 4 <= length p)%nat -> length (set_be32 p a v) = length p.
Proof. intros. apply length_splice. rewrite length_rev, length_le_bytes. lia. Qed.

Lemma set_be32_ok p a v : bytes_ok p -> bytes_ok (set_be32 p a v).
Proof. intros. apply splice_ok; auto with words. Qed.

Lemma be_at_set_be32_same p a v : (a + 4 <= length p)%nat -> in_u32 v -> be_at 4 (set_be32 p a v) a = v.
Proof.
  intros Hl Hv. unfold be_at, set_be32.
  assert (length (rev (le_bytes 4 v)) = 4%nat) as Hr by by rewrite length_rev, length_le_bytes.
  rewrite <- Hr at 2. rewrite slice_splice_same by (rewrite Hr; lia).
  unfold be_val. rewrite rev_involutive, le_val_bytes. by apply Z.mod_small.
Qed.

Lemma slice_set_be32_other p a v b n : (a + 4 <= length p)%nat -> (b + n <= a \/ a + 4 <= b)%nat ->
  slice (set_be32 p a v) b n = slice p b n.
Proof. intros. unfold set_be32. apply slice_splice_other; rewrite length_rev, length_le_bytes; lia. Qed.

Lemma le_at_range n p a : bytes_ok p -> (a + n <= length p)%nat -> 0 <= le_at n p a < 256 ^ Z.of_nat n.
Proof.
  intros Hb Hl. unfold le_at. pose proof (le_val_bound _ (slice_ok p a n Hb)) as H.
  by rewrite length_slice in H.
Qed.

Lemma be_at_range n p a : bytes_ok p -> (a + n <= length p)%nat -> 0 <= be_at n p a < 256 ^ Z.of_nat n.
Proof.
  intros Hb Hl. unfold be_at. pose proof (be_val_bound _ (slice_ok p a n Hb)) as H.
  by rewrite length_slice in H.
Qed.

Lemma bswap32_le_at p a : bytes_ok p -> (a + 4 <= length p)%nat -> bswap32 (le_at 4 p a) = be_at 4 p a.
Proof. intros. apply bswap32_le_val; [by apply length_slice | by apply slice_ok]. Qed.

Lemma bswap16_le_at p a : bytes_ok p -> (a + 2 <= length p)%nat -> bswap16 (le_at 2 p a) = be_at 2 p a.
Proof. intros. apply bswap16_le_val; [by apply length_slice | by apply slice_ok]. Qed.

Lemma le_at_1 p a b : p !! a = Some b -> le_at 1 p a = b.
Proof.
  intros H. unfold le_at, slice. rewrite (drop_S _ _ _ H). simpl. lia.
Qed.

(** The byte length and contents of [map_words]. *)
Lemma length_map_words f p a n : (a + 4 * n <= length p)%nat -> length (map_words f p a n) = length p.
Proof.
  revert p a; induction n as [|n IH]; intros p a Hl; simpl; [done|].
  rewrite IH; rewrite length_set_be32; lia.
Qed.

Lemma map_words_ok f p a n : bytes_ok p -> bytes_ok (map_words f p a n).
Proof. revert p a; induction n; intros; simpl; auto using set_be32_ok. Qed.

Lemma slice_map_words_other f p a n b m : (a + 4 * n <= length p)%nat ->
  (b + m <= a \/ a + 4 * n <= b)%nat -> slice (map_words f p a n) b m = slice p b m.
Proof.
  revert p a; induction n as [|n IH]; intros p a Hl Hd; simpl; [done|].
  rewrite IH; rewrite ?length_set_be32; try lia. apply slice_set_be32_other; lia.
Qed.

Lemma be_at_map_words f p a n i : (a + 4 * n <= length p)%nat -> (i < n)%nat ->
  be_at 4 (map_words f p a n) (a + 4 * i) = u32 (f (be_at 4 p (a + 4 * i))).
Proof.
  revert p a i; induction n as [|n IH]; intros p a i Hl Hi; [lia|]. simpl map_words.
  destruct i as [|i].
  - rewrite Nat.mul_0_r, Nat.add_0_r. unfold be_at at 1.
    rewrite slice_map_words_other; rewrite ?length_set_be32; try lia.
    apply be_at_set_be32_same; [lia | apply u32_range].
  - replace (a + 4 * S i)%nat with (a + 4 + 4 * i)%nat by lia.
    rewrite IH; rewrite ?length_set_be32; try lia. do 2 f_equal.
    unfold be_at. rewrite slice_set_be32_other by lia. done.
Qed.

Lemma map_words_app f p a n m :
  map_words f p a (n + m) = map_words f (map_words f p a n) (a + 4 * n) m.
Proof.
  revert p a; induction n as [|n IH]; intros p a; simpl.
  - by rewrite Nat.add_0_r.
  - rewrite IH. f_equal. lia.
Qed.

(** How the words' values change altogether. *)
Fixpoint moved (f : Z -> Z) (p : list Z) (a n : nat) : Z :=
  match n with
  | O => 0
  | S n => u32 (f (be_at 4 p a)) - be_at 4 p a + moved f p (a + 4) n
  end.

Lemma moved_ext f p q a n : (forall i, (i < n)%nat -> be_at 4 p (a + 4 * i) = be_at 4 q (a + 4 * i)) ->
  moved f p a n = moved f q a n.
Proof.
  revert a. induction n as [|n IH]; intros a E; cbn [moved]; [done|].
  rewrite (IH (a + 4)%nat) by (intros i Hi; replace (a + 4 + 4 * i)%nat with (a + 4 * S i)%nat by lia; apply E; lia).
  specialize (E 0%nat ltac:(lia)). rewrite Nat.mul_0_r, Nat.add_0_r in E. by rewrite E.
Qed.

Lemma moved_split f p a n m : moved f p a (n + m) = moved f p a n + moved f p (a + 4 * n) m.
Proof.
  revert a. induction n as [|n IH]; intros a; cbn [Nat.add moved].
  - by rewrite Nat.mul_0_r, Nat.add_0_r.
  - rewrite IH. replace (a + 4 + 4 * n)%nat with (a + 4 * S n)%nat by lia. lia.
Qed.

(** Overwriting bytes of the segment changes its sum by the difference of the two
    runs, with a weight that depends on where they are. *)
Lemma sum16_segment_splice p a bs : (off_tcp <= a)%nat -> (a + length bs <= length p)%nat ->
  sum16 (tcp_segment (splice p a bs)) =c=
  sum16 (tcp_segment p) + 256 ^ Z.of_nat (a - off_tcp) * (sum16 bs - sum16 (slice p a (length bs))).
Proof.
  intros Ha Hl. set (t := slice p off_tcp (a - off_tcp)).
  assert (length t = (a - off_tcp)%nat) as Ht by (apply length_slice; lia).
  assert (tcp_segment p = t ++ slice p a (length bs) ++ drop (a + length bs) p) as ->.
  { unfold tcp_segment, t, slice. rewrite <- (take_drop (a - off_tcp) (drop off_tcp p)) at 1.
    f_equal. rewrite drop_drop. replace (off_tcp + (a - off_tcp))%nat with a by lia.
    rewrite <- (take_drop (length bs) (drop a p)) at 1. by rewrite drop_drop. }
  assert (tcp_segment (splice p a bs) = t ++ bs ++ drop (a + length bs) p) as ->.
  { unfold tcp_segment, splice, t, slice. rewrite drop_app_le by (rewrite length_take; lia).
    by rewrite skipn_firstn_comm. }
  rewrite !sum16_weight, Ht, length_slice by lia. csum_by 0.
Qed.

(** ** Execution rules *)

Section memory_rules.
Context {Mp : Type}.
Implicit Types s : bpf_st Mp.

Lemma wp_ld n a (Q : outcome fault Z -> bpf_st Mp -> Prop) s :
  (a + n <= length (pkt s))%nat -> Q (Ret (le_at n (pkt s) a)) s -> wp (ld n a) Q s.
Proof. intros Hl HQ. unfold wp, ld. by rewrite decide_True. Qed.

Lemma wp_st n a z (Q : outcome fault unit -> bpf_st Mp -> Prop) s :
  (a + n <= length (pkt s))%nat ->
  Q (Ret tt) (BpfSt Mp (splice (pkt s) a (le_bytes n z)) (flow_map s) (seq_map s)) ->
  wp (st n a z) Q s.
Proof. intros Hl HQ. unfold wp, st. by rewrite decide_True. Qed.

Lemma wp_past_end a (Q : outcome fault bool -> bpf_st Mp -> Prop) s :
  ((length (pkt s) < a)%nat -> Q (Ret true) s) ->
  ((a <= length (pkt s))%nat -> Q (Ret false) s) ->
  wp (past_end a) Q s.
Proof. intros H1 H2. apply wp_gets. case_bool_decide; [auto | apply H2; lia]. Qed.

Context `{CD : CsumDiff}.

(** The rewrite never faults inside the packet and is [set_be32] on it. *)
Lemma wp_rewrite_word f a csum (Q : outcome fault Z -> bpf_st Mp -> Prop) s :
  bytes_ok (pkt s) -> (a + 4 <= length (pkt s))%nat ->
  (let p' := set_be32 (pkt s) a (u32 (f (be_at 4 (pkt s) a))) in
   Q (Ret (u32 (bpf_csum_diff (slice (pkt s) a 4) (slice p' a 4) csum)))
     (BpfSt Mp p' (flow_map s) (seq_map s))) ->
  wp (rewrite_word f a csum) Q s.
Proof.
  intros Hb Hl HQ. unfold rewrite_word. apply wp_bind, wp_ld; [done|].
  apply wp_bind, wp_st; [done|]. apply wp_ret.
  rewrite bswap32_le_at by done. rewrite le_bytes_bswap32 by apply u32_range.
  simpl in HQ. revert HQ. unfold set_be32. set (bs := rev _).
  assert (length bs = 4%nat) as Hbs by by unfold bs; rewrite length_rev, length_le_bytes.
  replace (slice (splice (pkt s) a bs) a 4) with bs.
  - unfold le_at. replace (le_bytes 4 (le_val (slice (pkt s) a 4))) with (slice (pkt s) a 4); [done|].
    symmetry. rewrite <- (length_slice (pkt s) a 4) at 1 by done. by apply le_bytes_val, slice_ok.
  - symmetry. pose proof (slice_splice_same (pkt s) a bs) as E. rewrite Hbs in E. by apply E.
Qed.

(** The running checksum [csum] is off by [e] from the segment. *)
Definition csum_tracks (e : Z) (p0 p : list Z) (csum : Z) : Prop :=
  in_u32 csum /\ bytes_ok p /\ length p = length p0 /\ slice p off_check 2 = slice p0 off_check 2 /\
  csum =c= sum16 (tcp_segment p) - sum16 (tcp_segment p0) - le_at 2 p0 off_check + e.
End memory_rules.

(** [bpf_csum_diff] takes a word for aligned.  For a word at [a] whose value changes
    by [m] it is off by this much: by nothing at an even place of the segment. *)
Definition drift (a : nat) (m : Z) : Z := 256 * (1 - 256 ^ Z.of_nat (a - off_tcp)) * m.

Lemma drift_even a m : Nat.Even (a - off_tcp) -> drift a m =c= 0.
Proof. intros He. unfold drift. rewrite pow256_even by done. csum_by 0. Qed.

Lemma drift_odd a m : Nat.Odd (a - off_tcp) -> drift a m =c= 255 * m.
Proof. intros He. unfold drift. rewrite pow256_odd by done. csum_by (- m). Qed.

Lemma drift_add a m1 m2 : drift a (m1 + m2) = drift a m1 + drift a m2.
Proof. unfold drift. lia. Qed.

Lemma drift_next a m : (off_tcp <= a)%nat -> drift (a + 4) m =c= drift a m.
Proof.
  intros Ha. unfold drift. replace (a + 4 - off_tcp)%nat with (a - off_tcp + 4)%nat by lia.
  rewrite Nat2Z.inj_add, Z.pow_add_r by lia. change (256 ^ Z.of_nat 4) with (65536 * 65536).
  apply (eq_csum_intro _ _ (- 256 * 65537 * 256 ^ Z.of_nat (a - off_tcp) * m)). lia.
Qed.

Section csum_rules.
Context {Mp : Type} `{CD : CsumDiff} `{!CsumDiffLaws CD}.
Implicit Types s : bpf_st Mp.

Lemma csum_tracks_eq e e' p0 p csum : e =c= e' -> csum_tracks e p0 p csum -> csum_tracks e' p0 p csum.
Proof. intros E (Hc & Hb & Hlen & Hchk & Heq). split_and!; try done. by rewrite <- E. Qed.

Lemma csum_tracks_still e p0 p csum a : csum_tracks e p0 p csum -> csum_tracks (e + drift a 0) p0 p csum.
Proof. apply csum_tracks_eq. unfold drift. csum_by 0. Qed.

Lemma csum_tracks_init p : bytes_ok p -> (off_options <= length p)%nat ->
  csum_tracks 0 p p (csum_seed (le_at 2 p off_check)).
Proof.
  intros Hb Hl. split_and!; auto with words.
  rewrite csum_seed_eq; [csum_by 0|]. apply (le_at_range 2); [done|].
  unfold off_check, off_options in *; lia.
Qed.

Lemma csum_tracks_move e p0 p csum a v : csum_tracks e p0 p csum ->
  (off_tcp <= a)%nat -> (a + 4 <= length p)%nat ->
  (a + 4 <= off_check \/ off_check + 2 <= a)%nat -> in_u32 v ->
  let p' := set_be32 p a v in
  csum_tracks (e + drift a (v - be_at 4 p a)) p0 p' (u32 (bpf_csum_diff (slice p a 4) (slice p' a 4) csum)).
Proof.
  intros (Hc & Hb & Hlen & Hchk & Heq) Ha Hl Hd Hv p'.
  assert (bytes_ok p') as Hb' by by apply set_be32_ok.
  assert (length p' = length p) as Hl' by by apply length_set_be32.
  assert (slice p' a 4 = rev (le_bytes 4 v)) as Hs.
  { pose proof (slice_splice_same p a (rev (le_bytes 4 v))) as E.
    rewrite length_rev, length_le_bytes in E. by apply E. }
  assert (length (slice p a 4) = 4%nat /\ length (slice p' a 4) = 4%nat) as [L1 L2]
    by (split; apply length_slice; lia).
  rewrite u32_id by (apply csum_diff_range; auto using slice_ok).
  split_and!; [apply csum_diff_range; auto using slice_ok | done | lia | |].
  - rewrite <- Hchk. apply slice_set_be32_other; lia.
  - assert (sum16 (tcp_segment p') =c= sum16 (tcp_segment p) +
        256 ^ Z.of_nat (a - off_tcp) * (sum16 (slice p' a 4) - sum16 (slice p a 4))) as ->.
    { unfold p' at 1, set_be32. rewrite sum16_segment_splice by (rewrite ?length_rev, ?length_le_bytes; lia).
      by rewrite Hs, length_rev, length_le_bytes. }
    rewrite csum_diff_eq by auto using slice_ok. rewrite Heq.
    rewrite (sum16_be_val (slice p a 4) L1), (sum16_be_val (slice p' a 4) L2). fold (be_at 4 p a) (be_at 4 p' a).
    replace (be_at 4 p' a) with v by (symmetry; by apply be_at_set_be32_same). unfold drift. csum_by 0.
Qed.

Lemma csum_tracks_set p0 p csum a v : csum_tracks 0 p0 p csum ->
  (off_tcp <= a)%nat -> Nat.Even (a - off_tcp) -> (a + 4 <= length p)%nat ->
  (a + 4 <= off_check \/ off_check + 2 <= a)%nat -> in_u32 v ->
  let p' := set_be32 p a v in
  csum_tracks 0 p0 p' (u32 (bpf_csum_diff (slice p a 4) (slice p' a 4) csum)).
Proof.
  intros Ht Ha Hev Hl Hd Hv p'. eapply csum_tracks_eq; [|by apply csum_tracks_move]. by rewrite drift_even.
Qed.

(** Storing the folded checksum restores the segment's sum, but for what the
    running one was off. *)
Lemma csum_tracks_fold e p0 p csum : csum_tracks e p0 p csum -> (off_options <= length p)%nat ->
  sum16 (tcp_segment (splice p off_check (le_bytes 2 (csum_folder_helper csum))))
  =c= sum16 (tcp_segment p0) - e.
Proof.
  intros (Hc & Hb & Hlen & Hchk & Heq) Hl. unfold off_options in Hl.
  rewrite sum16_segment_splice by (rewrite ?length_le_bytes; unfold off_check, off_tcp in *; lia).
  rewrite (pow256_even (off_check - off_tcp)) by (unfold off_check, off_tcp; by exists 8%nat).
  rewrite length_le_bytes, (sum16_2 (slice _ _ _)) by (apply length_slice; unfold off_check in *; lia).
  rewrite (sum16_2 (le_bytes _ _)) by apply length_le_bytes.
  rewrite le_val_bytes, Hchk. change (256 ^ Z.of_nat 2) with (2 ^ 16).
  rewrite Z.mod_small by apply csum_folder_range.
  rewrite csum_folder_eq, Heq by done. unfold le_at. csum_by 0.
Qed.

Lemma csum_tracks_exact p0 p csum : csum_tracks 0 p0 p csum -> (off_options <= length p)%nat ->
  sum16 (tcp_segment (splice p off_check (le_bytes 2 (csum_folder_helper csum)))) =c= sum16 (tcp_segment p0).
Proof. intros Ht Hl. rewrite (csum_tracks_fold 0) by done. csum_by 0. Qed.
End csum_rules.

Lemma lookup_set_be32_other p a v i : (a + 4 <= length p)%nat -> (i < a \/ a + 4 <= i)%nat ->
  set_be32 p a v !! i = p !! i.
Proof.
  intros. unfold set_be32. rewrite lookup_splice, decide_False;
    rewrite ?length_rev, ?length_le_bytes; auto; lia.
Qed.

Lemma lookup_map_words_other f p a n i : (a + 4 * n <= length p)%nat ->
  (i < a \/ a + 4 * n <= i)%nat -> map_words f p a n !! i = p !! i.
Proof.
  revert p a; induction n as [|n IH]; intros p a Hl Hd; simpl; [done|].
  rewrite IH; rewrite ?length_set_be32; try lia. apply lookup_set_be32_other; lia.
Qed.

#[export] Instance bytes_ok_dec p : Decision (bytes_ok p).
Proof. apply Forall_dec. intros x. unfold is_byte. apply _. Defined.

#[export] Instance is_tcp4_dec p : Decision (is_tcp4 p).
Proof. unfold is_tcp4. apply _. Defined.

(** Header offsets as numerals, for [lia]. *)
Ltac offs :=
  unfold off_h_proto, off_ip, off_protocol, off_saddr, off_daddr, off_tcp, off_source, off_dest,
    off_seq, off_ack_seq, off_doff, off_flags, off_check, off_options in *.
Ltac offlia := offs; lia.

Lemma proto_is_ip p : bytes_ok p -> (off_ip <= length p)%nat ->
  (le_at 2 p off_h_proto =? bswap16 ETH_P_IP) = (be_at 2 p off_h_proto =? ETH_P_IP).
Proof.
  intros Hb Hl. rewrite <- bswap16_le_at by (try done; offlia).
  pose proof (le_at_range 2 p off_h_proto Hb ltac:(offlia)) as Hr.
  change (256 ^ Z.of_nat 2) with 65536 in Hr. set (v := le_at 2 p off_h_proto) in *.
  replace (bswap16 ETH_P_IP) with 8 by reflexivity.
  replace (bswap16 v) with (v / 256 + 256 * (v mod 256)).
  - unfold ETH_P_IP. destruct (Z.eqb_spec v 8), (Z.eqb_spec (v / 256 + 256 * (v mod 256)) 2048); auto; modlia.
  - unfold bswap16, be_val. cbn [le_bytes rev app le_val]. modlia.
Qed.

(** Symbolic execution of the eBPF programs. *)
Ltac bpf_step :=
  cbn beta iota;
  lazymatch goal with
  | |- wp (past_end _) _ _ => apply wp_past_end; intros ?Hpe
  | |- wp (ld _ _) _ _ => apply wp_ld; [try (cbn [pkt]; offlia)|]
  | |- wp (st _ _ _) _ _ => apply wp_st; [try (cbn [pkt]; offlia)|]
  | |- wp (rewrite_word _ _ _) _ _ => apply wp_rewrite_word; [try done | try (cbn [pkt]; offlia) |]
  | |- wp (set_flow_map _) _ _ => apply wp_modify
  | |- wp (set_seq_map _) _ _ => apply wp_modify
  | _ => wp_step
  end; cbn beta iota.
