(* ===== verification/Ingress.v ===== *)
(** * The ingress XDP program (Backend/ingress_xdp.c)

    [ingress_xdp_prog] translates acknowledgement numbers of packets that
    arrive at the back end from the sequence space of the switch to that of the
    server, records the space of new flows, and keeps the TCP checksum. *)
From Stdlib Require Import ZArith Lia.
From stdpp Require Import base list gmap.
From S2P Require Import Prelude Checksum Bpf.

Inductive xdp_action : Type := XDP_DROP | XDP_PASS.

(** Where the option scan of lines 80-126 jumps; [FallThrough] is control
    reaching line 128, past the whole [if]/[else]. *)
Inductive opt_ctl : Type := GotoDrop | GotoOut | GotoSack (opt : nat) | FallThrough.

Section ingress.
Context {Mp : Type} `{BpfHash Mp} `{CsumDiff}.
Abbreviation B := (M (bpf_st Mp) fault).

(** The key of a packet that arrives: source address and port. *)
Definition ingress_key : B key_t :=
  saddr ← ld 4 off_saddr; source ← ld 2 off_source; mret (Key saddr source 0).

(** One of the first two option checks: skip a NOP (kind 1), leave on
    anything that is not SACK (kind 5). *)
Definition scan_option (opt : nat) (next : nat -> B opt_ctl) : B opt_ctl :=
  b ← past_end (opt + 1);
  if b : bool then mret GotoDrop else
  kind ← ld 1 opt;
  if kind =? 1 then next (opt + 1)%nat
  else if negb (kind =? 5) then mret GotoOut
  else mret (GotoSack opt).

(** The third check does not skip. *)
Definition scan_last (opt : nat) : B opt_ctl :=
  b ← past_end (opt + 1);
  if b : bool then mret GotoDrop else
  kind ← ld 1 opt;
  if negb (kind =? 5) then mret GotoOut else mret (GotoSack opt).

Definition ingress_options : B opt_ctl :=
  doff ← ld 1 off_doff;
  if 5 <? tcp_doff doff
  then scan_option off_options (fun opt => scan_option opt scan_last)
  else mret GotoOut.

(** One of the four [if(len >= 10)] blocks; [None] is [return XDP_DROP]. *)
Definition sack_block (diff : Z) (a : nat * Z * Z) : B (option (nat * Z * Z)) :=
  let '(sack, len, csum) := a in
  if 10 <=? len then
    b ← past_end (sack + 8);
    if b : bool then mret None else
    csum ← rewrite_word (fun x => x + diff) sack csum;
    csum ← rewrite_word (fun x => x + diff) (sack + 4) csum;
    mret (Some ((sack + 8)%nat, u8 (len - 8), csum))
  else mret (Some (sack, len, csum)).

Fixpoint sack_blocks (n : nat) (diff : Z) (a : nat * Z * Z) : B (option (nat * Z * Z)) :=
  match n with
  | O => mret (Some a)
  | S n => r ← sack_block diff a;
           match r with None => mret None | Some a => sack_blocks n diff a end
  end.

(** The label [sack_out]: four blocks, then the length must be used up. *)
Definition sack_out (diff : Z) (opt : nat) (csum : Z) : B (option Z) :=
  b ← past_end (opt + 2);
  if b : bool then mret None else
  len ← ld 1 (opt + 1);
  r ← sack_blocks 4 diff ((opt + 2)%nat, len, csum);
  match r with
  | None => mret None
  | Some (_, len, csum) => if negb (len =? 2) then mret None else mret (Some csum)
  end.

(** The label [out]. *)
Definition ingress_out (csum : Z) : B xdp_action :=
  _ ← st 2 off_check (csum_folder_helper csum);
  mret XDP_PASS.

(** Lines 128-133. *)
Definition ingress_rst (key : key_t) : B unit :=
  flags ← ld 1 off_flags;
  if tcp_rst flags then
    fm ← gets flow_map; _ ← set_flow_map (bpf_map_delete_elem fm key);
    sm ← gets seq_map; set_seq_map (bpf_map_delete_elem sm key)
  else mret tt.

(** The branch [if(diff)]. *)
Definition ingress_known (key : key_t) (diff csum : Z) : B xdp_action :=
  csum ← rewrite_word (fun x => x + diff) off_ack_seq csum;
  ctl ← ingress_options;
  match ctl with
  | GotoDrop => mret XDP_DROP
  | GotoOut => ingress_out csum
  | GotoSack opt =>
      r ← sack_out diff opt csum;
      match r with None => mret XDP_DROP | Some csum => ingress_out csum end
  | FallThrough => _ ← ingress_rst key; ingress_out csum
  end.

(** The branch [else]: a flow that has no difference yet. *)
Definition ingress_new (key : key_t) (csum : Z) : B xdp_action :=
  flags ← ld 1 off_flags;
  if negb (tcp_syn flags) then mret XDP_PASS else
  ack_seq ← ld 4 off_ack_seq;
  sm ← gets seq_map;
  _ ← set_seq_map (bpf_map_update_elem sm key ack_seq);
  let csum := u32 (bpf_csum_diff (le_bytes 4 ack_seq) (le_bytes 4 0) csum) in
  _ ← st 4 off_ack_seq 0;
  ingress_out csum.

Definition ingress_xdp_prog : B xdp_action :=
  b ← past_end off_ip;
  if b : bool then mret XDP_DROP else
  h_proto ← ld 2 off_h_proto;
  if negb (h_proto =? bswap16 ETH_P_IP) then mret XDP_PASS else
  b ← past_end off_tcp;
  if b : bool then mret XDP_DROP else
  protocol ← ld 1 off_protocol;
  if negb (protocol =? IPPROTO_TCP) then mret XDP_PASS else
  b ← past_end off_options;
  if b : bool then mret XDP_DROP else
  key ← ingress_key;
  fm ← gets flow_map;
  check ← ld 2 off_check;
  let csum := csum_seed check in
  match bpf_map_lookup_elem fm key with
  | Some diff => ingress_known key diff csum
  | None => ingress_new key csum
  end.
End ingress.

(** ** What the option area holds

    [sack_shape p (Some (opt, k))]: behind at most two NOPs, a SACK option at
    [opt] with [k] blocks, all inside the packet; [None]: no option that the
    program translates. *)
Definition nops (p : list Z) (j : nat) : Prop := forall i, (i < j)%nat -> p !! (off_options + i)%nat = Some 1.

Inductive sack_shape (p : list Z) : option (nat * nat) -> Prop :=
| shape_none :
    tcp_doff (le_at 1 p off_doff) <= 5 -> sack_shape p None
| shape_other j kind :
    5 < tcp_doff (le_at 1 p off_doff) -> (j <= 2)%nat -> nops p j ->
    p !! (off_options + j)%nat = Some kind -> kind <> 5 -> (kind <> 1 \/ j = 2%nat) ->
    sack_shape p None
| shape_sack j k :
    5 < tcp_doff (le_at 1 p off_doff) -> (j <= 2)%nat -> nops p j ->
    p !! (off_options + j)%nat = Some 5 ->
    p !! (off_options + j + 1)%nat = Some (2 + 8 * Z.of_nat k) -> (k <= 4)%nat ->
    (off_options + j + 2 + 8 * k <= length p)%nat ->
    sack_shape p (Some ((off_options + j)%nat, k)).

(** The packet with its acknowledgement number and its SACK edges moved. *)
Definition acks_shifted (diff : Z) (o : option (nat * nat)) (p : list Z) : list Z :=
  let p1 := map_words (fun x => x + diff) p off_ack_seq 1 in
  match o with
  | None => p1
  | Some (opt, k) => map_words (fun x => x + diff) p1 (opt + 2) (2 * k)
  end.

(** Every edge is on a 16-bit boundary of the segment. *)
Definition sack_aligned (o : option (nat * nat)) : Prop :=
  match o with None => True | Some (opt, k) => Nat.Even (opt - off_options) \/ k = O end.

(** ** The option scan *)

Lemma nops_0 p : nops p 0.
Proof. intros i Hi. lia. Qed.

Lemma nops_S p j : nops p j -> p !! (off_options + j)%nat = Some 1 -> nops p (S j).
Proof. intros Hn Hj i Hi. destruct (decide (i = j)) as [->|]; [done | apply Hn; lia]. Qed.

Lemma nops_two p j i : nops p j -> (i < j)%nat -> p !! (off_options + i)%nat = Some 1.
Proof. intros Hn Hi. by apply Hn. Qed.

(** Behind [j] NOPs, a byte that is not a NOP (or comes third) decides. *)
Lemma sack_shape_at p j kind o :
  5 < tcp_doff (le_at 1 p off_doff) -> (j <= 2)%nat -> nops p j ->
  p !! (off_options + j)%nat = Some kind -> (kind <> 1 \/ j = 2%nat) -> sack_shape p o ->
  (kind <> 5 /\ o = None) \/
  (kind = 5 /\ exists k, o = Some ((off_options + j)%nat, k) /\
     p !! (off_options + j + 1)%nat = Some (2 + 8 * Z.of_nat k) /\ (k <= 4)%nat /\
     (off_options + j + 2 + 8 * k <= length p)%nat).
Proof.
  intros Hd Hj Hn Hk Hor Hs.
  assert (forall j' kind', (j' <= 2)%nat -> nops p j' -> p !! (off_options + j')%nat = Some kind' ->
            (kind' <> 1 \/ j' = 2%nat) -> j' = j) as Hu.
  { intros j' kind' Hj' Hn' Hk' Hor'. destruct (Nat.lt_trichotomy j' j) as [Hlt|[->|Hlt]]; [|done|].
    - pose proof (Hn j' Hlt). destruct Hor' as [| ->]; [congruence|]. lia.
    - pose proof (Hn' j Hlt). destruct Hor as [| ->]; [congruence|]. lia. }
  destruct Hs as [Hle | j' kind' _ Hj' Hn' Hk' H5 Hor' | j' k _ Hj' Hn' Hk' Hl' Hk4 Hlen].
  - lia.
  - specialize (Hu j' kind' Hj' Hn' Hk' Hor') as ->. left. split; congruence.
  - specialize (Hu j' 5 Hj' Hn' Hk' ltac:(lia)) as ->. right. split; [congruence|]. eauto 10.
Qed.

Lemma sack_shape_unique p o o' : sack_shape p o -> sack_shape p o' -> o = o'.
Proof.
  intros Hs Hs'. assert (5 < tcp_doff (le_at 1 p off_doff) -> forall j kind, (j <= 2)%nat -> nops p j ->
    p !! (off_options + j)%nat = Some kind -> (kind <> 1 \/ j = 2%nat) -> o = o') as Hu.
  { intros Hd j kind Hj Hn Hk Hor.
    destruct (sack_shape_at p j kind o Hd Hj Hn Hk Hor Hs) as [[? ->]|[? (k & -> & Hl & _)]];
    destruct (sack_shape_at p j kind o' Hd Hj Hn Hk Hor Hs') as [[? ->]|[? (k' & -> & Hl' & _)]]; try done.
    replace k' with k; [done|]. rewrite Hl in Hl'. injection Hl'. lia. }
  destruct Hs as [Hd | j kind Hd Hj Hn Hk H5 Hor | j k Hd Hj Hn Hk Hlen Hk4 Hfit].
  - destruct Hs'; [done | lia | lia].
  - by eapply Hu.
  - by eapply (Hu Hd j 5); auto; left.
Qed.

(** A packet that ends inside the NOPs has no shape. *)
Lemma sack_shape_short p j o :
  5 < tcp_doff (le_at 1 p off_doff) -> (j <= 2)%nat -> nops p j ->
  (length p < off_options + j + 1)%nat -> ~ sack_shape p o.
Proof.
  intros Hd Hj Hn Hl Hs.
  assert (forall j' kind', (j' <= 2)%nat -> nops p j' -> p !! (off_options + j')%nat = Some kind' ->
            (kind' <> 1 \/ j' = 2%nat) -> False) as Hu.
  { intros j' kind' Hj' Hn' Hk' Hor'. pose proof (lookup_lt_Some _ _ _ Hk').
    pose proof (Hn j' ltac:(lia)). destruct Hor'; [congruence | lia]. }
  destruct Hs as [Hle | j' kind' _ Hj' Hn' Hk' H5 Hor' | j' k _ Hj' Hn' Hk' Hl' Hk4 Hlen];
    [lia | eapply Hu; eauto | eapply Hu; eauto; lia].
Qed.

(** The shape only depends on the bytes from the data offset on. *)
Lemma sack_shape_ext p q o : length p = length q ->
  (forall i, (off_doff <= i)%nat -> p !! i = q !! i) -> sack_shape p o -> sack_shape q o.
Proof.
  intros Hl E Hs.
  assert (le_at 1 p off_doff = le_at 1 q off_doff) as Ed
    by (unfold le_at; f_equal; apply slice_ext; intros; apply E; lia).
  assert (forall j, nops p j -> nops q j) as En
    by (intros j Hn i Hi; rewrite <- E by offlia; by apply Hn).
  destruct Hs as [Hd | j kind Hd Hj Hn Hk H5 Hor | j k Hd Hj Hn Hk Hlen Hk4 Hfit].
  - apply shape_none. by rewrite <- Ed.
  - apply (shape_other _ j kind); auto; [by rewrite <- Ed | rewrite <- E by offlia; done].
  - apply shape_sack; auto; [by rewrite <- Ed | rewrite <- E by offlia; done.. | lia].
Qed.

Lemma lookup_le_at p a : (a < length p)%nat -> p !! a = Some (le_at 1 p a).
Proof. intros Hl. destruct (lookup_lt_is_Some_2 p a Hl) as [b Hb]. by rewrite Hb, (le_at_1 _ _ _ Hb). Qed.

Section scan.
Context {Mp : Type} `{BpfHash Mp} `{CsumDiff}.
Implicit Types s : bpf_st Mp.

(** What the scan decides, for a scan that has skipped [j] NOPs. *)
Definition scan_post (p : list Z) (c : opt_ctl) : Prop :=
  match c with
  | GotoDrop => forall o, ~ sack_shape p o
  | GotoOut => sack_shape p None
  | GotoSack opt => exists j, opt = (off_options + j)%nat /\ (j <= 2)%nat /\ nops p j /\
      p !! opt = Some 5 /\ 5 < tcp_doff (le_at 1 p off_doff)
  | FallThrough => False
  end.

Lemma wp_scan_last (Q : outcome fault opt_ctl -> bpf_st Mp -> Prop) s :
  5 < tcp_doff (le_at 1 (pkt s) off_doff) -> nops (pkt s) 2 ->
  (forall c, scan_post (pkt s) c -> Q (Ret c) s) -> wp (scan_last (off_options + 2)) Q s.
Proof.
  intros Hd Hn HQ. unfold scan_last. bpf_step. bpf_step.
  - bpf_step. apply HQ. intros o. by apply (sack_shape_short _ 2).
  - bpf_step. bpf_step. pose proof (lookup_le_at (pkt s) (off_options + 2) ltac:(lia)) as Hk.
    destruct (Z.eqb_spec (le_at 1 (pkt s) (off_options + 2)) 5) as [E|E]; simpl; bpf_step; apply HQ.
    + exists 2%nat. rewrite E in Hk. split_and!; auto.
    + eapply shape_other; eauto.
Qed.

Lemma wp_scan_option j next (Q : outcome fault opt_ctl -> bpf_st Mp -> Prop) s :
  5 < tcp_doff (le_at 1 (pkt s) off_doff) -> (j < 2)%nat -> nops (pkt s) j ->
  (nops (pkt s) (S j) -> wp (next (off_options + S j)%nat) Q s) ->
  (forall c, scan_post (pkt s) c -> Q (Ret c) s) -> wp (scan_option (off_options + j) next) Q s.
Proof.
  intros Hd Hj Hn Hnext HQ. unfold scan_option. bpf_step. bpf_step.
  - bpf_step. apply HQ. intros o. apply (sack_shape_short _ j); auto; lia.
  - bpf_step. bpf_step. pose proof (lookup_le_at (pkt s) (off_options + j) ltac:(lia)) as Hk.
    destruct (Z.eqb_spec (le_at 1 (pkt s) (off_options + j)) 1) as [E|E].
    { rewrite E in Hk. replace (off_options + j + 1)%nat with (off_options + S j)%nat by lia.
      apply Hnext. by apply nops_S. }
    destruct (Z.eqb_spec (le_at 1 (pkt s) (off_options + j)) 5) as [E'|E']; simpl; bpf_step; apply HQ.
    + exists j. rewrite E' in Hk. split_and!; auto; lia.
    + eapply (shape_other _ j); try done; lia.
Qed.

Lemma wp_ingress_options (Q : outcome fault opt_ctl -> bpf_st Mp -> Prop) s :
  (off_options <= length (pkt s))%nat ->
  (forall c, scan_post (pkt s) c -> Q (Ret c) s) -> wp ingress_options Q s.
Proof.
  intros Hl HQ. unfold ingress_options. bpf_step. bpf_step.
  destruct (Z.ltb_spec 5 (tcp_doff (le_at 1 (pkt s) off_doff))).
  - apply (wp_scan_option 0); auto using nops_0. intros Hn.
    apply (wp_scan_option 1); auto. intros Hn'. by apply wp_scan_last.
  - bpf_step. apply HQ. by apply shape_none.
Qed.
End scan.

(** ** The SACK blocks *)

Section blocks.
Context {Mp : Type} `{BpfHash Mp} `{CD : CsumDiff} `{!CsumDiffLaws CD}.
Implicit Types s : bpf_st Mp.

Abbreviation shift diff := (fun x => x + diff).

(** Neither the maps nor the packet's size change, and bytes stay bytes. *)
Definition framed s s' : Prop :=
  flow_map s' = flow_map s /\ seq_map s' = seq_map s /\
  length (pkt s') = length (pkt s) /\ bytes_ok (pkt s').

Lemma framed_refl s : bytes_ok (pkt s) -> framed s s.
Proof. unfold framed. by auto. Qed.

Lemma framed_trans s1 s2 s3 : framed s1 s2 -> framed s2 s3 -> framed s1 s3.
Proof. intros (? & ? & ? & ?) (? & ? & ? & ?). unfold framed. split_and!; congruence || done. Qed.

Lemma framed_pkt s p : bytes_ok p -> length p = length (pkt s) ->
  framed s (BpfSt Mp p (flow_map s) (seq_map s)).
Proof. unfold framed. by auto. Qed.

Lemma framed_check s c : bytes_ok (pkt s) -> (off_options <= length (pkt s))%nat ->
  framed s (BpfSt Mp (splice (pkt s) off_check (le_bytes 2 c)) (flow_map s) (seq_map s)).
Proof.
  intros. apply framed_pkt; [by apply splice_ok, le_bytes_ok|].
  rewrite length_splice; rewrite ?length_le_bytes; offlia.
Qed.

(** What [n] blocks do from [sack] on: [k] of them apply. *)
Definition blocks_post (p0 : list Z) (n : nat) (diff : Z) (sack : nat) (len csum : Z) s
    (r : outcome fault (option (nat * Z * Z))) s' : Prop :=
  framed s s' /\
  match r with
  | Ret (Some (_, len', csum')) => exists k, (k <= n)%nat /\
      (k = 0 \/ sack + 8 * k <= length (pkt s))%nat /\
      len' = len - 8 * Z.of_nat k /\ 0 <= len' /\ (k = 0%nat \/ 2 <= len') /\ (k = n \/ len' < 10) /\
      pkt s' = map_words (shift diff) (pkt s) sack (2 * k) /\
      (forall e, csum_tracks e p0 (pkt s) csum ->
       csum_tracks (e + drift sack (moved (shift diff) (pkt s) sack (2 * k))) p0 (pkt s') csum')
  | Ret None => exists k, (k < n)%nat /\ 10 <= len - 8 * Z.of_nat k /\
      (length (pkt s) < sack + 8 * k + 8)%nat
  | Err _ => False
  end.

Lemma wp_sack_block p0 diff sack len csum (Q : outcome fault (option (nat * Z * Z)) -> bpf_st Mp -> Prop) s :
  bytes_ok (pkt s) -> (off_options <= sack)%nat -> in_u8 len ->
  (len < 10 -> Q (Ret (Some (sack, len, csum))) s) ->
  (10 <= len -> (length (pkt s) < sack + 8)%nat -> Q (Ret None) s) ->
  (10 <= len -> (sack + 8 <= length (pkt s))%nat -> forall csum',
    (forall e, csum_tracks e p0 (pkt s) csum ->
     csum_tracks (e + drift sack (moved (shift diff) (pkt s) sack 2)) p0 (map_words (shift diff) (pkt s) sack 2) csum') ->
    Q (Ret (Some ((sack + 8)%nat, len - 8, csum')))
      (BpfSt Mp (map_words (shift diff) (pkt s) sack 2) (flow_map s) (seq_map s))) ->
  wp (sack_block diff (sack, len, csum)) Q s.
Proof.
  intros Hb Hs Hlen Hsmall Hnone Hsome. unfold sack_block.
  destruct (Z.leb_spec 10 len); [|bpf_step; by apply Hsmall].
  bpf_step. bpf_step; [bpf_step; auto|].
  bpf_step. bpf_step. intros p1.
  bpf_step. bpf_step.
  { by apply set_be32_ok. } { simpl. unfold p1. rewrite length_set_be32; lia. }
  simpl. bpf_step. replace (u8 (len - 8)) with (len - 8) by modlia.
  apply Hsome; [done | lia |]. intros e Ht.
  assert (be_at 4 p1 (sack + 4) = be_at 4 (pkt s) (sack + 4)) as E1
    by (unfold be_at, p1; rewrite slice_set_be32_other; auto; lia).
  eapply csum_tracks_eq; [|apply csum_tracks_move; [apply csum_tracks_move; [exact Ht|..]|..]]; fold p1;
    try apply u32_range; try (unfold p1; rewrite length_set_be32; lia); try offlia.
  cbn [moved]. rewrite E1, !drift_add, (drift_next sack) by offlia. unfold drift. csum_by 0.
Qed.

Lemma wp_sack_blocks p0 n diff sack len csum s :
  bytes_ok (pkt s) -> (off_options <= sack)%nat -> in_u8 len ->
  wp (sack_blocks n diff (sack, len, csum)) (blocks_post p0 n diff sack len csum s) s.
Proof.
  revert sack len csum s. induction n as [|n IH]; intros sack len csum s Hb Hs Hlen; simpl.
  { bpf_step. split; [by apply framed_refl|]. exists 0%nat. simpl. split_and!; auto using csum_tracks_still; modlia. }
  bpf_step. apply (wp_sack_block p0); auto.
  - intros Hlt. destruct n as [|n].
    + simpl. bpf_step. split; [by apply framed_refl|]. exists 0%nat. simpl. split_and!; auto using csum_tracks_still; modlia.
    + eapply wp_mono; [by apply IH|]. intros r s' (Hf & Hr). split; [done|].
      destruct r as [[[[? len'] csum']|]|]; [| |done].
      * destruct Hr as (k & Hk & Hor & Hl & H0 & H2 & Hend & Hp & Ht). exists k.
        assert (k = 0%nat) as -> by lia. split_and!; auto; lia.
      * destruct Hr as (k & Hk & Hl & Hlt'). lia.
  - intros Hge Hshort. bpf_step. split; [by apply framed_refl|]. exists 0%nat. split_and!; lia.
  - intros Hge Hfit csum' Htr. eapply wp_mono.
    { apply IH; simpl; [by repeat apply set_be32_ok | lia | modlia]. }
    assert (length (map_words (shift diff) (pkt s) sack 2) = length (pkt s)) as Hlw
      by (apply length_map_words; lia).
    intros r s' (Hf & Hr). split.
    { eapply framed_trans; [|done]. apply framed_pkt; [by repeat apply set_be32_ok | done]. }
    destruct r as [[[[? len'] csum'']|]|]; [| |done]; cbn [pkt] in Hr; rewrite Hlw in Hr.
    + destruct Hr as (k & Hk & Hor & Hl & H0 & H2 & Hend & Hp & Ht). exists (S k).
      split_and!; [lia | lia | lia | lia | lia | lia | |].
      * rewrite Hp. replace (2 * S k)%nat with (2 + 2 * k)%nat by lia.
        rewrite map_words_app. do 2 f_equal. 
      * intros e Htr0. eapply csum_tracks_eq; [|apply Ht, Htr, Htr0].
        replace (2 * S k)%nat with (2 + 2 * k)%nat by lia. rewrite (moved_split _ _ sack 2), drift_add. change (4 * 2)%nat with 8%nat.
        assert (forall m, drift (sack + 8) m =c= drift sack m) as ->.
        { intros m. replace (sack + 8)%nat with (sack + 4 + 4)%nat by lia. rewrite !drift_next by offlia. done. }
        rewrite (moved_ext _ (map_words (shift diff) (pkt s) sack 2) (pkt s)); [csum_by 0|].
        intros i Hi. unfold be_at. rewrite slice_map_words_other; auto; lia.
    + destruct Hr as (k & Hk & Hl & Hlt'). exists (S k). split_and!; lia.
Qed.
End blocks.

(** ** The program *)

Definition ingress_key_of (p : list Z) : key_t := Key (le_at 4 p off_saddr) (le_at 2 p off_source) 0.

Section programs.
Context {Mp : Type} `{BpfHash Mp} `{CD : CsumDiff} `{!CsumDiffLaws CD}.
Implicit Types s : bpf_st Mp.
Abbreviation shift diff := (fun x => x + diff).

Lemma wp_sack_out p0 diff opt csum s :
  bytes_ok (pkt s) -> (off_options <= opt)%nat ->
  wp (sack_out diff opt csum) (fun r s' =>
    framed s s' /\
    match r with
    | Ret (Some csum') => exists k, (k <= 4)%nat /\ (opt + 2 + 8 * k <= length (pkt s))%nat /\
        le_at 1 (pkt s) (opt + 1) = 2 + 8 * Z.of_nat k /\
        pkt s' = map_words (shift diff) (pkt s) (opt + 2) (2 * k) /\
        (forall e, csum_tracks e p0 (pkt s) csum ->
         csum_tracks (e + drift (opt + 2) (moved (shift diff) (pkt s) (opt + 2) (2 * k))) p0 (pkt s') csum')
    | Ret None => forall k, (k <= 4)%nat -> le_at 1 (pkt s) (opt + 1) = 2 + 8 * Z.of_nat k ->
        (length (pkt s) < opt + 2 + 8 * k)%nat
    | Err _ => False
    end) s.
Proof.
  intros Hb Hopt. unfold sack_out. bpf_step. bpf_step.
  { bpf_step. split; [by apply framed_refl|]. intros k _ _. lia. }
  bpf_step. bpf_step.
  pose proof (le_at_range 1 (pkt s) (opt + 1) Hb ltac:(lia)) as Hlen.
  set (len := le_at 1 (pkt s) (opt + 1)) in *. bpf_step.
  eapply wp_mono; [apply (wp_sack_blocks p0 4); auto; lia|].
  intros r s' (Hf & Hr). destruct r as [[[[? len'] csum']|]|]; [| |done].
  - destruct Hr as (k & Hk & Hor & Hl & H0 & H2 & Hend & Hp & Ht).
    destruct (Z.eqb_spec len' 2); simpl; bpf_step; (split; [done|]).
    + exists k. split_and!; [lia | lia | lia | done | exact Ht].
    + intros k' Hk' E. lia.
  - destruct Hr as (k & Hk & Hl & Hs). bpf_step. split; [done|]. intros k' Hk' E. lia.
Qed.

(** By how much the checksum is off afterwards: by nothing where the edges are on
    16-bit boundaries. *)
Definition sack_drift (diff : Z) (o : option (nat * nat)) (p : list Z) : Z :=
  match o with
  | None => 0
  | Some (opt, k) => drift (opt + 2) (moved (shift diff) p (opt + 2) (2 * k))
  end.

Lemma sack_drift_aligned diff o p : sack_shape p o -> sack_aligned o -> sack_drift diff o p =c= 0.
Proof.
  intros Ho Ha. destruct o as [[opt k]|]; [|done]. cbn [sack_drift]. destruct Ha as [[i Hi]| ->].
  - apply drift_even. inversion Ho; subst. exists (i + 11)%nat. offlia.
  - change (moved _ _ _ _) with 0. unfold drift. csum_by 0.
Qed.

(** How the branch for known flows ends. *)
Definition known_post (diff : Z) s (r : outcome fault xdp_action) s' : Prop :=
  framed s s' /\
  match r with
  | Ret XDP_DROP => forall o, ~ sack_shape (pkt s) o
  | Ret XDP_PASS => exists o c, sack_shape (pkt s) o /\ in_u16 c /\
      pkt s' = splice (acks_shifted diff o (pkt s)) off_check (le_bytes 2 c) /\
      sum16 (tcp_segment (pkt s')) =c= sum16 (tcp_segment (pkt s)) - sack_drift diff o (pkt s)
  | Err _ => False
  end.

Lemma wp_ingress_out p0 csum s :
  (off_options <= length (pkt s))%nat ->
  wp (ingress_out csum) (fun r s' => r = Ret XDP_PASS /\
    s' = BpfSt Mp (splice (pkt s) off_check (le_bytes 2 (csum_folder_helper csum))) (flow_map s) (seq_map s) /\
    (forall e, csum_tracks e p0 (pkt s) csum -> sum16 (tcp_segment (pkt s')) =c= sum16 (tcp_segment p0) - e)) s.
Proof.
  intros Hl. unfold ingress_out. bpf_step. bpf_step. bpf_step.
  split_and!; auto. intros. by apply csum_tracks_fold.
Qed.

Lemma sack_shape_map_words f p a n o :
  (a + 4 * n <= off_doff)%nat -> (off_options <= length p)%nat ->
  sack_shape (map_words f p a n) o <-> sack_shape p o.
Proof.
  intros Ha Hl. assert (a + 4 * n <= length p)%nat as Hal by offlia.
  assert (forall i, (off_doff <= i)%nat -> map_words f p a n !! i = p !! i) as E
    by (intros; apply lookup_map_words_other; lia).
  split; apply sack_shape_ext; rewrite ?length_map_words by done; auto.
  intros i Hi. symmetry. by apply E.
Qed.

Lemma wp_ingress_known key diff s :
  bytes_ok (pkt s) -> (off_options <= length (pkt s))%nat ->
  wp (ingress_known key diff (csum_seed (le_at 2 (pkt s) off_check))) (known_post diff s) s.
Proof.
  intros Hb Hl. unfold ingress_known. bpf_step. bpf_step. intros p1. simpl.
  assert (p1 = map_words (shift diff) (pkt s) off_ack_seq 1) as Hp1 by done.
  assert (length p1 = length (pkt s)) as Hl1 by (apply length_set_be32; offlia).
  assert (bytes_ok p1) as Hb1 by by apply set_be32_ok.
  assert (forall o, sack_shape p1 o <-> sack_shape (pkt s) o) as Hsh
    by (intros; rewrite Hp1; apply sack_shape_map_words; offlia).
  set (csum1 := u32 _).
  assert (csum_tracks 0 (pkt s) p1 csum1) as Ht.
  { apply csum_tracks_set; try offlia; auto using csum_tracks_init, u32_range.
    exists 4%nat. offlia. }
  bpf_step. apply wp_ingress_options; [cbn [pkt]; lia|]. cbn [pkt]. intros [| |opt|] Hc; cbn [scan_post] in Hc; [| | |done].
  - bpf_step. split; [by apply framed_pkt|]. intros o Ho. by apply (Hc o), Hsh.
  - eapply wp_mono; [apply (wp_ingress_out (pkt s)); simpl; lia|].
    intros r s' (-> & -> & Hsum). split.
    { eapply framed_trans; [by apply framed_pkt|]. by apply framed_check; [|cbn [pkt]; lia]. }
    exists None. eexists.
    split_and!; [by apply Hsh | apply csum_folder_range | done | by apply Hsum].
  - destruct Hc as (j & -> & Hj & Hn & H5 & Hd). bpf_step.
    eapply wp_mono; [apply (wp_sack_out (pkt s)); cbn [pkt]; [done | lia]|].
    cbn [pkt flow_map seq_map]. intros r s1 (Hf & Hr). destruct r as [[csum2|]|]; [| |done].
    + destruct Hr as (k & Hk & Hfit & Hlen & Hp2 & Ht2).
      assert (length (pkt s1) = length (pkt s)) as Hl2 by (rewrite Hp2, length_map_words; lia).
      eapply wp_mono; [apply (wp_ingress_out (pkt s)); lia|].
      intros r s' (-> & -> & Hsum). split.
      { eapply framed_trans; [|eapply framed_trans; [exact Hf|]].
        - by apply framed_pkt.
        - apply framed_check; [apply Hf | lia]. }
      exists (Some ((off_options + j)%nat, k)). eexists.
      split_and!; [| apply csum_folder_range | simpl; by rewrite Hp2 |].
      * apply Hsh, shape_sack; auto. by rewrite lookup_le_at, Hlen by lia.
      * rewrite (Hsum _ (Ht2 _ Ht)). cbn [sack_drift]. rewrite (moved_ext _ p1 (pkt s)); [csum_by 0|].
        intros i Hi. unfold be_at. rewrite Hp1, slice_map_words_other; auto; offlia.
    + bpf_step. split; [eapply framed_trans; [by apply framed_pkt | exact Hf]|].
      intros o Ho. apply Hsh in Ho.
      destruct (sack_shape_at p1 j 5 o Hd Hj Hn H5 ltac:(lia) Ho) as [[? _]|(_ & k & -> & Hlk & Hk & Hlen)]; [done|].
      pose proof (lookup_lt_Some _ _ _ Hlk). rewrite lookup_le_at in Hlk by lia.
      specialize (Hr k Hk ltac:(congruence)). lia.
Qed.
End programs.

Section dispatch.
Context {Mp : Type} `{BpfHash Mp} `{CD : CsumDiff} `{!CsumDiffLaws CD}.
Implicit Types s : bpf_st Mp.

Lemma wp_ingress_tcp4 (Q : outcome fault xdp_action -> bpf_st Mp -> Prop) s :
  is_tcp4 (pkt s) ->
  (let key := ingress_key_of (pkt s) in
   let csum := csum_seed (le_at 2 (pkt s) off_check) in
   match bpf_map_lookup_elem (flow_map s) key with
   | Some diff => wp (ingress_known key diff csum) Q s
   | None => wp (ingress_new key csum) Q s
   end) ->
  wp ingress_xdp_prog Q s.
Proof.
  intros (Hb & Hl & Hip & Htcp) HQ. unfold ingress_xdp_prog.
  bpf_step. bpf_step; [offlia|]. bpf_step. bpf_step.
  rewrite proto_is_ip, Hip, Z.eqb_refl by (try done; offlia). simpl negb. cbn iota.
  bpf_step. bpf_step; [offlia|]. bpf_step. bpf_step. rewrite Htcp, Z.eqb_refl. cbn [negb].
  bpf_step. bpf_step; [offlia|]. bpf_step. unfold ingress_key.
  bpf_step. bpf_step. bpf_step. bpf_step. bpf_step.
  bpf_step. bpf_step. bpf_step. bpf_step.
  unfold ingress_key_of in HQ. simpl in HQ. by destruct (bpf_map_lookup_elem _ _).
Qed.

(** Everything else is passed or, when a header is cut short, dropped; in
    both cases nothing is touched. *)
Lemma wp_ingress_other s :
  bytes_ok (pkt s) -> ~ is_tcp4 (pkt s) ->
  wp ingress_xdp_prog (fun r s' => s' = s /\
    ((r = Ret XDP_DROP /\ truncated (pkt s)) \/ (r = Ret XDP_PASS /\ ~ truncated (pkt s)))) s.
Proof.
  intros Hb Hno. unfold ingress_xdp_prog, truncated.
  bpf_step. bpf_step; [bpf_step; auto|]. bpf_step. bpf_step.
  rewrite proto_is_ip by (try done; offlia).
  destruct (Z.eqb_spec (be_at 2 (pkt s) off_h_proto) ETH_P_IP) as [Hip|Hip]; cbn [negb].
  2: { bpf_step. split; [done|]. right. split; [done|]. intros [?|[? _]]; [lia|done]. }
  bpf_step. bpf_step; [bpf_step; tauto|]. bpf_step. bpf_step.
  destruct (Z.eqb_spec (le_at 1 (pkt s) off_protocol) IPPROTO_TCP) as [Htcp|Htcp]; cbn [negb].
  2: { bpf_step. split; [done|]. right. split; [done|]. intros [?|[_ [?|[? _]]]]; [lia|lia|done]. }
  bpf_step. bpf_step; [bpf_step; tauto|]. exfalso. apply Hno. split_and!; auto.
Qed.

Lemma wp_ingress_new key s :
  bytes_ok (pkt s) -> (off_options <= length (pkt s))%nat ->
  wp (ingress_new key (csum_seed (le_at 2 (pkt s) off_check))) (fun r s' =>
    r = Ret XDP_PASS /\ flow_map s' = flow_map s /\
    if tcp_syn (le_at 1 (pkt s) off_flags) then
      seq_map s' = bpf_map_update_elem (seq_map s) key (le_at 4 (pkt s) off_ack_seq) /\
      (exists c, in_u16 c /\
        pkt s' = splice (set_be32 (pkt s) off_ack_seq 0) off_check (le_bytes 2 c)) /\
      sum16 (tcp_segment (pkt s')) =c= sum16 (tcp_segment (pkt s))
    else s' = s) s.
Proof.
  intros Hb Hl. unfold ingress_new. bpf_step. bpf_step.
  destruct (tcp_syn _); cbn [negb]; [|by bpf_step].
  bpf_step. bpf_step. bpf_step. bpf_step. bpf_step. bpf_step. bpf_step.
  bpf_step. cbn [pkt flow_map seq_map].
  replace (le_bytes 4 (le_at 4 (pkt s) off_ack_seq)) with (slice (pkt s) off_ack_seq 4).
  2: { unfold le_at. symmetry. rewrite <- (length_slice (pkt s) off_ack_seq 4) at 1 by offlia.
       by apply le_bytes_val, slice_ok. }
  change (splice (pkt s) off_ack_seq (le_bytes 4 0)) with (set_be32 (pkt s) off_ack_seq 0).
  assert (slice (set_be32 (pkt s) off_ack_seq 0) off_ack_seq 4 = le_bytes 4 0) as <-
    by (apply (slice_splice_same (pkt s) off_ack_seq (le_bytes 4 0)); simpl; offlia).
  assert (length (set_be32 (pkt s) off_ack_seq 0) = length (pkt s)) by (apply length_set_be32; offlia).
  eapply wp_mono; [apply (wp_ingress_out (pkt s)); cbn [pkt]; lia|].
  cbn [pkt flow_map seq_map]. intros r s' (-> & -> & Hsum). split_and!; auto.
  - eexists. split; [apply csum_folder_range | done].
  - rewrite (Hsum 0); [csum_by 0|]. apply csum_tracks_set; try offlia; auto using csum_tracks_init.
    + exists 4%nat. offlia.
    + unfold in_u32. lia.
Qed.
End dispatch.

(** ** The packet a known flow leaves with *)

Lemma sack_shape_fits p opt k : sack_shape p (Some (opt, k)) ->
  (off_options <= opt)%nat /\ (opt + 2 + 4 * (2 * k) <= length p)%nat.
Proof. inversion 1. offlia. Qed.

Lemma length_acks_shifted diff o p : (off_options <= length p)%nat -> sack_shape p o ->
  length (acks_shifted diff o p) = length p.
Proof.
  intros Hl Hs. unfold acks_shifted. destruct o as [[opt k]|].
  - apply sack_shape_fits in Hs. rewrite !length_map_words; rewrite ?length_map_words; offlia.
  - apply length_map_words. offlia.
Qed.

Lemma acks_shifted_ok diff o p : bytes_ok p -> bytes_ok (acks_shifted diff o p).
Proof. intros. unfold acks_shifted. destruct o as [[opt k]|]; auto using map_words_ok. Qed.

Lemma acks_shifted_ack diff o p : (off_options <= length p)%nat -> sack_shape p o ->
  be_at 4 (acks_shifted diff o p) off_ack_seq = u32 (be_at 4 p off_ack_seq + diff).
Proof.
  intros Hl Hs. assert (be_at 4 (map_words (fun x => x + diff) p off_ack_seq 1) off_ack_seq =
    u32 (be_at 4 p off_ack_seq + diff)) as E.
  { unfold be_at at 1. apply be_at_set_be32_same; [offlia | apply u32_range]. }
  unfold acks_shifted. destruct o as [[opt k]|]; [|done].
  apply sack_shape_fits in Hs. unfold be_at at 1.
  rewrite slice_map_words_other; rewrite ?length_map_words; try offlia. done.
Qed.

Lemma acks_shifted_edge diff opt k p i : (off_options <= length p)%nat ->
  sack_shape p (Some (opt, k)) -> (i < 2 * k)%nat ->
  be_at 4 (acks_shifted diff (Some (opt, k)) p) (opt + 2 + 4 * i) =
  u32 (be_at 4 p (opt + 2 + 4 * i) + diff).
Proof.
  intros Hl Hs Hi. apply sack_shape_fits in Hs. unfold acks_shifted.
  rewrite be_at_map_words; rewrite ?length_map_words; try offlia. do 2 f_equal.
  unfold be_at. rewrite slice_map_words_other; auto; offlia.
Qed.

(** The bytes a translation may change: the acknowledgement number, the
    checksum and the SACK edges. *)
Definition ack_field (o : option (nat * nat)) (i : nat) : Prop :=
  (off_ack_seq <= i < off_ack_seq + 4)%nat \/ (off_check <= i < off_check + 2)%nat \/
  match o with None => False | Some (opt, k) => (opt + 2 <= i < opt + 2 + 8 * k)%nat end.

Lemma acks_shifted_other diff o p i : (off_options <= length p)%nat -> sack_shape p o ->
  ~ ack_field o i -> acks_shifted diff o p !! i = p !! i.
Proof.
  intros Hl Hs Hi. unfold ack_field in Hi. unfold acks_shifted. destruct o as [[opt k]|].
  - apply sack_shape_fits in Hs. rewrite !lookup_map_words_other; rewrite ?length_map_words; auto; offlia.
  - apply lookup_map_words_other; offlia.
Qed.

(** ** Theorems *)

Section theorems.
Context {Mp : Type} `{BpfHash Mp} `{CD : CsumDiff} `{!CsumDiffLaws CD}.
Implicit Types s : bpf_st Mp.

Definition new_post s (r : outcome fault xdp_action) s' : Prop :=
  r = Ret XDP_PASS /\ flow_map s' = flow_map s /\
  if tcp_syn (le_at 1 (pkt s) off_flags) then
    seq_map s' = bpf_map_update_elem (seq_map s) (ingress_key_of (pkt s)) (le_at 4 (pkt s) off_ack_seq) /\
    (exists c, in_u16 c /\
      pkt s' = splice (set_be32 (pkt s) off_ack_seq 0) off_check (le_bytes 2 c)) /\
    sum16 (tcp_segment (pkt s')) =c= sum16 (tcp_segment (pkt s))
  else s' = s.

Definition other_post s (r : outcome fault xdp_action) s' : Prop :=
  s' = s /\ ((r = Ret XDP_DROP /\ truncated (pkt s)) \/ (r = Ret XDP_PASS /\ ~ truncated (pkt s))).

(** Running the program on any packet: the summary the theorems share. *)
Lemma ingress_run s : bytes_ok (pkt s) -> exists r s', ingress_xdp_prog s = (r, s') /\
  if decide (is_tcp4 (pkt s)) then
    match bpf_map_lookup_elem (flow_map s) (ingress_key_of (pkt s)) with
    | Some diff => known_post diff s r s'
    | None => new_post s r s'
    end
  else other_post s r s'.
Proof.
  intros Hb. apply wp_run. case_decide as Ht.
  - apply wp_ingress_tcp4; [done|]. pose proof Ht as (_ & Hl & _). simpl.
    destruct (bpf_map_lookup_elem _ _) as [diff|].
    + by apply wp_ingress_known.
    + by apply wp_ingress_new.
  - by apply wp_ingress_other.
Qed.

(** C18: on any packet the program runs to an action without a load or store
    outside the packet, keeps the packet's length, and changes no byte to
    something that is not one. *)
Theorem ingress_memory_safe s : bytes_ok (pkt s) ->
  exists act s', ingress_xdp_prog s = (Ret act, s') /\
    length (pkt s') = length (pkt s) /\ bytes_ok (pkt s').
Proof.
  intros Hb. destruct (ingress_run s Hb) as (r & s' & Hrun & Hp). rewrite Hrun.
  case_decide as Ht; [|destruct Hp as (-> & [[-> _]|[-> _]]); eauto].
  destruct (bpf_map_lookup_elem _ _) as [diff|].
  - destruct Hp as ((_ & _ & Hl & Hb') & Hr). destruct r; [eauto | done].
  - destruct Hp as (-> & _ & Hr). exists XDP_PASS, s'. split; [done|].
    pose proof Ht as (_ & Hl & _). destruct (tcp_syn _); [|by subst].
    destruct Hr as (_ & (c & _ & ->) & _).
    rewrite length_splice; rewrite ?length_le_bytes, length_set_be32; try offlia.
    split; [done|]. auto using splice_ok, set_be32_ok with words.
Qed.

(** C19: a segment of a known flow leaves with its acknowledgement number and
    the edges of a SACK option that follows at most two NOPs moved by the flow's
    difference modulo 2^32, the checksum field rewritten, every other byte untouched
    and both maps as they were.  Behind any other option the code does not look: a
    SACK there is among the bytes left untouched ([shape_other]). *)
Theorem ingress_translates s diff o :
  is_tcp4 (pkt s) -> bpf_map_lookup_elem (flow_map s) (ingress_key_of (pkt s)) = Some diff ->
  sack_shape (pkt s) o ->
  exists s', ingress_xdp_prog s = (Ret XDP_PASS, s') /\
    flow_map s' = flow_map s /\ seq_map s' = seq_map s /\
    be_at 4 (pkt s') off_ack_seq = u32 (be_at 4 (pkt s) off_ack_seq + diff) /\
    (forall opt k i, o = Some (opt, k) -> (i < 2 * k)%nat ->
       be_at 4 (pkt s') (opt + 2 + 4 * i) = u32 (be_at 4 (pkt s) (opt + 2 + 4 * i) + diff)) /\
    (forall i, ~ ack_field o i -> pkt s' !! i = pkt s !! i).
Proof.
  intros Ht Hk Ho. pose proof Ht as (Hb & Hl & _).
  destruct (ingress_run s Hb) as (r & s' & Hrun & Hp). rewrite decide_True, Hk in Hp by done.
  destruct Hp as ((Hf & Hq & _) & Hr). exists s'. destruct r as [[]|]; [by destruct (Hr o) | | done].
  destruct Hr as (o' & c & Ho' & Hc & Hpkt & _). rewrite (sack_shape_unique _ _ _ Ho' Ho) in Hpkt.
  assert (length (acks_shifted diff o (pkt s)) = length (pkt s)) as Hla by by apply length_acks_shifted.
  split_and!; auto; rewrite Hpkt.
  - unfold be_at at 1. rewrite slice_splice_other; rewrite ?length_le_bytes; try offlia.
    by apply acks_shifted_ack.
  - intros opt k i -> Hi. pose proof (sack_shape_fits _ _ _ Ho). unfold be_at at 1.
    rewrite slice_splice_other; rewrite ?length_le_bytes; try offlia. by apply acks_shifted_edge.
  - intros i Hi. rewrite lookup_splice, decide_False; rewrite ?length_le_bytes;
      [by apply acks_shifted_other | unfold ack_field in Hi; tauto | offlia].
Qed.

(** a segment of a known flow whose options are cut short, or whose SACK
    option does not hold zero to four whole blocks, is dropped; the maps do
    not change. *)
Theorem ingress_drops_malformed s diff :
  is_tcp4 (pkt s) -> bpf_map_lookup_elem (flow_map s) (ingress_key_of (pkt s)) = Some diff ->
  (forall o, ~ sack_shape (pkt s) o) ->
  exists s', ingress_xdp_prog s = (Ret XDP_DROP, s') /\
    flow_map s' = flow_map s /\ seq_map s' = seq_map s.
Proof.
  intros Ht Hk Hno. pose proof Ht as (Hb & _).
  destruct (ingress_run s Hb) as (r & s' & Hrun & Hp). rewrite decide_True, Hk in Hp by done.
  destruct Hp as ((Hf & Hq & _) & Hr). exists s'. destruct r as [[]|]; auto; [|done].
  destruct Hr as (o & _ & Ho & _). by destruct (Hno o).
Qed.

(** C20: a packet that is passed on has a correct TCP checksum exactly when it
    arrived with one, as long as no SACK block starts at an odd offset. *)
Theorem ingress_keeps_checksum s s' ph :
  bytes_ok (pkt s) -> (forall o, sack_shape (pkt s) o -> sack_aligned o) ->
  ingress_xdp_prog s = (Ret XDP_PASS, s') ->
  csum_valid ph (tcp_segment (pkt s')) <-> csum_valid ph (tcp_segment (pkt s)).
Proof.
  intros Hb Ha Hrun. destruct (ingress_run s Hb) as (r & s1 & Hrun1 & Hp).
  rewrite Hrun in Hrun1. injection Hrun1 as <- <-. unfold csum_valid.
  case_decide as Ht; [|by destruct Hp as (-> & _)].
  destruct (bpf_map_lookup_elem _ _) as [diff|].
  - destruct Hp as (_ & o & c & Ho & _ & _ & Hsum). rewrite Hsum, sack_drift_aligned by auto. by rewrite Z.sub_0_r.
  - destruct Hp as (_ & _ & Hp). destruct (tcp_syn _); [|by subst].
    destruct Hp as (_ & _ & Hsum). by rewrite Hsum.
Qed.

(** C21: the alignment condition is needed.  [bpf_csum_diff] adds the bytes of a word
    at an odd offset to the wrong halves of the checksum's words.  Behind a single
    NOP, then, a segment of a known flow that arrived with a correct checksum is
    passed on with a correct one exactly if the sum of the movements of all SACK
    edges happens to be a multiple of 257. *)
Theorem ingress_odd_sack_breaks_checksum s diff opt k ph :
  is_tcp4 (pkt s) -> bpf_map_lookup_elem (flow_map s) (ingress_key_of (pkt s)) = Some diff ->
  sack_shape (pkt s) (Some (opt, k)) -> Nat.Odd (opt - off_options) -> csum_valid ph (tcp_segment (pkt s)) ->
  exists s', ingress_xdp_prog s = (Ret XDP_PASS, s') /\
    (csum_valid ph (tcp_segment (pkt s')) <-> moved (fun x => x + diff) (pkt s) (opt + 2) (2 * k) mod 257 = 0).
Proof.
  intros Ht Hk Ho Hodd Hv. pose proof Ht as (Hb & Hl & _).
  destruct (ingress_run s Hb) as (r & s' & Hrun & Hp). rewrite decide_True, Hk in Hp by done.
  destruct Hp as (_ & Hr). exists s'. destruct r as [[]|]; [by destruct (Hr (Some (opt, k))) | | done].
  destruct Hr as (o & c & Ho' & _ & _ & Hsum). split; [done|]. unfold csum_valid in *. rewrite Hsum.
  rewrite (sack_shape_unique _ _ _ Ho' Ho). cbn [sack_drift]. set (m := moved _ _ _ _).
  assert (drift (opt + 2) m =c= 255 * m) as ->.
  { apply drift_odd. destruct Hodd as [i Hi]. inversion Ho; subst. exists (i + 11)%nat. offlia. }
  rewrite Z.add_sub_assoc, Hv. unfold eq_csum. split; intros E.
  - apply (eq_csum_elim (0 - 255 * m) 0) in E as [q Eq]. replace m with (- q * 257) by lia. apply Z.mod_mul. lia.
  - apply Z.mod_divide in E as [q ->]; [|lia]. replace (0 - 255 * (q * 257)) with (- q * 65535) by lia. apply Z.mod_mul. lia.
Qed.

(** a SYN of an unknown flow is passed on with acknowledgement number 0
    and its old value filed under the flow's key in [seq_map]; any other
    segment of an unknown flow is passed on untouched. *)
Theorem ingress_records_syn s :
  is_tcp4 (pkt s) -> bpf_map_lookup_elem (flow_map s) (ingress_key_of (pkt s)) = None ->
  exists s', ingress_xdp_prog s = (Ret XDP_PASS, s') /\ flow_map s' = flow_map s /\
    if tcp_syn (le_at 1 (pkt s) off_flags) then
      be_at 4 (pkt s') off_ack_seq = 0 /\
      (forall i, ~ ack_field None i -> pkt s' !! i = pkt s !! i) /\
      seq_map s' = bpf_map_update_elem (seq_map s) (ingress_key_of (pkt s))
                     (bswap32 (be_at 4 (pkt s) off_ack_seq))
    else s' = s.
Proof.
  intros Ht Hk. pose proof Ht as (Hb & Hl & _).
  destruct (ingress_run s Hb) as (r & s' & Hrun & Hp). rewrite decide_True, Hk in Hp by done.
  destruct Hp as (-> & Hf & Hr). exists s'. split_and!; auto.
  destruct (tcp_syn _); [|done]. destruct Hr as (Hq & (c & _ & Hpkt) & _).
  assert (length (set_be32 (pkt s) off_ack_seq 0) = length (pkt s)) by (apply length_set_be32; offlia).
  split_and!.
  - rewrite Hpkt. unfold be_at. rewrite slice_splice_other; rewrite ?length_le_bytes; try offlia.
    apply be_at_set_be32_same; [offlia | done].
  - intros i Hi. rewrite Hpkt, lookup_splice, decide_False; rewrite ?length_le_bytes; try offlia.
    + unfold ack_field in Hi. apply lookup_set_be32_other; offlia.
    + unfold ack_field in Hi. tauto.
  - rewrite Hq, <- bswap32_le_at, bswap32_involutive; auto; [|offlia].
    apply (le_at_range 4); [done | offlia].
Qed.

(** no packet ever removes a flow at the ingress hook: [flow_map] is the
    same afterwards, and so is [seq_map] when the flow is known, RST or not
    (the clean-up of lines 128-132 cannot be reached). *)
Theorem ingress_never_forgets s :
  bytes_ok (pkt s) ->
  let s' := snd (ingress_xdp_prog s) in
  flow_map s' = flow_map s /\
  (is_Some (bpf_map_lookup_elem (flow_map s) (ingress_key_of (pkt s))) -> seq_map s' = seq_map s).
Proof.
  intros Hb. destruct (ingress_run s Hb) as (r & s' & Hrun & Hp). rewrite Hrun. simpl.
  case_decide; [|by destruct Hp as (-> & _)].
  destruct (bpf_map_lookup_elem _ _) as [diff|].
  - destruct Hp as ((Hf & Hq & _) & _). auto.
  - destruct Hp as (_ & Hf & _). split; [done|]. intros [? ?]. done.
Qed.
End theorems.

(** ** Concrete runs *)

(** Client 10.0.2.1:40000 to server 10.0.1.2:80, ack 5000, with [options]. *)
Definition sample_in (flags : Z) (check options : list Z) : list Z :=
  sample_packet [10; 0; 2; 1] [10; 0; 1; 2] [156; 64] [0; 80] [0; 0; 3; 232] [0; 0; 19; 136]
    (5 + Z.of_nat (length options) / 4) flags check options.

Definition sample_key : key_t := Key 0x0102000a 0x409c 0.

Definition sample_st (p : list Z) (flows : gmap key_t Z) : bpf_st (gmap key_t Z) :=
  BpfSt _ p flows ∅.

(** Two NOPs and a SACK of one block. *)
Definition sample_sack : list Z := [1; 1; 5; 10; 0; 0; 19; 236; 0; 0; 20; 80].
(** One NOP, a SACK of one block, and a byte of padding. *)
Definition sample_odd_sack : list Z := [1; 5; 10; 0; 0; 19; 236; 0; 0; 20; 80; 0].

#[local] Existing Instance csum_diff_portable.

Lemma sample_sack_shape : sack_shape (sample_in 16 [0; 0] sample_sack) (Some (56%nat, 1%nat)).
Proof.
  apply (shape_sack _ 2 1); try reflexivity; try (vm_compute; lia).
  intros [|[|i]] Hi; [reflexivity | reflexivity | lia].
Defined.

(** The packet that fails: one NOP in front. *)
Lemma ingress_odd_sack_breaks_checksum_witness :
  let s := sample_st (sample_in 16 [0; 0] sample_odd_sack) {[sample_key := 1000]} in
  let ph := - sum16 (tcp_segment (pkt s)) in
  csum_valid ph (tcp_segment (pkt s)) /\
  exists s', ingress_xdp_prog s = (Ret XDP_PASS, s') /\ ~ csum_valid ph (tcp_segment (pkt s')).
Proof.
  intros s ph. assert (csum_valid ph (tcp_segment (pkt s))) as Hv by (unfold csum_valid, ph; by rewrite Z.add_opp_diag_l).
  split; [exact Hv|]. destruct (ingress_odd_sack_breaks_checksum s 1000 55 1 ph) as (s' & E & Hc).
  - decide_now.
  - reflexivity.
  - apply (shape_sack _ 1 1); try reflexivity; try (vm_compute; lia). intros [|i] Hi; [reflexivity | lia].
  - by exists 0%nat.
  - exact Hv.
  - exists s'. split; [exact E|]. rewrite Hc. vm_compute. discriminate.
Defined.

Lemma ingress_memory_safe_witness :
  exists act s', ingress_xdp_prog (sample_st (sample_in 16 [0; 0] sample_sack) ∅) = (Ret act, s') /\
    length (pkt s') = 66%nat /\ bytes_ok (pkt s').
Proof. apply (ingress_memory_safe (sample_st (sample_in 16 [0; 0] sample_sack) ∅)). decide_now. Defined.

Lemma ingress_translates_witness :
  exists s', ingress_xdp_prog (sample_st (sample_in 16 [0; 0] sample_sack) {[sample_key := 1000]}) = (Ret XDP_PASS, s') /\
    be_at 4 (pkt s') off_ack_seq = 6000 /\ be_at 4 (pkt s') 58 = 6100 /\ be_at 4 (pkt s') 62 = 6200.
Proof.
  destruct (ingress_translates (sample_st (sample_in 16 [0; 0] sample_sack) {[sample_key := 1000]})
              1000 (Some (56%nat, 1%nat))) as (s' & Hrun & _ & _ & Ha & He & _).
  - decide_now.
  - reflexivity.
  - exact sample_sack_shape.
  - exists s'. split_and!; [exact Hrun | exact Ha | exact (He _ _ 0%nat eq_refl ltac:(lia)) | exact (He _ _ 1%nat eq_refl ltac:(lia))].
Defined.

(** A SACK option of length 9. *)
Definition sample_bad_sack : list Z := [1; 1; 5; 9; 0; 0; 19; 236; 0; 0; 20; 80].

Lemma sample_bad_shape o : ~ sack_shape (sample_in 16 [0; 0] sample_bad_sack) o.
Proof.
  intros Ho. set (p := sample_in 16 [0; 0] sample_bad_sack) in *.
  assert (nops p 2) as Hn by (intros [|[|i]] Hi; [reflexivity | reflexivity | lia]).
  destruct (sack_shape_at p 2 5 o eq_refl (le_n 2) Hn eq_refl (or_intror eq_refl) Ho)
    as [[? _]|(_ & k & _ & Hk & _)]; [done|].
  replace (p !! _) with (Some 9) in Hk by reflexivity. injection Hk. lia.
Qed.

Lemma ingress_drops_malformed_witness :
  fst (ingress_xdp_prog (sample_st (sample_in 16 [0; 0] sample_bad_sack) {[sample_key := 1000]})) = Ret XDP_DROP.
Proof.
  destruct (ingress_drops_malformed (sample_st (sample_in 16 [0; 0] sample_bad_sack) {[sample_key := 1000]}) 1000)
    as (s' & Hrun & _).
  - decide_now.
  - reflexivity.
  - exact sample_bad_shape.
  - exact (f_equal fst Hrun).
Defined.

Lemma ingress_keeps_checksum_witness :
  let s := sample_st (sample_in 16 [0; 0] sample_sack) {[sample_key := 1000]} in
  csum_valid 5 (tcp_segment (pkt (snd (ingress_xdp_prog s)))) <-> csum_valid 5 (tcp_segment (pkt s)).
Proof.
  apply (ingress_keeps_checksum (sample_st (sample_in 16 [0; 0] sample_sack) {[sample_key := 1000]})).
  - decide_now.
  - intros o Ho. rewrite (sack_shape_unique _ _ _ Ho sample_sack_shape). left. exists 1%nat. reflexivity.
  - by apply run_eq; vm_compute.
Defined.

Lemma ingress_records_syn_witness :
  exists s', ingress_xdp_prog (sample_st (sample_in 2 [0; 0] []) ∅) = (Ret XDP_PASS, s') /\
    seq_map s' = {[sample_key := 0x88130000]}.
Proof.
  destruct (ingress_records_syn (sample_st (sample_in 2 [0; 0] []) ∅)) as (s' & Hrun & _ & Hs).
  - decide_now.
  - reflexivity.
  - exists s'. split; [exact Hrun|]. destruct Hs as (_ & _ & Hs). exact Hs.
Defined.

(** A reset of a known flow: the flow stays. *)
Lemma ingress_never_forgets_witness :
  flow_map (snd (ingress_xdp_prog (sample_st (sample_in 4 [0; 0] []) {[sample_key := 1000]}))) = {[sample_key := 1000]}.
Proof.
  refine (proj1 (ingress_never_forgets (sample_st (sample_in 4 [0; 0] []) {[sample_key := 1000]}) _)).
  decide_now.
Defined.
