(* ===== verification/Egress.v ===== *)
(** * The egress TC program (Backend/egress_tc.c)

    [egress_tc_prog] learns the difference between the server's sequence space
    and the switch's from the SYN-ACK of a new flow, moves the sequence numbers
    of what the server sends into the switch's space, and forgets a flow when
    the server resets it. *)
From Stdlib Require Import ZArith Lia.
From stdpp Require Import base list gmap.
From S2P Require Import Prelude Checksum Bpf.

Inductive tc_action : Type := TC_ACT_OK | TC_ACT_SHOT.

Section egress.
Context {Mp : Type} `{BpfHash Mp} `{CsumDiff}.
Abbreviation B := (M (bpf_st Mp) fault).

(** The key of a packet that leaves: destination address and port. *)
Definition egress_key : B key_t :=
  daddr ← ld 4 off_daddr; dest ← ld 2 off_dest; mret (Key daddr dest 0).

(** The last two lines, which both branches reach. *)
Definition egress_out (csum : Z) : B tc_action :=
  _ ← st 2 off_check (csum_folder_helper csum);
  mret TC_ACT_OK.

(** The branch [if(diff)]. *)
Definition egress_known (key : key_t) (diff csum : Z) : B tc_action :=
  csum ← rewrite_word (fun x => x - diff) off_seq csum;
  flags ← ld 1 off_flags;
  _ ← (if tcp_rst flags then
         fm ← gets flow_map; _ ← set_flow_map (bpf_map_delete_elem fm key);
         sm ← gets seq_map; set_seq_map (bpf_map_delete_elem sm key)
       else mret tt);
  egress_out csum.

(** The branch [else]. *)
Definition egress_new (key : key_t) (csum : Z) : B tc_action :=
  flags ← ld 1 off_flags;
  if negb (tcp_syn flags) || negb (tcp_ack flags) then mret TC_ACT_OK else
  sm ← gets seq_map;
  match bpf_map_lookup_elem sm key with
  | None => mret TC_ACT_OK
  | Some f_seq =>
      seq ← ld 4 off_seq;
      let new_diff := u32 (bswap32 seq - bswap32 f_seq) in
      fm ← gets flow_map;
      _ ← set_flow_map (bpf_map_update_elem fm key new_diff);
      egress_out csum
  end.

Definition egress_tc_prog : B tc_action :=
  b ← past_end off_ip;
  if b : bool then mret TC_ACT_SHOT else
  h_proto ← ld 2 off_h_proto;
  if negb (h_proto =? bswap16 ETH_P_IP) then mret TC_ACT_OK else
  b ← past_end off_tcp;
  if b : bool then mret TC_ACT_SHOT else
  protocol ← ld 1 off_protocol;
  if negb (protocol =? IPPROTO_TCP) then mret TC_ACT_OK else
  b ← past_end off_options;
  if b : bool then mret TC_ACT_SHOT else
  key ← egress_key;
  fm ← gets flow_map;
  check ← ld 2 off_check;
  let csum := u32 (Z.lnot check) in
  match bpf_map_lookup_elem fm key with
  | Some diff => egress_known key diff csum
  | None => egress_new key csum
  end.
End egress.

Definition egress_key_of (p : list Z) : key_t := Key (le_at 4 p off_daddr) (le_at 2 p off_dest) 0.

(** The bytes the program may change. *)
Definition seq_field (i : nat) : Prop :=
  (off_seq <= i < off_seq + 4)%nat \/ (off_check <= i < off_check + 2)%nat.

(** The checksum of a SYN-ACK that only teaches the difference is stored back
    through the fold, which merges the two representations of zero. *)
Definition refolded (check : Z) : Z := if check =? 65535 then 0 else check.

(** ** Execution *)

Section programs.
Context {Mp : Type} `{BpfHash Mp} `{CD : CsumDiff} `{!CsumDiffLaws CD}.
Implicit Types s : bpf_st Mp.

Definition known_out (diff : Z) s s' : Prop :=
  let key := egress_key_of (pkt s) in
  let p1 := set_be32 (pkt s) off_seq (u32 (be_at 4 (pkt s) off_seq - diff)) in
  (exists c, in_u16 c /\ pkt s' = splice p1 off_check (le_bytes 2 c)) /\
  sum16 (tcp_segment (pkt s')) =c= sum16 (tcp_segment (pkt s)) /\
  if tcp_rst (le_at 1 (pkt s) off_flags)
  then flow_map s' = bpf_map_delete_elem (flow_map s) key /\
       seq_map s' = bpf_map_delete_elem (seq_map s) key
  else flow_map s' = flow_map s /\ seq_map s' = seq_map s.

Definition new_out s s' : Prop :=
  let key := egress_key_of (pkt s) in
  let flags := le_at 1 (pkt s) off_flags in
  match (if tcp_syn flags && tcp_ack flags then bpf_map_lookup_elem (seq_map s) key else None) with
  | Some f_seq =>
      seq_map s' = seq_map s /\
      flow_map s' = bpf_map_update_elem (flow_map s) key (u32 (be_at 4 (pkt s) off_seq - bswap32 f_seq)) /\
      pkt s' = splice (pkt s) off_check (le_bytes 2 (refolded (le_at 2 (pkt s) off_check)))
  | None => s' = s
  end.

Lemma csum_lnot check : in_u16 check -> u32 (Z.lnot check) = csum_seed check.
Proof. intros. unfold csum_seed. by rewrite (u32_id check) by modlia. Qed.

Lemma le_at_check p : bytes_ok p -> (off_options <= length p)%nat -> in_u16 (le_at 2 p off_check).
Proof. intros. apply (le_at_range 2); [done | offlia]. Qed.

Lemma wp_egress_known diff s : bytes_ok (pkt s) -> (off_options <= length (pkt s))%nat ->
  wp (egress_known (egress_key_of (pkt s)) diff (csum_seed (le_at 2 (pkt s) off_check)))
    (fun r s' => r = Ret TC_ACT_OK /\ known_out diff s s') s.
Proof.
  intros Hb Hl. unfold egress_known. bpf_step. bpf_step. cbv zeta.
  set (p1 := set_be32 _ _ _). set (csum1 := u32 (bpf_csum_diff _ _ _)).
  assert (length p1 = length (pkt s)) as Hl1 by (apply length_set_be32; offlia).
  assert (csum_tracks 0 (pkt s) p1 csum1) as Ht.
  { apply csum_tracks_set; try offlia; auto using csum_tracks_init, u32_range.
    exists 2%nat. offlia. }
  bpf_step. bpf_step.
  assert (le_at 1 p1 off_flags = le_at 1 (pkt s) off_flags) as Ef
    by (unfold le_at, p1; rewrite slice_set_be32_other; auto; offlia).
  cbn [pkt flow_map seq_map]. rewrite Ef. bpf_step.
  set (p2 := splice p1 off_check (le_bytes 2 (csum_folder_helper csum1))).
  assert (sum16 (tcp_segment p2) =c= sum16 (tcp_segment (pkt s))) as Hsum
    by (apply csum_tracks_exact; [done | lia]).
  unfold egress_out. destruct (tcp_rst (le_at 1 (pkt s) off_flags)) eqn:Er.
  - do 7 bpf_step. bpf_step. bpf_step.
    split; [done|]. unfold known_out. rewrite Er. cbn [pkt flow_map seq_map].
    split_and!; auto. exists (csum_folder_helper csum1). split; [apply csum_folder_range | done].
  - bpf_step. bpf_step. bpf_step. bpf_step.
    split; [done|]. unfold known_out. rewrite Er. cbn [pkt flow_map seq_map].
    split_and!; auto. exists (csum_folder_helper csum1). split; [apply csum_folder_range | done].
Qed.

Lemma wp_egress_new s : bytes_ok (pkt s) -> (off_options <= length (pkt s))%nat ->
  wp (egress_new (egress_key_of (pkt s)) (csum_seed (le_at 2 (pkt s) off_check)))
    (fun r s' => r = Ret TC_ACT_OK /\ new_out s s') s.
Proof.
  intros Hb Hl. unfold egress_new, new_out. bpf_step. bpf_step.
  destruct (tcp_syn _), (tcp_ack _); cbn [negb orb andb]; try by bpf_step.
  bpf_step. bpf_step. destruct (bpf_map_lookup_elem _ _) as [f_seq|]; [|by bpf_step].
  bpf_step. bpf_step. bpf_step. bpf_step. bpf_step. bpf_step. unfold egress_out.
  bpf_step. bpf_step. bpf_step. cbn [pkt flow_map seq_map].
  rewrite bswap32_le_at by (try done; offlia).
  rewrite csum_seed_fold by by apply le_at_check. auto.
Qed.
End programs.

Lemma new_out_cases {Mp} `{BpfHash Mp} (s s' : bpf_st Mp) : new_out s s' ->
  s' = s \/
  (seq_map s' = seq_map s /\
   pkt s' = splice (pkt s) off_check (le_bytes 2 (refolded (le_at 2 (pkt s) off_check)))).
Proof.
  unfold new_out. intros Hn.
  destruct (tcp_syn _ && tcp_ack _); [|by left].
  destruct (bpf_map_lookup_elem _ _); [right; tauto | by left].
Qed.

Section dispatch.
Context {Mp : Type} `{BpfHash Mp} `{CD : CsumDiff} `{!CsumDiffLaws CD}.
Implicit Types s : bpf_st Mp.

Lemma wp_egress_tcp4 (Q : outcome fault tc_action -> bpf_st Mp -> Prop) s :
  is_tcp4 (pkt s) ->
  (let key := egress_key_of (pkt s) in
   let csum := csum_seed (le_at 2 (pkt s) off_check) in
   match bpf_map_lookup_elem (flow_map s) key with
   | Some diff => wp (egress_known key diff csum) Q s
   | None => wp (egress_new key csum) Q s
   end) ->
  wp egress_tc_prog Q s.
Proof.
  intros (Hb & Hl & Hip & Htcp) HQ. unfold egress_tc_prog.
  bpf_step. bpf_step; [offlia|]. bpf_step. bpf_step.
  rewrite proto_is_ip, Hip, Z.eqb_refl by (try done; offlia). cbn [negb].
  bpf_step. bpf_step; [offlia|]. bpf_step. bpf_step. rewrite Htcp, Z.eqb_refl. cbn [negb].
  bpf_step. bpf_step; [offlia|]. bpf_step. unfold egress_key.
  do 9 bpf_step. rewrite csum_lnot by by apply le_at_check.
  unfold egress_key_of in HQ. cbv zeta in HQ. by destruct (bpf_map_lookup_elem _ _).
Qed.

Lemma wp_egress_other s :
  bytes_ok (pkt s) -> ~ is_tcp4 (pkt s) ->
  wp egress_tc_prog (fun r s' => s' = s /\
    ((r = Ret TC_ACT_SHOT /\ truncated (pkt s)) \/ (r = Ret TC_ACT_OK /\ ~ truncated (pkt s)))) s.
Proof.
  intros Hb Hno. unfold egress_tc_prog, truncated.
  bpf_step. bpf_step; [bpf_step; auto|]. bpf_step. bpf_step.
  rewrite proto_is_ip by (try done; offlia).
  destruct (Z.eqb_spec (be_at 2 (pkt s) off_h_proto) ETH_P_IP) as [Hip|Hip]; cbn [negb].
  2: { bpf_step. split; [done|]. right. split; [done|]. intros [?|[? _]]; [lia|done]. }
  bpf_step. bpf_step; [bpf_step; tauto|]. bpf_step. bpf_step.
  destruct (Z.eqb_spec (le_at 1 (pkt s) off_protocol) IPPROTO_TCP) as [Htcp|Htcp]; cbn [negb].
  2: { bpf_step. split; [done|]. right. split; [done|]. intros [?|[_ [?|[? _]]]]; [lia|lia|done]. }
  bpf_step. bpf_step; [bpf_step; tauto|]. exfalso. apply Hno. split_and!; auto.
Qed.

(** Running the program on any packet. *)
Lemma egress_run s : bytes_ok (pkt s) -> exists r s', egress_tc_prog s = (r, s') /\
  if decide (is_tcp4 (pkt s)) then
    r = Ret TC_ACT_OK /\
    match bpf_map_lookup_elem (flow_map s) (egress_key_of (pkt s)) with
    | Some diff => known_out diff s s'
    | None => new_out s s'
    end
  else s' = s /\
    ((r = Ret TC_ACT_SHOT /\ truncated (pkt s)) \/ (r = Ret TC_ACT_OK /\ ~ truncated (pkt s))).
Proof.
  intros Hb. apply wp_run. case_decide as Ht.
  - apply wp_egress_tcp4; [done|]. pose proof Ht as (_ & Hl & _). cbv zeta.
    destruct (bpf_map_lookup_elem _ _) as [diff|].
    + by apply wp_egress_known.
    + by apply wp_egress_new.
  - by apply wp_egress_other.
Qed.
End dispatch.

(** ** Theorems *)

Section theorems.
Context {Mp : Type} `{BpfHash Mp} `{!BpfHashLaws Mp} `{CD : CsumDiff} `{!CsumDiffLaws CD}.
Implicit Types s : bpf_st Mp.

Lemma length_known_out diff s s' : (off_options <= length (pkt s))%nat ->
  known_out diff s s' -> length (pkt s') = length (pkt s).
Proof.
  intros Hl ((c & _ & ->) & _). rewrite length_splice; rewrite ?length_le_bytes, length_set_be32; offlia.
Qed.

(** C22: on any packet the program runs to an action without a load or store
    outside the packet and keeps the packet's length. *)
Theorem egress_memory_safe s : bytes_ok (pkt s) ->
  exists act s', egress_tc_prog s = (Ret act, s') /\ length (pkt s') = length (pkt s).
Proof.
  intros Hb. destruct (egress_run s Hb) as (r & s' & Hrun & Hp). rewrite Hrun.
  case_decide as Ht; [|destruct Hp as (-> & [[-> _]|[-> _]]); eauto].
  destruct Hp as (-> & Hp). exists TC_ACT_OK, s'. split; [done|].
  pose proof Ht as (_ & Hl & _). destruct (bpf_map_lookup_elem _ _) as [diff|].
  - by eapply length_known_out.
  - destruct (new_out_cases _ _ Hp) as [->|(_ & ->)]; [done|].
    apply length_splice. rewrite length_le_bytes. offlia.
Qed.

(** C23: a segment of a known flow leaves with its sequence number moved back
    by the flow's difference modulo 2^32 and every byte but that and the
    checksum untouched; a reset forgets the flow in both maps and no other
    flow in either, and any other segment leaves both maps alone. *)
Theorem egress_translates s diff :
  is_tcp4 (pkt s) -> bpf_map_lookup_elem (flow_map s) (egress_key_of (pkt s)) = Some diff ->
  exists s', egress_tc_prog s = (Ret TC_ACT_OK, s') /\
    be_at 4 (pkt s') off_seq = u32 (be_at 4 (pkt s) off_seq - diff) /\
    (forall i, ~ seq_field i -> pkt s' !! i = pkt s !! i) /\
    (forall k, let gone := tcp_rst (le_at 1 (pkt s) off_flags) && bool_decide (k = egress_key_of (pkt s)) in
       bpf_map_lookup_elem (flow_map s') k = (if gone then None else bpf_map_lookup_elem (flow_map s) k) /\
       bpf_map_lookup_elem (seq_map s') k = (if gone then None else bpf_map_lookup_elem (seq_map s) k)).
Proof.
  intros Ht Hk. pose proof Ht as (Hb & Hl & _).
  destruct (egress_run s Hb) as (r & s' & Hrun & Hp). rewrite decide_True, Hk in Hp by done.
  destruct Hp as (-> & (c & Hc & Hpkt) & _ & Hmaps). exists s'. split; [done|].
  assert (length (set_be32 (pkt s) off_seq (u32 (be_at 4 (pkt s) off_seq - diff))) = length (pkt s))
    by (apply length_set_be32; offlia).
  split_and!.
  - rewrite Hpkt. unfold be_at at 1. rewrite slice_splice_other; rewrite ?length_le_bytes; try offlia.
    apply be_at_set_be32_same; [offlia | apply u32_range].
  - intros i Hi. unfold seq_field in Hi.
    rewrite Hpkt, lookup_splice, decide_False; rewrite ?length_le_bytes; [|tauto|offlia].
    apply lookup_set_be32_other; offlia.
  - intros k. cbv zeta. destruct (tcp_rst _); cbn [andb]; [|destruct Hmaps as [-> ->]; auto].
    destruct Hmaps as [-> ->]. case_bool_decide as Ek.
    + subst k. by rewrite !bpf_lookup_delete_eq.
    + by rewrite !bpf_lookup_delete_ne by congruence.
Qed.

(** the SYN-ACK of a flow whose SYN was recorded teaches the difference:
    server's initial sequence number minus the recorded one, filed under the
    flow's key when the map has room for it.  The packet is not translated,
    and keeps its checksum (a stored 0xffff becomes the equal 0x0000). *)
Theorem egress_learns s f_seq :
  is_tcp4 (pkt s) -> bpf_map_lookup_elem (flow_map s) (egress_key_of (pkt s)) = None ->
  tcp_syn (le_at 1 (pkt s) off_flags) = true -> tcp_ack (le_at 1 (pkt s) off_flags) = true ->
  bpf_map_lookup_elem (seq_map s) (egress_key_of (pkt s)) = Some f_seq ->
  exists s', egress_tc_prog s = (Ret TC_ACT_OK, s') /\ seq_map s' = seq_map s /\
    bpf_map_lookup_elem (flow_map s') (egress_key_of (pkt s)) =
      (if bpf_room (flow_map s) (egress_key_of (pkt s))
       then Some (u32 (be_at 4 (pkt s) off_seq - bswap32 f_seq)) else None) /\
    (forall k, k <> egress_key_of (pkt s) ->
       bpf_map_lookup_elem (flow_map s') k = bpf_map_lookup_elem (flow_map s) k) /\
    le_at 2 (pkt s') off_check = refolded (le_at 2 (pkt s) off_check) /\
    (forall i, ~ (off_check <= i < off_check + 2)%nat -> pkt s' !! i = pkt s !! i).
Proof.
  intros Ht Hk Hsyn Hack Hf. pose proof Ht as (Hb & Hl & _).
  destruct (egress_run s Hb) as (r & s' & Hrun & Hp). rewrite decide_True, Hk in Hp by done.
  destruct Hp as (-> & Hp). unfold new_out in Hp. rewrite Hsyn, Hack, Hf in Hp. cbn [andb] in Hp.
  destruct Hp as (Hq & Hfm & Hpkt). exists s'. split_and!; auto; rewrite ?Hfm, ?Hpkt.
  - destruct (bpf_room _ _) eqn:Er; [by apply bpf_lookup_update_eq|]. by rewrite bpf_lookup_update_full.
  - intros k Hne. by apply bpf_lookup_update_ne.
  - unfold le_at at 1.
    pose proof (slice_splice_same (pkt s) off_check (le_bytes 2 (refolded (le_at 2 (pkt s) off_check)))) as E.
    rewrite length_le_bytes in E. rewrite E by offlia.
    rewrite le_val_bytes. apply Z.mod_small. change (256 ^ Z.of_nat 2) with 65536.
    pose proof (le_at_check _ Hb Hl). unfold refolded. destruct (_ =? _); unfold in_u16 in *; lia.
  - intros i Hi. rewrite lookup_splice, decide_False; rewrite ?length_le_bytes; auto; offlia.
Qed.

(** any other packet -- not IPv4/TCP, or of an unknown flow and not the
    SYN-ACK of a recorded SYN -- goes out untouched and leaves both maps
    alone, unless it ends inside its headers, when it is dropped. *)
Theorem egress_ignores s :
  bytes_ok (pkt s) ->
  (is_tcp4 (pkt s) ->
     bpf_map_lookup_elem (flow_map s) (egress_key_of (pkt s)) = None /\
     (tcp_syn (le_at 1 (pkt s) off_flags) = false \/ tcp_ack (le_at 1 (pkt s) off_flags) = false \/
      bpf_map_lookup_elem (seq_map s) (egress_key_of (pkt s)) = None)) ->
  exists act, egress_tc_prog s = (Ret act, s) /\ (act = TC_ACT_SHOT <-> truncated (pkt s)).
Proof.
  intros Hb Hno. destruct (egress_run s Hb) as (r & s' & Hrun & Hp). rewrite Hrun.
  case_decide as Ht.
  - destruct (Hno Ht) as (Hk & Hor). rewrite Hk in Hp. destruct Hp as (-> & Hp).
    assert (s' = s) as ->.
    { unfold new_out in Hp. destruct (tcp_syn _), (tcp_ack _); try exact Hp.
      destruct Hor as [?|[?|E]]; [done..|]. by rewrite E in Hp. }
    exists TC_ACT_OK. split; [done|]. split; [done|]. intros Htr. exfalso.
    destruct Ht as (_ & Hl & _). unfold truncated in Htr. offlia.
  - destruct Hp as (-> & [[-> Htr]|[-> Htr]]); eexists; split; try done.
Qed.

(** C24: what leaves has a correct TCP checksum exactly when the server sent it
    with one. *)
Theorem egress_keeps_checksum s ph :
  bytes_ok (pkt s) ->
  csum_valid ph (tcp_segment (pkt (snd (egress_tc_prog s)))) <-> csum_valid ph (tcp_segment (pkt s)).
Proof.
  intros Hb. destruct (egress_run s Hb) as (r & s' & Hrun & Hp). rewrite Hrun. unfold csum_valid. simpl.
  case_decide as Ht; [|by destruct Hp as (-> & _)]. destruct Hp as (-> & Hp).
  pose proof Ht as (_ & Hl & _).
  destruct (bpf_map_lookup_elem _ _) as [diff|].
  - destruct Hp as (_ & Hsum & _). by rewrite Hsum.
  - destruct (new_out_cases _ _ Hp) as [->|(_ & ->)]; [done|]. enough (sum16 (tcp_segment (splice (pkt s) off_check
      (le_bytes 2 (refolded (le_at 2 (pkt s) off_check))))) =c= sum16 (tcp_segment (pkt s))) as -> by done.
    unfold refolded. rewrite <- csum_seed_fold by by apply le_at_check.
    apply csum_tracks_exact; [by apply csum_tracks_init | done].
Qed.
End theorems.

(** ** Concrete runs *)

(** Server 10.0.1.2:80 to client 10.0.2.1:40000, seq 9000. *)
Definition sample_out (flags : Z) : list Z :=
  sample_packet [10; 0; 1; 2] [10; 0; 2; 1] [0; 80] [156; 64] [0; 0; 35; 40] [0; 0; 19; 136]
    5 flags [0; 0] [].

Definition sample_out_key : key_t := Key 0x0102000a 0x409c 0.

Definition sample_out_st (flags : Z) (flows seqs : gmap key_t Z) : bpf_st (gmap key_t Z) :=
  BpfSt _ (sample_out flags) flows seqs.

#[local] Existing Instance csum_diff_portable.

Lemma egress_memory_safe_witness :
  exists act s', egress_tc_prog (sample_out_st 16 ∅ ∅) = (Ret act, s') /\ length (pkt s') = 54%nat.
Proof. apply (egress_memory_safe (sample_out_st 16 ∅ ∅)). decide_now. Defined.

(** A reset: the sequence number moves and the flow is gone. *)
Lemma egress_translates_witness :
  exists s', egress_tc_prog (sample_out_st 4 {[sample_out_key := 1000]} {[sample_out_key := 7]}) = (Ret TC_ACT_OK, s') /\
    be_at 4 (pkt s') off_seq = 8000 /\
    bpf_map_lookup_elem (flow_map s') sample_out_key = None /\
    bpf_map_lookup_elem (seq_map s') sample_out_key = None.
Proof.
  destruct (egress_translates (sample_out_st 4 {[sample_out_key := 1000]} {[sample_out_key := 7]}) 1000)
    as (s' & Hrun & Hseq & _ & Hm).
  - decide_now.
  - reflexivity.
  - exists s'. destruct (Hm sample_out_key) as [Hf Hq]. split_and!; [exact Hrun | exact Hseq | exact Hf | exact Hq].
Defined.

(** SYN-ACK 9000 of a SYN recorded with 5000 (in network order). *)
Lemma egress_learns_witness :
  exists s', egress_tc_prog (sample_out_st 18 ∅ {[sample_out_key := 0x88130000]}) = (Ret TC_ACT_OK, s') /\
    bpf_map_lookup_elem (flow_map s') sample_out_key = Some 4000.
Proof.
  destruct (egress_learns (sample_out_st 18 ∅ {[sample_out_key := 0x88130000]}) 0x88130000)
    as (s' & Hrun & _ & Hf & _); try reflexivity.
  - decide_now.
  - exists s'. split; [exact Hrun | exact Hf].
Defined.

Lemma egress_ignores_witness :
  exists act, egress_tc_prog (sample_out_st 18 ∅ ∅) = (Ret act, sample_out_st 18 ∅ ∅) /\
    (act = TC_ACT_SHOT <-> truncated (sample_out 18)).
Proof.
  apply (egress_ignores (sample_out_st 18 ∅ ∅)).
  - decide_now.
  - intros _. split; [reflexivity|]. right. right. reflexivity.
Defined.

Lemma egress_keeps_checksum_witness :
  csum_valid 3 (tcp_segment (pkt (snd (egress_tc_prog (sample_out_st 18 ∅ ∅))))) <->
  csum_valid 3 (tcp_segment (sample_out 18)).
Proof. apply (egress_keeps_checksum (sample_out_st 18 ∅ ∅)). decide_now. Defined.
