(* ===== verification/Splice.v ===== *)
(** * The back-end agent as a whole

    The loader attaches the two programs to one interface and makes them share
    [flow_map] and [seq_map].  Here they run one after the other, in any order
    the traffic takes, over that shared state; the theorems are about what the
    client and the server see of a spliced connection. *)
From Stdlib Require Import ZArith Lia.
From stdpp Require Import base list gmap.
From S2P Require Import Prelude Checksum Bpf Ingress Egress.

(** What passes the interface: a packet in or a packet out. *)
Inductive event : Type := Arrives (p : list Z) | Leaves (p : list Z).

Definition event_packet (e : event) : list Z := match e with Arrives p | Leaves p => p end.

Section agent.
Context {Mp : Type} `{BpfHash Mp} `{CsumDiff}.

(** The two pinned maps. *)
Record agent := Agent { a_flow : Mp; a_seq : Mp }.

Definition load_agent (ag : agent) (p : list Z) : bpf_st Mp := BpfSt Mp p (a_flow ag) (a_seq ag).
Definition store_agent (s : bpf_st Mp) : agent := Agent (flow_map s) (seq_map s).

(** Run a hook: the packet afterwards, [None] when it is dropped, and the maps. *)
Definition on_event (ag : agent) (e : event) : option (list Z) * agent :=
  match e with
  | Arrives p => let '(r, s) := ingress_xdp_prog (load_agent ag p) in
      ((match r with Ret XDP_PASS => Some (pkt s) | _ => None end), store_agent s)
  | Leaves p => let '(r, s) := egress_tc_prog (load_agent ag p) in
      ((match r with Ret TC_ACT_OK => Some (pkt s) | _ => None end), store_agent s)
  end.

Definition run_events (ag : agent) (es : list event) : agent :=
  fold_left (fun ag e => snd (on_event ag e)) es ag.

(** The server's reset of flow [k]: the only event that ends a flow. *)
Definition server_reset (k : key_t) (e : event) : Prop :=
  match e with
  | Arrives _ => False
  | Leaves p => is_tcp4 p /\ egress_key_of p = k /\ tcp_rst (le_at 1 p off_flags) = true
  end.

Definition flow_of (ag : agent) (k : key_t) : option Z := bpf_map_lookup_elem (a_flow ag) k.
End agent.
Arguments agent : clear implicits.

Section lemmas.
Context {Mp : Type} `{BpfHash Mp} `{!BpfHashLaws Mp} `{CD : CsumDiff} `{!CsumDiffLaws CD}.
Implicit Types ag : agent Mp.

Lemma arrives_keeps_flows ag p k : bytes_ok p ->
  flow_of (snd (on_event ag (Arrives p))) k = flow_of ag k.
Proof.
  intros Hb. destruct (ingress_run (load_agent ag p) Hb) as (r & s' & Hrun & Hp).
  unfold on_event. rewrite Hrun. unfold flow_of. simpl.
  case_decide; [|by destruct Hp as (-> & _)].
  destruct (bpf_map_lookup_elem _ _) as [diff|]; [by destruct Hp as ((-> & _) & _) | by destruct Hp as (_ & -> & _)].
Qed.

Lemma leaves_keeps_flow ag p k d : bytes_ok p -> flow_of ag k = Some d ->
  ~ server_reset k (Leaves p) -> flow_of (snd (on_event ag (Leaves p))) k = Some d.
Proof.
  intros Hb Hk Hr. destruct (egress_run (load_agent ag p) Hb) as (r & s' & Hrun & Hp).
  unfold on_event. rewrite Hrun. unfold flow_of in *. simpl in *.
  case_decide as Ht; [|by destruct Hp as (-> & _)]. destruct Hp as (_ & Hp).
  destruct (decide (egress_key_of p = k)) as [<-|Hne].
  - rewrite Hk in Hp. destruct Hp as (_ & _ & Hm). simpl in Hm.
    destruct (tcp_rst _) eqn:Er; [by destruct Hr|]. destruct Hm as [-> _]. done.
  - destruct (bpf_map_lookup_elem (a_flow ag) (egress_key_of p)) as [diff|].
    + destruct Hp as (_ & _ & Hm). simpl in Hm. destruct (tcp_rst _); destruct Hm as [-> _]; [|done].
      by rewrite bpf_lookup_delete_ne.
    + unfold new_out in Hp. simpl in Hp. destruct (tcp_syn _ && tcp_ack _); [|by subst].
      destruct (bpf_map_lookup_elem (a_seq ag) _); [|by subst]. destruct Hp as (_ & -> & _).
      by rewrite bpf_lookup_update_ne.
Qed.

(** A flow lasts as long as the server does not reset it, whatever else
    passes in either direction. *)
Lemma run_events_keep_flow es ag k d :
  Forall (fun e => bytes_ok (event_packet e) /\ ~ server_reset k e) es ->
  flow_of ag k = Some d -> flow_of (run_events ag es) k = Some d.
Proof.
  intros Hes. revert ag. induction Hes as [|e es [Hb Hr] _ IH]; intros ag Hk; [done|].
  apply IH. destruct e as [p|p].
  - by rewrite arrives_keeps_flows.
  - by apply leaves_keeps_flow.
Qed.

(** The two translations of an established flow. *)
Lemma leaves_known ag p k d : is_tcp4 p -> egress_key_of p = k -> flow_of ag k = Some d ->
  exists q, fst (on_event ag (Leaves p)) = Some q /\
    be_at 4 q off_seq = u32 (be_at 4 p off_seq - d).
Proof.
  intros Ht <- Hk. pose proof Ht as (Hb & Hl & _).
  destruct (egress_run (load_agent ag p) Hb) as (r & s' & Hrun & Hp).
  unfold on_event. rewrite Hrun. rewrite decide_True in Hp by done.
  unfold flow_of in Hk. simpl in Hp. rewrite Hk in Hp. destruct Hp as (-> & (c & Hc & Hpkt) & _).
  exists (pkt s'). split; [done|]. rewrite Hpkt. cbn [pkt load_agent]. unfold be_at at 1.
  assert (length (set_be32 p off_seq (u32 (be_at 4 p off_seq - d))) = length p) by (apply length_set_be32; offlia).
  rewrite slice_splice_other; rewrite ?length_le_bytes; try offlia.
  apply be_at_set_be32_same; [offlia | apply u32_range].
Qed.

Lemma arrives_known ag p k d o : is_tcp4 p -> ingress_key_of p = k -> sack_shape p o ->
  flow_of ag k = Some d ->
  exists q, fst (on_event ag (Arrives p)) = Some q /\
    be_at 4 q off_ack_seq = u32 (be_at 4 p off_ack_seq + d).
Proof.
  intros Ht <- Ho Hk. pose proof Ht as (Hb & Hl & _).
  destruct (ingress_run (load_agent ag p) Hb) as (r & s' & Hrun & Hp).
  unfold on_event. rewrite Hrun. rewrite decide_True in Hp by done.
  unfold flow_of in Hk. simpl in Hp. rewrite Hk in Hp. destruct Hp as (_ & Hr).
  destruct r as [[]|]; [by destruct (Hr o) | | done].
  destruct Hr as (o' & c & Ho' & Hc & Hpkt & _). exists (pkt s'). split; [done|].
  rewrite Hpkt. cbn [pkt load_agent] in *. unfold be_at at 1.
  assert (length (acks_shifted d o' p) = length p) by by apply length_acks_shifted.
  rewrite slice_splice_other; rewrite ?length_le_bytes; try offlia. by apply acks_shifted_ack.
Qed.

(** The handshake: the SYN records the switch's number, the SYN-ACK turns it
    into the difference. *)
Lemma handshake_learns ag syn synack k mid :
  is_tcp4 syn -> ingress_key_of syn = k -> tcp_syn (le_at 1 syn off_flags) = true ->
  is_tcp4 synack -> egress_key_of synack = k ->
  tcp_syn (le_at 1 synack off_flags) = true -> tcp_ack (le_at 1 synack off_flags) = true ->
  flow_of ag k = None -> bpf_room (a_flow ag) k = true -> bpf_room (a_seq ag) k = true ->
  mid = snd (on_event ag (Arrives syn)) ->
  flow_of mid k = None /\
  flow_of (snd (on_event mid (Leaves synack))) k =
    Some (u32 (be_at 4 synack off_seq - be_at 4 syn off_ack_seq)).
Proof.
  intros Ht <- Hsyn Ht2 Hk2 Hsyn2 Hack2 Hno Hrf Hrs ->. pose proof Ht as (Hb & Hl & _).
  destruct (ingress_run (load_agent ag syn) Hb) as (r & s' & Hrun & Hp).
  assert (snd (on_event ag (Arrives syn)) = store_agent s') as -> by (unfold on_event; by rewrite Hrun).
  rewrite decide_True in Hp by done.
  unfold flow_of in *. cbn [pkt flow_map load_agent] in Hp. rewrite Hno in Hp.
  destruct Hp as (-> & Hf & Hp). cbn [pkt flow_map seq_map load_agent] in Hp, Hf. rewrite Hsyn in Hp.
  destruct Hp as (Hq & _). cbn [a_flow store_agent]. rewrite Hf. split; [done|].
  pose proof Ht2 as (Hb2 & Hl2 & _).
  destruct (egress_run (load_agent (store_agent s') synack) Hb2) as (r2 & s2 & Hrun2 & Hp2).
  unfold on_event. rewrite Hrun2. rewrite decide_True in Hp2 by done.
  cbn [pkt flow_map load_agent store_agent a_flow] in Hp2. rewrite Hf, Hk2, Hno in Hp2.
  destruct Hp2 as (_ & Hn). unfold new_out in Hn.
  cbn [pkt flow_map seq_map load_agent store_agent a_flow a_seq] in Hn.
  rewrite Hsyn2, Hack2, Hk2, Hq, bpf_lookup_update_eq in Hn by done. cbn [andb] in Hn.
  destruct Hn as (_ & Hfm & _). cbn [snd store_agent a_flow].
  rewrite Hfm, Hf, bpf_lookup_update_eq by done.
  rewrite bswap32_le_at by (try done; offlia). done.
Qed.
End lemmas.

(** ** Theorems *)

Section theorems.
Context {Mp : Type} `{BpfHash Mp} `{!BpfHashLaws Mp} `{CD : CsumDiff} `{!CsumDiffLaws CD}.
Implicit Types ag : agent Mp.

(** C2: splicing.  The switch answered the client with initial number [a0],
    which the SYN to the server carries as its acknowledgement number; the
    server answered with [b0].  From the SYN-ACK on, and whatever traffic
    passes as long as the server does not reset the connection, byte [n] of
    the server's stream leaves as byte [n] of the stream the switch opened,
    and the client's acknowledgement of byte [n] reaches the server as one
    of its own byte [n]. *)
Theorem splice_session ag syn synack es data ack o k n :
  is_tcp4 syn -> ingress_key_of syn = k -> tcp_syn (le_at 1 syn off_flags) = true ->
  is_tcp4 synack -> egress_key_of synack = k ->
  tcp_syn (le_at 1 synack off_flags) = true -> tcp_ack (le_at 1 synack off_flags) = true ->
  flow_of ag k = None -> bpf_room (a_flow ag) k = true -> bpf_room (a_seq ag) k = true ->
  Forall (fun e => bytes_ok (event_packet e) /\ ~ server_reset k e) es ->
  let a0 := be_at 4 syn off_ack_seq in
  let b0 := be_at 4 synack off_seq in
  let ag' := run_events ag (Arrives syn :: Leaves synack :: es) in
  is_tcp4 data -> egress_key_of data = k -> be_at 4 data off_seq = u32 (b0 + n) ->
  is_tcp4 ack -> ingress_key_of ack = k -> sack_shape ack o -> be_at 4 ack off_ack_seq = u32 (a0 + n) ->
  (exists q, fst (on_event ag' (Leaves data)) = Some q /\ be_at 4 q off_seq = u32 (a0 + n)) /\
  (exists q, fst (on_event ag' (Arrives ack)) = Some q /\ be_at 4 q off_ack_seq = u32 (b0 + n)).
Proof.
  intros Ht Hk Hs Ht2 Hk2 Hs2 Ha2 Hno Hrf Hrs Hes a0 b0 ag' Hd Hkd Hseq Hak Hka Ho Hack.
  destruct (handshake_learns ag syn synack k _ Ht Hk Hs Ht2 Hk2 Hs2 Ha2 Hno Hrf Hrs eq_refl) as [_ Hl].
  assert (flow_of ag' k = Some (u32 (b0 - a0))) as Hf.
  { exact (run_events_keep_flow es _ k _ Hes Hl). }
  split.
  - destruct (leaves_known ag' data k _ Hd Hkd Hf) as (q & Hq & E). exists q. split; [done|].
    rewrite E, Hseq, u32_sub_l, u32_sub_r. f_equal. lia.
  - destruct (arrives_known ag' ack k _ o Hak Hka Ho Hf) as (q & Hq & E). exists q. split; [done|].
    rewrite E, Hack, u32_add_l, u32_add_r. f_equal. lia.
Qed.

(** A flow's difference is never altered: it stays what the handshake made
    it under every sequence of packets without the server's reset. *)
Theorem flow_is_stable es ag k d :
  Forall (fun e => bytes_ok (event_packet e) /\ ~ server_reset k e) es ->
  flow_of ag k = Some d -> flow_of (run_events ag es) k = Some d.
Proof. apply run_events_keep_flow. Qed.

(** C25: after a client's reset the flow is still there, and a new connection
    from the same address and port is translated with the old difference: its
    SYN reaches the server with a shifted acknowledgement number instead of 0
    and is not recorded, and the server's SYN-ACK goes out shifted by a
    difference that has nothing to do with it. *)
Theorem client_reset_leaves_flow ag k d rst syn synack :
  flow_of ag k = Some d ->
  is_tcp4 rst -> ingress_key_of rst = k -> tcp_rst (le_at 1 rst off_flags) = true ->
  is_tcp4 syn -> ingress_key_of syn = k -> tcp_syn (le_at 1 syn off_flags) = true ->
  sack_shape syn None ->
  is_tcp4 synack -> egress_key_of synack = k -> tcp_rst (le_at 1 synack off_flags) = false ->
  let ag1 := run_events ag [Arrives rst] in
  let ag2 := run_events ag1 [Arrives syn] in
  a_seq ag2 = a_seq ag /\
  (exists q, fst (on_event ag1 (Arrives syn)) = Some q /\
     be_at 4 q off_ack_seq = u32 (be_at 4 syn off_ack_seq + d)) /\
  (exists q, fst (on_event ag2 (Leaves synack)) = Some q /\
     be_at 4 q off_seq = u32 (be_at 4 synack off_seq - d)) /\
  flow_of (run_events ag2 [Leaves synack]) k = Some d.
Proof.
  intros Hk Htr Hkr Hr Hts Hks Hs Ho Hta Hka Hra ag1 ag2.
  assert (forall ag0 p, flow_of ag0 k = Some d -> is_tcp4 p -> ingress_key_of p = k ->
            a_seq (run_events ag0 [Arrives p]) = a_seq ag0 /\ flow_of (run_events ag0 [Arrives p]) k = Some d) as Hin.
  { intros ag0 p Hk0 Ht0 Hkp. pose proof Ht0 as (Hb0 & _). split.
    - destruct (ingress_run (load_agent ag0 p) Hb0) as (r & s' & Hrun & Hp).
      unfold run_events; simpl. rewrite Hrun. simpl. rewrite decide_True in Hp by done.
      simpl in Hp. rewrite Hkp in Hp. unfold flow_of in Hk0. rewrite Hk0 in Hp.
      by destruct Hp as ((_ & Hq & _) & _).
    - unfold run_events. cbn [fold_left]. by rewrite arrives_keeps_flows. }
  destruct (Hin ag rst Hk Htr Hkr) as [Hq1 Hk1]. destruct (Hin ag1 syn Hk1 Hts Hks) as [Hq2 Hk2].
  split_and!.
  - unfold ag2. rewrite Hq2. exact Hq1.
  - by apply (arrives_known ag1 syn k d None).
  - by apply (leaves_known ag2 synack k d).
  - apply run_events_keep_flow; [|done]. constructor; [|done]. pose proof Hta as (Hba & _).
    split; [exact Hba|]. simpl. intros (_ & _ & E). congruence.
Qed.
End theorems.

(** ** Concrete runs *)

#[local] Existing Instance csum_diff_portable.

Definition sample_agent (flows : gmap key_t Z) : agent (gmap key_t Z) := Agent flows ∅.

(** The client acknowledges 100 bytes of the switch's space (5000 + 100). *)
Definition sample_ack : list Z :=
  sample_packet [10; 0; 2; 1] [10; 0; 1; 2] [156; 64] [0; 80] [0; 0; 3; 232] [0; 0; 19; 236]
    5 16 [0; 0] [].

(** The server's byte 100: sequence number 9000 + 100. *)
Definition sample_data : list Z :=
  sample_packet [10; 0; 1; 2] [10; 0; 2; 1] [0; 80] [156; 64] [0; 0; 35; 140] [0; 0; 19; 136]
    5 16 [0; 0] [].

Lemma no_options_shape p : (tcp_doff (le_at 1 p off_doff) <=? 5) = true -> sack_shape p None.
Proof. intros. apply shape_none. by apply Z.leb_le. Qed.

Lemma splice_session_witness :
  let ag' := run_events (sample_agent ∅)
    [Arrives (sample_in 2 [0; 0] []); Leaves (sample_out 18); Leaves sample_data] in
  (exists q, fst (on_event ag' (Leaves sample_data)) = Some q /\ be_at 4 q off_seq = 5100) /\
  (exists q, fst (on_event ag' (Arrives sample_ack)) = Some q /\ be_at 4 q off_ack_seq = 9100).
Proof.
  apply (splice_session (sample_agent ∅) (sample_in 2 [0; 0] []) (sample_out 18) [Leaves sample_data]
           sample_data sample_ack None sample_key 100); try reflexivity; try decide_now.
  - constructor; [|done]. split; [decide_now|]. intros (_ & _ & E). discriminate.
  - by apply no_options_shape.
Defined.

Lemma flow_is_stable_witness :
  flow_of (run_events (sample_agent {[sample_key := 4000]}) [Arrives (sample_in 4 [0; 0] []); Leaves sample_data])
    sample_key = Some 4000.
Proof.
  apply (flow_is_stable [Arrives (sample_in 4 [0; 0] []); Leaves sample_data]
           (sample_agent {[sample_key := 4000]})).
  - repeat constructor; try decide_now; try (intros (_ & _ & E); discriminate); intros [].
  - reflexivity.
Defined.

Lemma client_reset_leaves_flow_witness :
  let ag1 := run_events (sample_agent {[sample_key := 4000]}) [Arrives (sample_in 4 [0; 0] [])] in
  exists q, fst (on_event ag1 (Arrives (sample_in 2 [0; 0] []))) = Some q /\ be_at 4 q off_ack_seq = 9000.
Proof.
  destruct (client_reset_leaves_flow (sample_agent {[sample_key := 4000]}) sample_key 4000
    (sample_in 4 [0; 0] []) (sample_in 2 [0; 0] []) (sample_out 18)) as (_ & Hq & _);
    try reflexivity; try decide_now.
  - by apply no_options_shape.
  - exact Hq.
Defined.
