(* ===== verification/Loader.v ===== *)
(** * The loader of the back-end agent

    [main] of Backend/xdp_loader.c loads the two programs of [Ingress] and
    [Egress], attaches them to one interface, and makes the second use the maps of
    the first, which [Splice] takes for granted.  Everything it does it does
    through libbpf, which is a parameter here: the calls, the part of the kernel's
    state they act on, and what a call that succeeds does to it; any call may
    fail, and then leaves that state as it was. *)
From Stdlib Require Import ZArith Lia String.
From stdpp Require Import base list gmap strings.
From S2P Require Import Prelude.

(** ** The library *)

(** The calls, with the type of what they return.  [XDP_FLAGS] is always the same:
    the driver's mode, and only where no program is attached; the hook is always
    the interface's egress, the priority 1. *)
Inductive bpf_call : Type -> Type :=
| if_nametoindex (ifname : string) : bpf_call Z
| bpf_object__open_file (file : string) : bpf_call Z
| bpf_object__load (obj : Z) : bpf_call unit
| bpf_object__find_program_by_title (obj : Z) (title : string) : bpf_call Z
| bpf_program__fd (prog : Z) : bpf_call Z
| bpf_set_link_xdp_fd (ifindex fd : Z) : bpf_call unit
| bpf_object__find_map_by_name (obj : Z) (name : string) : bpf_call Z
| bpf_map__pin (map : Z) (path : string) : bpf_call unit
| bpf_obj_get (path : string) : bpf_call Z
| bpf_map__reuse_fd (map fd : Z) : bpf_call unit
| bpf_tc_hook_create (ifindex : Z) : bpf_call unit
| bpf_tc_attach (ifindex fd : Z) : bpf_call unit.

(** An object: the file it comes from, whether it is in the kernel, and the kernel's
    map, if there is one yet, behind each of its maps. *)
Record bpf_obj := Obj { o_file : string; o_loaded : bool; o_maps : gmap string (option Z) }.
(** A program in the kernel: where it comes from, and the maps it uses. *)
Record kprog := KProg { k_file : string; k_title : string; k_maps : gmap string (option Z) }.
Inductive kfd : Type := FdProg (p : kprog) | FdMap (id : Z).

Record kern := Kern {
  k_objs : gmap Z bpf_obj;
  k_fds : gmap Z kfd;
  k_pinned : gmap string Z;
  k_xdp : gmap Z kprog;
  k_hooks : gset Z;
  k_egress : gmap Z kprog
}.

Definition set_obj (o : Z) (ob : bpf_obj) (k : kern) : kern :=
  Kern (<[o := ob]> (k_objs k)) (k_fds k) (k_pinned k) (k_xdp k) (k_hooks k) (k_egress k).
Definition set_fd (fd : Z) (x : kfd) (k : kern) : kern :=
  Kern (k_objs k) (<[fd := x]> (k_fds k)) (k_pinned k) (k_xdp k) (k_hooks k) (k_egress k).
Definition set_pin (path : string) (id : Z) (k : kern) : kern :=
  Kern (k_objs k) (k_fds k) (<[path := id]> (k_pinned k)) (k_xdp k) (k_hooks k) (k_egress k).
Definition set_xdp (i : Z) (p : kprog) (k : kern) : kern :=
  Kern (k_objs k) (k_fds k) (k_pinned k) (<[i := p]> (k_xdp k)) (k_hooks k) (k_egress k).
Definition add_hook (i : Z) (k : kern) : kern :=
  Kern (k_objs k) (k_fds k) (k_pinned k) (k_xdp k) ({[i]} ∪ k_hooks k) (k_egress k).
Definition set_egress (i : Z) (p : kprog) (k : kern) : kern :=
  Kern (k_objs k) (k_fds k) (k_pinned k) (k_xdp k) (k_hooks k) (<[i := p]> (k_egress k)).
Definition close_obj (o : Z) (k : kern) : kern :=
  Kern (delete o (k_objs k)) (k_fds k) (k_pinned k) (k_xdp k) (k_hooks k) (k_egress k).

(** The interfaces, what the object files hold, and what handles stand for. *)
Class BpfNames := {
  ifindex_of : string -> option Z;
  elf_progs : string -> gset string;
  elf_maps : string -> gset string;
  map_ref : Z -> Z * string;
  prog_ref : Z -> Z * string
}.

(** Loading makes a map for each one that has none, all different. *)
Definition loads (ms ms' : gmap string (option Z)) : Prop :=
  (forall n id, ms !! n = Some (Some id) -> ms' !! n = Some (Some id)) /\
  (forall n, ms !! n = Some None -> exists id, ms' !! n = Some (Some id)) /\
  (forall n n' id, ms !! n = Some None -> ms !! n' = Some None ->
     ms' !! n = Some (Some id) -> ms' !! n' = Some (Some id) -> n = n').

(** What a successful call does. *)
Definition bpf_eff `{BpfNames} {A} (c : bpf_call A) : kern -> A -> kern -> Prop :=
  match c in bpf_call A return kern -> A -> kern -> Prop with
  | if_nametoindex n => fun k i k' => ifindex_of n = Some i /\ k' = k
  | bpf_object__open_file f => fun k o k' => k_objs k !! o = None /\
      k' = set_obj o (Obj f false (gset_to_gmap None (elf_maps f))) k
  | bpf_object__load o => fun k _ k' => exists f ms ms', k_objs k !! o = Some (Obj f false ms) /\ loads ms ms' /\
      k' = set_obj o (Obj f true ms') k
  | bpf_object__find_program_by_title o t => fun k p k' => exists ob, k_objs k !! o = Some ob /\
      t ∈ elf_progs (o_file ob) /\ prog_ref p = (o, t) /\ k' = k
  | bpf_program__fd p => fun k fd k' => exists f ms, k_objs k !! fst (prog_ref p) = Some (Obj f true ms) /\
      k_fds k !! fd = None /\ k' = set_fd fd (FdProg (KProg f (snd (prog_ref p)) ms)) k
  | bpf_set_link_xdp_fd i fd => fun k _ k' => exists p, k_fds k !! fd = Some (FdProg p) /\ k_xdp k !! i = None /\ k' = set_xdp i p k
  | bpf_object__find_map_by_name o n => fun k m k' => exists ob, k_objs k !! o = Some ob /\
      is_Some (o_maps ob !! n) /\ map_ref m = (o, n) /\ k' = k
  | bpf_map__pin m path => fun k _ k' => exists ob id, k_objs k !! fst (map_ref m) = Some ob /\
      o_maps ob !! snd (map_ref m) = Some (Some id) /\ k_pinned k !! path = None /\ k' = set_pin path id k
  | bpf_obj_get path => fun k fd k' => exists id, k_pinned k !! path = Some id /\ k_fds k !! fd = None /\
      k' = set_fd fd (FdMap id) k
  | bpf_map__reuse_fd m fd => fun k _ k' => exists f ms id, k_objs k !! fst (map_ref m) = Some (Obj f false ms) /\
      is_Some (ms !! snd (map_ref m)) /\ k_fds k !! fd = Some (FdMap id) /\
      k' = set_obj (fst (map_ref m)) (Obj f false (<[snd (map_ref m) := Some id]> ms)) k
  | bpf_tc_hook_create i => fun k _ k' => ~ i ∈ k_hooks k /\ k' = add_hook i k
  | bpf_tc_attach i fd => fun k _ k' => exists p, k_fds k !! fd = Some (FdProg p) /\ i ∈ k_hooks k /\ k' = set_egress i p k
  end.

(** A library: how it answers a call, [None] for a failure, and the state of the
    kernel; [bpf_object__close] cannot fail. *)
Class LibBpf (D : Type) := {
  bpf_exec : forall {A}, bpf_call A -> D -> option A * D;
  bpf_object__close : Z -> D -> D;
  kern_of : D -> kern
}.

Class LibBpfLaws (D : Type) `{LibBpf D} `{BpfNames} : Prop := {
  bpf_exec_some {A} (c : bpf_call A) d a d' : bpf_exec c d = (Some a, d') -> bpf_eff c (kern_of d) a (kern_of d');
  bpf_exec_none {A} (c : bpf_call A) d d' : bpf_exec c d = (None, d') -> kern_of d' = kern_of d;
  bpf_close_obj o d : kern_of (bpf_object__close o d) = close_obj o (kern_of d)
}.

(** A library that refuses only what the state does not allow. *)
Definition dependable (D : Type) `{LibBpf D} `{BpfNames} : Prop :=
  forall A (c : bpf_call A) d a k', bpf_eff c (kern_of d) a k' -> exists a' d', bpf_exec c d = (Some a', d').

(** ** The program *)

Section loader.
Context {D : Type} `{LibBpf D}.

(** The value [main] returns early is the error. *)
Abbreviation L := (M D Z).

(** A call; when it fails, close these objects and return 1. *)
Definition try {A} (c : bpf_call A) (objs : list Z) : L A := fun d =>
  match bpf_exec c d with
  | (Some a, d) => (Ret a, d)
  | (None, d) => (Err 1, foldl (fun d o => bpf_object__close o d) d objs)
  end.

Definition ingress_filename : string := "ingress_xdp.o".
Definition egress_filename : string := "egress_tc.o".
Definition flow_map_path : string := "/sys/fs/bpf/flow_map".
Definition seq_map_path : string := "/sys/fs/bpf/seq_map".

(** Lines 27-57: the ingress program, attached. *)
Definition load_ingress (ifindex : Z) : L Z :=
  ingress_obj ← try (bpf_object__open_file ingress_filename) [];
  _ ← try (bpf_object__load ingress_obj) [ingress_obj];
  ingress_prog ← try (bpf_object__find_program_by_title ingress_obj "xdp") [ingress_obj];
  ingress_prog_fd ← try (bpf_program__fd ingress_prog) [ingress_obj];
  _ ← try (bpf_set_link_xdp_fd ifindex ingress_prog_fd) [ingress_obj];
  mret ingress_obj.

(** Lines 59-84: its maps, pinned. *)
Definition pin_map (ingress_obj : Z) (name path : string) : L unit :=
  m ← try (bpf_object__find_map_by_name ingress_obj name) [ingress_obj];
  try (bpf_map__pin m path) [ingress_obj].

(** Lines 95-118 and 120-142: one map of the egress program replaced by a pinned one. *)
Definition reuse_map (ingress_obj egress_obj : Z) (name path : string) : L unit :=
  m ← try (bpf_object__find_map_by_name egress_obj name) [ingress_obj; egress_obj];
  fd ← try (bpf_obj_get path) [ingress_obj; egress_obj];
  try (bpf_map__reuse_fd m fd) [ingress_obj; egress_obj].

(** Lines 143-185: the egress program, attached. *)
Definition load_egress (ifindex egress_obj : Z) : L unit :=
  _ ← try (bpf_object__load egress_obj) [egress_obj];
  egress_prog ← try (bpf_object__find_program_by_title egress_obj "classifier") [egress_obj];
  egress_prog_fd ← try (bpf_program__fd egress_prog) [egress_obj];
  _ ← try (bpf_tc_hook_create ifindex) [];
  try (bpf_tc_attach ifindex egress_prog_fd) [].

Definition loader_main (argc : Z) (ifname : string) : L unit :=
  if negb (argc =? 2) then fail 1 else
  ifindex ← try (if_nametoindex ifname) [];
  ingress_obj ← load_ingress ifindex;
  _ ← pin_map ingress_obj "flow_map" flow_map_path;
  _ ← pin_map ingress_obj "seq_map" seq_map_path;
  egress_obj ← try (bpf_object__open_file egress_filename) [];
  _ ← reuse_map ingress_obj egress_obj "flow_map" flow_map_path;
  _ ← reuse_map ingress_obj egress_obj "seq_map" seq_map_path;
  load_egress ifindex egress_obj.
End loader.

(** ** Proofs *)

Section proofs.
Context {D : Type} `{LibBpf D} `{BpfNames} `{!LibBpfLaws D}.
Implicit Types (d : D) (k : kern).

Definition closed (objs : list Z) k : kern := foldl (fun k o => close_obj o k) k objs.

Lemma kern_closed objs : forall d, kern_of (foldl (fun d o => bpf_object__close o d) d objs) = closed objs (kern_of d).
Proof. induction objs as [|o objs IH]; intros d; cbn; [done|]. by rewrite IH, bpf_close_obj. Qed.

Lemma wp_try {A} (c : bpf_call A) objs (Q : outcome Z A -> D -> Prop) d :
  (forall a d', bpf_eff c (kern_of d) a (kern_of d') -> Q (Ret a) d') ->
  (forall d', kern_of d' = closed objs (kern_of d) -> (dependable D -> forall a k', ~ bpf_eff c (kern_of d) a k') -> Q (Err 1) d') ->
  wp (try c objs) Q d.
Proof.
  intros Hs Hn. unfold wp, try. destruct (bpf_exec c d) as [[a|] d'] eqn:E; cbn.
  - by apply Hs, bpf_exec_some.
  - apply Hn; [by rewrite kern_closed, (bpf_exec_none c d d' E)|].
    intros Hd a k' He. destruct (Hd A c d a k' He) as (a' & d'' & E'). rewrite E in E'. discriminate.
Qed.

(** What closing objects leaves alone. *)
Definition same_attached k k' : Prop :=
  k_pinned k' = k_pinned k /\ k_xdp k' = k_xdp k /\ k_hooks k' = k_hooks k /\ k_egress k' = k_egress k.

Lemma same_attached_closed objs k0 : forall k, same_attached k0 k -> same_attached k0 (closed objs k).
Proof. induction objs as [|o objs IH]; intros k Hk; [done|]. exact (IH (close_obj o k) Hk). Qed.

Lemma set_obj_set_obj o a b k : set_obj o a (set_obj o b k) = set_obj o a k.
Proof. unfold set_obj. cbn. by rewrite insert_insert_eq. Qed.

(** The maps of a file that has just been opened. *)
Abbreviation opened f := (gset_to_gmap (None : option Z) (elf_maps f)).

Lemma loads_exist ms : exists ms', loads ms ms'.
Proof.
  exists (map_imap (fun n v => Some (Some (match v with Some id => id | None => Z.pos (encode n) end))) ms).
  split_and!.
  - intros n id E. by rewrite map_lookup_imap, E.
  - intros n E. rewrite map_lookup_imap, E. by eexists.
  - intros n n' id E E'. rewrite !map_lookup_imap, E, E'. cbn. intros [= <-] [= E2]. by apply (inj encode).
Qed.

(** What the files must hold, and that every object has handles. *)
Record files_ok : Prop := {
  f_map_ref o n : exists m, map_ref m = (o, n);
  f_prog_ref o t : exists p, prog_ref p = (o, t);
  f_ingress : "xdp"%string ∈ elf_progs ingress_filename;
  f_egress : "classifier"%string ∈ elf_progs egress_filename;
  f_maps f n : f = ingress_filename \/ f = egress_filename -> n = "flow_map"%string \/ n = "seq_map"%string -> n ∈ elf_maps f
}.

Lemma fresh_obj k : exists o, k_objs k !! o = None.
Proof. exists (fresh (dom (k_objs k))). apply not_elem_of_dom, is_fresh. Qed.
Lemma fresh_fd k : exists fd, k_fds k !! fd = None.
Proof. exists (fresh (dom (k_fds k))). apply not_elem_of_dom, is_fresh. Qed.

(** The state with the ingress program loaded and attached. *)
Definition with_ingress i o fd ms k : kern :=
  let p := KProg ingress_filename "xdp" ms in set_xdp i p (set_fd fd (FdProg p) (set_obj o (Obj ingress_filename true ms) k)).

Lemma wp_load_ingress i (Q : outcome Z Z -> D -> Prop) d : let k := kern_of d in
  (forall o fd ms d', k_objs k !! o = None -> loads (opened ingress_filename) ms -> k_xdp k !! i = None ->
     kern_of d' = with_ingress i o fd ms k -> Q (Ret o) d') ->
  (forall d', same_attached k (kern_of d') -> ~ (dependable D /\ files_ok /\ k_xdp k !! i = None) -> Q (Err 1) d') ->
  wp (load_ingress i) Q d.
Proof.
  intros k Hs Hf. unfold load_ingress.
  apply wp_bind, wp_try; [intros o d1 (Ho & K1) | intros d1 K1 Hn].
  2: { apply Hf; [by rewrite K1|]. intros (Hd & _). destruct (fresh_obj k) as [o Ho]. by eapply (Hn Hd o). }
  apply wp_bind, wp_try; rewrite K1; [intros [] d2 (f & ms0 & ms & E & Hl & K2) | intros d2 K2 Hn].
  2: { apply Hf; [rewrite K2; by apply same_attached_closed|]. intros (Hd & _).
       destruct (loads_exist (opened ingress_filename)) as [ms Hms]. eapply (Hn Hd tt). do 3 eexists.
       split; [apply lookup_insert_eq | by split]. }
  cbn in E. rewrite lookup_insert_eq in E. injection E as <- <-. rewrite set_obj_set_obj in K2.
  apply wp_bind, wp_try; rewrite K2; [intros p d3 (ob & E & _ & Ep & K3) | intros d3 K3 Hn].
  2: { apply Hf; [rewrite K3; by apply same_attached_closed|]. intros (Hd & Hfo & _).
       destruct (f_prog_ref Hfo o "xdp") as [p Ep]. eapply (Hn Hd p). eexists. split; [apply lookup_insert_eq|].
       split; [apply (f_ingress Hfo) | by split]. }
  clear E ob. apply wp_bind, wp_try; rewrite K3; [intros fd d4 (f & ms' & E & _ & K4) | intros d4 K4 Hn].
  2: { apply Hf; [rewrite K4; by apply same_attached_closed|]. intros (Hd & _).
       destruct (fresh_fd (set_obj o (Obj ingress_filename true ms) k)) as [fd Hfd]. eapply (Hn Hd fd). do 2 eexists.
       rewrite Ep. split; [apply lookup_insert_eq | by split]. }
  rewrite Ep in E, K4. cbn in E. rewrite lookup_insert_eq in E. injection E as <- <-. cbn [snd] in K4.
  apply wp_bind, wp_try; rewrite K4; [intros [] d5 (p' & E & Hx & K5) | intros d5 K5 Hn].
  2: { apply Hf; [rewrite K5; by apply same_attached_closed|]. intros (Hd & _ & Hx).
       eapply (Hn Hd tt). eexists. split; [apply lookup_insert_eq | by split]. }
  cbn in E. rewrite lookup_insert_eq in E. injection E as <-. apply wp_ret. by eapply Hs.
Qed.

Lemma wp_pin_map o n path ob (Q : outcome Z unit -> D -> Prop) d : let k := kern_of d in
  k_objs k !! o = Some ob ->
  (forall id d', o_maps ob !! n = Some (Some id) -> k_pinned k !! path = None -> kern_of d' = set_pin path id k -> Q (Ret tt) d') ->
  (forall d', same_attached k (kern_of d') ->
     ~ (dependable D /\ files_ok /\ (exists id, o_maps ob !! n = Some (Some id)) /\ k_pinned k !! path = None) -> Q (Err 1) d') ->
  wp (pin_map o n path) Q d.
Proof.
  intros k Eo Hs Hf. unfold pin_map.
  apply wp_bind, wp_try; [intros m d1 (ob' & E & _ & Em & K1) | intros d1 K1 Hn].
  2: { apply Hf; [rewrite K1; by apply same_attached_closed|]. intros (Hd & Hfo & (id & Eid) & _).
       destruct (f_map_ref Hfo o n) as [m Em]. eapply (Hn Hd m). exists ob. split; [done|]. by rewrite Eid. }
  clear E ob'. apply wp_try; rewrite K1; [intros [] d2 (ob' & id & E & Eid & Hp & K2) | intros d2 K2 Hn].
  - rewrite Em in E, Eid. cbn in E, Eid. fold k in E. rewrite Eo in E. injection E as <-. by eapply Hs.
  - apply Hf; [rewrite K2; by apply same_attached_closed|]. intros (Hd & _ & (id & Eid) & Hp). eapply (Hn Hd tt).
    exists ob, id. rewrite Em. cbn. by split_and!.
Qed.

Lemma wp_reuse_map io e n path f ms (Q : outcome Z unit -> D -> Prop) d : let k := kern_of d in
  k_objs k !! e = Some (Obj f false ms) ->
  (forall id fd d', k_pinned k !! path = Some id -> kern_of d' = set_obj e (Obj f false (<[n := Some id]> ms)) (set_fd fd (FdMap id) k) ->
     Q (Ret tt) d') ->
  (forall d', same_attached k (kern_of d') ->
     ~ (dependable D /\ files_ok /\ is_Some (ms !! n) /\ is_Some (k_pinned k !! path)) -> Q (Err 1) d') ->
  wp (reuse_map io e n path) Q d.
Proof.
  intros k Eo Hs Hf. unfold reuse_map.
  apply wp_bind, wp_try; [intros m d1 (ob' & E & Hm & Em & K1) | intros d1 K1 Hn].
  2: { apply Hf; [rewrite K1; by apply same_attached_closed|]. intros (Hd & Hfo & Hm & _).
       destruct (f_map_ref Hfo e n) as [m Em]. eapply (Hn Hd m). by exists (Obj f false ms). }
  fold k in E. rewrite Eo in E. injection E as <-. cbn in Hm.
  apply wp_bind, wp_try; rewrite K1; [intros fd d2 (id & Ep & _ & K2) | intros d2 K2 Hn].
  2: { apply Hf; [rewrite K2; by apply same_attached_closed|]. intros (Hd & _ & _ & (id & Eid)).
       destruct (fresh_fd k) as [fd Hfd]. eapply (Hn Hd fd). by exists id. }
  apply wp_try; rewrite K2; [intros [] d3 (f' & ms' & id' & E & _ & Efd & K3) | intros d3 K3 Hn].
  - rewrite Em in E, K3. cbn in E, K3. fold k in E. rewrite Eo in E. injection E as <- <-.
    cbn in Efd. rewrite lookup_insert_eq in Efd. injection Efd as <-. by eapply Hs.
  - apply Hf; [rewrite K3; by apply same_attached_closed|]. intros (Hd & _). eapply (Hn Hd tt).
    exists f, ms, id. rewrite Em. cbn. split_and!; try done. apply lookup_insert_eq.
Qed.

(** Up to the hook, which is empty without a program. *)
Definition same_programs k k' : Prop := k_xdp k' = k_xdp k /\ k_egress k' = k_egress k.

Lemma wp_load_egress i e ms (Q : outcome Z unit -> D -> Prop) d : let k := kern_of d in
  k_objs k !! e = Some (Obj egress_filename false ms) ->
  (forall ms' d', loads ms ms' -> k_xdp (kern_of d') = k_xdp k ->
     k_egress (kern_of d') = <[i := KProg egress_filename "classifier" ms']> (k_egress k) -> Q (Ret tt) d') ->
  (forall d', same_programs k (kern_of d') -> ~ (dependable D /\ files_ok /\ ~ i ∈ k_hooks k) -> Q (Err 1) d') ->
  wp (load_egress i e) Q d.
Proof.
  intros k Eo Hs Hf. unfold load_egress.
  assert (forall objs k1 d', kern_of d' = closed objs k1 -> same_attached k k1 -> same_programs k (kern_of d')) as Hsame.
  { intros objs k1 d' -> H1. destruct (same_attached_closed objs k k1 H1) as (_ & ? & _ & ?). by split. }
  apply wp_bind, wp_try; [intros [] d1 (f & ms0 & ms' & E & Hl & K1) | intros d1 K1 Hn].
  2: { apply Hf; [by eapply Hsame|]. intros (Hd & _). destruct (loads_exist ms) as [ms' Hms].
       eapply (Hn Hd tt). by exists egress_filename, ms, ms'. }
  fold k in E. rewrite Eo in E. injection E as <- <-.
  apply wp_bind, wp_try; rewrite K1; [intros p d2 (ob & E & _ & Ep & K2) | intros d2 K2 Hn].
  2: { apply Hf; [by eapply Hsame|]. intros (Hd & Hfo & _). destruct (f_prog_ref Hfo e "classifier") as [p Ep].
       eapply (Hn Hd p). eexists. split; [apply lookup_insert_eq|]. split; [apply (f_egress Hfo) | by split]. }
  clear E ob. apply wp_bind, wp_try; rewrite K2; [intros fd d3 (f & ms1 & E & _ & K3) | intros d3 K3 Hn].
  2: { apply Hf; [by eapply Hsame|]. intros (Hd & _).
       destruct (fresh_fd (set_obj e (Obj egress_filename true ms') k)) as [fd Hfd]. eapply (Hn Hd fd). do 2 eexists.
       rewrite Ep. split; [apply lookup_insert_eq | by split]. }
  rewrite Ep in E, K3. cbn in E. rewrite lookup_insert_eq in E. injection E as <- <-. cbn [snd] in K3.
  apply wp_bind, wp_try; rewrite K3; [intros [] d4 (_ & K4) | intros d4 K4 Hn].
  2: { apply Hf; [by eapply Hsame|]. intros (Hd & _ & Hi). by eapply (Hn Hd tt). }
  apply wp_try; rewrite K4; [intros [] d5 (p' & E & _ & K5) | intros d5 K5 Hn].
  - cbn in E. rewrite lookup_insert_eq in E. injection E as <-. apply (Hs ms'); [done | by rewrite K5 | by rewrite K5].
  - apply Hf; [by rewrite K5|]. intros (Hd & _). eapply (Hn Hd tt). eexists.
    split; [apply lookup_insert_eq|]. split; [cbn; set_solver | done].
Qed.

(** ** The whole program *)

(** Both programs are attached, over the same two maps. *)
Definition installed i k : Prop := exists a b mi me, a <> b /\
  k_xdp k !! i = Some (KProg ingress_filename "xdp" mi) /\ k_egress k !! i = Some (KProg egress_filename "classifier" me) /\
  mi !! "flow_map"%string = Some (Some a) /\ me !! "flow_map"%string = Some (Some a) /\
  mi !! "seq_map"%string = Some (Some b) /\ me !! "seq_map"%string = Some (Some b).

(** Nothing is left of an earlier run. *)
Definition untouched i k : Prop :=
  k_xdp k !! i = None /\ k_pinned k !! flow_map_path = None /\ k_pinned k !! seq_map_path = None /\ ~ i ∈ k_hooks k.

Definition ingress_attached i k : Prop := exists ms, k_xdp k !! i = Some (KProg ingress_filename "xdp" ms).

Definition loader_post i k (r : outcome Z unit) (d' : D) : Prop :=
  match r with
  | Ret _ => installed i (kern_of d') /\ k_pinned k !! flow_map_path = None
  | Err e => e = 1 /\ k_egress (kern_of d') = k_egress k /\ ~ (dependable D /\ untouched i k) /\
      (dependable D -> k_xdp k !! i = None -> ingress_attached i (kern_of d'))
  end.

Lemma opened_map n f : files_ok -> f = ingress_filename \/ f = egress_filename -> n = "flow_map"%string \/ n = "seq_map"%string ->
  opened f !! n = Some None.
Proof. intros Hfo Hf Hn. apply lookup_gset_to_gmap_Some. split; [by apply (f_maps Hfo) | done]. Qed.

Lemma wp_loader ifname i d : files_ok -> ifindex_of ifname = Some i -> wp (loader_main 2 ifname) (loader_post i (kern_of d)) d.
Proof.
  intros Hfo Hi. set (k := kern_of d). unfold loader_main. cbn [Z.eqb Pos.eqb negb].
  apply wp_bind, wp_try; [intros i' d1 (Hi' & K1) | intros d1 K1 Hn].
  2: { split; [done|]. split; [by rewrite K1|]. split; [intros [Hd _] | intros Hd _]; by destruct (Hn Hd i (kern_of d)). }
  rewrite Hi in Hi'. injection Hi' as <-. apply wp_bind, wp_load_ingress; rewrite K1; fold k.
  2: { intros d2 (P2 & X2 & H2 & E2) Hn. split; [done|]. split; [done|]. split; [by intros (Hd & Hx & _); apply Hn|].
       intros Hd Hx. by destruct Hn. }
  intros o fd ms d2 Ho Hl Hx K2. cbn beta iota.
  assert (forall n, n = "flow_map"%string \/ n = "seq_map"%string -> exists id, ms !! n = Some (Some id)) as Hms
    by (intros n Hn; apply Hl; by apply opened_map; auto).
  set (half := fun k' => k_egress k' = k_egress k /\ k_xdp k' = k_xdp (with_ingress i o fd ms k)).
  assert (forall d' k', same_attached k' (kern_of d') -> half k' -> ~ (dependable D /\ untouched i k) -> loader_post i k (Err 1) d') as Hfail.
  { intros d' k' (_ & Ex & _ & Ee) [He Hx'] Hn. split; [done|]. split; [by rewrite Ee|]. split; [done|]. intros _ _.
    exists ms. rewrite Ex, Hx'. apply lookup_insert_eq. }
  apply wp_bind, (wp_pin_map o _ _ (Obj ingress_filename true ms)); rewrite K2; [by apply lookup_insert_eq | |].
  2: { intros d3 H3 Hn. eapply Hfail; [done | done |]. intros (Hd & _ & Hp & _). apply Hn. split_and!; try done. apply Hms. by left. }
  intros a d3 Ea Hpa K3. cbn in Ea. cbn beta iota.
  apply wp_bind, (wp_pin_map o _ _ (Obj ingress_filename true ms)); rewrite K3; [by apply lookup_insert_eq | |].
  2: { intros d4 H4 Hn. eapply Hfail; [done | done |]. intros (Hd & _ & _ & Hp & _). apply Hn. split_and!; try done.
       - apply Hms. by right.
       - cbn. by rewrite lookup_insert_ne. }
  intros b d4 Eb Hpb K4. cbn in Eb. cbn beta iota.
  apply wp_bind, wp_try; rewrite K4; [intros e d5 (He & K5) | intros d5 K5 Hn].
  2: { eapply Hfail; [rewrite K5; by apply same_attached_closed | done |]. intros (Hd & _).
       destruct (fresh_obj (set_pin seq_map_path b (set_pin flow_map_path a (with_ingress i o fd ms k)))) as [e He]. by eapply (Hn Hd e). }
  apply wp_bind, (wp_reuse_map o e _ _ egress_filename (opened egress_filename)); rewrite K5; [by apply lookup_insert_eq | |].
  2: { intros d6 H6 Hn. eapply Hfail; [done | done |]. intros (Hd & _). apply Hn. split_and!; try done.
       - rewrite opened_map by auto. by eexists.
       - exists a. cbn. rewrite lookup_insert_ne by done. apply lookup_insert_eq. }
  intros a' fd1 d6 Ha' K6. cbn in Ha'. rewrite lookup_insert_ne, lookup_insert_eq in Ha' by done. injection Ha' as <-. cbn beta iota.
  apply wp_bind, (wp_reuse_map o e _ _ egress_filename (<["flow_map"%string := Some a]> (opened egress_filename))); rewrite K6; [by apply lookup_insert_eq | |].
  2: { intros d7 H7 Hn. eapply Hfail; [done | done |]. intros (Hd & _). apply Hn. split_and!; try done.
       - rewrite lookup_insert_ne, opened_map by auto. by eexists.
       - exists b. cbn. apply lookup_insert_eq. }
  intros b' fd2 d7 Hb' K7. cbn in Hb'. rewrite lookup_insert_eq in Hb'. injection Hb' as <-. cbn beta iota.
  set (me0 := <["seq_map"%string := Some b]> (<["flow_map"%string := Some a]> (opened egress_filename))) in *.
  apply (wp_load_egress i e me0); rewrite K7; [by apply lookup_insert_eq | |].
  2: { intros d8 [X8 E8] Hn. split; [done|]. split; [by rewrite E8|]. split; [by intros (Hd & _ & _ & _ & Hh); apply Hn|].
       intros _ _. exists ms. rewrite X8. apply lookup_insert_eq. }
  intros me d8 Hle X8 E8. split; [|exact Hpa]. exists a, b, ms, me. split_and!.
  - intros <-. by discriminate (proj2 (proj2 Hl) "flow_map"%string "seq_map"%string a (opened_map _ _ Hfo (or_introl eq_refl) (or_introl eq_refl))
      (opened_map _ _ Hfo (or_introl eq_refl) (or_intror eq_refl)) Ea Eb).
  - rewrite X8. apply lookup_insert_eq.
  - rewrite E8. apply lookup_insert_eq.
  - done.
  - apply Hle. unfold me0. rewrite lookup_insert_ne by done. apply lookup_insert_eq.
  - done.
  - apply Hle. apply lookup_insert_eq.
Qed.
End proofs.

Section theorems.
Context {D : Type} `{LibBpf D} `{BpfNames} `{!LibBpfLaws D}.
Implicit Types d : D.

(** C12: What the loader leaves behind.  When it returns 0 the ingress program is on
    the interface and the egress program on its egress hook, and both work on the
    same two maps, the flows and the recorded SYNs.  When a call fails it returns
    1 without an egress program; where nothing is left of an earlier run and the
    library does what the state allows, it succeeds. *)
Theorem loader_shares_maps ifname i d : files_ok -> ifindex_of ifname = Some i ->
  let '(r, d') := loader_main 2 ifname d in
  match r with
  | Ret _ => installed i (kern_of d')
  | Err e => e = 1 /\ k_egress (kern_of d') = k_egress (kern_of d) /\ ~ (dependable D /\ untouched i (kern_of d))
  end.
Proof.
  intros Hf Hi. pose proof (wp_loader ifname i d Hf Hi) as Hw. unfold wp, loader_post in Hw.
  destruct (loader_main 2 ifname d) as [[[]|e] d']; [apply Hw|]. by destruct Hw as (? & ? & ? & _).
Qed.

(** A half installation.  When a pinned map is left from an earlier run, or from an
    attempt that failed, the loader cannot succeed; yet it returns with the ingress
    program attached to the interface, and no program on the way out. *)
Theorem leftover_pin_half_installs ifname i d : files_ok -> ifindex_of ifname = Some i -> dependable D ->
  k_xdp (kern_of d) !! i = None -> is_Some (k_pinned (kern_of d) !! flow_map_path) ->
  exists d', loader_main 2 ifname d = (Err 1, d') /\ ingress_attached i (kern_of d') /\
    k_egress (kern_of d') = k_egress (kern_of d).
Proof.
  intros Hf Hi Hd Hx [id Hp]. pose proof (wp_loader ifname i d Hf Hi) as Hw. unfold wp, loader_post in Hw.
  destruct (loader_main 2 ifname d) as [[[]|e] d']; cbn in Hw.
  - destruct Hw as [_ Hp']. congruence.
  - destruct Hw as (-> & He & _ & Ha). exists d'. by split_and!; auto.
Qed.
End theorems.

(** ** A library in memory *)

Module Kernel.

Definition handle (x : Z * string) : Z := Z.pos (encode x).
Definition of_handle (z : Z) : Z * string :=
  match z with Z.pos p => default (0, ""%string) (decode p) | _ => (0, ""%string) end.
Lemma of_handle_handle x : of_handle (handle x) = x.
Proof. unfold of_handle, handle. by rewrite decode_encode. Qed.

Definition both_maps : gset string := {["flow_map"; "seq_map"]}%string.

#[export] Instance names : BpfNames := {
  ifindex_of n := if decide (n = "eth0"%string) then Some 2 else None;
  elf_progs f := if decide (f = ingress_filename) then {["xdp"%string]} else if decide (f = egress_filename) then {["classifier"%string]} else ∅;
  elf_maps f := if decide (f = ingress_filename \/ f = egress_filename) then both_maps else ∅;
  map_ref := of_handle;
  prog_ref := of_handle
}.

Definition load_maps (ms : gmap string (option Z)) : gmap string (option Z) :=
  map_imap (fun n v => Some (Some (match v with Some id => id | None => Z.pos (encode n) end))) ms.

Lemma load_maps_loads ms : loads ms (load_maps ms).
Proof.
  unfold load_maps. split_and!.
  - intros n id E. by rewrite map_lookup_imap, E.
  - intros n E. rewrite map_lookup_imap, E. by eexists.
  - intros n n' id E E'. rewrite !map_lookup_imap, E, E'. cbn. intros [= <-] [= E2]. by apply (inj encode).
Qed.

Definition fresh_key {A} (m : gmap Z A) : Z := fresh (dom m).
Lemma fresh_key_none {A} (m : gmap Z A) : m !! fresh_key m = None.
Proof. apply not_elem_of_dom, is_fresh. Qed.

Definition run {A} (c : bpf_call A) : kern -> option A * kern :=
  match c in bpf_call A return kern -> option A * kern with
  | if_nametoindex n => fun k => (ifindex_of n, k)
  | bpf_object__open_file f => fun k =>
      let o := fresh_key (k_objs k) in (Some o, set_obj o (Obj f false (gset_to_gmap None (elf_maps f))) k)
  | bpf_object__load o => fun k =>
      match k_objs k !! o with
      | Some (Obj f false ms) => (Some tt, set_obj o (Obj f true (load_maps ms)) k)
      | _ => (None, k)
      end
  | bpf_object__find_program_by_title o t => fun k =>
      match k_objs k !! o with
      | Some ob => (if decide (t ∈ elf_progs (o_file ob)) then Some (handle (o, t)) else None, k)
      | None => (None, k)
      end
  | bpf_program__fd p => fun k =>
      match k_objs k !! fst (of_handle p) with
      | Some (Obj f true ms) => let fd := fresh_key (k_fds k) in (Some fd, set_fd fd (FdProg (KProg f (snd (of_handle p)) ms)) k)
      | _ => (None, k)
      end
  | bpf_set_link_xdp_fd i fd => fun k =>
      match k_fds k !! fd, k_xdp k !! i with
      | Some (FdProg p), None => (Some tt, set_xdp i p k)
      | _, _ => (None, k)
      end
  | bpf_object__find_map_by_name o n => fun k =>
      match k_objs k !! o with
      | Some ob => (match o_maps ob !! n with Some _ => Some (handle (o, n)) | None => None end, k)
      | None => (None, k)
      end
  | bpf_map__pin m path => fun k =>
      match k_objs k !! fst (of_handle m), k_pinned k !! path with
      | Some ob, None =>
          match o_maps ob !! snd (of_handle m) with Some (Some id) => (Some tt, set_pin path id k) | _ => (None, k) end
      | _, _ => (None, k)
      end
  | bpf_obj_get path => fun k =>
      match k_pinned k !! path with
      | Some id => let fd := fresh_key (k_fds k) in (Some fd, set_fd fd (FdMap id) k)
      | None => (None, k)
      end
  | bpf_map__reuse_fd m fd => fun k =>
      match k_objs k !! fst (of_handle m), k_fds k !! fd with
      | Some (Obj f false ms), Some (FdMap id) =>
          match ms !! snd (of_handle m) with
          | Some _ => (Some tt, set_obj (fst (of_handle m)) (Obj f false (<[snd (of_handle m) := Some id]> ms)) k)
          | None => (None, k)
          end
      | _, _ => (None, k)
      end
  | bpf_tc_hook_create i => fun k => if decide (i ∈ k_hooks k) then (None, k) else (Some tt, add_hook i k)
  | bpf_tc_attach i fd => fun k =>
      match k_fds k !! fd with
      | Some (FdProg p) => if decide (i ∈ k_hooks k) then (Some tt, set_egress i p k) else (None, k)
      | _ => (None, k)
      end
  end.

#[export] Instance lib : LibBpf kern := { bpf_exec A c := run c; bpf_object__close := close_obj; kern_of k := k }.

#[export] Instance lib_laws : LibBpfLaws kern.
Proof.
  split; [| |done].
  - intros A [] k a k'; cbn -[elf_progs elf_maps ifindex_of]; repeat case_match; intros [=]; subst; eauto 10 using fresh_key_none, of_handle_handle, load_maps_loads.
  - intros A [] k k'; cbn -[elf_progs elf_maps ifindex_of]; repeat case_match; intros; simplify_eq; done.
Qed.

Lemma lib_dependable : dependable kern.
Proof.
  intros A [] k a k'; cbn -[elf_progs elf_maps ifindex_of]; intros He; destruct_and?; repeat (destruct He as [? He]);
    repeat case_match; destruct_and?; simplify_eq; first [by eauto | by match goal with E : ?x = None, Hx : is_Some ?x |- _ => rewrite E in Hx; destruct Hx end
      | by match goal with E : ifindex_of _ = _ |- _ => rewrite E; eauto end | done | exfalso; auto].
Qed.

Lemma files : files_ok.
Proof.
  split.
  - intros o n. exists (handle (o, n)). apply of_handle_handle.
  - intros o t. exists (handle (o, t)). apply of_handle_handle.
  - cbn. set_solver.
  - cbn. set_solver.
  - intros f n Hf Hn. cbn. rewrite decide_True by done. unfold both_maps. set_solver.
Qed.

Definition empty : kern := Kern ∅ ∅ ∅ ∅ ∅ ∅.

Lemma loader_shares_maps_witness :
  let '(r, d') := loader_main 2 "eth0" empty in
  match r with
  | Ret _ => installed 2 (kern_of d')
  | Err e => e = 1 /\ k_egress (kern_of d') = k_egress (kern_of empty) /\ ~ (dependable kern /\ untouched 2 (kern_of empty))
  end.
Proof. apply (loader_shares_maps "eth0" 2 empty files). reflexivity. Defined.

(** On this library it succeeds. *)
Lemma loader_succeeds : fst (loader_main 2 "eth0" empty) = Ret tt.
Proof. vm_compute. reflexivity. Qed.

Lemma leftover_pin_half_installs_witness :
  exists d', loader_main 2 "eth0" (set_pin flow_map_path 7 empty) = (Err 1, d') /\ ingress_attached 2 (kern_of d') /\
    k_egress (kern_of d') = k_egress (kern_of (set_pin flow_map_path 7 empty)).
Proof.
  apply (leftover_pin_half_installs "eth0" 2 (set_pin flow_map_path 7 empty) files); [reflexivity | exact lib_dependable | reflexivity |].
  by exists 7.
Defined.
End Kernel.
