(* ===== verification/Wire.v ===== *)
(** * The structures both ends of the control connection exchange

    The front end (Frontend/flow_data.hpp, rule_controller.hpp) and the switch
    controller (Switch/control_plane/include/controller.h) send C structures as
    they lie in memory: little-endian fields at the offsets of the x86-64 ABI,
    with padding bytes whose value neither program determines. *)
From Stdlib Require Import ZArith Lia.
From stdpp Require Import base list.
From S2P Require Import Prelude.

Record my_key_t := MyKey { crc : Z; client_ip : Z; client_port : Z }.
Record my_data_t := MyData { offload_flag : Z; d_index : Z }.
Record my_pair_t := MyPair { pair_key : my_key_t; pair_data : my_data_t }.
Record server_info_t := ServerInfo { si_mac : list Z; si_ip : Z; si_port : Z }.

#[export] Instance my_key_t_eq_dec : EqDecision my_key_t.
Proof. solve_decision. Defined.
#[export] Instance my_data_t_eq_dec : EqDecision my_data_t.
Proof. solve_decision. Defined.
#[export] Instance my_pair_t_eq_dec : EqDecision my_pair_t.
Proof. solve_decision. Defined.

(** [sizeof]; [my_hash_pair_t] is a 64-bit key followed by a [my_data_t]. *)
Definition sizeof_my_key_t : nat := 12.
Definition sizeof_my_data_t : nat := 2.
Definition sizeof_my_pair_t : nat := 16.
Definition sizeof_my_hash_pair_t : nat := 16.
Definition sizeof_server_info_t : nat := 16.

(** Values that fit their fields. *)
Definition key_ok (k : my_key_t) : Prop :=
  in_u8 (crc k) /\ in_u32 (client_ip k) /\ in_u16 (client_port k).
Definition data_ok (d : my_data_t) : Prop := in_u8 (offload_flag d) /\ in_u8 (d_index d).
Definition pair_ok (p : my_pair_t) : Prop := key_ok (pair_key p) /\ data_ok (pair_data p).
Definition info_ok (i : server_info_t) : Prop :=
  length (si_mac i) = 6%nat /\ bytes_ok (si_mac i) /\ in_u32 (si_ip i) /\ in_u16 (si_port i).

(** Memory images; [pad] is whatever the padding bytes hold. *)
Section layout.
Context (pad : Z).

Definition key_bytes (k : my_key_t) : list Z :=
  le_bytes 1 (crc k) ++ [pad; pad; pad] ++ le_bytes 4 (client_ip k) ++
  le_bytes 2 (client_port k) ++ [pad; pad].

Definition data_bytes (d : my_data_t) : list Z :=
  le_bytes 1 (offload_flag d) ++ le_bytes 1 (d_index d).

Definition pair_bytes (p : my_pair_t) : list Z :=
  key_bytes (pair_key p) ++ data_bytes (pair_data p) ++ [pad; pad].

Definition info_bytes (i : server_info_t) : list Z :=
  si_mac i ++ [pad; pad] ++ le_bytes 4 (si_ip i) ++ le_bytes 2 (si_port i) ++ [pad; pad].
End layout.

(** Reading a structure through a pointer cast to its type. *)
Definition read_key (m : list Z) (a : nat) : my_key_t :=
  MyKey (le_val (slice m a 1)) (le_val (slice m (a + 4) 4)) (le_val (slice m (a + 8) 2)).

Definition read_data (m : list Z) (a : nat) : my_data_t :=
  MyData (le_val (slice m a 1)) (le_val (slice m (a + 1) 1)).

Definition read_pair (m : list Z) (a : nat) : my_pair_t :=
  MyPair (read_key m a) (read_data m (a + 12)).

Definition read_info (m : list Z) (a : nat) : server_info_t :=
  ServerInfo (slice m a 6) (le_val (slice m (a + 8) 4)) (le_val (slice m (a + 12) 2)).

(** ** Round trips *)

Lemma slice_app_here {A} (pre l post : list A) a : a = length pre -> slice (pre ++ l ++ post) a (length l) = l.
Proof. intros ->. unfold slice. by rewrite drop_app_length, take_app_length. Qed.

Lemma slice_shift {A} (pre m : list A) a n : slice (pre ++ m) (length pre + a) n = slice m a n.
Proof. unfold slice. by rewrite drop_app_add. Qed.

Lemma slice_app_l {A} (m post : list A) a n : (a + n <= length m)%nat -> slice (m ++ post) a n = slice m a n.
Proof.
  intros. apply slice_ext. intros i Hi. by rewrite lookup_app_l by lia.
Qed.

Lemma le_val_le_bytes n z : 0 <= z < 256 ^ Z.of_nat n -> le_val (le_bytes n z) = z.
Proof. intros. rewrite le_val_bytes. by apply Z.mod_small. Qed.

Lemma length_key_bytes pad k : length (key_bytes pad k) = sizeof_my_key_t.
Proof. reflexivity. Qed.

Lemma length_pair_bytes pad p : length (pair_bytes pad p) = sizeof_my_pair_t.
Proof. reflexivity. Qed.

Lemma length_info_bytes pad i : length (si_mac i) = 6%nat ->
  length (info_bytes pad i) = sizeof_server_info_t.
Proof. intros H. unfold info_bytes. by rewrite !length_app, H. Qed.

Lemma sizeof_pair_is_hash_pair : sizeof_my_hash_pair_t = sizeof_my_pair_t.
Proof. reflexivity. Qed.

Lemma read_key_bytes pad k post : key_ok k -> read_key (key_bytes pad k ++ post) 0 = k.
Proof.
  intros (Hc & Hi & Hp). destruct k as [c i p]. unfold read_key. simpl in *.
  f_equal; unfold slice; cbn [take drop key_bytes app le_bytes Nat.add crc client_ip client_port].
  - exact (le_val_le_bytes 1 c Hc).
  - exact (le_val_le_bytes 4 i Hi).
  - exact (le_val_le_bytes 2 p Hp).
Qed.

Lemma read_data_bytes d post : data_ok d -> read_data (data_bytes d ++ post) 0 = d.
Proof.
  intros (Ho & Hi). destruct d as [o i]. unfold read_data. simpl in *. f_equal.
  - exact (le_val_le_bytes 1 o Ho).
  - exact (le_val_le_bytes 1 i Hi).
Qed.

Lemma read_key_shift pre m a : read_key (pre ++ m) (length pre + a) = read_key m a.
Proof. unfold read_key. by rewrite <- !Nat.add_assoc, !slice_shift. Qed.

Lemma read_data_shift pre m a : read_data (pre ++ m) (length pre + a) = read_data m a.
Proof. unfold read_data. by rewrite <- !Nat.add_assoc, !slice_shift. Qed.

Lemma read_pair_shift pre m a : read_pair (pre ++ m) (length pre + a) = read_pair m a.
Proof. unfold read_pair. by rewrite <- !Nat.add_assoc, read_key_shift, read_data_shift. Qed.

Lemma read_info_shift pre m a : read_info (pre ++ m) (length pre + a) = read_info m a.
Proof. unfold read_info. by rewrite <- !Nat.add_assoc, !slice_shift. Qed.

Lemma read_pair_bytes pad p post : pair_ok p -> read_pair (pair_bytes pad p ++ post) 0 = p.
Proof.
  intros (Hk & Hd). destruct p as [k d]. unfold read_pair, pair_bytes. simpl pair_key in *. simpl pair_data in *.
  rewrite <- !app_assoc. rewrite read_key_bytes by done. f_equal.
  change (0 + 12)%nat with (length (key_bytes pad k) + 0)%nat.
  rewrite read_data_shift. by apply read_data_bytes.
Qed.

Lemma read_info_bytes pad i post : info_ok i -> read_info (info_bytes pad i ++ post) 0 = i.
Proof.
  intros (Hl & Hm & Hi & Hp). destruct i as [m ip po]. simpl in *.
  destruct m as [|m0 [|m1 [|m2 [|m3 [|m4 [|m5 [|? ?]]]]]]]; try discriminate.
  unfold read_info. f_equal; unfold slice;
    cbn [take drop info_bytes app le_bytes Nat.add si_mac si_ip si_port].
  - exact (le_val_le_bytes 4 ip Hi).
  - exact (le_val_le_bytes 2 po Hp).
Qed.

(** Reading the [i]-th of a run of structures. *)
Lemma read_nth {A} (enc : A -> list Z) (rd : list Z -> nat -> A) (ok : A -> Prop) sz (l : list A) i x post :
  (forall x, ok x -> length (enc x) = sz) ->
  (forall x post, ok x -> rd (enc x ++ post) 0%nat = x) ->
  (forall pre m a, rd (pre ++ m) (length pre + a)%nat = rd m a) ->
  Forall ok l -> l !! i = Some x -> rd (concat (map enc l) ++ post) (i * sz)%nat = x.
Proof.
  intros Hsz Hrd Hsh. revert i. induction l as [|y l IH]; intros i Hok Hi; [done|].
  inversion_clear Hok as [|? ? Hy Hl]. simpl. rewrite <- app_assoc. destruct i as [|i]; simpl in *.
  - injection Hi as ->. by apply Hrd.
  - rewrite <- (Hsz y Hy) at 1. rewrite Hsh. by apply IH.
Qed.

Lemma length_concat_map {A} (enc : A -> list Z) (ok : A -> Prop) sz (l : list A) :
  (forall x, ok x -> length (enc x) = sz) -> Forall ok l ->
  length (concat (map enc l)) = (length l * sz)%nat.
Proof.
  intros Hsz. induction 1 as [|y l Hy _ IH]; simpl; [done|]. rewrite length_app, Hsz, IH by done. done.
Qed.

Lemma key_bytes_ok pad k : is_byte pad -> bytes_ok (key_bytes pad k).
Proof. intros. unfold key_bytes. rewrite !Forall_app. repeat split; auto using le_bytes_ok. Qed.

Lemma pair_bytes_ok pad p : is_byte pad -> bytes_ok (pair_bytes pad p).
Proof.
  intros. unfold pair_bytes, data_bytes. rewrite !Forall_app.
  repeat split; auto using le_bytes_ok, key_bytes_ok.
Qed.
