(* ===== verification/EntryController.v ===== *)
(** * The entry controller (Frontend/subprojects/entry_controller)

    The packet processors put the flows to offload, and those to take back, in
    two concurrent queues; on every timer tick [get_offloaded_entries] moves up
    to [BATCH_SIZE] of each into one message for the switch.  What does not fit
    stays in the arrays [add_pairs] and [del_keys]. *)
From Stdlib Require Import ZArith Lia.
From stdpp Require Import base list.
From S2P Require Import Prelude Wire.

Definition BATCH_SIZE : Z := 40.
Definition THRESHOLD : Z := 20.

(** [operation_type_t] of Frontend/my_config.hpp. *)
Inductive operation_type_t : Type := UPDATE_RULE | UPDATE_D_INDEX | UPDATE_V_INFO | OFFLOAD_ENTRIES.

Definition op_code (op : operation_type_t) : Z :=
  match op with UPDATE_RULE => 0 | UPDATE_D_INDEX => 1 | UPDATE_V_INFO => 2 | OFFLOAD_ENTRIES => 3 end.

(** [moodycamel::ConcurrentQueue], a library: [enqueue] adds an element;
    [try_dequeue_bulk] takes some of the elements out, at most the number asked
    for, and takes none only from a queue that is empty.  [queued] is the
    content it promises. *)
Class BulkQueue (Q A : Type) := {
  enqueue : Q -> A -> Q;
  try_dequeue_bulk : Q -> nat -> list A * Q;
  queued : Q -> list A
}.

Class BulkQueueLaws (Q A : Type) `{BulkQueue Q A} : Prop := {
  enqueue_queued (q : Q) (x : A) : queued (enqueue q x) ≡ₚ x :: queued q;
  dequeue_length (q : Q) n : (length (fst (try_dequeue_bulk q n)) <= n)%nat;
  dequeue_queued (q : Q) n :
    queued q ≡ₚ fst (try_dequeue_bulk q n) ++ queued (snd (try_dequeue_bulk q n));
  dequeue_some (q : Q) n : (0 < n)%nat -> fst (try_dequeue_bulk q n) = [] -> queued q = []
}.

(** A first-in first-out list meets the contract. *)
#[export] Instance list_bulk_queue {A} : BulkQueue (list A) A := {
  enqueue q x := q ++ [x];
  try_dequeue_bulk q n := (take n q, drop n q);
  queued q := q
}.

(** Writing past an array, or copying between overlapping areas with [memcpy]. *)
Inductive mem_fault : Type := Overflow | Overlap.

Section entry_controller.
Context {QA QD : Type} `{BulkQueue QA my_pair_t} `{BulkQueue QD my_key_t}.
(** The value of the padding bytes inside the copied structures. *)
Context (pad : Z).

Record entry_controller_t := EntryController {
  add_pairs : list my_pair_t;
  del_keys : list my_key_t;
  remain_add_size : Z;
  remain_del_size : Z;
  add_queue : QA;
  del_queue : QD
}.

Abbreviation EC := (M entry_controller_t mem_fault).

(** The constructor: both arrays have room for two batches. *)
Definition init_entry_controller (pairs : list my_pair_t) (keys : list my_key_t) (aq : QA) (dq : QD) : entry_controller_t :=
  EntryController pairs keys 0 0 aq dq.

Definition set_add_pairs (l : list my_pair_t) : EC unit := modify (fun s =>
  EntryController l (del_keys s) (remain_add_size s) (remain_del_size s) (add_queue s) (del_queue s)).
Definition set_del_keys (l : list my_key_t) : EC unit := modify (fun s =>
  EntryController (add_pairs s) l (remain_add_size s) (remain_del_size s) (add_queue s) (del_queue s)).
Definition set_remain (ra rd : Z) : EC unit := modify (fun s =>
  EntryController (add_pairs s) (del_keys s) ra rd (add_queue s) (del_queue s)).
Definition set_queues (aq : QA) (dq : QD) : EC unit := modify (fun s =>
  EntryController (add_pairs s) (del_keys s) (remain_add_size s) (remain_del_size s) aq dq).

(** Store [l] into [arr] at [a]; the array cannot grow. *)
Definition array_write {A} (arr : list A) (a : nat) (l : list A) : EC (list A) :=
  if decide (a + length l <= length arr)%nat then mret (splice arr a l) else fail Overflow.

(** [memcpy(arr, arr + src, n)] in elements. *)
Definition array_move {A} (arr : list A) (src n : nat) : EC (list A) :=
  if decide (length arr < src + n)%nat then fail Overflow
  else if decide (src < n)%nat then fail Overlap
  else mret (splice arr 0 (slice arr src n)).

(** The first [n] elements, as [memcpy] reads them. *)
Definition array_read {A} (arr : list A) (n : nat) : EC (list A) :=
  if decide (n <= length arr)%nat then mret (take n arr) else fail Overflow.

(** Lines 39-44: refill the arrays from the queues. *)
Definition refill : EC unit :=
  s ← get;
  if (remain_add_size s <=? THRESHOLD) && (remain_del_size s <=? THRESHOLD) then
    let '(adds, aq) := try_dequeue_bulk (add_queue s) (Z.to_nat BATCH_SIZE) in
    pairs ← array_write (add_pairs s) (Z.to_nat (remain_add_size s)) adds;
    let '(dels, dq) := try_dequeue_bulk (del_queue s) (Z.to_nat BATCH_SIZE) in
    keys ← array_write (del_keys s) (Z.to_nat (remain_del_size s)) dels;
    _ ← set_add_pairs pairs; _ ← set_del_keys keys; _ ← set_queues aq dq;
    set_remain (remain_add_size s + Z.of_nat (length adds)) (remain_del_size s + Z.of_nat (length dels))
  else mret tt.

(** [uint8_t need = (remain > BATCH_SIZE) ? BATCH_SIZE : remain]. *)
Definition need_size (remain : Z) : Z := u8 (if BATCH_SIZE <? remain then BATCH_SIZE else remain).

(** Lines 48-61: the message, written into the caller's buffer. *)
Definition write_message (send_buffer : list Z) (na nd : Z) : EC (Z * list Z) :=
  s ← get;
  buf ← array_write send_buffer 0 [op_code OFFLOAD_ENTRIES];
  buf ← array_write buf 1 [na];
  buf ← array_write buf 2 [nd];
  pairs ← array_read (add_pairs s) (Z.to_nat na);
  buf ← array_write buf 3 (concat (map (pair_bytes pad) pairs));
  let now_bytes := 3 + Z.of_nat sizeof_my_pair_t * na in
  keys ← array_read (del_keys s) (Z.to_nat nd);
  buf ← array_write buf (Z.to_nat now_bytes) (concat (map (key_bytes pad) keys));
  let now_bytes := now_bytes + Z.of_nat sizeof_my_key_t * nd in
  mret (now_bytes, buf).

(** Lines 63-70: move the rest to the front.  The first copy counts its bytes
    with the size of another structure. *)
Definition compact (na nd : Z) : EC unit :=
  s ← get;
  pairs ← (if na <? remain_add_size s then
    array_move (add_pairs s) (Z.to_nat na)
      (sizeof_my_hash_pair_t * Z.to_nat (remain_add_size s - na) / sizeof_my_pair_t)
    else mret (add_pairs s));
  keys ← (if nd <? remain_del_size s then
    array_move (del_keys s) (Z.to_nat nd) (Z.to_nat (remain_del_size s - nd))
    else mret (del_keys s));
  _ ← set_add_pairs pairs; _ ← set_del_keys keys;
  set_remain (remain_add_size s - na) (remain_del_size s - nd).

(** [get_offloaded_entries]: the number of bytes to send, and the buffer. *)
Definition get_offloaded_entries (send_buffer : list Z) : EC (Z * list Z) :=
  _ ← refill;
  s ← get;
  if (remain_add_size s =? 0) && (remain_del_size s =? 0) then mret (0, send_buffer) else
  let na := need_size (remain_add_size s) in
  let nd := need_size (remain_del_size s) in
  r ← write_message send_buffer na nd;
  _ ← compact na nd;
  mret r.

(** ** Abstract view *)

(** A message with these entries. *)
Definition frame (adds : list my_pair_t) (dels : list my_key_t) : list Z :=
  [op_code OFFLOAD_ENTRIES; Z.of_nat (length adds); Z.of_nat (length dels)] ++
  concat (map (pair_bytes pad) adds) ++ concat (map (key_bytes pad) dels).

(** Entries handed over and not sent yet. *)
Definition pending_adds (s : entry_controller_t) : list my_pair_t :=
  take (Z.to_nat (remain_add_size s)) (add_pairs s) ++ queued (add_queue s).
Definition pending_dels (s : entry_controller_t) : list my_key_t :=
  take (Z.to_nat (remain_del_size s)) (del_keys s) ++ queued (del_queue s).

(** Between calls: arrays of two batches, at most [THRESHOLD] entries in each. *)
Definition ec_inv (s : entry_controller_t) : Prop :=
  length (add_pairs s) = Z.to_nat (2 * BATCH_SIZE) /\ length (del_keys s) = Z.to_nat (2 * BATCH_SIZE) /\
  0 <= remain_add_size s <= THRESHOLD /\ 0 <= remain_del_size s <= THRESHOLD.
End entry_controller.
Arguments entry_controller_t : clear implicits.

(** ** Execution rules *)

Section rules.
Context {QA QD : Type} `{BulkQueue QA my_pair_t} `{BulkQueue QD my_key_t}.
Context `{!BulkQueueLaws QA my_pair_t} `{!BulkQueueLaws QD my_key_t}.
Context (pad : Z).
Abbreviation ST := (entry_controller_t QA QD).
Implicit Types s : ST.

Lemma wp_array_write {A} (arr : list A) a l (Q : outcome mem_fault (list A) -> ST -> Prop) s :
  (a + length l <= length arr)%nat -> Q (Ret (splice arr a l)) s -> wp (array_write arr a l) Q s.
Proof. intros Hl HQ. unfold array_write. rewrite decide_True by done. by apply wp_ret. Qed.

Lemma wp_array_read {A} (arr : list A) n (Q : outcome mem_fault (list A) -> ST -> Prop) s :
  (n <= length arr)%nat -> Q (Ret (take n arr)) s -> wp (array_read arr n) Q s.
Proof. intros Hl HQ. unfold array_read. rewrite decide_True by done. by apply wp_ret. Qed.

Lemma wp_array_move {A} (arr : list A) src n (Q : outcome mem_fault (list A) -> ST -> Prop) s :
  (src + n <= length arr)%nat -> (n <= src)%nat -> Q (Ret (splice arr 0 (slice arr src n))) s ->
  wp (array_move arr src n) Q s.
Proof. intros Hl Hs HQ. unfold array_move. rewrite !decide_False by lia. by apply wp_ret. Qed.

(** After a refill: up to a batch more, nothing lost, and not both empty unless
    nothing at all is pending. *)
Definition refilled s s1 : Prop :=
  length (add_pairs s1) = 80%nat /\ length (del_keys s1) = 80%nat /\
  0 <= remain_add_size s1 <= THRESHOLD + BATCH_SIZE /\ 0 <= remain_del_size s1 <= THRESHOLD + BATCH_SIZE /\
  pending_adds s ≡ₚ pending_adds s1 /\ pending_dels s ≡ₚ pending_dels s1 /\
  (remain_add_size s1 = 0 -> pending_adds s1 = []) /\ (remain_del_size s1 = 0 -> pending_dels s1 = []).

Lemma wp_refill s : ec_inv s -> wp refill (fun r s1 => r = Ret tt /\ refilled s s1) s.
Proof.
  intros (Hla & Hld & Ha & Hd). unfold refill. unfold THRESHOLD, BATCH_SIZE in *.
  wp_step. wp_step. rewrite (proj2 (Z.leb_le _ _)), (proj2 (Z.leb_le (remain_del_size s) _)) by lia. cbn [andb].
  pose proof (dequeue_length (add_queue s) (Z.to_nat 40)) as La.
  pose proof (dequeue_queued (add_queue s) (Z.to_nat 40)) as Pa.
  pose proof (dequeue_some (add_queue s) (Z.to_nat 40) ltac:(lia)) as Ea.
  pose proof (dequeue_length (del_queue s) (Z.to_nat 40)) as Ld.
  pose proof (dequeue_queued (del_queue s) (Z.to_nat 40)) as Pd.
  pose proof (dequeue_some (del_queue s) (Z.to_nat 40) ltac:(lia)) as Ed.
  destruct (try_dequeue_bulk (add_queue s) _) as [adds aq], (try_dequeue_bulk (del_queue s) _) as [dels dq].
  cbn [fst snd] in *.
  wp_step. apply wp_array_write; [lia|]. cbn beta iota.
  wp_step. apply wp_array_write; [lia|]. cbn beta iota.
  do 7 (first [wp_step | apply wp_modify]; cbn beta iota).
  split; [done|]. unfold refilled, pending_adds, pending_dels.
  cbn [add_pairs del_keys remain_add_size remain_del_size add_queue del_queue].
  unfold THRESHOLD, BATCH_SIZE. rewrite !Z2Nat.inj_add, !Nat2Z.id by lia.
  rewrite !length_splice, !take_splice_grow by lia.
  split_and!; try lia.
  - rewrite <- app_assoc. by rewrite <- Pa.
  - rewrite <- app_assoc. by rewrite <- Pd.
  - intros E. assert (length adds = 0)%nat as ->%nil_length_inv by lia.
    assert (remain_add_size s = 0) as -> by lia. simpl in *.
    apply Permutation_nil. rewrite <- Pa. by rewrite Ea.
  - intros E. assert (length dels = 0)%nat as ->%nil_length_inv by lia.
    assert (remain_del_size s = 0) as -> by lia. simpl in *.
    apply Permutation_nil. rewrite <- Pd. by rewrite Ed.
Qed.

Lemma length_pairs l : length (concat (map (pair_bytes pad) l)) = (16 * length l)%nat.
Proof.
  rewrite (length_concat_map _ (fun _ => True) 16); [lia | intros; apply length_pair_bytes |].
  by apply Forall_true.
Qed.

Lemma length_keys l : length (concat (map (key_bytes pad) l)) = (12 * length l)%nat.
Proof.
  rewrite (length_concat_map _ (fun _ => True) 12); [lia | intros; apply length_key_bytes |].
  by apply Forall_true.
Qed.

Lemma length_frame adds dels : length (frame pad adds dels) = (3 + 16 * length adds + 12 * length dels)%nat.
Proof. unfold frame. rewrite !length_app, length_pairs, length_keys. simpl. lia. Qed.

Lemma wp_write_message buf na nd s :
  length (add_pairs s) = 80%nat -> length (del_keys s) = 80%nat ->
  0 <= na <= BATCH_SIZE -> 0 <= nd <= BATCH_SIZE -> (1123 <= length buf)%nat ->
  let f := frame pad (take (Z.to_nat na) (add_pairs s)) (take (Z.to_nat nd) (del_keys s)) in
  wp (write_message pad buf na nd)
    (fun r s1 => r = Ret (Z.of_nat (length f), splice buf 0 f) /\ s1 = s) s.
Proof.
  intros Hla Hld Ha Hd Hb f. unfold BATCH_SIZE in *. unfold write_message.
  set (pairs := take (Z.to_nat na) (add_pairs s)). set (keys := take (Z.to_nat nd) (del_keys s)).
  assert (length pairs = Z.to_nat na) as Lp by (unfold pairs; rewrite length_take; lia).
  assert (length keys = Z.to_nat nd) as Lk by (unfold keys; rewrite length_take; lia).
  wp_step. wp_step. wp_step. apply wp_array_write; [simpl; lia|]. cbn beta iota.
  wp_step. apply wp_array_write; [rewrite length_splice; simpl; lia|]. cbn beta iota.
  rewrite splice_grow by (simpl; lia). cbn [app].
  wp_step. apply wp_array_write; [rewrite length_splice; simpl; lia|]. cbn beta iota.
  rewrite splice_grow by (simpl; lia). cbn [app].
  wp_step. apply wp_array_read; [lia|]. cbn beta iota. fold pairs.
  wp_step. apply wp_array_write; [rewrite length_splice, length_pairs; simpl; lia|]. cbn beta iota.
  rewrite splice_grow by (rewrite ?length_pairs; simpl; lia).
  wp_step. apply wp_array_read; [lia|]. cbn beta iota. fold keys.
  assert (Z.to_nat (3 + Z.of_nat sizeof_my_pair_t * na) =
    length ([op_code OFFLOAD_ENTRIES; na; nd] ++ concat (map (pair_bytes pad) pairs))) as ->
    by (rewrite length_app, length_pairs; unfold sizeof_my_pair_t; simpl length; lia).
  wp_step. apply wp_array_write.
  { rewrite length_splice; rewrite !length_app, !length_pairs, ?length_keys; simpl length; lia. }
  cbn beta iota. rewrite splice_grow
    by (rewrite ?length_app, ?length_pairs, ?length_keys; simpl length; lia).
  wp_step. split; [|done]. unfold f. fold pairs keys. rewrite length_frame, Lp, Lk.
  unfold frame. rewrite Lp, Lk, !Z2Nat.id by lia. rewrite app_assoc.
  do 2 f_equal. unfold sizeof_my_pair_t, sizeof_my_key_t. lia.
Qed.

Lemma wp_compact na nd s :
  length (add_pairs s) = 80%nat -> length (del_keys s) = 80%nat ->
  0 <= remain_add_size s <= THRESHOLD + BATCH_SIZE -> 0 <= remain_del_size s <= THRESHOLD + BATCH_SIZE ->
  na = need_size (remain_add_size s) -> nd = need_size (remain_del_size s) ->
  wp (compact na nd) (fun r s1 => r = Ret tt /\ ec_inv s1 /\
    pending_adds s = take (Z.to_nat na) (add_pairs s) ++ pending_adds s1 /\
    pending_dels s = take (Z.to_nat nd) (del_keys s) ++ pending_dels s1) s.
Proof.
  unfold THRESHOLD, BATCH_SIZE, need_size. intros Hla Hld Ha Hd Ena End.
  set (ra := remain_add_size s) in *. set (rd := remain_del_size s) in *.
  assert (na = Z.min ra 40) as Hna by (subst na; unfold BATCH_SIZE; destruct (Z.ltb_spec 40 ra); rewrite u8_id by modlia; lia).
  assert (nd = Z.min rd 40) as Hnd by (subst nd; unfold BATCH_SIZE; destruct (Z.ltb_spec 40 rd); rewrite u8_id by modlia; lia).
  assert (forall {A} (arr : list A) n r, length arr = 80%nat -> 0 <= r <= 60 -> n = Z.min r 40 ->
    wp (if n <? r then array_move arr (Z.to_nat n) (Z.to_nat (r - n)) else mret arr)
      (fun o s1 => s1 = s /\ exists arr', o = Ret arr' /\ length arr' = 80%nat /\
         take (Z.to_nat r) arr = take (Z.to_nat n) arr ++ take (Z.to_nat (r - n)) arr') s) as Hmv.
  { intros A arr n r Hl Hr Hn. destruct (Z.ltb_spec n r).
    - apply wp_array_move; [lia | lia |]. split; [done|]. eexists. split; [done|].
      assert (length (slice arr (Z.to_nat n) (Z.to_nat (r - n))) = Z.to_nat (r - n)) by (apply length_slice; lia).
      rewrite length_splice_0, take_splice_0 by lia. split; [done|]. unfold slice.
      replace (Z.to_nat r) with (Z.to_nat n + Z.to_nat (r - n))%nat by lia. by rewrite take_take_drop.
    - wp_step. split; [done|]. eexists. split; [done|]. split; [done|].
      replace (Z.to_nat (r - n)) with 0%nat by lia. rewrite take_0, app_nil_r. f_equal. lia. }
  unfold compact. fold ra rd. wp_step. wp_step. fold ra rd.
  replace (sizeof_my_hash_pair_t * Z.to_nat (ra - na) / sizeof_my_pair_t)%nat with (Z.to_nat (ra - na))
    by (rewrite sizeof_pair_is_hash_pair, Nat.mul_comm, Nat.div_mul; done).
  wp_step. eapply wp_mono; [by apply (Hmv _ (add_pairs s) na ra)|].
  intros o s1 (-> & pairs & -> & Lp & Ep). wp_step.
  eapply wp_mono; [by apply (Hmv _ (del_keys s) nd rd)|].
  intros o s1 (-> & keys & -> & Lk & Ek).
  do 5 (first [wp_step | apply wp_modify]; cbn beta iota).
  split; [done|]. unfold ec_inv, pending_adds, pending_dels, BATCH_SIZE, THRESHOLD.
  cbn [add_pairs del_keys remain_add_size remain_del_size add_queue del_queue].
  fold ra rd. rewrite Ep, Ek, !app_assoc. split_and!; try lia; done.
Qed.
End rules.

(** ** The timer branch of main, over the life of the process *)

(** [ETH_FRAME_LEN], the size of main's [send_buffer]. *)
Definition ETH_FRAME_LEN : nat := 1514.

(** What can happen to the controller: a packet processor enqueues an entry, or
    the timer fires. *)
Inductive ec_op : Type := EnqAdd (p : my_pair_t) | EnqDel (k : my_key_t) | Tick.

Section loop.
Context {QA QD : Type} `{BulkQueue QA my_pair_t} `{BulkQueue QD my_key_t}.
Context (pad : Z).
Abbreviation ST := (entry_controller_t QA QD).

(** Lines 252-267 of main.cpp: call the controller, send what it wrote unless
    it wrote nothing.  Returns the message sent. *)
Definition on_timer (send_buffer : list Z) : M ST mem_fault (option (list Z) * list Z) :=
  r ← get_offloaded_entries pad send_buffer;
  let '(send_size, buf) := r in
  if send_size =? 0 then mret (None, buf)
  else mret (Some (take (Z.to_nat send_size) buf), buf).

(** The messages sent so far, the buffer, the controller. *)
Definition ec_step (op : ec_op) (c : list (list Z) * list Z) : M ST mem_fault (list (list Z) * list Z) :=
  let '(sent, buf) := c in
  match op with
  | EnqAdd p => s ← get; _ ← set_queues (enqueue (add_queue s) p) (del_queue s); mret (sent, buf)
  | EnqDel k => s ← get; _ ← set_queues (add_queue s) (enqueue (del_queue s) k); mret (sent, buf)
  | Tick => r ← on_timer buf;
            let '(m, buf) := r in
            mret (match m with None => sent | Some m => sent ++ [m] end, buf)
  end.

Fixpoint ec_run (ops : list ec_op) (c : list (list Z) * list Z) : M ST mem_fault (list (list Z) * list Z) :=
  match ops with
  | [] => mret c
  | op :: ops => c ← ec_step op c; ec_run ops c
  end.
End loop.

Definition enq_adds (ops : list ec_op) : list my_pair_t :=
  omap (fun op => match op with EnqAdd p => Some p | _ => None end) ops.
Definition enq_dels (ops : list ec_op) : list my_key_t :=
  omap (fun op => match op with EnqDel k => Some k | _ => None end) ops.

(** Messages that carry these batches. *)
Definition frames (pad : Z) (batches : list (list my_pair_t * list my_key_t)) : list (list Z) :=
  map (fun b => frame pad (fst b) (snd b)) batches.

(** A batch fits one message. *)
Definition batch_ok (b : list my_pair_t * list my_key_t) : Prop :=
  (length (fst b) <= 40)%nat /\ (length (snd b) <= 40)%nat.

Section loop_rules.
Context {QA QD : Type} `{BulkQueue QA my_pair_t} `{BulkQueue QD my_key_t}.
Context `{!BulkQueueLaws QA my_pair_t} `{!BulkQueueLaws QD my_key_t}.
Context (pad : Z).
Abbreviation ST := (entry_controller_t QA QD).
Implicit Types s : ST.

(** One call: either nothing is pending, or a batch leaves. *)
Lemma wp_get_offloaded_entries buf s : ec_inv s -> (1123 <= length buf)%nat ->
  wp (get_offloaded_entries pad buf) (fun r s' => ec_inv s' /\
    exists adds dels, batch_ok (adds, dels) /\
      pending_adds s ≡ₚ adds ++ pending_adds s' /\ pending_dels s ≡ₚ dels ++ pending_dels s' /\
      (adds = [] -> pending_adds s = []) /\ (dels = [] -> pending_dels s = []) /\
      let f := frame pad adds dels in
      if bool_decide (adds = [] /\ dels = [])
      then r = Ret (0, buf) /\ pending_adds s' = [] /\ pending_dels s' = []
      else r = Ret (Z.of_nat (length f), splice buf 0 f)) s.
Proof.
  intros Hinv Hb. unfold get_offloaded_entries. wp_step.
  eapply wp_mono; [by apply wp_refill|].
  intros r s1 (-> & Hla & Hld & Hra & Hrd & Pa & Pd & Ea & Ed). wp_step. wp_step.
  destruct (Z.eqb_spec (remain_add_size s1) 0) as [Za|Za], (Z.eqb_spec (remain_del_size s1) 0) as [Zd|Zd];
    cbn [andb].
  { wp_step. specialize (Ea Za). specialize (Ed Zd). split.
    - unfold ec_inv, BATCH_SIZE, THRESHOLD in *. lia.
    - exists [], []. split; [split; simpl; lia|]. rewrite bool_decide_true by done.
      assert (pending_adds s = [] /\ pending_dels s = []) as [? ?]
        by (rewrite Ea in Pa; rewrite Ed in Pd; by apply Permutation_nil_r in Pa, Pd). auto 7. }
  all: unfold THRESHOLD, BATCH_SIZE in *.
  all: assert (need_size (remain_add_size s1) = Z.min (remain_add_size s1) 40) as Na
      by (unfold need_size, BATCH_SIZE; destruct (Z.ltb_spec 40 (remain_add_size s1)); rewrite u8_id by modlia; lia).
  all: assert (need_size (remain_del_size s1) = Z.min (remain_del_size s1) 40) as Nd
      by (unfold need_size, BATCH_SIZE; destruct (Z.ltb_spec 40 (remain_del_size s1)); rewrite u8_id by modlia; lia).
  all: wp_step; eapply wp_mono; [apply wp_write_message; try done; unfold BATCH_SIZE; lia|].
  all: intros ? ? [-> ->]; wp_step; eapply wp_mono; [by apply wp_compact|].
  all: intros ? s2 (-> & Hinv2 & Qa & Qd); wp_step; split; [done|].
  all: exists (take (Z.to_nat (need_size (remain_add_size s1))) (add_pairs s1)),
              (take (Z.to_nat (need_size (remain_del_size s1))) (del_keys s1)).
  all: split; [split; cbn [fst snd]; rewrite length_take; lia|].
  all: assert (forall {A} (l : list A) n, (0 < n <= length l)%nat -> take n l <> []) as Hne
      by (intros A l' n Hn E%(f_equal length); rewrite length_take in E; simpl in E; lia).
  all: split; [by rewrite Pa, Qa|]; split; [by rewrite Pd, Qd|].
  all: split; [intros E; try (by apply Hne in E; [|lia]); apply Permutation_nil_r; by rewrite Pa, Ea|].
  all: split; [intros E; try (by apply Hne in E; [|lia]); apply Permutation_nil_r; by rewrite Pd, Ed|]; cbv zeta.
  all: rewrite bool_decide_false; [done|]; intros [E1 E2].
  all: apply (f_equal length) in E1; apply (f_equal length) in E2; simpl in E1, E2.
  all: rewrite length_take in E1; rewrite length_take in E2; lia.
Qed.

Lemma ec_inv_set_queues s aq dq : ec_inv s ->
  ec_inv (EntryController (QA:=QA) (QD:=QD) (add_pairs s) (del_keys s) (remain_add_size s) (remain_del_size s) aq dq).
Proof. done. Qed.

(** The whole history: [done] batches so far, plus what the operations add. *)
Lemma wp_ec_run ops sent buf s : ec_inv s -> (1123 <= length buf)%nat ->
  wp (ec_run pad ops (sent, buf)) (fun r s' => ec_inv s' /\
    exists batches buf', r = Ret (sent ++ frames pad batches, buf') /\ length buf' = length buf /\
      Forall batch_ok batches /\
      enq_adds ops ++ pending_adds s ≡ₚ concat (map fst batches) ++ pending_adds s' /\
      enq_dels ops ++ pending_dels s ≡ₚ concat (map snd batches) ++ pending_dels s') s.
Proof.
  revert sent buf s. induction ops as [|op ops IH]; intros sent buf s Hinv Hb; cbn [ec_run].
  { wp_step. split; [done|]. exists [], buf. simpl. rewrite app_nil_r. auto. }
  wp_step. destruct op as [p|k|]; cbn [ec_step].
  - do 3 wp_step. apply wp_modify. cbn beta iota. wp_step.
    eapply wp_mono; [by apply IH|]. intros r s' (Hinv' & batches & buf' & -> & Hl & Hok & Pa & Pd).
    split; [done|]. exists batches, buf'. split_and!; auto.
    rewrite <- Pa. unfold pending_adds. simpl. rewrite enqueue_queued. solve_Permutation.
  - do 3 wp_step. apply wp_modify. cbn beta iota. wp_step.
    eapply wp_mono; [by apply IH|]. intros r s' (Hinv' & batches & buf' & -> & Hl & Hok & Pa & Pd).
    split; [done|]. exists batches, buf'. split_and!; auto.
    rewrite <- Pd. unfold pending_dels. simpl. rewrite enqueue_queued. solve_Permutation.
  - wp_step. unfold on_timer. wp_step. eapply wp_mono; [by apply wp_get_offloaded_entries|].
    intros r s1 (Hinv1 & adds & dels & Hbok & Pa & Pd & _ & _ & Hr). cbv zeta in Hr.
    case_bool_decide as Hemp.
    + destruct Hr as (-> & E1 & E2), Hemp as [-> ->]. simpl in Pa, Pd. rewrite Z.eqb_refl. wp_step. wp_step.
      eapply wp_mono; [by apply IH|]. intros r s' (Hinv' & batches & buf' & -> & Hl & Hok & Pa' & Pd').
      split; [done|]. exists batches, buf'. split_and!; auto; cbn [enq_adds enq_dels omap].
      * by rewrite Pa.
      * by rewrite Pd.
    + subst r. assert (length (frame pad adds dels) = 3 + 16 * length adds + 12 * length dels)%nat as Lf
        by apply length_frame. destruct Hbok as [La Ld]. cbn [fst snd] in La, Ld.
      rewrite (proj2 (Z.eqb_neq _ _)) by lia. rewrite Nat2Z.id, take_splice_0 by done.
      wp_step. wp_step.
      eapply wp_mono; [apply IH; [done | rewrite length_splice_0; lia]|].
      intros r s' (Hinv' & batches & buf' & -> & Hl & Hok & Pa' & Pd').
      split; [done|]. exists ((adds, dels) :: batches), buf'. split_and!.
      * simpl. by rewrite <- app_assoc.
      * rewrite Hl, length_splice_0; lia.
      * by constructor.
      * cbn [enq_adds omap map concat fst]. rewrite Pa, <- app_assoc, <- Pa'. solve_Permutation.
      * cbn [enq_dels omap map concat snd]. rewrite Pd, <- app_assoc, <- Pd'. solve_Permutation.
Qed.
End loop_rules.

Section ec_theorems.
Context {QA QD : Type} `{BulkQueue QA my_pair_t} `{BulkQueue QD my_key_t}.
Context `{!BulkQueueLaws QA my_pair_t} `{!BulkQueueLaws QD my_key_t}.
Context (pad : Z).
Abbreviation ST := (entry_controller_t QA QD).
Implicit Types s : ST.

Lemma ec_run_app ops1 ops2 c : forall s,
  ec_run pad (ops1 ++ ops2) c s = mbind (ec_run pad ops2) (ec_run pad ops1 c) s.
Proof.
  revert c. induction ops1 as [|op ops1 IH]; intros c s; [done|]. simpl.
  unfold mbind, M_bind. destruct (ec_step pad op c s) as [[c'|e] s']; [|done].
  specialize (IH c' s'). unfold mbind, M_bind in IH. by rewrite IH.
Qed.

Lemma wp_ec_run_app ops1 ops2 c (Q : outcome mem_fault (list (list Z) * list Z) -> ST -> Prop) s :
  wp (c ← ec_run pad ops1 c; ec_run pad ops2 c) Q s -> wp (ec_run pad (ops1 ++ ops2) c) Q s.
Proof. unfold wp. by rewrite ec_run_app. Qed.

(** Timer ticks alone empty the controller: every one that sends takes an entry. *)
Lemma wp_ticks n c s : ec_inv s -> (1123 <= length (snd c))%nat ->
  (length (pending_adds s) + length (pending_dels s) <= n)%nat ->
  wp (ec_run pad (replicate n Tick) c) (fun _ s' => pending_adds s' = [] /\ pending_dels s' = []) s.
Proof.
  revert c s. induction n as [|n IH]; intros [sent buf] s Hinv Hb Hn; cbn [replicate ec_run].
  { wp_step. split; apply nil_length_inv; lia. }
  cbn [snd] in Hb. wp_step. cbn [ec_step]. wp_step. unfold on_timer. wp_step.
  eapply wp_mono; [by apply (wp_get_offloaded_entries pad buf)|].
  intros r s1 (Hinv1 & adds & dels & [La Ld] & Pa & Pd & _ & _ & Hr). cbv zeta in Hr. cbn [fst snd] in La, Ld.
  apply Permutation_length in Pa, Pd. rewrite length_app in Pa, Pd. case_bool_decide as Hemp.
  - destruct Hr as (-> & E1 & E2). rewrite Z.eqb_refl. wp_step. wp_step. apply IH; [done | done |].
    rewrite E1, E2. simpl. lia.
  - subst r. pose proof (length_frame pad adds dels) as Lf.
    rewrite (proj2 (Z.eqb_neq _ _)) by lia. wp_step. wp_step. apply IH; [done | |].
    + cbn [snd]. rewrite length_splice_0; lia.
    + assert (length adds + length dels <> 0)%nat; [|lia]. intros E. apply Hemp.
      split; apply nil_length_inv; lia.
Qed.

Lemma ec_inv_init pairs keys (aq : QA) (dq : QD) : length pairs = 80%nat -> length keys = 80%nat ->
  ec_inv (init_entry_controller pairs keys aq dq).
Proof. intros. unfold ec_inv, init_entry_controller, THRESHOLD; simpl. unfold BATCH_SIZE. lia. Qed.

(** C11: At every moment of every run of the front end - any interleaving of entries put
    in the two queues and timer ticks - [get_offloaded_entries] has written inside
    its arrays and inside the 1514-byte send buffer, never copied between overlapping
    areas, and every message it sent is a well-formed batch of at most 40 additions
    and 40 removals; and the entries in those messages together with the ones
    still pending are exactly the entries that were put in, none lost and none
    sent twice. *)
Theorem offload_accounted ops pairs keys (aq : QA) (dq : QD) buf :
  length pairs = 80%nat -> length keys = 80%nat -> queued aq = [] -> queued dq = [] ->
  length buf = ETH_FRAME_LEN ->
  exists batches buf' s',
    ec_run pad ops ([], buf) (init_entry_controller pairs keys aq dq) = (Ret (frames pad batches, buf'), s') /\
    ec_inv s' /\ Forall batch_ok batches /\
    concat (map fst batches) ++ pending_adds s' ≡ₚ enq_adds ops /\
    concat (map snd batches) ++ pending_dels s' ≡ₚ enq_dels ops.
Proof.
  intros Hp Hk Ha Hd Hb.
  destruct (wp_run _ _ _ (wp_ec_run pad ops [] buf _ (ec_inv_init pairs keys aq dq Hp Hk)
    ltac:(rewrite Hb; unfold ETH_FRAME_LEN; lia)))
    as (r & s' & E & Hinv & batches & buf' & -> & _ & Hok & Pa & Pd).
  exists batches, buf', s'. split_and!; try done.
  - rewrite <- Pa. unfold pending_adds. simpl. by rewrite Ha, app_nil_r.
  - rewrite <- Pd. unfold pending_dels. simpl. by rewrite Hd, app_nil_r.
Qed.

Lemma ticks_enqueue_nothing n : enq_adds (replicate n Tick) = [] /\ enq_dels (replicate n Tick) = [].
Proof. by induction n. Qed.

(** From a state with nothing pending: what is enqueued is sent, and nothing is
    pending again, once there were ticks enough. *)
Lemma wp_drain ops n sent buf s : ec_inv s -> (1123 <= length buf)%nat -> pending_adds s = [] -> pending_dels s = [] ->
  (length (enq_adds ops) + length (enq_dels ops) <= n)%nat ->
  wp (ec_run pad (ops ++ replicate n Tick) (sent, buf)) (fun r s' => ec_inv s' /\ pending_adds s' = [] /\ pending_dels s' = [] /\
    exists batches buf', r = Ret (sent ++ frames pad batches, buf') /\ length buf' = length buf /\ Forall batch_ok batches /\
      concat (map fst batches) ≡ₚ enq_adds ops /\ concat (map snd batches) ≡ₚ enq_dels ops) s.
Proof.
  intros Hi Hb Ea Ed Hn. apply wp_ec_run_app, wp_bind.
  eapply wp_mono; [by apply wp_ec_run|]. intros r s1 (Hi1 & b1 & buf1 & -> & Lb1 & Hok1 & Pa1 & Pd1). cbn beta iota.
  rewrite Ea, app_nil_r in Pa1. rewrite Ed, app_nil_r in Pd1.
  eapply wp_mono; [apply wp_conj; [apply wp_ec_run; [done | lia] | apply wp_ticks; [done | cbn; lia |]]|].
  { apply Permutation_length in Pa1, Pd1. rewrite length_app in Pa1, Pd1. lia. }
  intros r s2 [(Hi2 & b2 & buf2 & -> & Lb2 & Hok2 & Pa2 & Pd2) [Na Nd]]. split_and!; try done.
  destruct (ticks_enqueue_nothing n) as [Ta Td]. rewrite Na, Ta, app_nil_r in Pa2. rewrite Nd, Td, app_nil_r in Pd2. cbn in Pa2, Pd2.
  exists (b1 ++ b2), buf2. split; [unfold frames; by rewrite map_app, app_assoc|]. split; [lia|]. split; [by apply Forall_app|].
  by rewrite !map_app, !concat_app, Pa1, Pd1, Pa2, Pd2.
Qed.

(** One entry in each queue, and the timer. *)
Lemma wp_one_tick p k sent buf s : ec_inv s -> (1123 <= length buf)%nat -> pending_adds s ≡ₚ [p] -> pending_dels s ≡ₚ [k] ->
  wp (ec_run pad [Tick] (sent, buf)) (fun r s' => ec_inv s' /\ pending_adds s' = [] /\ pending_dels s' = [] /\
    exists buf', r = Ret (sent ++ [frame pad [p] [k]], buf')) s.
Proof.
  intros Hi Hb Ep Ek. cbn [ec_run ec_step]. wp_step. wp_step. unfold on_timer. wp_step.
  eapply wp_mono; [by apply wp_get_offloaded_entries|]. intros r s1 (Hi1 & adds & dels & _ & Pa & Pd & Na & Nd & Hr).
  assert (forall {A} (x : A) l l', l <> [] -> [x] ≡ₚ l ++ l' -> l = [x] /\ l' = []) as Hone.
  { intros A x l l' Hl HP. destruct l as [|y l]; [done|]. apply Permutation_singleton_l in HP. cbn in HP.
    injection HP as -> HP. symmetry in HP. by apply app_eq_nil in HP as [-> ->]. }
  rewrite Ep in Pa. rewrite Ek in Pd.
  apply Hone in Pa as [-> Pa]; [|intros E; rewrite (Na E) in Ep; by apply Permutation_nil_cons in Ep].
  apply Hone in Pd as [-> Pd]; [|intros E; rewrite (Nd E) in Ek; by apply Permutation_nil_cons in Ek].
  cbv zeta in Hr. rewrite bool_decide_false in Hr by (by intros [? ?]). subst r. rewrite (proj2 (Z.eqb_neq _ _)) by done.
  rewrite Nat2Z.id, take_splice_0 by done. wp_step. wp_step. wp_step. split_and!; try done. by eexists.
Qed.

(** C26: Nothing waits forever: once as many ticks have passed as there were entries
    put in, the messages sent carry exactly those entries. *)
Theorem offload_delivers ops n pairs keys (aq : QA) (dq : QD) buf :
  length pairs = 80%nat -> length keys = 80%nat -> queued aq = [] -> queued dq = [] ->
  length buf = ETH_FRAME_LEN ->
  (length (enq_adds ops) + length (enq_dels ops) <= n)%nat ->
  exists batches buf' s',
    ec_run pad (ops ++ replicate n Tick) ([], buf) (init_entry_controller pairs keys aq dq)
      = (Ret (frames pad batches, buf'), s') /\
    concat (map fst batches) ≡ₚ enq_adds ops /\ concat (map snd batches) ≡ₚ enq_dels ops.
Proof.
  intros Hp Hk Ha Hd Hb Hn.
  destruct (wp_run _ _ _ (wp_drain ops n [] buf _ (ec_inv_init pairs keys aq dq Hp Hk) ltac:(rewrite Hb; unfold ETH_FRAME_LEN; lia)
    ltac:(unfold pending_adds; cbn; by rewrite Ha) ltac:(unfold pending_dels; cbn; by rewrite Hd) Hn))
    as (r & s' & E & _ & _ & _ & batches & buf' & -> & _ & _ & Pa & Pd). by exists batches, buf', s'.
Qed.
End ec_theorems.

(** ** Instances and witnesses *)

#[export] Instance list_bulk_queue_laws {A} : BulkQueueLaws (list A) A.
Proof.
  split; intros q; simpl.
  - intros x. apply Permutation_app_comm.
  - intros n. rewrite length_take. lia.
  - intros n. by rewrite take_drop.
  - intros n Hn E. destruct q, n; simpl in E; try done; lia.
Qed.

Definition sample_pair (i : Z) : my_pair_t := {|
  pair_key := {| crc := 7; client_ip := 167772161; client_port := i |};
  pair_data := {| offload_flag := 1; d_index := 3 |} |}.
Definition blank_pairs : list my_pair_t := replicate 80 (sample_pair 0).
Definition blank_keys : list my_key_t := replicate 80 (pair_key (sample_pair 0)).
(** Fifty flows offloaded and forty-five taken back before the timer fires. *)
Definition busy_ops : list ec_op :=
  map (fun i => EnqAdd (sample_pair (Z.of_nat i))) (seq 0 50) ++
  map (fun i => EnqDel (pair_key (sample_pair (Z.of_nat i)))) (seq 0 45).

(** A full message is longer than the 1024-byte buffer the switch controller
    receives into: after a burst of 50 additions and 45 removals the next two
    ticks send messages of 1123 and 223 bytes. *)
Theorem offload_outgrows_receiver :
  exists m1 m2 buf' s',
    ec_run 0 (busy_ops ++ [Tick; Tick]) ([], replicate ETH_FRAME_LEN 0)
      (init_entry_controller (QA := list my_pair_t) (QD := list my_key_t) blank_pairs blank_keys [] []) = (Ret ([m1; m2], buf'), s') /\
    length m1 = 1123%nat /\ length m2 = 223%nat.
Proof. do 4 eexists. split; [vm_compute; reflexivity|]. split; vm_compute; reflexivity. Qed.

Lemma offload_accounted_witness :
  exists batches buf' s',
    ec_run 0 busy_ops ([], replicate ETH_FRAME_LEN 0)
      (init_entry_controller (QA := list my_pair_t) (QD := list my_key_t) blank_pairs blank_keys [] []) = (Ret (frames 0 batches, buf'), s') /\
    ec_inv s' /\ Forall batch_ok batches /\
    concat (map fst batches) ++ pending_adds s' ≡ₚ enq_adds busy_ops /\
    concat (map snd batches) ++ pending_dels s' ≡ₚ enq_dels busy_ops.
Proof. apply (offload_accounted 0 busy_ops); reflexivity. Defined.

Lemma offload_delivers_witness :
  exists batches buf' s',
    ec_run 0 (busy_ops ++ replicate 95 Tick) ([], replicate ETH_FRAME_LEN 0)
      (init_entry_controller (QA := list my_pair_t) (QD := list my_key_t) blank_pairs blank_keys [] []) = (Ret (frames 0 batches, buf'), s') /\
    concat (map fst batches) ≡ₚ enq_adds busy_ops /\ concat (map snd batches) ≡ₚ enq_dels busy_ops.
Proof. apply (offload_delivers 0 busy_ops 95); vm_compute; first [reflexivity | lia]. Defined.
