(* ===== verification/BfRt.v ===== *)
(** * The switch driver interface

    The control plane programs the switch through the vendor's runtime
    ([bf_rt_*], [bf_pm_*], [bf_switchd_*]), which is not part of the repository.
    Here is its interface: the calls the control plane makes, the state they are
    documented to act on - tables filled from key and data objects, ports - and
    what a call that succeeds does to it.  Which calls succeed is left open: every
    one may fail, and then leaves that state as it was. *)
From Stdlib Require Import ZArith Lia String.
From stdpp Require Import base list gmap strings fin_maps.
From S2P Require Import Prelude.

(** The key of a table entry: a match value for each field, exact or a prefix. *)
Inductive match_val : Type := Exact (v : Z) | Lpm (v len : Z).

#[export] Instance match_val_eq_dec : EqDecision match_val.
Proof. solve_decision. Defined.
#[export] Instance match_val_countable : Countable match_val.
Proof.
  apply (inj_countable' (fun m => match m with Exact v => (v, None) | Lpm v l => (v, Some l) end)
    (fun p => match p with (v, None) => Exact v | (v, Some l) => Lpm v l end)).
  by intros [].
Defined.

Abbreviation entry_key := (gmap string match_val).
(** The action of an entry and its parameters. *)
Abbreviation entry_data := (string * gmap string Z)%type.

Inductive bf_port_speed_t : Type := BF_SPEED_100G | BF_SPEED_40G | BF_SPEED_25G | BF_SPEED_10G.

(** The calls, each with the type of its output parameter.  Handles and
    identifiers are numbers; the device is always 0, on all pipes. *)
Inductive bf_call : Type -> Type :=
| bf_switchd_lib_init (conf_file : string) : bf_call unit
| bf_rt_info_get (prog_name : string) : bf_call Z
| bf_rt_session_create : bf_call Z
| bf_pm_port_str_to_hdl_get (name : option string) : bf_call Z
| bf_pm_port_add (port : Z) (speed : bf_port_speed_t) : bf_call unit
| bf_pm_port_enable (port : Z) : bf_call unit
| bf_rt_table_from_name_get (info : Z) (name : string) : bf_call Z
| bf_rt_table_key_allocate (tbl : Z) : bf_call Z
| bf_rt_table_data_allocate (tbl : Z) : bf_call Z
| bf_rt_key_field_id_get (tbl : Z) (name : string) : bf_call Z
| bf_rt_action_name_to_id (tbl : Z) (name : string) : bf_call Z
| bf_rt_data_field_id_with_action_get (tbl : Z) (name : string) (aid : Z) : bf_call Z
| bf_rt_table_key_reset (tbl key : Z) : bf_call unit
| bf_rt_table_action_data_reset (tbl aid data : Z) : bf_call unit
| bf_rt_key_field_set_value (key fid v : Z) : bf_call unit
| bf_rt_key_field_set_value_lpm (key fid v len : Z) : bf_call unit
| bf_rt_data_field_set_value (data fid v : Z) : bf_call unit
| bf_rt_table_entry_add (tbl session key data : Z) : bf_call unit
| bf_rt_table_entry_del (tbl session key : Z) : bf_call unit
| bf_rt_session_complete_operations (session : Z) : bf_call unit
| bf_rt_begin_batch (session : Z) : bf_call unit
| bf_rt_end_batch (session : Z) (hw_synchronous : bool) : bf_call unit.

(** What the calls act on: the tables by name; the key and data objects by
    handle, each made for one table; the ports. *)
Record rt := Rt {
  tables : gmap string (gmap entry_key entry_data);
  key_objs : gmap Z (string * entry_key);
  data_objs : gmap Z (string * (option string * gmap string Z));
  ports : gmap Z (bf_port_speed_t * bool);
  in_batch : bool
}.

Definition table_of (r : rt) (T : string) : gmap entry_key entry_data := default ∅ (tables r !! T).

Definition set_table (T : string) (m : gmap entry_key entry_data) (r : rt) : rt :=
  Rt (<[T := m]> (tables r)) (key_objs r) (data_objs r) (ports r) (in_batch r).
Definition set_key (k : Z) (T : string) (m : entry_key) (r : rt) : rt :=
  Rt (tables r) (<[k := (T, m)]> (key_objs r)) (data_objs r) (ports r) (in_batch r).
Definition set_data (d : Z) (T : string) (a : option string) (m : gmap string Z) (r : rt) : rt :=
  Rt (tables r) (key_objs r) (<[d := (T, (a, m))]> (data_objs r)) (ports r) (in_batch r).
Definition set_port (p : Z) (s : bf_port_speed_t) (up : bool) (r : rt) : rt :=
  Rt (tables r) (key_objs r) (data_objs r) (<[p := (s, up)]> (ports r)) (in_batch r).
Definition set_batch (b : bool) (r : rt) : rt :=
  Rt (tables r) (key_objs r) (data_objs r) (ports r) b.

(** The compiled data plane's names: what a handle or an identifier stands for. *)
Class BfSchema := {
  tbl_name : Z -> string;
  key_name : string -> Z -> string;
  act_name : string -> Z -> string;
  dat_name : string -> string -> Z -> string;
  port_name_of : Z -> string
}.

(** What a successful call does. *)
Definition bf_step `{BfSchema} {A} (c : bf_call A) : rt -> A -> rt -> Prop :=
  match c in bf_call A return rt -> A -> rt -> Prop with
  | bf_switchd_lib_init _ => fun r _ r' => r' = r
  | bf_rt_info_get _ => fun r _ r' => r' = r
  | bf_rt_session_create => fun r _ r' => r' = r
  | bf_pm_port_str_to_hdl_get n => fun r p r' => n = Some (port_name_of p) /\ r' = r
  | bf_pm_port_add p s => fun r _ r' => ports r !! p = None /\ r' = set_port p s false r
  | bf_pm_port_enable p => fun r _ r' => exists s up, ports r !! p = Some (s, up) /\ r' = set_port p s true r
  | bf_rt_table_from_name_get _ n => fun r t r' => tbl_name t = n /\ r' = r
  | bf_rt_table_key_allocate t => fun r k r' => key_objs r !! k = None /\ r' = set_key k (tbl_name t) ∅ r
  | bf_rt_table_data_allocate t => fun r d r' => data_objs r !! d = None /\ r' = set_data d (tbl_name t) None ∅ r
  | bf_rt_key_field_id_get t n => fun r f r' => key_name (tbl_name t) f = n /\ r' = r
  | bf_rt_action_name_to_id t n => fun r a r' => act_name (tbl_name t) a = n /\ r' = r
  | bf_rt_data_field_id_with_action_get t n a => fun r f r' =>
      dat_name (tbl_name t) (act_name (tbl_name t) a) f = n /\ r' = r
  | bf_rt_table_key_reset t k => fun r _ r' => exists m,
      key_objs r !! k = Some (tbl_name t, m) /\ r' = set_key k (tbl_name t) ∅ r
  | bf_rt_table_action_data_reset t a d => fun r _ r' => exists x,
      data_objs r !! d = Some (tbl_name t, x) /\ r' = set_data d (tbl_name t) (Some (act_name (tbl_name t) a)) ∅ r
  | bf_rt_key_field_set_value k f v => fun r _ r' => exists T m,
      key_objs r !! k = Some (T, m) /\ r' = set_key k T (<[key_name T f := Exact v]> m) r
  | bf_rt_key_field_set_value_lpm k f v l => fun r _ r' => exists T m,
      key_objs r !! k = Some (T, m) /\ r' = set_key k T (<[key_name T f := Lpm v l]> m) r
  | bf_rt_data_field_set_value d f v => fun r _ r' => exists T a m,
      data_objs r !! d = Some (T, (Some a, m)) /\ r' = set_data d T (Some a) (<[dat_name T a f := v]> m) r
  | bf_rt_table_entry_add t _ k d => fun r _ r' => exists km a dm,
      key_objs r !! k = Some (tbl_name t, km) /\ data_objs r !! d = Some (tbl_name t, (Some a, dm)) /\
      table_of r (tbl_name t) !! km = None /\
      r' = set_table (tbl_name t) (<[km := (a, dm)]> (table_of r (tbl_name t))) r
  | bf_rt_table_entry_del t _ k => fun r _ r' => exists km,
      key_objs r !! k = Some (tbl_name t, km) /\ is_Some (table_of r (tbl_name t) !! km) /\
      r' = set_table (tbl_name t) (delete km (table_of r (tbl_name t))) r
  | bf_rt_session_complete_operations _ => fun r _ r' => r' = r
  | bf_rt_begin_batch _ => fun r _ r' => in_batch r = false /\ r' = set_batch true r
  | bf_rt_end_batch _ _ => fun r _ r' => in_batch r = true /\ r' = set_batch false r
  end.

(** A runtime: its state, how it answers a call - the output, or a status that
    is not [BF_SUCCESS] - and the abstract state it stands for. *)
Class BfRuntime (D : Type) := {
  exec : forall {A}, bf_call A -> D -> outcome Z A * D;
  abs : D -> rt
}.

Class BfRuntimeLaws (D : Type) `{BfRuntime D} `{BfSchema} : Prop := {
  exec_ok {A} (c : bf_call A) d out d' : exec c d = (Ret out, d') -> bf_step c (abs d) out (abs d');
  exec_err {A} (c : bf_call A) d st d' : exec c d = (Err st, d') -> abs d' = abs d
}.

(** A runtime that refuses only what its state does not allow. *)
Definition reliable (D : Type) `{BfRuntime D} `{BfSchema} : Prop :=
  forall A (c : bf_call A) d out r', bf_step c (abs d) out r' -> exists out' d', exec c d = (Ret out', d').

(** How the control plane ends early: [exit]; an access through NULL or outside
    a buffer; or, in the model only, a loop that used up its fuel. *)
Inductive stop : Type := Exit (code : Z) | Crash | Diverge.

(** A call whose status is checked: anything else than [BF_SUCCESS] exits. *)
Definition checked {D S} `{BfRuntime D} (drv : S -> D) (set_drv : D -> S -> S) {A} (c : bf_call A) : M S stop A :=
  fun s => match exec c (drv s) with
           | (Ret a, d) => (Ret a, set_drv d s)
           | (Err _, d) => (Err (Exit 1), set_drv d s)
           end.

(** A call whose status is ignored, or looked at by the caller. *)
Definition unchecked {D S} `{BfRuntime D} (drv : S -> D) (set_drv : D -> S -> S) {A} (c : bf_call A) : M S stop (outcome Z A) :=
  fun s => let '(r, d) := exec c (drv s) in (Ret r, set_drv d s).

(** ** What a component's calls leave alone *)

(** Nothing but the entries and the objects of table [T] differs. *)
Definition frame (T : string) (r r' : rt) : Prop :=
  (forall T', T' <> T -> tables r' !! T' = tables r !! T') /\
  (forall h T' x, T' <> T -> key_objs r !! h = Some (T', x) -> key_objs r' !! h = Some (T', x)) /\
  (forall h T' x, T' <> T -> data_objs r !! h = Some (T', x) -> data_objs r' !! h = Some (T', x)) /\
  ports r' = ports r /\ in_batch r' = in_batch r.

(** [h] is a key (a data object with action [a]) made for [T], with no other
    fields set than [fs]. *)
Definition key_ready (r : rt) (T : string) (h : Z) (fs : list string) : Prop :=
  exists m, key_objs r !! h = Some (T, m) /\ dom m ⊆ list_to_set (C := gset string) fs.
Definition data_ready (r : rt) (T : string) (h : Z) (a : string) (fs : list string) : Prop :=
  exists m, data_objs r !! h = Some (T, (Some a, m)) /\ dom m ⊆ list_to_set (C := gset string) fs.

Lemma frame_refl T r : frame T r r.
Proof. by split_and!. Qed.

Lemma frame_trans T r1 r2 r3 : frame T r1 r2 -> frame T r2 r3 -> frame T r1 r3.
Proof.
  intros (A1 & A2 & A3 & A4 & A5) (B1 & B2 & B3 & B4 & B5).
  split_and!; [intros; by rewrite B1, A1 | auto | auto | congruence | congruence].
Qed.

(** The object at [h], if there is one, is of table [T]. *)
Definition owned {X} (T : string) (o : option (string * X)) : Prop := forall T' x, o = Some (T', x) -> T' = T.

Lemma owned_none {X} T : owned (X := X) T None.
Proof. by intros ? ?. Qed.
Lemma owned_some {X} T (x : X) : owned T (Some (T, x)).
Proof. by intros ? ? [= -> _]. Qed.

Lemma frame_set_key T h m r0 r : frame T r0 r -> owned T (key_objs r !! h) -> frame T r0 (set_key h T m r).
Proof.
  intros F Ho. eapply frame_trans; [exact F|]. split_and!; try done. simpl.
  intros h' T' x HT Hh. destruct (decide (h' = h)) as [->|]; [by apply Ho in Hh|by rewrite lookup_insert_ne].
Qed.

Lemma frame_set_data T h a m r0 r : frame T r0 r -> owned T (data_objs r !! h) -> frame T r0 (set_data h T a m r).
Proof.
  intros F Ho. eapply frame_trans; [exact F|]. split_and!; try done. simpl.
  intros h' T' x HT Hh. destruct (decide (h' = h)) as [->|]; [by apply Ho in Hh|by rewrite lookup_insert_ne].
Qed.

Lemma frame_set_table T m r0 r : frame T r0 r -> frame T r0 (set_table T m r).
Proof.
  intros F. eapply frame_trans; [exact F|]. split_and!; try done. simpl.
  intros T' HT. by rewrite lookup_insert_ne.
Qed.

Lemma frame_table T r r' T' : frame T r r' -> T' <> T -> table_of r' T' = table_of r T'.
Proof. intros (F & _) HT. unfold table_of. by rewrite F. Qed.

Lemma frame_key_ready T r r' T' h fs : frame T r r' -> T' <> T -> key_ready r T' h fs -> key_ready r' T' h fs.
Proof. intros (_ & F & _) HT (m & E & Hm). exists m. auto. Qed.

Lemma frame_data_ready T r r' T' h a fs : frame T r r' -> T' <> T -> data_ready r T' h a fs -> data_ready r' T' h a fs.
Proof. intros (_ & _ & F & _) HT (m & E & Hm). exists m. auto. Qed.

Lemma table_of_set_table T m r : table_of (set_table T m r) T = m.
Proof. unfold table_of. simpl. by rewrite lookup_insert_eq. Qed.

Create HintDb frames.
#[export] Hint Resolve frame_refl frame_set_key frame_set_data frame_set_table owned_none owned_some : frames.

(** Setting every field leaves nothing of what was set before. *)
Lemma insert_all_1 {A} (m : gmap string A) a x : dom m ⊆ list_to_set (C := gset string) [a] -> <[a := x]> m = {[a := x]}.
Proof.
  intros Hd. apply map_eq. intros i. destruct (decide (i = a)) as [->|Hi]; [by rewrite ?lookup_insert_eq, ?lookup_singleton_eq|].
  rewrite lookup_insert_ne, lookup_singleton_ne by done. apply not_elem_of_dom. set_solver.
Qed.

Lemma insert_all_2 {A} (m : gmap string A) a b x y : dom m ⊆ list_to_set (C := gset string) [a; b] ->
  <[b := y]> (<[a := x]> m) = <[b := y]> {[a := x]}.
Proof.
  intros Hd. apply map_eq. intros i. destruct (decide (i = b)) as [->|Hi]; [by rewrite ?lookup_insert_eq, ?lookup_singleton_eq|].
  rewrite !(lookup_insert_ne _ b) by done.
  destruct (decide (i = a)) as [->|Hi']; [by rewrite ?lookup_insert_eq, ?lookup_singleton_eq|].
  rewrite lookup_insert_ne, lookup_singleton_ne by done. apply not_elem_of_dom. set_solver.
Qed.

Lemma insert_all_3 {A} (m : gmap string A) a b c x y z : dom m ⊆ list_to_set (C := gset string) [a; b; c] ->
  <[c := z]> (<[b := y]> (<[a := x]> m)) = <[c := z]> (<[b := y]> {[a := x]}).
Proof.
  intros Hd. apply map_eq. intros i. destruct (decide (i = c)) as [->|Hi]; [by rewrite ?lookup_insert_eq, ?lookup_singleton_eq|].
  rewrite !(lookup_insert_ne _ c) by done. destruct (decide (i = b)) as [->|Hi']; [by rewrite ?lookup_insert_eq, ?lookup_singleton_eq|].
  rewrite !(lookup_insert_ne _ b) by done. destruct (decide (i = a)) as [->|Hi'']; [by rewrite ?lookup_insert_eq, ?lookup_singleton_eq|].
  rewrite lookup_insert_ne, lookup_singleton_ne by done. apply not_elem_of_dom. set_solver.
Qed.

(** ** Rules for calls *)

Section call_rules.
Context {D S : Type} `{BfRuntime D} `{BfSchema} `{!BfRuntimeLaws D}.
Context (drv : S -> D) (set_drv : D -> S -> S).

(** A checked call either does what it is documented to do or exits and leaves
    the tables alone; a reliable runtime does not fail a call it could do. *)
Lemma wp_checked {A} (c : bf_call A) (Q : outcome stop A -> S -> Prop) s :
  (forall out d', bf_step c (abs (drv s)) out (abs d') -> Q (Ret out) (set_drv d' s)) ->
  (forall d', abs d' = abs (drv s) -> (reliable D -> forall out r', ~ bf_step c (abs (drv s)) out r') ->
     Q (Err (Exit 1)) (set_drv d' s)) ->
  wp (checked drv set_drv c) Q s.
Proof.
  intros H1 H2. unfold wp, checked. destruct (exec c (drv s)) as [[a|e] d'] eqn:E; simpl.
  - apply H1. by eapply exec_ok.
  - apply H2; [by eapply exec_err|]. intros R out r' Hs. destruct (R _ c _ _ _ Hs) as (? & ? & E'). congruence.
Qed.

Lemma wp_unchecked {A} (c : bf_call A) (Q : outcome stop (outcome Z A) -> S -> Prop) s :
  (forall out d', bf_step c (abs (drv s)) out (abs d') -> Q (Ret (Ret out)) (set_drv d' s)) ->
  (forall d' e, abs d' = abs (drv s) -> (reliable D -> forall out r', ~ bf_step c (abs (drv s)) out r') ->
     Q (Ret (Err e)) (set_drv d' s)) ->
  wp (unchecked drv set_drv c) Q s.
Proof.
  intros H1 H2. unfold wp, unchecked. destruct (exec c (drv s)) as [[a|e] d'] eqn:E; simpl.
  - apply H1. by eapply exec_ok.
  - apply H2; [by eapply exec_err|]. intros R out r' Hs. destruct (R _ c _ _ _ Hs) as (? & ? & E'). congruence.
Qed.
End call_rules.

(** ** A runtime in memory, which refuses only what it has to *)

Module Sim.

(** The names of the data plane; an identifier is the position of its name. *)
Definition names : list string := [
  "SwitchIngress.arp_table"; "SwitchIngress.dip_lookup_table"; "SwitchIngress.offload_connection_table";
  "SwitchIngress.dest_to_egress_port_table"; "SwitchIngress.d_index_to_egress_port_table";
  "SwitchIngress.lb_index_to_egress_port_table"; "SwitchEgress.d_index_to_ip_port_table";
  "hdr.arp.opcode"; "hdr.arp.target_proto_addr"; "hdr.ipv4.src_addr"; "hdr.tcp.src_port"; "ig_md.cip";
  "ig_md.cport"; "hdr.ipv4.dst_addr"; "hdr.bridged.index"; "ig_md.hash_result"; "eg_md.bridged.index";
  "SwitchIngress.reply_arp"; "SwitchIngress.dip_hit"; "SwitchIngress.oft_hit"; "SwitchIngress.set_egress_port";
  "SwitchEgress.set_dst_ip_port"; "arp_mac"; "d_index"; "src_mac"; "dst_mac"; "dst_port"; "dst_ip";
  "1/0"; "2/0"; "3/0"]%string.

Definition name_at (z : Z) : string := nth (Z.to_nat z) names ""%string.
Definition id_of (n : string) : option Z :=
  if decide (n = ""%string) then Some (Z.of_nat (length names))
  else (fun p => Z.of_nat (fst p)) <$> list_find (fun x => x = n) names.

#[export] Instance schema : BfSchema := {
  tbl_name := name_at; key_name _ := name_at; act_name _ := name_at; dat_name _ _ := name_at; port_name_of := name_at
}.

Definition refuse {A} : outcome Z A := Err 1.
Definition lookup_id (n : string) (r : rt) : outcome Z Z * rt :=
  (match id_of n with Some z => Ret z | None => refuse end, r).

Definition run {A} (c : bf_call A) : rt -> outcome Z A * rt :=
  match c in bf_call A return rt -> outcome Z A * rt with
  | bf_switchd_lib_init _ => fun r => (Ret tt, r)
  | bf_rt_info_get _ => fun r => (Ret 0, r)
  | bf_rt_session_create => fun r => (Ret 0, r)
  | bf_pm_port_str_to_hdl_get n => fun r => match n with Some n => lookup_id n r | None => (refuse, r) end
  | bf_pm_port_add p s => fun r => match ports r !! p with None => (Ret tt, set_port p s false r) | _ => (refuse, r) end
  | bf_pm_port_enable p => fun r => match ports r !! p with Some (s, _) => (Ret tt, set_port p s true r) | _ => (refuse, r) end
  | bf_rt_table_from_name_get _ n => lookup_id n
  | bf_rt_table_key_allocate t => fun r =>
      let k := fresh (dom (key_objs r)) in (Ret k, set_key k (name_at t) ∅ r)
  | bf_rt_table_data_allocate t => fun r =>
      let k := fresh (dom (data_objs r)) in (Ret k, set_data k (name_at t) None ∅ r)
  | bf_rt_key_field_id_get t n => lookup_id n
  | bf_rt_action_name_to_id t n => lookup_id n
  | bf_rt_data_field_id_with_action_get t n a => lookup_id n
  | bf_rt_table_key_reset t k => fun r =>
      match key_objs r !! k with
      | Some (T, _) => if decide (T = name_at t) then (Ret tt, set_key k T ∅ r) else (refuse, r)
      | None => (refuse, r)
      end
  | bf_rt_table_action_data_reset t a d => fun r =>
      match data_objs r !! d with
      | Some (T, _) => if decide (T = name_at t) then (Ret tt, set_data d T (Some (name_at a)) ∅ r) else (refuse, r)
      | None => (refuse, r)
      end
  | bf_rt_key_field_set_value k f v => fun r =>
      match key_objs r !! k with
      | Some (T, m) => (Ret tt, set_key k T (<[name_at f := Exact v]> m) r)
      | None => (refuse, r)
      end
  | bf_rt_key_field_set_value_lpm k f v l => fun r =>
      match key_objs r !! k with
      | Some (T, m) => (Ret tt, set_key k T (<[name_at f := Lpm v l]> m) r)
      | None => (refuse, r)
      end
  | bf_rt_data_field_set_value d f v => fun r =>
      match data_objs r !! d with
      | Some (T, (Some a, m)) => (Ret tt, set_data d T (Some a) (<[name_at f := v]> m) r)
      | _ => (refuse, r)
      end
  | bf_rt_table_entry_add t _ k d => fun r =>
      match key_objs r !! k, data_objs r !! d with
      | Some (T, km), Some (T', (Some a, dm)) =>
          if decide (T = name_at t /\ T' = name_at t /\ table_of r T !! km = None)
          then (Ret tt, set_table T (<[km := (a, dm)]> (table_of r T)) r) else (refuse, r)
      | _, _ => (refuse, r)
      end
  | bf_rt_table_entry_del t _ k => fun r =>
      match key_objs r !! k with
      | Some (T, km) =>
          if decide (T = name_at t /\ table_of r T !! km <> None)
          then (Ret tt, set_table T (delete km (table_of r T)) r) else (refuse, r)
      | _ => (refuse, r)
      end
  | bf_rt_session_complete_operations _ => fun r => (Ret tt, r)
  | bf_rt_begin_batch _ => fun r => if in_batch r then (refuse, r) else (Ret tt, set_batch true r)
  | bf_rt_end_batch _ _ => fun r => if in_batch r then (Ret tt, set_batch false r) else (refuse, r)
  end.

#[export] Instance runtime : BfRuntime rt := { exec A := run; abs r := r }.

Lemma id_of_name n z : id_of n = Some z -> name_at z = n.
Proof.
  unfold id_of. case_decide as Hn; [by intros [= <-]|]. unfold name_at. destruct (list_find _ _) as [[i x]|] eqn:E; [|done]. simpl. intros [= <-].
  apply list_find_Some in E as (E & -> & _). rewrite Nat2Z.id. by apply nth_lookup_Some with (d := ""%string) in E.
Qed.

Lemma lookup_id_ok n r z r' : lookup_id n r = (Ret z, r') -> name_at z = n /\ r' = r.
Proof. unfold lookup_id. destruct (id_of n) eqn:E; intros [= -> <-]. split; [by apply id_of_name|done]. Qed.

#[export] Instance runtime_laws : BfRuntimeLaws rt.
Proof.
  split.
  - intros A c d out d' E. destruct c; simpl in *; simplify_eq; repeat (case_match; simplify_eq/=); eauto.
    all: try (apply lookup_id_ok in E as [<- ->]; by auto).
    all: try match goal with Hd : decide _ = _ |- _ => clear Hd end. all: destruct_and?; subst.
    all: try match goal with Hn : _ <> None |- _ => apply not_eq_None_Some in Hn as [? ?] end.
    all: repeat eexists; eauto.
    all: try (apply not_elem_of_dom, is_fresh).
  - intros A c d st d' E. destruct c; simpl in *; simplify_eq; repeat (case_match; simplify_eq/=); try done.
    all: unfold lookup_id in E; by case_match; simplify_eq.
Qed.

Lemma id_of_some z : is_Some (id_of (name_at z)).
Proof.
  unfold id_of. case_decide as Hn; [done|]. unfold name_at in *.
  destruct (nth_in_or_default (Z.to_nat z) names ""%string) as [Hin|]; [|done].
  apply list_elem_of_In in Hin. rewrite fmap_is_Some.
  destruct (list_find_elem_of (fun x => x = nth (Z.to_nat z) names ""%string) names _ Hin eq_refl) as [p Hp]. by exists p.
Qed.

Lemma runtime_reliable : reliable rt.
Proof.
  assert (forall z n r, name_at z = n -> exists out, lookup_id n r = (Ret out, r)) as Hid.
  { intros z n r <-. unfold lookup_id. destruct (id_of_some z) as [x ->]. eauto. }
  intros A c d out r' Hs. destruct c; simpl in *; eauto.
  all: try (destruct Hs as [Hn _]; destruct (Hid _ _ d Hn) as [? ->]; eauto; fail).
  - destruct Hs as [-> _]. destruct (Hid _ _ d (eq_refl (name_at out))) as [? ->]. eauto.
  - destruct Hs as [-> _]. eauto.
  - destruct Hs as (? & ? & -> & _). eauto.
  - destruct Hs as (? & -> & _). rewrite decide_True by done. eauto.
  - destruct Hs as (? & -> & _). rewrite decide_True by done. eauto.
  - destruct Hs as (? & ? & -> & _). eauto.
  - destruct Hs as (? & ? & -> & _). eauto.
  - destruct Hs as (? & ? & ? & -> & _). eauto.
  - destruct Hs as (? & ? & ? & -> & -> & ? & _). rewrite decide_True by done. eauto.
  - destruct Hs as (? & -> & [? Hx] & _). rewrite decide_True by (rewrite Hx; done). eauto.
  - destruct Hs as [-> _]. eauto.
  - destruct Hs as [-> _]. eauto.
Qed.

Definition empty : rt := Rt ∅ ∅ ∅ ∅ false.
End Sim.
