(* ===== verification/Json.v ===== *)
(** * Configuration files

    The control plane reads its configuration with the cJSON library, which is
    not part of the repository.  Here are the functions it uses, the behaviour it
    relies on, and the two idioms of the code: reading a whole file as JSON, and
    following a pointer that may be NULL. *)
From Stdlib Require Import ZArith Lia String.
From stdpp Require Import base list sets fin_sets strings.
From S2P Require Import Prelude BfRt.

(** [None] is a NULL pointer: the accessors take one and then find nothing. *)
Class CJson (J : Type) := {
  cJSON_Parse : string -> option J;
  cJSON_GetArraySize : option J -> Z;
  cJSON_GetArrayItem : option J -> Z -> option J;
  cJSON_GetObjectItem : option J -> string -> option J;
  valueint : J -> Z;
  valuestring : J -> option string
}.

Class CJsonLaws (J : Type) `{CJson J} : Prop := {
  size_nonneg (j : option J) : 0 <= cJSON_GetArraySize j;
  item_exists (j : option J) i : 0 <= i < cJSON_GetArraySize j -> is_Some (cJSON_GetArrayItem j i);
  item_of_null i : cJSON_GetArrayItem None i = None;
  member_of_null name : cJSON_GetObjectItem None name = None;
  valueint_range (j : J) : - 2 ^ 31 <= valueint j < 2 ^ 31
}.

Section json.
Context {J S : Type} `{CJson J}.

(** [p->...] *)
Definition deref (p : option J) : M S stop J :=
  match p with Some j => mret j | None => fail Crash end.

(** [cJSON_GetObjectItem(item, name)->valueint] *)
Definition int_member (item : option J) (name : string) : M S stop Z :=
  j ← deref (cJSON_GetObjectItem item name); mret (valueint j).

(** Open, read and parse a file; [files] is the file system. *)
Definition read_json (files : string -> option string) (path : string) : M S stop J :=
  match files path with
  | None => fail (Exit 1)
  | Some text => match cJSON_Parse text with None => fail (Exit 1) | Some j => mret j end
  end.

(** [for(int i = 0; i < size; i++)] over an array, collecting what the body
    stores at [i]. *)
Definition for_items {A} (arr : J) (f : option J -> M S stop A) : M S stop (list A) :=
  mapM (fun i => f (cJSON_GetArrayItem (Some arr) i)) (seqZ 0 (cJSON_GetArraySize (Some arr))).

(** The results of [g] on a list, or the first error. *)
Fixpoint collect {X A} (g : X -> outcome stop A) (l : list X) : outcome stop (list A) :=
  match l with
  | [] => Ret []
  | x :: l => match g x with
              | Err e => Err e
              | Ret a => match collect g l with Err e => Err e | Ret r => Ret (a :: r) end
              end
  end.

(** The elements of an array. *)
Definition items (arr : J) : list J :=
  omap (cJSON_GetArrayItem (Some arr)) (seqZ 0 (cJSON_GetArraySize (Some arr))).
End json.

(** ** JSON values in memory, for examples: a file's text names a document. *)

Module Sample.
Inductive json : Type := JInt (z : Z) | JStr (s : string) | JArr (l : list json) | JObj (l : list (string * json)).

Definition children (j : json) : list json :=
  match j with JArr l => l | JObj l => l.*2 | _ => [] end.
Definition int_of (j : json) : Z := match j with JInt z => Z.max (- 2 ^ 31) (Z.min z (2 ^ 31 - 1)) | _ => 0 end.
Definition member (j : json) (name : string) : option json :=
  match j with JObj l => snd <$> (snd <$> list_find (fun p => p.1 = name) l) | _ => None end.

#[export] Instance cjson (docs : list (string * json)) : CJson json := {
  cJSON_Parse text := snd <$> (snd <$> list_find (fun p => p.1 = text) docs);
  cJSON_GetArraySize j := match j with Some j => Z.of_nat (length (children j)) | None => 0 end;
  cJSON_GetArrayItem j i := match j with Some j => if decide (0 <= i) then children j !! Z.to_nat i else None | None => None end;
  cJSON_GetObjectItem j n := match j with Some j => member j n | None => None end;
  valueint := int_of;
  valuestring j := match j with JStr s => Some s | _ => None end
}.

End Sample.

Section json_rules.
Context {J S : Type} `{CJson J} `{!CJsonLaws J}.
Implicit Types s : S.

Lemma deref_run (j : J) s : deref (Some j) s = (Ret j, s).
Proof. done. Qed.

Lemma mapM_collect {X A} (f : X -> M S stop A) (g : X -> outcome stop A) l s :
  (forall x, x ∈ l -> f x s = (g x, s)) -> mapM f l s = (collect g l, s).
Proof.
  induction l as [|x l IH]; intros Hf; [done|]. cbn [mapM collect].
  rewrite bind_run, Hf by set_solver. destruct (g x) as [a|e]; [|done].
  rewrite bind_run, IH by set_solver. by destruct (collect g l).
Qed.

Lemma collect_map {X Y A} (h : X -> Y) (g : Y -> outcome stop A) l : collect (fun x => g (h x)) l = collect g (map h l).
Proof. induction l as [|x l IH]; simpl; [done|]. by rewrite IH. Qed.

Lemma items_map arr : map Some (items arr) = map (cJSON_GetArrayItem (Some arr)) (seqZ 0 (cJSON_GetArraySize (Some arr))).
Proof.
  unfold items. assert (forall i, i ∈ seqZ 0 (cJSON_GetArraySize (Some arr)) -> is_Some (cJSON_GetArrayItem (Some arr) i)) as Hs.
  { intros i Hi. apply elem_of_seqZ in Hi. apply item_exists. lia. }
  induction (seqZ _ _) as [|i l IH]; [done|]. cbn [map omap]. unfold omap. cbn [list_omap].
  destruct (Hs i) as [x Hx]; [set_solver|]. rewrite Hx. simpl. f_equal. apply IH. set_solver.
Qed.

Lemma for_items_run {A} (f : option J -> M S stop A) (g : J -> outcome stop A) arr s :
  (forall j, f (Some j) s = (g j, s)) -> for_items arr f s = (collect g (items arr), s).
Proof.
  intros Hf. unfold for_items. set (g' := fun o : option J => match o with Some j => g j | None => Err Crash end).
  rewrite (mapM_collect _ (fun i => g' (cJSON_GetArrayItem (Some arr) i))).
  - by rewrite (collect_map (cJSON_GetArrayItem (Some arr)) g'), <- items_map, <- (collect_map Some g').
  - intros i Hi. apply elem_of_seqZ in Hi. destruct (item_exists (Some arr) i) as [j ->]; [lia|]. apply Hf.
Qed.

(** The same, when what each element gives is known. *)
Lemma for_items_says {A} (f : option J -> M S stop A) (says : J -> A -> Prop) arr es s :
  Forall2 says (items arr) es -> (forall j e s, says j e -> f (Some j) s = (Ret e, s)) ->
  for_items arr f s = (Ret es, s).
Proof.
  intros H2 Hf. unfold for_items.
  assert (forall l : list (option J), l = map Some (items arr) -> mapM f l s = (Ret es, s)) as Hgen.
  { revert es H2. induction (items arr) as [|j js IH]; intros es H2 l ->.
    - by apply Forall2_nil_inv_l in H2 as ->.
    - apply Forall2_cons_inv_l in H2 as (e & es' & Hje & H2 & ->). cbn [map mapM].
      rewrite bind_run, (Hf j e s Hje). rewrite bind_run, (IH es' H2 _ eq_refl). done. }
  rewrite <- (Hgen _ eq_refl), items_map. clear. revert s. induction (seqZ _ _) as [|i l IH]; intros s; [done|].
  cbn [mapM map]. rewrite !bind_run. destruct (f _ s) as [[a|e] s']; [|done].
  rewrite !bind_run, IH. done.
Qed.

Lemma collect_pure {X A} (g : X -> A) l : collect (fun x => Ret (g x)) l = Ret (map g l).
Proof. induction l as [|x l IH]; simpl; [done|]. by rewrite IH. Qed.
End json_rules.

#[export] Instance sample_laws docs : @CJsonLaws Sample.json (Sample.cjson docs).
Proof.
  split; simpl; auto.
  - intros [j|]; lia.
  - intros [j|] i Hi; [|lia]. rewrite decide_True by lia. apply lookup_lt_is_Some. lia.
  - intros j. destruct j; simpl; try lia.
Qed.
