(* ===== verification/Client.v ===== *)
(** * The switch client (Switch/control_plane/src/client.c)

    Start-up of the driver, the port configuration, the [setup_*] functions that
    find a table's handles and identifiers, and the [add_*] functions that fill
    a table.  The program's global variables are one record; a call that fails
    where the code checks it ends the program with [exit(1)]. *)
From Stdlib Require Import ZArith Lia String.
From stdpp Require Import base list gmap strings.
From S2P Require Import Prelude BfRt Json.

Definition INBOUND_SRC_MAC : Z := 0x0c42a14aff02.

(** ** Data (include/client.h) *)

Record arp_table_info_t := { arp_hdl : Z; kid_opcode : Z; kid_target_proto_addr : Z; aid_reply_arp : Z;
  did_arp_mac : Z; arp_key_hdl : Z; arp_data_hdl : Z }.
Record arp_table_entry_t := { opcode : Z; target_proto_addr : Z; arp_mac : Z }.

Record dip_lookup_table_info_t := { dip_hdl : Z; kid_src_ip : Z; kid_src_port : Z; aid_dip_hit : Z;
  dip_key_hdl : Z; dip_data_hdl : Z }.
Record dip_lookup_table_entry_t := { src_ip : Z; src_port : Z }.

(** [key_hdl] and [data_hdl] are arrays of 256 handles. *)
Record offload_connection_table_info_t := { oft_hdl : Z; kid_cip : Z; kid_cport : Z; aid_oft_hit : Z;
  did_d_index : Z; oft_key_hdl : list Z; oft_data_hdl : list Z }.

(** [dest_to_egress_port_table_info_t], [d_index_to_egress_port_table_info_t] and
    [lb_index_to_egress_port_table_info_t] differ in the name of [kid] only. *)
Record egress_port_table_info_t := { eg_hdl : Z; eg_kid : Z; aid_set_egress_port : Z; did_src_mac : Z;
  did_dst_mac : Z; did_dst_port : Z; eg_key_hdl : Z; eg_data_hdl : Z }.
Record dest_to_egress_port_table_entry_t := { dst_addr : Z; prefix_len : Z; de_src_mac : Z; de_dst_mac : Z; de_dst_port : Z }.
Record d_index_to_egress_port_table_entry_t := { di_d_index : Z; di_dst_mac : Z; di_dst_port : Z }.
Record lb_index_to_egress_port_table_entry_t := { lb_index : Z; lb_dst_mac : Z; lb_dst_port : Z }.

Record d_index_to_ip_port_table_info_t := { dx_hdl : Z; kid_d_index : Z; aid_set_dst_ip_port : Z; did_dst_ip : Z;
  did_ip_dst_port : Z; dx_key_hdl : Z; dx_data_hdl : Z }.
Record d_index_to_ip_port_table_entry_t := { dx_d_index : Z; dx_dst_ip : Z; dx_dst_port : Z }.

(** The globals of client.c; statics start at zero. *)
Record globals := Globals {
  arp_table_info : arp_table_info_t;
  dip_lookup_table_info : dip_lookup_table_info_t;
  offload_connection_table_info : offload_connection_table_info_t;
  dest_to_egress_port_table_info : egress_port_table_info_t;
  d_index_to_egress_port_table_info : egress_port_table_info_t;
  lb_index_to_egress_port_table_info : egress_port_table_info_t;
  d_index_to_ip_port_table_info : d_index_to_ip_port_table_info_t;
  session : Z;
  bf_rt_info : Z
}.

Definition globals_0 : globals := {|
  arp_table_info := {| arp_hdl := 0; kid_opcode := 0; kid_target_proto_addr := 0; aid_reply_arp := 0;
    did_arp_mac := 0; arp_key_hdl := 0; arp_data_hdl := 0 |};
  dip_lookup_table_info := {| dip_hdl := 0; kid_src_ip := 0; kid_src_port := 0; aid_dip_hit := 0;
    dip_key_hdl := 0; dip_data_hdl := 0 |};
  offload_connection_table_info := {| oft_hdl := 0; kid_cip := 0; kid_cport := 0; aid_oft_hit := 0;
    did_d_index := 0; oft_key_hdl := replicate 256 0; oft_data_hdl := replicate 256 0 |};
  dest_to_egress_port_table_info := {| eg_hdl := 0; eg_kid := 0; aid_set_egress_port := 0; did_src_mac := 0;
    did_dst_mac := 0; did_dst_port := 0; eg_key_hdl := 0; eg_data_hdl := 0 |};
  d_index_to_egress_port_table_info := {| eg_hdl := 0; eg_kid := 0; aid_set_egress_port := 0; did_src_mac := 0;
    did_dst_mac := 0; did_dst_port := 0; eg_key_hdl := 0; eg_data_hdl := 0 |};
  lb_index_to_egress_port_table_info := {| eg_hdl := 0; eg_kid := 0; aid_set_egress_port := 0; did_src_mac := 0;
    did_dst_mac := 0; did_dst_port := 0; eg_key_hdl := 0; eg_data_hdl := 0 |};
  d_index_to_ip_port_table_info := {| dx_hdl := 0; kid_d_index := 0; aid_set_dst_ip_port := 0; did_dst_ip := 0;
    did_ip_dst_port := 0; dx_key_hdl := 0; dx_data_hdl := 0 |};
  session := 0; bf_rt_info := 0
|}.

(** Assignments to one of them. *)
Definition with_arp_table_info (x : arp_table_info_t) (g : globals) : globals :=
  Globals x (dip_lookup_table_info g) (offload_connection_table_info g) (dest_to_egress_port_table_info g) (d_index_to_egress_port_table_info g) (lb_index_to_egress_port_table_info g) (d_index_to_ip_port_table_info g) (session g) (bf_rt_info g).
Definition with_dip_lookup_table_info (x : dip_lookup_table_info_t) (g : globals) : globals :=
  Globals (arp_table_info g) x (offload_connection_table_info g) (dest_to_egress_port_table_info g) (d_index_to_egress_port_table_info g) (lb_index_to_egress_port_table_info g) (d_index_to_ip_port_table_info g) (session g) (bf_rt_info g).
Definition with_offload_connection_table_info (x : offload_connection_table_info_t) (g : globals) : globals :=
  Globals (arp_table_info g) (dip_lookup_table_info g) x (dest_to_egress_port_table_info g) (d_index_to_egress_port_table_info g) (lb_index_to_egress_port_table_info g) (d_index_to_ip_port_table_info g) (session g) (bf_rt_info g).
Definition with_dest_to_egress_port_table_info (x : egress_port_table_info_t) (g : globals) : globals :=
  Globals (arp_table_info g) (dip_lookup_table_info g) (offload_connection_table_info g) x (d_index_to_egress_port_table_info g) (lb_index_to_egress_port_table_info g) (d_index_to_ip_port_table_info g) (session g) (bf_rt_info g).
Definition with_d_index_to_egress_port_table_info (x : egress_port_table_info_t) (g : globals) : globals :=
  Globals (arp_table_info g) (dip_lookup_table_info g) (offload_connection_table_info g) (dest_to_egress_port_table_info g) x (lb_index_to_egress_port_table_info g) (d_index_to_ip_port_table_info g) (session g) (bf_rt_info g).
Definition with_lb_index_to_egress_port_table_info (x : egress_port_table_info_t) (g : globals) : globals :=
  Globals (arp_table_info g) (dip_lookup_table_info g) (offload_connection_table_info g) (dest_to_egress_port_table_info g) (d_index_to_egress_port_table_info g) x (d_index_to_ip_port_table_info g) (session g) (bf_rt_info g).
Definition with_d_index_to_ip_port_table_info (x : d_index_to_ip_port_table_info_t) (g : globals) : globals :=
  Globals (arp_table_info g) (dip_lookup_table_info g) (offload_connection_table_info g) (dest_to_egress_port_table_info g) (d_index_to_egress_port_table_info g) (lb_index_to_egress_port_table_info g) x (session g) (bf_rt_info g).
Definition with_session (x : Z) (g : globals) : globals :=
  Globals (arp_table_info g) (dip_lookup_table_info g) (offload_connection_table_info g) (dest_to_egress_port_table_info g) (d_index_to_egress_port_table_info g) (lb_index_to_egress_port_table_info g) (d_index_to_ip_port_table_info g) x (bf_rt_info g).
Definition with_bf_rt_info (x : Z) (g : globals) : globals :=
  Globals (arp_table_info g) (dip_lookup_table_info g) (offload_connection_table_info g) (dest_to_egress_port_table_info g) (d_index_to_egress_port_table_info g) (lb_index_to_egress_port_table_info g) (d_index_to_ip_port_table_info g) (session g) x.

Section client.
Context {D : Type} `{BfRuntime D}.

Record client := Client { vars : globals; driver : D }.

Abbreviation CL := (M client stop).

Definition set_driver (d : D) (s : client) : client := Client (vars s) d.
Definition call {A} : bf_call A -> CL A := checked driver set_driver.
Definition call_ {A} : bf_call A -> CL (outcome Z A) := unchecked driver set_driver.
Definition exit {A} (code : Z) : CL A := fail (Exit code).

Definition set_vars (f : globals -> globals) : CL unit := modify (fun s => Client (f (vars s)) (driver s)).
Definition var {A} (f : globals -> A) : CL A := gets (fun s => f (vars s)).

(** ** Start-up *)

(** The configuration file's name is built in a 256-byte array.  [sde] is the
    value of the environment variable, if set. *)
Definition init_switch (sde : option string) (prog_name : string) : CL unit :=
  match sde with
  | None => fail Crash
  | Some dir =>
      let conf_file := (dir ++ "/share/p4/targets/tofino/" ++ prog_name ++ ".conf")%string in
      if decide (256 <= String.length conf_file)%nat then fail Crash
      else call (bf_switchd_lib_init conf_file)
  end.

Definition init_bf_rt (prog_name : string) : CL unit :=
  info ← call (bf_rt_info_get prog_name);
  _ ← set_vars (with_bf_rt_info info);
  s ← call bf_rt_session_create;
  set_vars (with_session s).

(** ** Finding the tables

    The code stores every result in the table's info structure as it gets it;
    here the structure is stored when it is complete, since a failure in between
    ends the program. *)

Definition setup_arp_table : CL unit :=
  info ← var bf_rt_info;
  table_hdl ← call (bf_rt_table_from_name_get info "SwitchIngress.arp_table");
  key_hdl ← call (bf_rt_table_key_allocate table_hdl);
  data_hdl ← call (bf_rt_table_data_allocate table_hdl);
  kid_opcode ← call (bf_rt_key_field_id_get table_hdl "hdr.arp.opcode");
  kid_target ← call (bf_rt_key_field_id_get table_hdl "hdr.arp.target_proto_addr");
  aid ← call (bf_rt_action_name_to_id table_hdl "SwitchIngress.reply_arp");
  did ← call (bf_rt_data_field_id_with_action_get table_hdl "arp_mac" aid);
  _ ← call (bf_rt_table_action_data_reset table_hdl aid data_hdl);
  set_vars (with_arp_table_info {|
    arp_hdl := table_hdl; kid_opcode := kid_opcode; kid_target_proto_addr := kid_target;
    aid_reply_arp := aid; did_arp_mac := did; arp_key_hdl := key_hdl; arp_data_hdl := data_hdl |}).

Definition setup_dip_lookup_table : CL unit :=
  info ← var bf_rt_info;
  table_hdl ← call (bf_rt_table_from_name_get info "SwitchIngress.dip_lookup_table");
  key_hdl ← call (bf_rt_table_key_allocate table_hdl);
  data_hdl ← call (bf_rt_table_data_allocate table_hdl);
  kid_ip ← call (bf_rt_key_field_id_get table_hdl "hdr.ipv4.src_addr");
  kid_port ← call (bf_rt_key_field_id_get table_hdl "hdr.tcp.src_port");
  aid ← call (bf_rt_action_name_to_id table_hdl "SwitchIngress.dip_hit");
  _ ← call (bf_rt_table_action_data_reset table_hdl aid data_hdl);
  set_vars (with_dip_lookup_table_info {|
    dip_hdl := table_hdl; kid_src_ip := kid_ip; kid_src_port := kid_port; aid_dip_hit := aid;
    dip_key_hdl := key_hdl; dip_data_hdl := data_hdl |}).

(** The loop of lines 275-295: one key and one data object per slot. *)
Fixpoint allocate_handles (table_hdl aid : Z) (n : nat) : CL (list Z * list Z) :=
  match n with
  | O => mret ([], [])
  | S n =>
      key_hdl ← call (bf_rt_table_key_allocate table_hdl);
      data_hdl ← call (bf_rt_table_data_allocate table_hdl);
      _ ← call (bf_rt_table_action_data_reset table_hdl aid data_hdl);
      r ← allocate_handles table_hdl aid n;
      mret (key_hdl :: fst r, data_hdl :: snd r)
  end.

Definition setup_offload_connection_table : CL unit :=
  info ← var bf_rt_info;
  table_hdl ← call (bf_rt_table_from_name_get info "SwitchIngress.offload_connection_table");
  kid_cip ← call (bf_rt_key_field_id_get table_hdl "ig_md.cip");
  kid_cport ← call (bf_rt_key_field_id_get table_hdl "ig_md.cport");
  aid ← call (bf_rt_action_name_to_id table_hdl "SwitchIngress.oft_hit");
  did ← call (bf_rt_data_field_id_with_action_get table_hdl "d_index" aid);
  hdls ← allocate_handles table_hdl aid 256;
  set_vars (with_offload_connection_table_info {|
    oft_hdl := table_hdl; kid_cip := kid_cip; kid_cport := kid_cport; aid_oft_hit := aid;
    did_d_index := did; oft_key_hdl := fst hdls; oft_data_hdl := snd hdls |}).

Definition setup_dest_to_egress_port_table : CL unit :=
  info ← var bf_rt_info;
  table_hdl ← call (bf_rt_table_from_name_get info "SwitchIngress.dest_to_egress_port_table");
  key_hdl ← call (bf_rt_table_key_allocate table_hdl);
  data_hdl ← call (bf_rt_table_data_allocate table_hdl);
  kid ← call (bf_rt_key_field_id_get table_hdl "hdr.ipv4.dst_addr");
  aid ← call (bf_rt_action_name_to_id table_hdl "SwitchIngress.set_egress_port");
  did_src ← call (bf_rt_data_field_id_with_action_get table_hdl "src_mac" aid);
  did_dst ← call (bf_rt_data_field_id_with_action_get table_hdl "dst_mac" aid);
  did_port ← call (bf_rt_data_field_id_with_action_get table_hdl "dst_port" aid);
  _ ← call (bf_rt_table_action_data_reset table_hdl aid data_hdl);
  set_vars (with_dest_to_egress_port_table_info {|
    eg_hdl := table_hdl; eg_kid := kid; aid_set_egress_port := aid; did_src_mac := did_src;
    did_dst_mac := did_dst; did_dst_port := did_port; eg_key_hdl := key_hdl; eg_data_hdl := data_hdl |}).

Definition setup_d_index_to_egress_port_table : CL unit :=
  info ← var bf_rt_info;
  table_hdl ← call (bf_rt_table_from_name_get info "SwitchIngress.d_index_to_egress_port_table");
  key_hdl ← call (bf_rt_table_key_allocate table_hdl);
  data_hdl ← call (bf_rt_table_data_allocate table_hdl);
  kid ← call (bf_rt_key_field_id_get table_hdl "hdr.bridged.index");
  aid ← call (bf_rt_action_name_to_id table_hdl "SwitchIngress.set_egress_port");
  did_src ← call (bf_rt_data_field_id_with_action_get table_hdl "src_mac" aid);
  did_dst ← call (bf_rt_data_field_id_with_action_get table_hdl "dst_mac" aid);
  did_port ← call (bf_rt_data_field_id_with_action_get table_hdl "dst_port" aid);
  _ ← call (bf_rt_table_action_data_reset table_hdl aid data_hdl);
  set_vars (with_d_index_to_egress_port_table_info {|
    eg_hdl := table_hdl; eg_kid := kid; aid_set_egress_port := aid; did_src_mac := did_src;
    did_dst_mac := did_dst; did_dst_port := did_port; eg_key_hdl := key_hdl; eg_data_hdl := data_hdl |}).

Definition setup_lb_index_to_egress_port_table : CL unit :=
  info ← var bf_rt_info;
  table_hdl ← call (bf_rt_table_from_name_get info "SwitchIngress.lb_index_to_egress_port_table");
  kid ← call (bf_rt_key_field_id_get table_hdl "ig_md.hash_result");
  aid ← call (bf_rt_action_name_to_id table_hdl "SwitchIngress.set_egress_port");
  did_src ← call (bf_rt_data_field_id_with_action_get table_hdl "src_mac" aid);
  did_dst ← call (bf_rt_data_field_id_with_action_get table_hdl "dst_mac" aid);
  did_port ← call (bf_rt_data_field_id_with_action_get table_hdl "dst_port" aid);
  key_hdl ← call (bf_rt_table_key_allocate table_hdl);
  data_hdl ← call (bf_rt_table_data_allocate table_hdl);
  _ ← call (bf_rt_table_action_data_reset table_hdl aid data_hdl);
  set_vars (with_lb_index_to_egress_port_table_info {|
    eg_hdl := table_hdl; eg_kid := kid; aid_set_egress_port := aid; did_src_mac := did_src;
    did_dst_mac := did_dst; did_dst_port := did_port; eg_key_hdl := key_hdl; eg_data_hdl := data_hdl |}).

Definition setup_d_index_to_ip_port_table : CL unit :=
  info ← var bf_rt_info;
  table_hdl ← call (bf_rt_table_from_name_get info "SwitchEgress.d_index_to_ip_port_table");
  key_hdl ← call (bf_rt_table_key_allocate table_hdl);
  data_hdl ← call (bf_rt_table_data_allocate table_hdl);
  kid ← call (bf_rt_key_field_id_get table_hdl "eg_md.bridged.index");
  aid ← call (bf_rt_action_name_to_id table_hdl "SwitchEgress.set_dst_ip_port");
  did_ip ← call (bf_rt_data_field_id_with_action_get table_hdl "dst_ip" aid);
  did_port ← call (bf_rt_data_field_id_with_action_get table_hdl "dst_port" aid);
  _ ← call (bf_rt_table_action_data_reset table_hdl aid data_hdl);
  set_vars (with_d_index_to_ip_port_table_info {|
    dx_hdl := table_hdl; kid_d_index := kid; aid_set_dst_ip_port := aid; did_dst_ip := did_ip;
    did_ip_dst_port := did_port; dx_key_hdl := key_hdl; dx_data_hdl := data_hdl |}).

(** ** Filling the tables *)

Definition add_arp_one (e : arp_table_entry_t) : CL unit :=
  i ← var arp_table_info; session ← var session;
  _ ← call (bf_rt_key_field_set_value (arp_key_hdl i) (kid_opcode i) (opcode e));
  _ ← call (bf_rt_key_field_set_value (arp_key_hdl i) (kid_target_proto_addr i) (target_proto_addr e));
  _ ← call_ (bf_rt_table_action_data_reset (arp_hdl i) (aid_reply_arp i) (arp_data_hdl i));
  _ ← call (bf_rt_data_field_set_value (arp_data_hdl i) (did_arp_mac i) (arp_mac e));
  _ ← call (bf_rt_table_entry_add (arp_hdl i) session (arp_key_hdl i) (arp_data_hdl i));
  call (bf_rt_session_complete_operations session).
Definition add_arp_table_entry (entries : list arp_table_entry_t) : CL unit := for_each add_arp_one entries.

Definition add_dip_lookup_one (e : dip_lookup_table_entry_t) : CL unit :=
  i ← var dip_lookup_table_info; session ← var session;
  _ ← call (bf_rt_key_field_set_value (dip_key_hdl i) (kid_src_ip i) (src_ip e));
  _ ← call (bf_rt_key_field_set_value (dip_key_hdl i) (kid_src_port i) (src_port e));
  _ ← call (bf_rt_table_entry_add (dip_hdl i) session (dip_key_hdl i) (dip_data_hdl i));
  call (bf_rt_session_complete_operations session).
Definition add_dip_lookup_table_entry (entries : list dip_lookup_table_entry_t) : CL unit :=
  for_each add_dip_lookup_one entries.

Definition add_dest_to_egress_one (e : dest_to_egress_port_table_entry_t) : CL unit :=
  i ← var dest_to_egress_port_table_info; session ← var session;
  _ ← call (bf_rt_key_field_set_value_lpm (eg_key_hdl i) (eg_kid i) (dst_addr e) (prefix_len e));
  _ ← call (bf_rt_data_field_set_value (eg_data_hdl i) (did_src_mac i) (de_src_mac e));
  _ ← call (bf_rt_data_field_set_value (eg_data_hdl i) (did_dst_mac i) (de_dst_mac e));
  _ ← call (bf_rt_data_field_set_value (eg_data_hdl i) (did_dst_port i) (de_dst_port e));
  _ ← call (bf_rt_table_entry_add (eg_hdl i) session (eg_key_hdl i) (eg_data_hdl i));
  call (bf_rt_session_complete_operations session).
Definition add_dest_to_egress_port_table_entry (entries : list dest_to_egress_port_table_entry_t) : CL unit :=
  for_each add_dest_to_egress_one entries.

Definition add_d_index_to_egress_one (e : d_index_to_egress_port_table_entry_t) : CL unit :=
  i ← var d_index_to_egress_port_table_info; session ← var session;
  _ ← call (bf_rt_key_field_set_value (eg_key_hdl i) (eg_kid i) (di_d_index e));
  _ ← call (bf_rt_data_field_set_value (eg_data_hdl i) (did_src_mac i) INBOUND_SRC_MAC);
  _ ← call (bf_rt_data_field_set_value (eg_data_hdl i) (did_dst_mac i) (di_dst_mac e));
  _ ← call (bf_rt_data_field_set_value (eg_data_hdl i) (did_dst_port i) (di_dst_port e));
  _ ← call (bf_rt_table_entry_add (eg_hdl i) session (eg_key_hdl i) (eg_data_hdl i));
  call (bf_rt_session_complete_operations session).
Definition add_d_index_to_egress_port_table_entry (entries : list d_index_to_egress_port_table_entry_t) : CL unit :=
  for_each add_d_index_to_egress_one entries.

Definition add_lb_index_to_egress_one (e : lb_index_to_egress_port_table_entry_t) : CL unit :=
  i ← var lb_index_to_egress_port_table_info; session ← var session;
  _ ← call (bf_rt_table_key_reset (eg_hdl i) (eg_key_hdl i));
  _ ← call (bf_rt_key_field_set_value (eg_key_hdl i) (eg_kid i) (lb_index e));
  _ ← call (bf_rt_table_action_data_reset (eg_hdl i) (aid_set_egress_port i) (eg_data_hdl i));
  _ ← call (bf_rt_data_field_set_value (eg_data_hdl i) (did_src_mac i) INBOUND_SRC_MAC);
  _ ← call (bf_rt_data_field_set_value (eg_data_hdl i) (did_dst_mac i) (lb_dst_mac e));
  _ ← call (bf_rt_data_field_set_value (eg_data_hdl i) (did_dst_port i) (lb_dst_port e));
  _ ← call (bf_rt_table_entry_add (eg_hdl i) session (eg_key_hdl i) (eg_data_hdl i));
  call (bf_rt_session_complete_operations session).
Definition add_lb_index_to_egress_port_table_entry (entries : list lb_index_to_egress_port_table_entry_t) : CL unit :=
  for_each add_lb_index_to_egress_one entries.

Definition add_d_index_to_ip_one (e : d_index_to_ip_port_table_entry_t) : CL unit :=
  i ← var d_index_to_ip_port_table_info; session ← var session;
  _ ← call (bf_rt_key_field_set_value (dx_key_hdl i) (kid_d_index i) (dx_d_index e));
  _ ← call (bf_rt_data_field_set_value (dx_data_hdl i) (did_dst_ip i) (dx_dst_ip e));
  _ ← call (bf_rt_data_field_set_value (dx_data_hdl i) (did_ip_dst_port i) (dx_dst_port e));
  _ ← call (bf_rt_table_entry_add (dx_hdl i) session (dx_key_hdl i) (dx_data_hdl i));
  call (bf_rt_session_complete_operations session).
Definition add_d_index_to_ip_port_table_entry (entries : list d_index_to_ip_port_table_entry_t) : CL unit :=
  for_each add_d_index_to_ip_one entries.
End client.
Arguments client : clear implicits.

(** ** Ports *)

Section init_ports.
Context {D J : Type} `{BfRuntime D} `{CJson J}.
(** The file system. *)
Context (files : string -> option string).
Abbreviation CL := (M (client D) stop).

(** The speeds that may be configured, in gigabits. *)
Definition port_speed (gigabits : Z) : option bf_port_speed_t :=
  if gigabits =? 100 then Some BF_SPEED_100G
  else if gigabits =? 40 then Some BF_SPEED_40G
  else if gigabits =? 25 then Some BF_SPEED_25G
  else if gigabits =? 10 then Some BF_SPEED_10G
  else None.

(** Lines 71-99: one element of the array, as a [port_info_t]. *)
Definition read_port (port_item : option J) : CL (option string * bf_port_speed_t) :=
  match port_item with
  | None => exit 1
  | Some _ =>
      match cJSON_GetObjectItem port_item "port", cJSON_GetObjectItem port_item "speed" with
      | Some port_name, Some speed =>
          match port_speed (valueint speed) with
          | Some sp => mret (valuestring port_name, sp)
          | None => exit 1
          end
      | _, _ => exit 1
      end
  end.

(** Lines 104-123. *)
Definition enable_port (p : option string * bf_port_speed_t) : CL unit :=
  port_handle ← call (bf_pm_port_str_to_hdl_get (fst p));
  _ ← call (bf_pm_port_add port_handle (snd p));
  call (bf_pm_port_enable port_handle).

Definition init_ports (port_json_path : string) : CL unit :=
  port_json_array ← read_json files port_json_path;
  port_info ← for_items port_json_array read_port;
  for_each enable_port port_info.
End init_ports.

(** ** Contracts *)

Section contracts.
Context {D : Type} `{BfRuntime D} `{BfSchema}.
Abbreviation client := (client D).
Abbreviation rts s := (abs (driver s)).

(** The compiled program has table [T] with these key fields, and action [a] of
    it with these parameters. *)
Definition has_names (T : string) (ks : list string) (a : string) (ds : list string) : Prop :=
  (exists t, tbl_name t = T) /\ Forall (fun k => exists f, key_name T f = k) ks /\
  (exists x, act_name T x = a) /\ Forall (fun d => exists f, dat_name T a f = d) ds.

(** The handles of a table: [h] names it, [k] and [d] are its key and data
    objects, [ks] and [ds] the identifiers of their fields. *)
Definition handles_ok (T a : string) (kn dn : list string) (h aid : Z) (ks ds : list Z) (k d : Z) (r : rt) : Prop :=
  tbl_name h = T /\ act_name T aid = a /\ Forall2 (fun f n => key_name T f = n) ks kn /\
  Forall2 (fun f n => dat_name T a f = n) ds dn /\
  key_ready r T k kn /\ data_ready r T d a dn.

Definition ARP : string := "SwitchIngress.arp_table".
Definition DIP : string := "SwitchIngress.dip_lookup_table".
Definition OFT : string := "SwitchIngress.offload_connection_table".
Definition DEST : string := "SwitchIngress.dest_to_egress_port_table".
Definition DIX : string := "SwitchIngress.d_index_to_egress_port_table".
Definition LBX : string := "SwitchIngress.lb_index_to_egress_port_table".
Definition DIP_PORT : string := "SwitchEgress.d_index_to_ip_port_table".
Definition SET_EGRESS : string := "SwitchIngress.set_egress_port".
Definition egress_params : list string := ["src_mac"; "dst_mac"; "dst_port"]%string.

Definition arp_ready (i : arp_table_info_t) : rt -> Prop :=
  handles_ok ARP "SwitchIngress.reply_arp" ["hdr.arp.opcode"; "hdr.arp.target_proto_addr"]%string ["arp_mac"]%string
    (arp_hdl i) (aid_reply_arp i) [kid_opcode i; kid_target_proto_addr i] [did_arp_mac i] (arp_key_hdl i) (arp_data_hdl i).
Definition dip_ready (i : dip_lookup_table_info_t) : rt -> Prop :=
  handles_ok DIP "SwitchIngress.dip_hit" ["hdr.ipv4.src_addr"; "hdr.tcp.src_port"]%string []
    (dip_hdl i) (aid_dip_hit i) [kid_src_ip i; kid_src_port i] [] (dip_key_hdl i) (dip_data_hdl i).
Definition egress_ready (T field : string) (i : egress_port_table_info_t) : rt -> Prop :=
  handles_ok T SET_EGRESS [field] egress_params (eg_hdl i) (aid_set_egress_port i) [eg_kid i]
    [did_src_mac i; did_dst_mac i; did_dst_port i] (eg_key_hdl i) (eg_data_hdl i).
Definition dx_ready (i : d_index_to_ip_port_table_info_t) : rt -> Prop :=
  handles_ok DIP_PORT "SwitchEgress.set_dst_ip_port" ["eg_md.bridged.index"]%string ["dst_ip"; "dst_port"]%string
    (dx_hdl i) (aid_set_dst_ip_port i) [kid_d_index i] [did_dst_ip i; did_ip_dst_port i] (dx_key_hdl i) (dx_data_hdl i).
(** All 256 pairs of objects of the offload table, the keys distinct and the
    data objects distinct. *)
Definition oft_ready (i : offload_connection_table_info_t) (r : rt) : Prop :=
  tbl_name (oft_hdl i) = OFT /\ act_name OFT (aid_oft_hit i) = "SwitchIngress.oft_hit"%string /\
  key_name OFT (kid_cip i) = "ig_md.cip"%string /\ key_name OFT (kid_cport i) = "ig_md.cport"%string /\
  dat_name OFT "SwitchIngress.oft_hit" (did_d_index i) = "d_index"%string /\
  length (oft_key_hdl i) = 256%nat /\ length (oft_data_hdl i) = 256%nat /\
  NoDup (oft_key_hdl i) /\ NoDup (oft_data_hdl i) /\
  Forall (fun k => key_ready r OFT k ["ig_md.cip"; "ig_md.cport"]%string) (oft_key_hdl i) /\
  Forall (fun d => data_ready r OFT d "SwitchIngress.oft_hit" ["d_index"]%string) (oft_data_hdl i).

(** After [setup_*]: the table's structure is filled in and usable, no entry is
    there that was not before, and the other tables' structures and objects are
    as they were; or the program has exited because the runtime failed. *)
Definition setup_post {I} (T : string) (withI : I -> globals -> globals) (ready : I -> rt -> Prop) (names : Prop)
    (s : client) (r : outcome stop unit) (s' : client) : Prop :=
  frame T (rts s) (rts s') /\ table_of (rts s') T = table_of (rts s) T /\
  match r with
  | Ret _ => exists i, vars s' = withI i (vars s) /\ ready i (rts s')
  | Err e => e = Exit 1 /\ ~ (reliable D /\ names)
  end.

(** After adding one entry: it is in the table, where its key was not; or the
    program has exited, which a reliable runtime causes for a duplicate only. *)
Definition add_post (T : string) (ready : rt -> Prop) (k : entry_key) (v : entry_data)
    (s : client) (r : outcome stop unit) (s' : client) : Prop :=
  frame T (rts s) (rts s') /\ vars s' = vars s /\
  match r with
  | Ret _ => ready (rts s') /\ table_of (rts s) T !! k = None /\
             table_of (rts s') T = <[k := v]> (table_of (rts s) T)
  | Err e => e = Exit 1 /\
             (table_of (rts s') T = table_of (rts s) T \/
              table_of (rts s) T !! k = None /\ table_of (rts s') T = <[k := v]> (table_of (rts s) T)) /\
             (reliable D -> table_of (rts s) T !! k <> None)
  end.
End contracts.

(** The entries the structures stand for. *)
Definition arp_key (e : arp_table_entry_t) : entry_key :=
  <["hdr.arp.target_proto_addr" := Exact (target_proto_addr e)]> {["hdr.arp.opcode" := Exact (opcode e)]}.
Definition arp_data (e : arp_table_entry_t) : entry_data := ("SwitchIngress.reply_arp"%string, {["arp_mac" := arp_mac e]}).
Definition dip_key (e : dip_lookup_table_entry_t) : entry_key :=
  <["hdr.tcp.src_port" := Exact (src_port e)]> {["hdr.ipv4.src_addr" := Exact (src_ip e)]}.
Definition dip_data (_ : dip_lookup_table_entry_t) : entry_data := ("SwitchIngress.dip_hit"%string, ∅).
Definition egress_data (src dst port : Z) : entry_data :=
  (SET_EGRESS, <["dst_port" := port]> (<["dst_mac" := dst]> {["src_mac" := src]})).
Definition dest_key (e : dest_to_egress_port_table_entry_t) : entry_key :=
  {["hdr.ipv4.dst_addr" := Lpm (dst_addr e) (prefix_len e)]}.
Definition dest_data (e : dest_to_egress_port_table_entry_t) : entry_data :=
  egress_data (de_src_mac e) (de_dst_mac e) (de_dst_port e).
Definition dix_key (e : d_index_to_egress_port_table_entry_t) : entry_key := {["hdr.bridged.index" := Exact (di_d_index e)]}.
Definition dix_data (e : d_index_to_egress_port_table_entry_t) : entry_data :=
  egress_data INBOUND_SRC_MAC (di_dst_mac e) (di_dst_port e).
Definition lbx_key (e : lb_index_to_egress_port_table_entry_t) : entry_key := {["ig_md.hash_result" := Exact (lb_index e)]}.
Definition lbx_data (e : lb_index_to_egress_port_table_entry_t) : entry_data :=
  egress_data INBOUND_SRC_MAC (lb_dst_mac e) (lb_dst_port e).
Definition dx_key (e : d_index_to_ip_port_table_entry_t) : entry_key := {["eg_md.bridged.index" := Exact (dx_d_index e)]}.
Definition dx_data (e : d_index_to_ip_port_table_entry_t) : entry_data :=
  ("SwitchEgress.set_dst_ip_port"%string, <["dst_port" := dx_dst_port e]> {["dst_ip" := dx_dst_ip e]}).

(** After adding a list of entries: all of them are in the table; or the program
    has exited with some of the first ones added, which a reliable runtime causes
    only if two entries have one key or a key was there before. *)
Definition load_post `{BfSchema} {D} `{BfRuntime D} (T : string) (ready : rt -> Prop) (kvs : list (entry_key * entry_data))
    (s : client D) (r : outcome stop unit) (s' : client D) : Prop :=
  let t := table_of (abs (driver s)) T in
  let t' := table_of (abs (driver s')) T in
  frame T (abs (driver s)) (abs (driver s')) /\ vars s' = vars s /\
  match r with
  | Ret _ => ready (abs (driver s')) /\ NoDup kvs.*1 /\ (forall k, k ∈ kvs.*1 -> t !! k = None) /\ t' = list_to_map kvs ∪ t
  | Err e => e = Exit 1 /\ (exists n, NoDup (take n kvs).*1 /\ (forall k, k ∈ (take n kvs).*1 -> t !! k = None) /\
                        t' = list_to_map (take n kvs) ∪ t) /\
             (reliable D -> ~ (NoDup kvs.*1 /\ forall k, k ∈ kvs.*1 -> t !! k = None))
  end.
