(* ===== verification/ClientProofs.v ===== *)
(** * Proofs about the switch client

    Execution rules for [Client.v], and for each [setup_*] and [add_*] function
    the contract it meets. *)
From Stdlib Require Import ZArith Lia String.
From stdpp Require Import base list gmap strings.
From S2P Require Import Prelude BfRt Json Client.

(** ** Execution rules *)

Section rules.
Context {D : Type} `{BfRuntime D} `{BfSchema} `{!BfRuntimeLaws D}.
Abbreviation client := (client D).
Abbreviation rts s := (abs (driver s)).
Implicit Types s : client.

Lemma wp_call {A} (c : bf_call A) (Q : outcome stop A -> client -> Prop) s :
  (forall out d', bf_step c (rts s) out (abs d') -> Q (Ret out) (Client (vars s) d')) ->
  (forall d', abs d' = rts s -> (reliable D -> forall out r', ~ bf_step c (rts s) out r') ->
     Q (Err (Exit 1)) (Client (vars s) d')) ->
  wp (call c) Q s.
Proof. apply (wp_checked driver set_driver c Q s). Qed.

Lemma wp_call_ {A} (c : bf_call A) (Q : outcome stop (outcome Z A) -> client -> Prop) s :
  (forall out d', bf_step c (rts s) out (abs d') -> Q (Ret (Ret out)) (Client (vars s) d')) ->
  (forall d' e, abs d' = rts s -> (reliable D -> forall out r', ~ bf_step c (rts s) out r') ->
     Q (Ret (Err e)) (Client (vars s) d')) ->
  wp (call_ c) Q s.
Proof. apply (wp_unchecked driver set_driver c Q s). Qed.

Lemma wp_var {A} (f : globals -> A) (Q : outcome stop A -> client -> Prop) s : Q (Ret (f (vars s))) s -> wp (var f) Q s.
Proof. done. Qed.

Lemma wp_set_vars f (Q : outcome stop unit -> client -> Prop) s :
  Q (Ret tt) (Client (f (vars s)) (driver s)) -> wp (set_vars f) Q s.
Proof. done. Qed.
End rules.

(** Execute up to the next call and split it in its two outcomes; [Hr], the
    equation for the abstract state, is brought up to date. *)
Ltac call_step Hr :=
  first [apply wp_bind | idtac];
  first [ apply wp_call; cbn [driver vars];
          [ let o := fresh "out" in let d := fresh "d" in let Hs := fresh "Hs" in
            intros o d Hs; try rewrite Hr in Hs; cbn [bf_step] in Hs; revert Hs
          | let d := fresh "d" in let E := fresh "E" in let Rel := fresh "Rel" in
            intros d E Rel; try rewrite Hr in E; try rewrite Hr in Rel; cbn [bf_step] in Rel; revert E Rel ]
        | apply wp_call_; cbn [driver vars];
          [ let o := fresh "out" in let d := fresh "d" in let Hs := fresh "Hs" in
            intros o d Hs; try rewrite Hr in Hs; cbn [bf_step] in Hs; revert Hs
          | let d := fresh "d" in let e := fresh "e" in let E := fresh "E" in
            intros d e E _; try rewrite Hr in E; revert E ] ];
  cbn beta iota.

Lemma lookup_fresh {X} (m : gmap Z X) : m !! fresh (dom m) = None.
Proof. apply not_elem_of_dom, is_fresh. Qed.

(** The cases of a setup function: a call of it that succeeds, and one that fails. *)
Ltac unpack_names N :=
  let Ht := fresh "Nt" in let Hk := fresh "Nk" in let Ha := fresh "Na" in let Hd := fresh "Nd" in
  destruct N as ([? Ht] & Hk & [? Ha] & Hd);
  repeat (apply Forall_cons in Hk as [[? ?] Hk]); repeat (apply Forall_cons in Hd as [[? ?] Hd]).
Ltac owned_solve :=
  let Ho := fresh "Ho" in
  intros ? ? Ho; cbn [key_objs data_objs set_key set_data set_table] in *; simplify_map_eq; done.
Ltac frame_solve :=
  repeat first [apply frame_refl | apply frame_set_key | apply frame_set_data | apply frame_set_table];
  try owned_solve.
Ltac able Rel R :=
  eapply (Rel R);
  first [ by (split; [eassumption | reflexivity])
        | by (split; [match goal with Ha : act_name _ ?x = _ |- context [act_name _ ?x] => rewrite Ha end; eassumption | reflexivity])
        | by (split; [apply lookup_fresh | reflexivity])
        | by (repeat eexists; cbn [key_objs data_objs set_key set_data set_table]; rewrite ?lookup_insert_eq; first [eassumption | reflexivity]) ].
Ltac setup_ok Hs Hr :=
  let Hr' := fresh "Hr" in
  first [ destruct Hs as [? [? Hr']] | destruct Hs as [? Hr'] ]; clear Hr; rename Hr' into Hr.

Section proofs.
Context {D : Type} `{BfRuntime D} `{BfSchema} `{!BfRuntimeLaws D}.
Abbreviation client := (client D).
Abbreviation rts s := (abs (driver s)).
Implicit Types s : client.

Lemma setup_failed {I} T (withI : I -> globals -> globals) ready names s d r :
  abs d = r -> frame T (rts s) r -> table_of r T = table_of (rts s) T -> ~ (reliable D /\ names) ->
  setup_post T withI ready names s (Err (Exit 1)) (Client (vars s) d).
Proof. intros <-. done. Qed.

(** The failing branch of a call, then the succeeding one. *)
Ltac simpl_rt H := cbn [key_objs data_objs set_key set_data set_table] in H.
Ltac setup_fail Hr0 tac :=
  let E := fresh "E" in let Rel := fresh "Rel" in let R := fresh "R" in let N := fresh "N" in
  intros E Rel; tac Rel; simpl_rt Rel; eapply setup_failed;
  [exact E | rewrite Hr0; frame_solve | rewrite Hr0; done | intros [R N]; unpack_names N; able Rel R].
Ltac setup_table Ht Hr0 Hr :=
  call_step Hr; [let Hr' := fresh in intros [Ht Hr']; clear Hr; rename Hr' into Hr | setup_fail Hr0 ltac:(fun H => idtac)].
Ltac setup_call Ht Hr0 Hr :=
  call_step Hr;
  [ let Hs := fresh "Hs" in intros Hs; try rewrite Ht in Hs; simpl_rt Hs; setup_ok Hs Hr
  | setup_fail Hr0 ltac:(fun H => try rewrite Ht in H) ].

Ltac ready_solve :=
  eexists; split;
  [cbn [key_objs data_objs set_key set_data set_table]; rewrite lookup_insert_eq; reflexivity | rewrite dom_empty_L; apply empty_subseteq].
Ltac setup_done Hr0 Hr :=
  match goal with Ha : act_name ?T ?x = _ |- _ =>
    repeat match goal with Hd : dat_name _ (act_name T x) _ = _ |- _ => rewrite Ha in Hd end; rewrite Ha in Hr end;
  apply wp_set_vars; unfold setup_post; cbn [driver vars]; rewrite Hr, Hr0;
  split_and!; [frame_solve | done | eexists; split; [reflexivity|]; cbn; split_and!; repeat constructor; try done; ready_solve].
Ltac setup_start Hr0 Hr :=
  apply wp_bind, wp_var; cbn beta iota;
  match goal with |- wp _ _ ?s => remember (abs (driver s)) as r eqn:Hr0; symmetry in Hr0; pose proof Hr0 as Hr end.

Lemma wp_setup_arp_table s :
  wp setup_arp_table (setup_post ARP with_arp_table_info arp_ready
    (has_names ARP ["hdr.arp.opcode"; "hdr.arp.target_proto_addr"]%string "SwitchIngress.reply_arp" ["arp_mac"]%string) s) s.
Proof.
  unfold setup_arp_table. setup_start Hr0 Hr. setup_table Ht Hr0 Hr. do 7 setup_call Ht Hr0 Hr. setup_done Hr0 Hr.
Qed.

Lemma wp_setup_dip_lookup_table s :
  wp setup_dip_lookup_table (setup_post DIP with_dip_lookup_table_info dip_ready
    (has_names DIP ["hdr.ipv4.src_addr"; "hdr.tcp.src_port"]%string "SwitchIngress.dip_hit" []) s) s.
Proof.
  unfold setup_dip_lookup_table. setup_start Hr0 Hr. setup_table Ht Hr0 Hr. do 6 setup_call Ht Hr0 Hr. setup_done Hr0 Hr.
Qed.

Lemma wp_setup_dest_to_egress_port_table s :
  wp setup_dest_to_egress_port_table (setup_post DEST with_dest_to_egress_port_table_info (egress_ready DEST "hdr.ipv4.dst_addr")
    (has_names DEST ["hdr.ipv4.dst_addr"]%string SET_EGRESS egress_params) s) s.
Proof.
  unfold setup_dest_to_egress_port_table. setup_start Hr0 Hr. setup_table Ht Hr0 Hr.
  do 8 setup_call Ht Hr0 Hr. setup_done Hr0 Hr.
Qed.

Lemma wp_setup_d_index_to_egress_port_table s :
  wp setup_d_index_to_egress_port_table (setup_post DIX with_d_index_to_egress_port_table_info (egress_ready DIX "hdr.bridged.index")
    (has_names DIX ["hdr.bridged.index"]%string SET_EGRESS egress_params) s) s.
Proof.
  unfold setup_d_index_to_egress_port_table. setup_start Hr0 Hr. setup_table Ht Hr0 Hr.
  do 8 setup_call Ht Hr0 Hr. setup_done Hr0 Hr.
Qed.

Lemma wp_setup_lb_index_to_egress_port_table s :
  wp setup_lb_index_to_egress_port_table (setup_post LBX with_lb_index_to_egress_port_table_info (egress_ready LBX "ig_md.hash_result")
    (has_names LBX ["ig_md.hash_result"]%string SET_EGRESS egress_params) s) s.
Proof.
  unfold setup_lb_index_to_egress_port_table. setup_start Hr0 Hr. setup_table Ht Hr0 Hr.
  do 8 setup_call Ht Hr0 Hr. setup_done Hr0 Hr.
Qed.

Lemma wp_setup_d_index_to_ip_port_table s :
  wp setup_d_index_to_ip_port_table (setup_post DIP_PORT with_d_index_to_ip_port_table_info dx_ready
    (has_names DIP_PORT ["eg_md.bridged.index"]%string "SwitchEgress.set_dst_ip_port" ["dst_ip"; "dst_port"]%string) s) s.
Proof.
  unfold setup_d_index_to_ip_port_table. setup_start Hr0 Hr. setup_table Ht Hr0 Hr.
  do 7 setup_call Ht Hr0 Hr. setup_done Hr0 Hr.
Qed.

(** New objects only. *)
Definition grows (r r' : rt) : Prop :=
  (forall h x, key_objs r !! h = Some x -> key_objs r' !! h = Some x) /\
  (forall h x, data_objs r !! h = Some x -> data_objs r' !! h = Some x).

Definition handles_post (T a : string) (kn dn : list string) (n : nat) s (r : outcome stop (list Z * list Z)) (s' : client) : Prop :=
  frame T (rts s) (rts s') /\ table_of (rts s') T = table_of (rts s) T /\ vars s' = vars s /\ grows (rts s) (rts s') /\
  match r with
  | Ret (ks, ds) =>
      length ks = n /\ length ds = n /\ NoDup ks /\ NoDup ds /\
      Forall (fun k => key_objs (rts s) !! k = None /\ key_ready (rts s') T k kn) ks /\
      Forall (fun d => data_objs (rts s) !! d = None /\ data_ready (rts s') T d a dn) ds
  | Err e => e = Exit 1 /\ ~ reliable D
  end.

(** One more slot: what the rest of the loop builds on. *)
Lemma handles_cons T a kn dn n s0 s1 k d ks ds s' r :
  rts s0 = r -> vars s1 = vars s0 -> key_objs r !! k = None -> data_objs r !! d = None ->
  rts s1 = set_data d T (Some a) ∅ (set_data d T None ∅ (set_key k T ∅ r)) ->
  handles_post T a kn dn n s1 (Ret (ks, ds)) s' -> handles_post T a kn dn (S n) s0 (Ret (k :: ks, d :: ds)) s'.
Proof.
  intros Hr0 Hv Hk Hd Hr1 (F & Ht & Hv' & (Gk & Gd) & Lk & Ld & Nk & Nd & Ak & Ad).
  rewrite Hr1 in F, Ht, Gk, Gd, Ak, Ad. unfold handles_post. rewrite Hr0. cbn [key_objs data_objs set_key set_data] in *.
  rewrite insert_insert_eq in Gd, Ad.
  assert (forall h x, key_objs r !! h = Some x -> h <> k) as Hne by (intros h x E ->; congruence).
  assert (forall h x, data_objs r !! h = Some x -> h <> d) as Hned by (intros h x E ->; congruence).
  unfold grows. split_and!; [| exact Ht | congruence | | | simpl; congruence | simpl; congruence | | | |].
  - eapply frame_trans; [|exact F]. frame_solve.
  - intros h x E. apply Gk. rewrite lookup_insert_ne by (symmetry; eauto). done.
  - intros h x E. apply Gd. rewrite lookup_insert_ne by (symmetry; eauto). done.
  - constructor; [|done]. intros Hin. rewrite Forall_forall in Ak. apply Ak in Hin as [E _]. by rewrite lookup_insert_eq in E.
  - constructor; [|done]. intros Hin. rewrite Forall_forall in Ad. apply Ad in Hin as [E _]. by rewrite lookup_insert_eq in E.
  - constructor.
    + split; [done|]. exists ∅. rewrite (Gk k _ (lookup_insert_eq _ _ _)). split; [done|]. set_solver.
    + eapply Forall_impl; [exact Ak|]. intros h [E Hr]. split; [|done]. by apply lookup_insert_None in E as [? _].
  - constructor.
    + split; [done|]. exists ∅. rewrite (Gd d _ (lookup_insert_eq _ _ _)). split; [done|]. set_solver.
    + eapply Forall_impl; [exact Ad|]. intros h [E Hr]. split; [|done]. by apply lookup_insert_None in E as [? _].
Qed.

Lemma handles_failed T a kn dn n s0 s' r :
  rts s0 = r -> vars s' = vars s0 -> frame T r (rts s') -> table_of (rts s') T = table_of r T -> grows r (rts s') -> ~ reliable D ->
  handles_post T a kn dn n s0 (Err (Exit 1)) s'.
Proof. intros <-. done. Qed.

Lemma wp_allocate_handles t aid T a kn dn n s : tbl_name t = T -> act_name T aid = a ->
  wp (allocate_handles t aid n) (handles_post T a kn dn n s) s.
Proof.
  intros Ht Ha. revert s. induction n as [|n IH]; intros s; cbn [allocate_handles].
  { apply wp_ret. unfold handles_post, grows. split_and!; auto using frame_refl; constructor. }
  remember (rts s) as r eqn:Hr0. symmetry in Hr0. pose proof Hr0 as Hr.
  call_step Hr.
  2: { intros E Rel. eapply handles_failed; [exact Hr0 | done | cbn [driver]; rewrite E; frame_solve | by cbn [driver]; rewrite E | by cbn [driver]; rewrite E |].
       intros R. able Rel R. }
  intros [Hk Hr1]. rewrite Ht in Hr1. call_step Hr1.
  2: { intros E Rel. eapply handles_failed; [exact Hr0 | done | cbn [driver]; rewrite E; frame_solve | by cbn [driver]; rewrite E | |].
       - cbn [driver]. rewrite E. split; cbn; [|done]. intros h x Eh. rewrite lookup_insert_ne; [done|]. congruence.
       - intros R. able Rel R. }
  intros [Hd Hr2]. simpl_rt Hd. rewrite Ht in Hr2. call_step Hr2.
  2: { intros E Rel. eapply handles_failed; [exact Hr0 | done | cbn [driver]; rewrite E; frame_solve | by cbn [driver]; rewrite E | |].
       - cbn [driver]. rewrite E. split; cbn; intros h x Eh; (rewrite lookup_insert_ne; [done|]; congruence).
       - intros R. rewrite Ht in Rel. able Rel R. }
  intros (x & _ & Hr3). rewrite Ht, Ha in Hr3. apply wp_bind. eapply wp_mono; [apply IH|].
  intros [[ks ds]|e] s' Hp.
  - apply wp_ret. cbn [fst snd]. by eapply (handles_cons _ _ _ _ _ s (Client (vars s) _)); [exact Hr0 | | exact Hk | exact Hd | exact Hr3 | exact Hp].
  - destruct Hp as (F & Htab & Hv & [Gk Gd] & -> & R). cbn [driver vars] in *. rewrite Hr3 in F, Htab, Gk, Gd.
    eapply handles_failed; [exact Hr0 | done | | by rewrite Htab | | done].
    + eapply frame_trans; [|exact F]. frame_solve.
    + split; intros h y Eh; [apply Gk | apply Gd]; cbn [key_objs data_objs set_key set_data];
        rewrite ?insert_insert_eq, lookup_insert_ne; [done | congruence | done | congruence].
Qed.

Lemma wp_setup_offload_connection_table s :
  wp setup_offload_connection_table (setup_post OFT with_offload_connection_table_info oft_ready
    (has_names OFT ["ig_md.cip"; "ig_md.cport"]%string "SwitchIngress.oft_hit" ["d_index"]%string) s) s.
Proof.
  unfold setup_offload_connection_table. setup_start Hr0 Hr. setup_table Ht Hr0 Hr. do 4 setup_call Ht Hr0 Hr.
  match goal with Ha : act_name _ _ = _ |- _ => rename Ha into Hact end.
  match goal with Hd : dat_name _ _ _ = _ |- _ => rewrite Hact in Hd; rename Hd into Hdat end.
  apply wp_bind. eapply wp_mono; [by apply wp_allocate_handles|].
  intros [[ks ds]|e] s' (F & Htab & Hv & _ & Hp); cbn [driver vars] in *; rewrite Hr in F, Htab.
  - apply wp_set_vars. unfold setup_post. cbn [driver vars]. rewrite Hr0. split; [done|]. split; [done|].
    destruct Hp as (Lk & Ld & Nk & Nd & Ak & Ad).
    eexists. split; [by rewrite Hv|]. split_and!; cbn; try done.
    + by eapply Forall_impl; [exact Ak|]; intros ? [_ ?].
    + by eapply Forall_impl; [exact Ad|]; intros ? [_ ?].
  - unfold setup_post. rewrite Hr0. split; [done|]. split; [done|]. destruct Hp as [-> R]. split; [done|]. tauto.
Qed.
End proofs.

(** ** Adding entries *)

Section adding.
Context {D : Type} `{BfRuntime D} `{BfSchema} `{!BfRuntimeLaws D}.
Abbreviation client := (client D).
Abbreviation rts s := (abs (driver s)).
Implicit Types s : client.

Lemma add_failed T ready k v s d r :
  abs d = r -> frame T (rts s) r -> table_of r T = table_of (rts s) T ->
  (reliable D -> table_of (rts s) T !! k <> None) ->
  add_post T ready k v s (Err (Exit 1)) (Client (vars s) d).
Proof. intros <-. unfold add_post. auto 10. Qed.

Lemma add_uncommitted T ready k v s d r :
  abs d = r -> frame T (rts s) r -> table_of (rts s) T !! k = None ->
  table_of r T = <[k := v]> (table_of (rts s) T) -> ~ reliable D ->
  add_post T ready k v s (Err (Exit 1)) (Client (vars s) d).
Proof. intros <-. unfold add_post. intros F Hn E R. split_and!; auto; tauto. Qed.

Lemma add_done T (ready : rt -> Prop) k v s d r :
  abs d = r -> frame T (rts s) r -> table_of (rts s) T !! k = None ->
  table_of r T = <[k := v]> (table_of (rts s) T) -> ready r ->
  add_post T ready k v s (Ret tt) (Client (vars s) d).
Proof. intros <-. unfold add_post. auto. Qed.

Ltac rt_in H := cbn [tables key_objs data_objs set_key set_data set_table] in H; rewrite ?lookup_insert_eq in H.
Ltac rt_goal := cbn [tables key_objs data_objs set_key set_data set_table]; rewrite ?lookup_insert_eq.
Ltac add_start Hready Hr :=
  let Hks := fresh "Hks" in let Hds := fresh "Hds" in
  destruct (Hready) as (Ht & Ha & Hks & Hds & (km & Hk & Hkm) & (dm & Hd & Hdm));
  repeat (apply Forall2_cons in Hks as [? Hks]); repeat (apply Forall2_cons in Hds as [? Hds]); clear Hks Hds;
  apply wp_bind, wp_var; cbn beta iota; apply wp_bind, wp_var; cbn beta iota;
  match goal with |- wp _ _ ?s => pose proof (eq_refl (abs (driver s))) as Hr end.
Ltac split_step Hs :=
  lazymatch type of Hs with
  | exists _, _ => let x := fresh "x" in destruct Hs as [x Hs]; split_step Hs
  | _ /\ _ => let x := fresh "Hx" in destruct Hs as [x Hs]; rt_in x; split_step Hs
  | _ => idtac
  end.
(** A call that succeeds when its objects are there. *)
Ltac able_here Rel Ht Hk Hd :=
  eapply Rel; rewrite ?Ht; repeat eexists; rt_goal; rewrite ?Hk, ?Hd; reflexivity.
Ltac add_ok Hr Ht Ha Hk Hd :=
  let Hs := fresh "Hs" in
  intros Hs; rewrite ?Ht, ?Ha in Hs; split_step Hs; try rewrite Hk in *; try rewrite Hd in *;
  try clear Hr; simplify_eq; rename Hs into Hr.
Ltac add_call Hr Ht Ha Hk Hd :=
  call_step Hr;
  [ add_ok Hr Ht Ha Hk Hd
  | let E := fresh "E" in let Rel := fresh "Rel" in let R := fresh "R" in
    intros E Rel; eapply add_failed; [exact E | frame_solve | done |
      intros R; specialize (Rel R); exfalso; able_here Rel Ht Hk Hd ] ].

(** The last two calls: add the entry, and wait for it. *)
Lemma wp_add_finish s s1 ss T a kn dn h aid ks ds kh dh KM DM :
  handles_ok T a kn dn h aid ks ds kh dh (rts s) -> vars s1 = vars s ->
  frame T (rts s) (rts s1) -> table_of (rts s1) T = table_of (rts s) T ->
  key_objs (rts s1) !! kh = Some (T, KM) -> data_objs (rts s1) !! dh = Some (T, (Some a, DM)) ->
  dom KM ⊆ list_to_set (C := gset string) kn -> dom DM ⊆ list_to_set (C := gset string) dn ->
  wp (call (bf_rt_table_entry_add h ss kh dh) ≫= λ _, call (bf_rt_session_complete_operations ss))
    (add_post T (handles_ok T a kn dn h aid ks ds kh dh) KM (a, DM) s) s1.
Proof.
  intros (Ht & Ha & Hks & Hds & _ & _) Hv F Htab Hk Hd HK HD. pose proof (eq_refl (rts s1)) as Hr.
  call_step Hr.
  2: { intros E Rel. rewrite Hv. eapply add_failed; [exact E | exact F | exact Htab |].
       intros R Hn. apply (Rel R tt (set_table T (<[KM := (a, DM)]> (table_of (rts s1) T)) (rts s1))).
       rewrite Ht, Htab. eauto 10. }
  intros (km & a' & dm & Hk' & Hd' & Hn & Hr1). rewrite Ht in *. simplify_eq. rewrite Htab in Hn, Hr1.
  call_step Hr1.
  - intros Hr2. rewrite Hv. eapply add_done; [exact Hr2 | by apply frame_set_table | done | apply table_of_set_table |].
    split_and!; try done; by eexists.
  - intros E Rel. rewrite Hv. eapply add_uncommitted; [exact E | by apply frame_set_table | done | apply table_of_set_table |].
    intros R. by eapply (Rel R tt).
Qed.

Ltac field_names :=
  repeat match goal with Hn : key_name ?T ?f = _ |- context [key_name ?T ?f] => rewrite Hn end;
  repeat match goal with Hn : dat_name ?T ?a ?f = _ |- context [dat_name ?T ?a ?f] => rewrite Hn end.
(** The entry's key or data, once all the fields have been set. *)
Ltac object_is H :=
  rt_goal; first [rewrite H | idtac]; field_names; try reflexivity; do 2 f_equal;
  first [apply insert_all_1 | apply insert_all_2 | apply insert_all_3 | f_equal; apply insert_all_1 | f_equal; apply insert_all_2 | f_equal; apply insert_all_3 | f_equal; apply dom_empty_inv_L];
  first [assumption | set_solver].
Ltac add_end Hready Hr Hk Hd :=
  eapply wp_add_finish; cbn [driver vars];
  [exact Hready | done | rewrite Hr; frame_solve | rewrite Hr; done | rewrite Hr; object_is Hk | rewrite Hr; object_is Hd
  | set_solver | set_solver].

Lemma wp_add_arp_one e s : arp_ready (arp_table_info (vars s)) (rts s) ->
  wp (add_arp_one e) (add_post ARP (arp_ready (arp_table_info (vars s))) (arp_key e) (arp_data e) s) s.
Proof.
  intros Hready. unfold add_arp_one. add_start Hready Hr.
  do 2 add_call Hr Ht Ha Hk Hd. call_step Hr; [add_ok Hr Ht Ha Hk Hd | intros Hr'; clear Hr; rename Hr' into Hr].
  all: add_call Hr Ht Ha Hk Hd.
  all: add_end Hready Hr Hk Hd.
Qed.

Lemma wp_add_dip_lookup_one e s : dip_ready (dip_lookup_table_info (vars s)) (rts s) ->
  wp (add_dip_lookup_one e) (add_post DIP (dip_ready (dip_lookup_table_info (vars s))) (dip_key e) (dip_data e) s) s.
Proof.
  intros Hready. unfold add_dip_lookup_one. add_start Hready Hr. do 2 add_call Hr Ht Ha Hk Hd. add_end Hready Hr Hk Hd.
Qed.

Lemma wp_add_dest_to_egress_one e s : egress_ready DEST "hdr.ipv4.dst_addr" (dest_to_egress_port_table_info (vars s)) (rts s) ->
  wp (add_dest_to_egress_one e) (add_post DEST (egress_ready DEST "hdr.ipv4.dst_addr" (dest_to_egress_port_table_info (vars s))) (dest_key e) (dest_data e) s) s.
Proof.
  intros Hready. unfold add_dest_to_egress_one. add_start Hready Hr. do 4 add_call Hr Ht Ha Hk Hd. add_end Hready Hr Hk Hd.
Qed.

Lemma wp_add_d_index_to_egress_one e s : egress_ready DIX "hdr.bridged.index" (d_index_to_egress_port_table_info (vars s)) (rts s) ->
  wp (add_d_index_to_egress_one e) (add_post DIX (egress_ready DIX "hdr.bridged.index" (d_index_to_egress_port_table_info (vars s))) (dix_key e) (dix_data e) s) s.
Proof.
  intros Hready. unfold add_d_index_to_egress_one. add_start Hready Hr. do 4 add_call Hr Ht Ha Hk Hd. add_end Hready Hr Hk Hd.
Qed.

Lemma wp_add_lb_index_to_egress_one e s : egress_ready LBX "ig_md.hash_result" (lb_index_to_egress_port_table_info (vars s)) (rts s) ->
  wp (add_lb_index_to_egress_one e) (add_post LBX (egress_ready LBX "ig_md.hash_result" (lb_index_to_egress_port_table_info (vars s))) (lbx_key e) (lbx_data e) s) s.
Proof.
  intros Hready. unfold add_lb_index_to_egress_one. add_start Hready Hr. do 6 add_call Hr Ht Ha Hk Hd. add_end Hready Hr Hk Hd.
Qed.

Lemma wp_add_d_index_to_ip_one e s : dx_ready (d_index_to_ip_port_table_info (vars s)) (rts s) ->
  wp (add_d_index_to_ip_one e) (add_post DIP_PORT (dx_ready (d_index_to_ip_port_table_info (vars s))) (dx_key e) (dx_data e) s) s.
Proof.
  intros Hready. unfold add_d_index_to_ip_one. add_start Hready Hr. do 3 add_call Hr Ht Ha Hk Hd. add_end Hready Hr Hk Hd.
Qed.

(** The loop of every [add_*] function. *)
Lemma wp_load {E} (one : E -> M client stop unit) key data T (rdy : globals -> rt -> Prop) es s :
  (forall e s, rdy (vars s) (rts s) -> wp (one e) (add_post T (rdy (vars s)) (key e) (data e) s) s) ->
  rdy (vars s) (rts s) ->
  wp (for_each one es) (load_post T (rdy (vars s)) (map (fun e => (key e, data e)) es) s) s.
Proof.
  intros Hone. revert s. induction es as [|e es IH]; intros s Hready; cbn [for_each map].
  { apply wp_ret. unfold load_post. split_and!; auto using frame_refl; [constructor | set_solver |].
    cbn [list_to_map foldr]. by rewrite (left_id_L ∅ _). }
  apply wp_bind. eapply wp_mono; [by apply Hone|].
  intros [[]|err] s1 (F & Hv & Hp).
  - destruct Hp as (Hready1 & Hn & Ht1). rewrite <- Hv in Hready1.
    eapply wp_mono; [by apply IH|]. intros r s2 (F2 & Hv2 & Hp2). rewrite Hv in *.
    unfold load_post. split; [by eapply frame_trans|]. split; [done|].
    destruct r as [[]|err].
    + destruct Hp2 as (Hready2 & Hnd & Hfr & Ht2). rewrite Ht1 in Hfr, Ht2.
      assert (key e ∉ (map (fun e => (key e, data e)) es).*1) as Hni.
      { intros Hin. apply Hfr in Hin. by rewrite lookup_insert_eq in Hin. }
      split; [done|]. split; [by constructor|]. split.
      * intros k [->|Hk]%elem_of_cons; [done|]. apply Hfr in Hk as Hk'. by apply lookup_insert_None in Hk' as [? _].
      * rewrite Ht2, list_to_map_cons. rewrite <- insert_union_l. symmetry. apply insert_union_r.
        by apply not_elem_of_list_to_map.
    + destruct Hp2 as (-> & (n & Hnd & Hfr & Hn2) & R). split; [done|]. rewrite Ht1 in Hn2, R, Hfr. split.
      * exists (S n). cbn [take fmap list_fmap fst].
        assert (key e ∉ (take n (map (fun e => (key e, data e)) es)).*1) as Hni.
        { intros Hin. apply Hfr in Hin. by rewrite lookup_insert_eq in Hin. }
        split; [by constructor|]. split.
        { intros k [->|Hk]%elem_of_cons; [done|]. apply Hfr in Hk as Hk'. by apply lookup_insert_None in Hk' as [? _]. }
        rewrite Hn2, list_to_map_cons, <- insert_union_l. symmetry. apply insert_union_r.
        by apply not_elem_of_list_to_map.
      * intros Rel [Hnd' Hall]. apply (R Rel). apply NoDup_cons in Hnd' as [Hni Hnd']. split; [done|].
        intros k Hk. rewrite lookup_insert_ne by (intros <-; done). apply Hall. by right.
  - destruct Hp as (-> & Hsome & R). unfold load_post. split; [done|]. split; [done|]. split; [done|]. split.
    + destruct Hsome as [-> | [Hn ->]].
      * exists 0%nat. split_and!; [constructor | set_solver |]. symmetry. apply map_empty_union.
      * exists 1%nat. split_and!; [| | by rewrite <- (map_empty_union (table_of (rts s) T)) at 1; apply insert_union_l].
        { constructor; [set_solver | constructor]. }
        { by intros k ->%list_elem_of_singleton. }
    + intros Rel [Hnd Hall]. apply (R Rel), Hall. by left.
Qed.
End adding.
