(* ===== verification/Controller.v ===== *)
(** * The switch controller (Switch/control_plane/src/controller.c)

    The controller reads the balancing rules, the back-end servers and the
    virtual server from files, sends them to every front end that connects, and
    from then on applies the front ends' entry messages to the switch's table of
    offloaded connections.  The function [run_controller] is a loop around
    [epoll_wait]; its two handlers are [on_accept] and [on_recv], and a trip
    around the loop is [on_events]. *)
From Stdlib Require Import ZArith Lia String.
From stdpp Require Import base list gmap strings.
From S2P Require Import Prelude Wire EntryController BfRt Json Client.

Definition RECV_SIZE : nat := 1024.
Definition SEND_SIZE : nat := 1024.

(** A C string: the characters before the first NUL. *)
Fixpoint c_string (s : string) : list Z :=
  match s with
  | EmptyString => []
  | String a s => let b := Z.of_N (Ascii.N_of_ascii a) in if b =? 0 then [] else b :: c_string s
  end.

Record rule_t := Rule { rule : list Z; r_d_index : Z; r_offload_flag : Z }.
Record d_index_t := DIndex { dt_d_index : Z; dt_server_info : server_info_t }.

(** The return values of the system calls of [init_controller]. *)
Inductive syscall : Type := Socket | Bind | Listen | Epoll_create1 | Epoll_ctl.

(** What [epoll_wait] reports, with what the system calls of the handler return:
    a connection ([accept], [setsockopt], [epoll_ctl], the three [send]s), or
    what [recv] delivers from a client, [None] for a failure. *)
Inductive event : Type :=
| Accept (client_fd sockopt ctl send1 send2 send3 : Z)
| Recv (data : option (list Z)).

Section controller.
Context {D J : Type} `{BfRuntime D} `{CJson J}.
Context (files : string -> option string) (sys : syscall -> Z).

(** The process: the client's part; the configuration; the receive buffer and
    [entry_index]; the messages sent, first to last. *)
Record proc := Proc {
  cl : client D;
  rules : list rule_t;
  d_index_table : list d_index_t;
  v_info : server_info_t;
  recv_buffer : list Z;
  entry_index : nat;
  sent : list (list Z)
}.

Abbreviation PR := (M proc stop).

Definition set_cl (c : client D) (s : proc) : proc :=
  Proc c (rules s) (d_index_table s) (v_info s) (recv_buffer s) (entry_index s) (sent s).
Definition set_rules (l : list rule_t) (s : proc) : proc :=
  Proc (cl s) l (d_index_table s) (v_info s) (recv_buffer s) (entry_index s) (sent s).
Definition set_d_index_table (l : list d_index_t) (s : proc) : proc :=
  Proc (cl s) (rules s) l (v_info s) (recv_buffer s) (entry_index s) (sent s).
Definition set_v_info (v : server_info_t) (s : proc) : proc :=
  Proc (cl s) (rules s) (d_index_table s) v (recv_buffer s) (entry_index s) (sent s).
Definition set_recv_buffer (b : list Z) (s : proc) : proc :=
  Proc (cl s) (rules s) (d_index_table s) (v_info s) b (entry_index s) (sent s).
Definition set_entry_index (n : nat) (s : proc) : proc :=
  Proc (cl s) (rules s) (d_index_table s) (v_info s) (recv_buffer s) n (sent s).
Definition set_sent (l : list (list Z)) (s : proc) : proc :=
  Proc (cl s) (rules s) (d_index_table s) (v_info s) (recv_buffer s) (entry_index s) l.

Definition on_client {A} (m : M (client D) stop A) : PR A := within cl set_cl m.

(** ** Reading the configuration *)

(** [strcpy(rules[i].rule, key->valuestring)]: 20 bytes, with the NUL. *)
Definition rule_key (key : J) : PR (list Z) :=
  match valuestring key with
  | None => fail Crash
  | Some str => if decide (length (c_string str) < 20)%nat then mret (c_string str) else fail Crash
  end.

(** Lines 79-90. *)
Definition read_rule (rule_item : option J) : PR rule_t :=
  match rule_item with
  | None => fail (Exit 1)
  | Some _ =>
      key ← deref (cJSON_GetObjectItem rule_item "key");
      str ← rule_key key;
      d_index ← int_member rule_item "d_index";
      offload_flag ← int_member rule_item "offload_flag";
      mret (Rule str (u8 d_index) (u8 offload_flag))
  end.

(** Lines 135-138 and 168-171. *)
Definition read_mac (item : option J) : PR (list Z) :=
  let mac_array := cJSON_GetObjectItem item "mac_array" in
  mapM (fun j => v ← deref (cJSON_GetArrayItem mac_array j); mret (u8 (valueint v))) (seqZ 0 6).

(** Lines 122-138. *)
Definition read_d_index (d_index_item : option J) : PR d_index_t :=
  match d_index_item with
  | None => fail (Exit 1)
  | Some _ =>
      d_index ← int_member d_index_item "d_index";
      ip ← int_member d_index_item "ip";
      port ← int_member d_index_item "port";
      mac ← read_mac d_index_item;
      mret (DIndex (u8 d_index) (ServerInfo mac (u32 ip) (u16 port)))
  end.

(** Lines 166-171. *)
Definition read_v_info (v_info_obj : J) : PR server_info_t :=
  ip ← int_member (Some v_info_obj) "ip";
  port ← int_member (Some v_info_obj) "port";
  mac ← read_mac (Some v_info_obj);
  mret (ServerInfo mac (u32 ip) (u16 port)).

(** The arrays [rules] and [d_index_table] have 256 elements. *)
Definition in_256 {A} (l : list A) : PR unit :=
  if decide (length l <= 256)%nat then mret tt else fail Crash.

Definition checked_sys (c : syscall) : PR unit := if sys c =? -1 then fail (Exit 1) else mret tt.

Definition init_controller (rule_json_path d_index_json_path v_info_json_path : string) : PR unit :=
  _ ← checked_sys Socket; _ ← checked_sys Bind; _ ← checked_sys Listen;
  _ ← checked_sys Epoll_create1; _ ← checked_sys Epoll_ctl;
  rule_array ← read_json files rule_json_path;
  rs ← for_items rule_array read_rule; _ ← in_256 rs; _ ← modify (set_rules rs);
  d_index_array ← read_json files d_index_json_path;
  ds ← for_items d_index_array read_d_index; _ ← in_256 ds; _ ← modify (set_d_index_table ds);
  v_info_obj ← read_json files v_info_json_path;
  v ← read_v_info v_info_obj;
  modify (set_v_info v).

(** ** A new connection *)

(** The three messages, as they are built in [send_buffer]; the structures are in
    static memory, where the padding is zero. *)
Definition rule_bytes (r : rule_t) : list Z := rule r ++ [0; r_d_index r; r_offload_flag r].
Definition d_index_bytes (d : d_index_t) : list Z := dt_d_index d :: info_bytes 0 (dt_server_info d).
Definition rule_message (rs : list rule_t) : list Z :=
  [op_code UPDATE_RULE; u8 (Z.of_nat (length rs)); 0] ++
  concat (map rule_bytes rs).
Definition d_index_message (ds : list d_index_t) : list Z :=
  [op_code UPDATE_D_INDEX; u8 (Z.of_nat (length ds)); 0] ++
  concat (map d_index_bytes ds).
Definition v_info_message (v : server_info_t) : list Z :=
  [op_code UPDATE_V_INFO] ++ info_bytes 0 v ++ [0; 0; 0].

(** Build a message in [send_buffer] and send it; [ret] is what [send] returns. *)
Definition send_message (msg : list Z) (ret : Z) : PR unit :=
  if decide (length msg <= SEND_SIZE)%nat then
    if ret <? 0 then fail (Exit 1) else modify (fun s => set_sent (sent s ++ [msg]) s)
  else fail Crash.

(** Lines 192-253. *)
Definition on_accept (client_fd sockopt ctl send1 send2 send3 : Z) : PR unit :=
  if client_fd =? -1 then fail (Exit 1) else
  if sockopt <? 0 then fail (Exit 1) else
  if ctl =? -1 then fail (Exit 1) else
  rs ← gets rules; _ ← send_message (rule_message rs) send1;
  ds ← gets d_index_table; _ ← send_message (d_index_message ds) send2;
  v ← gets v_info; send_message (v_info_message v) send3.

(** ** Entry messages *)

Definition byte_at (a : nat) : PR Z :=
  b ← gets recv_buffer;
  match b !! a with Some z => mret z | None => fail Crash end.

(** The handles of slot [entry_index]. *)
Definition slot (i : offload_connection_table_info_t) (n : nat) : PR (Z * Z) :=
  match oft_key_hdl i !! n, oft_data_hdl i !! n with
  | Some k, Some d => mret (k, d)
  | _, _ => fail Crash
  end.

(** Lines 290-312: a pair is read up to its byte 13. *)
Definition add_entry (now_bytes : nat) : PR unit :=
  buf ← gets recv_buffer;
  if decide (length buf < now_bytes + 14)%nat then fail Crash else
  let pair := read_pair buf now_bytes in
  i ← on_client (var offload_connection_table_info); session ← on_client (var session);
  n ← gets entry_index; h ← slot i n;
  _ ← on_client (call_ (bf_rt_key_field_set_value (fst h) (kid_cip i) (client_ip (pair_key pair))));
  _ ← on_client (call_ (bf_rt_key_field_set_value (fst h) (kid_cport i) (client_port (pair_key pair))));
  _ ← on_client (call_ (bf_rt_data_field_set_value (snd h) (did_d_index i) (d_index (pair_data pair))));
  _ ← on_client (call_ (bf_rt_table_entry_add (oft_hdl i) session (fst h) (snd h)));
  modify (fun s => set_entry_index (S (entry_index s)) s).

(** Lines 313-329: a key is read up to its byte 9. *)
Definition del_entry (now_bytes : nat) : PR unit :=
  buf ← gets recv_buffer;
  if decide (length buf < now_bytes + 10)%nat then fail Crash else
  let key := read_key buf now_bytes in
  i ← on_client (var offload_connection_table_info); session ← on_client (var session);
  n ← gets entry_index; h ← slot i n;
  _ ← on_client (call_ (bf_rt_key_field_set_value (fst h) (kid_cip i) (client_ip key)));
  _ ← on_client (call_ (bf_rt_key_field_set_value (fst h) (kid_cport i) (client_port key)));
  _ ← on_client (call_ (bf_rt_table_entry_del (oft_hdl i) session (fst h)));
  modify (fun s => set_entry_index (S (entry_index s)) s).

(** [n] structures of [size] bytes from [now_bytes] on. *)
Fixpoint entries (f : nat -> PR unit) (size now_bytes n : nat) : PR unit :=
  match n with
  | O => mret tt
  | S n => _ ← f now_bytes; entries f size (now_bytes + size) n
  end.

(** The loop of lines 271-334.  Every trip that does not leave it consumes at
    least three bytes. *)
Fixpoint parse (fuel now_bytes recv_size : nat) : PR unit :=
  match fuel with
  | O => fail Diverge
  | S fuel =>
      if decide (now_bytes <= recv_size)%nat then
        op ← byte_at now_bytes;
        if op =? op_code OFFLOAD_ENTRIES then
          add_size ← byte_at (now_bytes + 1);
          del_size ← byte_at (now_bytes + 2);
          let na := Z.to_nat (u8 add_size) in
          let nd := Z.to_nat (u8 del_size) in
          let now_bytes := (now_bytes + 3)%nat in
          _ ← entries add_entry sizeof_my_pair_t now_bytes na;
          let now_bytes := (now_bytes + sizeof_my_pair_t * na)%nat in
          _ ← entries del_entry sizeof_my_key_t now_bytes nd;
          parse fuel (now_bytes + sizeof_my_key_t * nd) recv_size
        else mret tt
      else mret tt
  end.

(** Lines 256-337. *)
Definition on_recv (data : option (list Z)) : PR unit :=
  match data with
  | None => fail (Exit 1)
  | Some [] => mret tt
  | Some data =>
      let data := take RECV_SIZE data in
      _ ← modify (fun s => set_recv_buffer (splice (recv_buffer s) 0 data) s);
      session ← on_client (var session);
      began ← on_client (call_ (bf_rt_begin_batch session));
      match began with
      | Err _ => mret tt
      | Ret _ =>
          _ ← parse (2 + length data) 0 (length data);
          _ ← on_client (call_ (bf_rt_end_batch session true));
          mret tt
      end
  end.

Definition on_event (e : event) : PR unit :=
  match e with
  | Accept fd so ctl s1 s2 s3 => on_accept fd so ctl s1 s2 s3
  | Recv data => on_recv data
  end.

(** A trip around the loop: what one [epoll_wait] reports, at most 10 events. *)
Definition on_events (events : list event) : PR unit :=
  _ ← modify (set_entry_index 0);
  for_each on_event events.
End controller.
Arguments proc : clear implicits.
