(* ===== verification/RuleController.v ===== *)
(** * The rule controller and the front end's side of the control connection

    [rule_controller_t] (Frontend/subprojects/rule_controller) holds the
    balancing rules, the back-end servers and the virtual server; [main]
    (Frontend/main.cpp) fills it from the switch controller's messages.  The maps
    hold pointers in the code; here they hold what the pointers point to, which
    nothing changes once it is in a map. *)
From Stdlib Require Import ZArith Lia.
From stdpp Require Import base list gmap.
From S2P Require Import Prelude Wire EntryController BfRt.

Inductive status_t : Type := OK | INTERNAL_ERROR | INVALID_PARAMETER | BUSYING | OUT_OF_RANGE | UNKNOWN.

Record rule_controller_t := RuleController {
  rule_map : gmap (list Z) my_data_t;
  d_index_map : gmap Z server_info_t;
  virtual_server_info : server_info_t
}.

Abbreviation RC := (M rule_controller_t stop).

Definition new_rule_controller : rule_controller_t :=
  RuleController ∅ ∅ (ServerInfo [0; 0; 0; 0; 0; 0] 0 0).

Definition add_balancing_rule (key : list Z) (data : my_data_t) : RC status_t :=
  _ ← modify (fun s => RuleController (<[key := data]> (rule_map s)) (d_index_map s) (virtual_server_info s));
  mret OK.

Definition lookup_balancing_rule (key : list Z) : RC (option my_data_t) := gets (fun s => rule_map s !! key).

Definition del_balancing_rule (key : list Z) : RC status_t :=
  m ← gets rule_map;
  match m !! key with
  | None => mret INTERNAL_ERROR
  | Some _ =>
      _ ← modify (fun s => RuleController (delete key (rule_map s)) (d_index_map s) (virtual_server_info s));
      mret OK
  end.

Definition add_d_index_rule (index : Z) (server_info : server_info_t) : RC status_t :=
  _ ← modify (fun s => RuleController (rule_map s) (<[index := server_info]> (d_index_map s)) (virtual_server_info s));
  mret OK.

Definition lookup_backend_server_info (index : Z) : RC (option server_info_t) := gets (fun s => d_index_map s !! index).

Definition del_d_index_rule (index : Z) : RC status_t :=
  m ← gets d_index_map;
  match m !! index with
  | None => mret INTERNAL_ERROR
  | Some _ =>
      _ ← modify (fun s => RuleController (rule_map s) (delete index (d_index_map s)) (virtual_server_info s));
      mret OK
  end.

Definition update_virtual_server_info (info : server_info_t) : RC status_t :=
  _ ← modify (fun s => RuleController (rule_map s) (d_index_map s) info); mret OK.

Definition get_virtual_server_info : RC server_info_t := gets virtual_server_info.

(** ** The messages from the switch (main.cpp, lines 183-243) *)

(** [recv_buffer[a]], and the string and the structure at [a]: a read outside
    the buffer is a crash. *)
Section reads.
Context (buf : list Z).

Definition char_at (a : nat) : RC Z := match buf !! a with Some z => mret z | None => fail Crash end.

(** The bytes before the first zero; [None] if there is no zero. *)
Fixpoint until_zero (l : list Z) : option (list Z) :=
  match l with
  | [] => None
  | b :: l => if b =? 0 then Some [] else (cons b) <$> until_zero l
  end.

Definition string_at (a : nat) : RC (list Z) :=
  match until_zero (drop a buf) with Some str => mret str | None => fail Crash end.

Definition info_at (a : nat) : RC server_info_t :=
  if decide (a + sizeof_server_info_t <= length buf)%nat then mret (read_info buf a) else fail Crash.

(** One rule at [now_bytes], lines 200-207. *)
Definition recv_rule (now_bytes : nat) : RC nat :=
  key ← string_at now_bytes;
  let now_bytes := (now_bytes + (length key + 1))%nat in
  d_index ← char_at now_bytes;
  offload_flag ← char_at (now_bytes + 1);
  _ ← add_balancing_rule key (MyData (u8 offload_flag) (u8 d_index));
  mret (now_bytes + 2)%nat.

(** Lines 210-212. *)
Definition recv_rule_del (now_bytes : nat) : RC nat :=
  key ← string_at now_bytes;
  _ ← del_balancing_rule key;
  mret (now_bytes + (length key + 1))%nat.

(** Lines 225-230. *)
Definition recv_d_index (now_bytes : nat) : RC nat :=
  index ← char_at now_bytes;
  server_info ← info_at (now_bytes + 1);
  _ ← add_d_index_rule (u8 index) server_info;
  mret (now_bytes + 1 + sizeof_server_info_t)%nat.

(** Lines 233-235. *)
Definition recv_d_index_del (now_bytes : nat) : RC nat :=
  index ← char_at now_bytes;
  _ ← del_d_index_rule (u8 index);
  mret (now_bytes + 1)%nat.

(** [n] elements, from [now_bytes] on; the position after them. *)
Fixpoint repeat_from (f : nat -> RC nat) (now_bytes n : nat) : RC nat :=
  match n with
  | O => mret now_bytes
  | S n => now_bytes ← f now_bytes; repeat_from f now_bytes n
  end.

(** The [switch] on the first byte, which is a signed [char] in the code: only
    the four small values name an operation. *)
Definition dispatch : RC unit :=
  op ← char_at 0;
  if op =? op_code UPDATE_RULE then
    add_size ← char_at 1; del_size ← char_at 2;
    now_bytes ← repeat_from recv_rule 3 (Z.to_nat (u8 add_size));
    _ ← repeat_from recv_rule_del now_bytes (Z.to_nat (u8 del_size)); mret tt
  else if op =? op_code UPDATE_V_INFO then
    info ← info_at 1; _ ← update_virtual_server_info info; mret tt
  else if op =? op_code UPDATE_D_INDEX then
    add_size ← char_at 1; del_size ← char_at 2;
    now_bytes ← repeat_from recv_d_index 3 (Z.to_nat (u8 add_size));
    _ ← repeat_from recv_d_index_del now_bytes (Z.to_nat (u8 del_size)); mret tt
  else mret tt.
End reads.

(** What [main] keeps of it: the receive buffer and the controller. *)
Record front := Front { front_buffer : list Z; front_rules : rule_controller_t }.

(** [recv] delivers [data] into the buffer; [None] is a failure, and an empty
    delivery a closed connection: both end the program. *)
Definition on_switch_message (data : option (list Z)) : M front stop unit :=
  match data with
  | None => fail (Exit 255)
  | Some [] => fail (Exit 255)
  | Some data =>
      let data := take ETH_FRAME_LEN data in
      _ ← modify (fun s => Front (splice (front_buffer s) 0 data) (front_rules s));
      buf ← gets front_buffer;
      within front_rules (fun r s => Front (front_buffer s) r) (dispatch buf)
  end.

(** ** Execution rules *)

Section rules.
Context (buf : list Z).
Implicit Types s : rule_controller_t.

Lemma until_zero_app key post : Forall (fun b => b <> 0) key -> until_zero (key ++ 0 :: post) = Some key.
Proof.
  induction 1 as [|b key Hb _ IH]; [done|]. cbn [app until_zero]. rewrite (proj2 (Z.eqb_neq _ _)) by done. by rewrite IH.
Qed.

Lemma wp_char_at a z (Q : outcome stop Z -> rule_controller_t -> Prop) s :
  buf !! a = Some z -> Q (Ret z) s -> wp (char_at buf a) Q s.
Proof. intros E HQ. unfold char_at. by rewrite E. Qed.

Lemma wp_string_at pre key post a (Q : outcome stop (list Z) -> rule_controller_t -> Prop) s :
  buf = pre ++ key ++ 0 :: post -> a = length pre -> Forall (fun b => b <> 0) key -> Q (Ret key) s ->
  wp (string_at buf a) Q s.
Proof.
  intros E -> Hk HQ. unfold string_at. rewrite E, drop_app_length, until_zero_app by done. exact HQ.
Qed.

(** A loop over encoded elements: [enc] lays an element out, the body reads it
    and applies [g]. *)
Lemma wp_repeat_from {A} (f : nat -> RC nat) (enc : A -> list Z) (g : rule_controller_t -> A -> rule_controller_t) (ok : A -> Prop) l pre post s :
  (forall x pre post s, ok x -> buf = pre ++ enc x ++ post ->
     wp (f (length pre)) (fun r s' => r = Ret (length pre + length (enc x))%nat /\ s' = g s x) s) ->
  Forall ok l -> buf = pre ++ concat (map enc l) ++ post ->
  wp (repeat_from f (length pre) (length l))
    (fun r s' => r = Ret (length pre + length (concat (map enc l)))%nat /\ s' = foldl g s l) s.
Proof.
  intros Hf Hok. revert pre s. induction Hok as [|x l Hx _ IH]; intros pre s E; cbn [length repeat_from map concat foldl].
  { apply wp_ret. by rewrite Nat.add_0_r. }
  cbn [map concat] in E. rewrite <- app_assoc in E.
  apply wp_bind. eapply wp_mono; [apply (Hf x pre _ s Hx E)|]. intros r s' [-> ->]. cbn beta iota.
  rewrite app_assoc in E. rewrite <- (length_app pre (enc x)).
  eapply wp_mono; [by apply (IH (pre ++ enc x))|]. intros r s' [-> ->]. split; [|done].
  rewrite !length_app. f_equal. lia.
Qed.
End rules.
