(* ===== verification/ControllerProofs.v ===== *)
(** * Proofs about the switch controller

    What the entry messages do to the table of offloaded connections. *)
From Stdlib Require Import ZArith Lia String.
From stdpp Require Import base list gmap strings.
From S2P Require Import Prelude Wire EntryController BfRt Json Client ClientProofs Controller.

(** ** The abstract table *)

Abbreviation oft := (gmap entry_key entry_data).

Definition flow_key (k : my_key_t) : entry_key :=
  <["ig_md.cport" := Exact (client_port k)]> {["ig_md.cip" := Exact (client_ip k)]}.
Definition flow_data (d : my_data_t) : entry_data := ("SwitchIngress.oft_hit"%string, {["d_index" := d_index d]}).

(** An addition of a flow that is there already has no effect. *)
Definition add_flow (t : oft) (p : my_pair_t) : oft :=
  match t !! flow_key (pair_key p) with
  | Some _ => t
  | None => <[flow_key (pair_key p) := flow_data (pair_data p)]> t
  end.
Definition del_flow (t : oft) (k : my_key_t) : oft := delete (flow_key k) t.

(** A message: its additions in order, then its removals. *)
Definition apply_batch (t : oft) (b : list my_pair_t * list my_key_t) : oft :=
  foldl del_flow (foldl add_flow t b.1) b.2.

Section calls.
Context {D : Type} `{BfRuntime D} `{BfSchema} `{!BfRuntimeLaws D}.
Abbreviation rts s := (abs (driver s)).
Implicit Types c : client D.
Implicit Types s : proc D.

(** ** Single calls whose status is ignored *)

Lemma set_key_id k T m r : key_objs r !! k = Some (T, m) -> set_key k T m r = r.
Proof. intros E. destruct r. unfold set_key. simpl in *. by rewrite insert_id. Qed.
Lemma set_data_id d T a m r : data_objs r !! d = Some (T, (a, m)) -> set_data d T a m r = r.
Proof. intros E. destruct r. unfold set_data. simpl in *. by rewrite insert_id. Qed.

Lemma wp_key_field k f v T m (Q : outcome stop (outcome Z unit) -> client D -> Prop) c :
  key_objs (rts c) !! k = Some (T, m) ->
  (forall o d' m', abs d' = set_key k T m' (rts c) -> m' = m \/ m' = <[key_name T f := Exact v]> m ->
     (reliable D -> m' = <[key_name T f := Exact v]> m) -> Q (Ret o) (Client (vars c) d')) ->
  wp (call_ (bf_rt_key_field_set_value k f v)) Q c.
Proof.
  intros Hk HQ. apply wp_call_.
  - intros [] d' (T' & m' & Hk' & E). simplify_eq. eapply HQ; eauto.
  - intros d' e E Rel. eapply (HQ _ _ m); [by rewrite set_key_id | by left |].
    intros R. exfalso. apply (Rel R tt (set_key k T (<[key_name T f := Exact v]> m) (rts c))). by exists T, m.
Qed.

Lemma wp_data_field d f v T a m (Q : outcome stop (outcome Z unit) -> client D -> Prop) c :
  data_objs (rts c) !! d = Some (T, (Some a, m)) ->
  (forall o d' m', abs d' = set_data d T (Some a) m' (rts c) -> m' = m \/ m' = <[dat_name T a f := v]> m ->
     (reliable D -> m' = <[dat_name T a f := v]> m) -> Q (Ret o) (Client (vars c) d')) ->
  wp (call_ (bf_rt_data_field_set_value d f v)) Q c.
Proof.
  intros Hk HQ. apply wp_call_.
  - intros [] d' (T' & a' & m' & Hk' & E). simplify_eq. eapply HQ; eauto.
  - intros d' e E Rel. eapply (HQ _ _ m); [by rewrite set_data_id | by left |].
    intros R. exfalso. apply (Rel R tt (set_data d T (Some a) (<[dat_name T a f := v]> m) (rts c))). by exists T, a, m.
Qed.

(** The table may change, the objects and the rest do not. *)
Definition table_only (T : string) (r r' : rt) : Prop :=
  frame T r r' /\ key_objs r' = key_objs r /\ data_objs r' = data_objs r.

Lemma table_only_refl T r : table_only T r r.
Proof. split_and!; auto using frame_refl. Qed.
Lemma table_only_set T m r : table_only T r (set_table T m r).
Proof. split_and!; auto with frames. Qed.

Lemma wp_entry_add t ss k d T a km dm (Q : outcome stop (outcome Z unit) -> client D -> Prop) c :
  tbl_name t = T -> key_objs (rts c) !! k = Some (T, km) -> data_objs (rts c) !! d = Some (T, (Some a, dm)) ->
  (forall o d', table_only T (rts c) (abs d') ->
     (reliable D -> table_of (abs d') T = match table_of (rts c) T !! km with
                                          | Some _ => table_of (rts c) T
                                          | None => <[km := (a, dm)]> (table_of (rts c) T) end) ->
     Q (Ret o) (Client (vars c) d')) ->
  wp (call_ (bf_rt_table_entry_add t ss k d)) Q c.
Proof.
  intros <- Hk Hd HQ. apply wp_call_.
  - intros [] d' (km' & a' & dm' & Hk' & Hd' & Hn & E). simplify_eq. apply HQ; rewrite E.
    + apply table_only_set.
    + intros _. by rewrite table_of_set_table, Hn.
  - intros d' e E Rel. apply HQ; rewrite E; [apply table_only_refl|]. intros R.
    destruct (table_of (rts c) (tbl_name t) !! km) eqn:Hn; [done|]. exfalso.
    apply (Rel R tt (set_table (tbl_name t) (<[km := (a, dm)]> (table_of (rts c) (tbl_name t))) (rts c))). by exists km, a, dm.
Qed.

Lemma wp_entry_del t ss k T km (Q : outcome stop (outcome Z unit) -> client D -> Prop) c :
  tbl_name t = T -> key_objs (rts c) !! k = Some (T, km) ->
  (forall o d', table_only T (rts c) (abs d') ->
     (reliable D -> table_of (abs d') T = delete km (table_of (rts c) T)) -> Q (Ret o) (Client (vars c) d')) ->
  wp (call_ (bf_rt_table_entry_del t ss k)) Q c.
Proof.
  intros <- Hk HQ. apply wp_call_.
  - intros [] d' (km' & Hk' & Hs & E). simplify_eq. apply HQ; rewrite E.
    + apply table_only_set.
    + intros _. by rewrite table_of_set_table.
  - intros d' e E Rel. apply HQ; rewrite E; [apply table_only_refl|]. intros R.
    destruct (table_of (rts c) (tbl_name t) !! km) eqn:Hn; [|by rewrite delete_id].
    exfalso. apply (Rel R tt (set_table (tbl_name t) (delete km (table_of (rts c) (tbl_name t))) (rts c))). by exists km.
Qed.

(** ** The offload table's objects stay usable *)

Lemma oft_ready_set_key i k m r : oft_ready i r -> k ∈ oft_key_hdl i ->
  dom m ⊆ list_to_set (C := gset string) ["ig_md.cip"; "ig_md.cport"]%string -> oft_ready i (set_key k OFT m r).
Proof.
  intros (A1 & A2 & A3 & A4 & A5 & A6 & A7 & A8 & A9 & A10 & A11) Hk Hm. split_and!; try done.
  eapply Forall_impl; [exact A10|]. intros k' (m' & E & Hm'). destruct (decide (k' = k)) as [->|].
  - exists m. split; [cbn; by rewrite lookup_insert_eq | done].
  - exists m'. split; [cbn; by rewrite lookup_insert_ne | done].
Qed.

Lemma oft_ready_set_data i d m r : oft_ready i r -> d ∈ oft_data_hdl i ->
  dom m ⊆ list_to_set (C := gset string) ["d_index"]%string -> oft_ready i (set_data d OFT (Some "SwitchIngress.oft_hit"%string) m r).
Proof.
  intros (A1 & A2 & A3 & A4 & A5 & A6 & A7 & A8 & A9 & A10 & A11) Hk Hm. split_and!; try done.
  eapply Forall_impl; [exact A11|]. intros k' (m' & E & Hm'). destruct (decide (k' = d)) as [->|].
  - exists m. split; [cbn; by rewrite lookup_insert_eq | done].
  - exists m'. split; [cbn; by rewrite lookup_insert_ne | done].
Qed.

Lemma oft_ready_table i r r' : oft_ready i r -> table_only OFT r r' -> oft_ready i r'.
Proof.
  intros (A1 & A2 & A3 & A4 & A5 & A6 & A7 & A8 & A9 & A10 & A11) (_ & Ek & Ed). split_and!; try done.
  - eapply Forall_impl; [exact A10|]. intros k (m & E & Hm). exists m. by rewrite Ek.
  - eapply Forall_impl; [exact A11|]. intros k (m & E & Hm). exists m. by rewrite Ed.
Qed.

(** The key object at slot [n], after its two fields were set. *)
Definition key_programmed i (k : Z) (key : my_key_t) (r r' : rt) : Prop :=
  frame OFT r r' /\ table_of r' OFT = table_of r OFT /\ oft_ready i r' /\ data_objs r' = data_objs r /\
  exists m, key_objs r' !! k = Some (OFT, m) /\ (reliable D -> m = flow_key key).

Lemma wp_program_key {B} i k key (rest : outcome Z unit -> M (proc D) stop B) (Q : outcome stop B -> proc D -> Prop) s :
  oft_ready i (rts (cl s)) -> k ∈ oft_key_hdl i ->
  (forall o d', key_programmed i k key (rts (cl s)) (abs d') -> wp (rest o) Q (set_cl (Client (vars (cl s)) d') s)) ->
  wp (on_client (call_ (bf_rt_key_field_set_value k (kid_cip i) (client_ip key))) ≫= fun _ =>
      on_client (call_ (bf_rt_key_field_set_value k (kid_cport i) (client_port key))) ≫= rest) Q s.
Proof.
  intros Hi Hk HQ. pose proof Hi as (_ & _ & Nip & Nport & _ & _ & _ & _ & _ & A10 & _).
  rewrite Forall_forall in A10. destruct (A10 k Hk) as (m & E & Hm).
  apply wp_bind, wp_within. eapply wp_key_field; [exact E|]. intros o d1 m1 E1 Hm1 R1.
  apply wp_bind, wp_within. cbn [cl set_cl].
  eapply (wp_key_field _ _ _ OFT m1); [cbn [driver]; rewrite E1; cbn; apply lookup_insert_eq|].
  intros o2 d2 m2 E2 Hm2 R2. cbn [driver vars] in *. apply HQ. rewrite E1 in E2. rewrite Nip, Nport in *.
  assert (dom m1 ⊆ list_to_set (C := gset string) ["ig_md.cip"; "ig_md.cport"]%string) as D1 by (destruct Hm1 as [->| ->]; set_solver).
  assert (dom m2 ⊆ list_to_set (C := gset string) ["ig_md.cip"; "ig_md.cport"]%string) as D2 by (destruct Hm2 as [->| ->]; set_solver).
  rewrite E2. split_and!; [| done | | done |].
  - apply frame_set_key; [apply frame_set_key; [apply frame_refl|]|]; cbn; rewrite ?lookup_insert_eq, ?E; apply owned_some.
  - by do 2 (apply oft_ready_set_key; [|done|done]).
  - exists m2. split; [cbn; apply lookup_insert_eq|]. intros R. rewrite (R2 R), (R1 R). by apply insert_all_2.
Qed.

(** ** Entries *)

Abbreviation info s := (offload_connection_table_info (vars (cl s))).
Abbreviation flows s := (table_of (rts (cl s)) OFT).

(** The controller can work: its buffer is there and the handles are usable. *)
Definition ctl_ok s : Prop := length (recv_buffer s) = RECV_SIZE /\ oft_ready (info s) (rts (cl s)).

(** From [s] to [s']: [n] slots used, nothing of the program's state changed but
    the driver, and there only the table of flows, by [f] if the runtime is reliable. *)
Definition advanced (n : nat) (f : oft -> oft) s s' : Prop :=
  (exists c, s' = set_entry_index (entry_index s + n) (set_cl c s) /\ vars c = vars (cl s)) /\
  frame OFT (rts (cl s)) (rts (cl s')) /\ oft_ready (info s') (rts (cl s')) /\
  (reliable D -> flows s' = f (flows s)).

Lemma advanced_refl s : ctl_ok s -> advanced 0 (fun t => t) s s.
Proof.
  intros [_ Hi]. split_and!; auto using frame_refl. exists (cl s). split; [|done]. rewrite Nat.add_0_r. by destruct s.
Qed.

Lemma advanced_trans n m f g s1 s2 s3 :
  advanced n f s1 s2 -> advanced m g s2 s3 -> advanced (n + m) (fun t => g (f t)) s1 s3.
Proof.
  intros ((c & -> & Hv) & F & Hi & R) ((c' & -> & Hv') & F' & Hi' & R'). split_and!; [|by eapply frame_trans|done|].
  - exists c'. cbn in *. split; [by rewrite Nat.add_assoc|]. congruence.
  - intros Rel. by rewrite (R' Rel), (R Rel).
Qed.

Lemma advanced_ok n f s s' : ctl_ok s -> advanced n f s s' ->
  ctl_ok s' /\ recv_buffer s' = recv_buffer s /\ entry_index s' = (entry_index s + n)%nat.
Proof. intros [Hb _] ((c & -> & Hv) & _ & Hi & _). by split_and!. Qed.

Lemma wp_slot i n (Q : outcome stop (Z * Z) -> proc D -> Prop) s r :
  oft_ready i r -> (n < 256)%nat -> (forall k d, k ∈ oft_key_hdl i -> d ∈ oft_data_hdl i -> Q (Ret (k, d)) s) ->
  wp (slot i n) Q s.
Proof.
  intros (_ & _ & _ & _ & _ & Lk & Ld & _) Hn HQ. unfold slot.
  destruct (lookup_lt_is_Some_2 (oft_key_hdl i) n) as [k Ek]; [lia|].
  destruct (lookup_lt_is_Some_2 (oft_data_hdl i) n) as [d Ed]; [lia|].
  rewrite Ek, Ed. apply wp_ret, HQ; by eapply list_elem_of_lookup_2.
Qed.

Lemma wp_add_entry now s : ctl_ok s -> (entry_index s < 256)%nat -> (now + 14 <= RECV_SIZE)%nat ->
  wp (add_entry now) (fun r s' => r = Ret tt /\ advanced 1 (fun t => add_flow t (read_pair (recv_buffer s) now)) s s') s.
Proof.
  intros [Hb Hi] Hn Hnow. unfold add_entry. wp_step. wp_step. rewrite decide_False by lia. cbv zeta.
  set (pair := read_pair (recv_buffer s) now).
  wp_step. apply wp_within, wp_var. cbn beta iota. wp_step. apply wp_within, wp_var. cbn beta iota.
  change (set_cl (cl s) (set_cl (cl s) s)) with (set_cl (cl s) s). replace (set_cl (cl s) s) with s by by destruct s.
  wp_step. wp_step. wp_step. eapply wp_slot; [exact Hi | done |]. intros k d Hk Hd. cbn [fst snd].
  apply (wp_program_key _ _ (pair_key pair)); [done | done |]. intros o d1 (F1 & T1 & I1 & Ed1 & km & Ek1 & Rk).
  pose proof I1 as (Nt & _ & _ & _ & Nd & _ & _ & _ & _ & _ & A11). rewrite Forall_forall in A11. destruct (A11 d Hd) as (m & E & Hm).
  wp_step. apply wp_within. cbn [cl set_cl].
  eapply wp_data_field; [exact E|]. intros o2 d2 m2 E2 Hm2 R2. rewrite Nd in Hm2, R2. cbn [driver vars] in *.
  assert (oft_ready (info s) (abs d2)) as I2.
  { rewrite E2. apply oft_ready_set_data; [done|done|]. destruct Hm2 as [->| ->]; set_solver. }
  wp_step. apply wp_within. cbn [cl set_cl].
  eapply (wp_entry_add _ _ _ _ OFT _ km m2); [done | cbn [driver]; by rewrite E2 | cbn [driver]; rewrite E2; apply lookup_insert_eq |].
  intros o3 d3 T3 R3. cbn [driver vars] in *. apply wp_modify. split; [done|]. split_and!.
  - eexists. split; [cbn; by rewrite Nat.add_1_r | done].
  - cbn. eapply frame_trans; [exact F1|]. eapply frame_trans; [|apply T3]. rewrite E2.
    apply frame_set_data; [apply frame_refl|]. rewrite E. apply owned_some.
  - cbn. by eapply oft_ready_table.
  - cbn. intros R. rewrite (R3 R), (Rk R), (R2 R). rewrite E2. unfold add_flow.
    change (table_of (set_data d OFT (Some "SwitchIngress.oft_hit"%string) m2 (abs d1)) OFT) with (table_of (abs d1) OFT).
    by rewrite T1, (insert_all_1 _ _ _ Hm).
Qed.

Lemma wp_del_entry now s : ctl_ok s -> (entry_index s < 256)%nat -> (now + 10 <= RECV_SIZE)%nat ->
  wp (del_entry now) (fun r s' => r = Ret tt /\ advanced 1 (fun t => del_flow t (read_key (recv_buffer s) now)) s s') s.
Proof.
  intros [Hb Hi] Hn Hnow. unfold del_entry. wp_step. wp_step. rewrite decide_False by lia. cbv zeta.
  set (key := read_key (recv_buffer s) now).
  wp_step. apply wp_within, wp_var. cbn beta iota. wp_step. apply wp_within, wp_var. cbn beta iota.
  change (set_cl (cl s) (set_cl (cl s) s)) with (set_cl (cl s) s). replace (set_cl (cl s) s) with s by by destruct s.
  wp_step. wp_step. wp_step. eapply wp_slot; [exact Hi | done |]. intros k d Hk Hd. cbn [fst snd].
  apply (wp_program_key _ _ key); [done | done |]. intros o d1 (F1 & T1 & I1 & Ed1 & km & Ek1 & Rk).
  pose proof I1 as (Nt & _). wp_step. apply wp_within. cbn [cl set_cl].
  eapply (wp_entry_del _ _ _ OFT km); [done | done |]. intros o3 d3 T3 R3. cbn [driver vars] in *.
  apply wp_modify. split; [done|]. split_and!.
  - eexists. split; [cbn; by rewrite Nat.add_1_r | done].
  - cbn. eapply frame_trans; [exact F1 | apply T3].
  - cbn. by eapply oft_ready_table.
  - cbn. intros R. by rewrite (R3 R), (Rk R), T1.
Qed.

Lemma wp_entries {A} (f : nat -> M (proc D) stop unit) (g : oft -> A -> oft) (rd : list Z -> nat -> A) size need n now s :
  (forall now s, ctl_ok s -> (entry_index s < 256)%nat -> (now + need <= RECV_SIZE)%nat ->
     wp (f now) (fun r s' => r = Ret tt /\ advanced 1 (fun t => g t (rd (recv_buffer s) now)) s s') s) ->
  ctl_ok s -> (entry_index s + n <= 256)%nat -> (now + size * n <= RECV_SIZE)%nat -> (need <= size)%nat ->
  wp (entries f size now n) (fun r s' => r = Ret tt /\
    advanced n (fun t => foldl g t (map (fun i => rd (recv_buffer s) (now + size * i)%nat) (seq 0 n))) s s') s.
Proof.
  intros Hf. revert now s. induction n as [|n IH]; intros now s Hok Hn Hnow Hneed; cbn [entries].
  { apply wp_ret. split; [done|]. by apply advanced_refl. }
  apply wp_bind. eapply wp_mono; [apply Hf; [done | lia | lia]|]. intros r s1 [-> A1]. cbn beta iota.
  destruct (advanced_ok _ _ _ _ Hok A1) as (Hok1 & Hb1 & Hn1).
  eapply wp_mono; [apply IH; [done | lia | lia | done]|]. intros r s2 [-> A2]. split; [done|].
  pose proof (advanced_trans _ _ _ _ _ _ _ A1 A2) as A3. rewrite Hb1 in A3.
  assert (map (fun i => rd (recv_buffer s) (now + size + size * i)%nat) (seq 0 n) =
          map (fun i => rd (recv_buffer s) (now + size * i)%nat) (seq 1 n)) as Es.
  { rewrite <- (seq_shift n 0), map_map. apply map_ext. intros i. f_equal. lia. }
  rewrite Es in A3. cbn [seq map foldl]. rewrite Nat.mul_0_r, Nat.add_0_r. exact A3.
Qed.

Lemma wp_byte_at a z (Q : outcome stop Z -> proc D -> Prop) s : recv_buffer s !! a = Some z -> Q (Ret z) s -> wp (byte_at a) Q s.
Proof. intros E HQ. unfold byte_at. wp_step. wp_step. by rewrite E. Qed.

(** Values that fit, and counts that fit a byte. *)
Definition batch_wire (b : list my_pair_t * list my_key_t) : Prop :=
  Forall pair_ok b.1 /\ Forall key_ok b.2 /\ (length b.1 <= 255)%nat /\ (length b.2 <= 255)%nat.

Definition batch_size (b : list my_pair_t * list my_key_t) : nat := length b.1 + length b.2.

(** The structures of a run, read one after the other. *)
Lemma read_run {A} (enc : A -> list Z) (rd : list Z -> nat -> A) (ok : A -> Prop) sz l pre post :
  (forall x, ok x -> length (enc x) = sz) -> (forall x post, ok x -> rd (enc x ++ post) 0%nat = x) ->
  (forall pre m a, rd (pre ++ m) (length pre + a)%nat = rd m a) -> Forall ok l ->
  map (fun i => rd (pre ++ concat (map enc l) ++ post) (length pre + sz * i)%nat) (seq 0 (length l)) = l.
Proof.
  intros H1 H2 H3 Hl. apply list_eq. intros i. rewrite list_lookup_fmap.
  destruct (l !! i) as [x|] eqn:E.
  - pose proof (lookup_lt_Some _ _ _ E). rewrite lookup_seq_lt by done. cbn [fmap option_fmap option_map].
    rewrite H3, Nat.mul_comm. f_equal. by eapply read_nth.
  - apply lookup_ge_None in E. by rewrite lookup_seq_ge.
Qed.

(** One message, wherever the last reception ended. *)
Lemma wp_parse_one pad fuel adds dels pre tl size (Q : outcome stop unit -> proc D -> Prop) s :
  ctl_ok s -> recv_buffer s = pre ++ EntryController.frame pad adds dels ++ tl -> (length pre <= size)%nat ->
  batch_wire (adds, dels) -> (entry_index s + batch_size (adds, dels) <= 256)%nat ->
  (forall s', advanced (batch_size (adds, dels)) (fun t => apply_batch t (adds, dels)) s s' ->
     wp (parse fuel (length pre + length (EntryController.frame pad adds dels)) size) Q s') ->
  wp (parse (S fuel) (length pre) size) Q s.
Proof.
  intros Hok Hbuf Hsize (Ha & Hd & La & Ld) Hn HQ. cbn [parse]. rewrite decide_True by done.
  unfold batch_size in Hn, HQ. cbn [fst snd] in *.
  set (A := concat (map (pair_bytes pad) adds)) in *. set (K := concat (map (key_bytes pad) dels)) in *.
  assert (recv_buffer s = pre ++ [3; Z.of_nat (length adds); Z.of_nat (length dels)] ++ A ++ K ++ tl) as Hbuf1.
  { rewrite Hbuf. unfold EntryController.frame. by rewrite <- !app_assoc. }
  assert (length A = sizeof_my_pair_t * length adds)%nat as LA.
  { unfold A. rewrite length_pairs. unfold sizeof_my_pair_t. lia. }
  assert (length K = sizeof_my_key_t * length dels)%nat as LK.
  { unfold K. rewrite length_keys. unfold sizeof_my_key_t. lia. }
  pose proof Hok as [Hlen _].
  assert (length pre + 3 + length A + length K <= RECV_SIZE)%nat as Hroom.
  { rewrite <- Hlen, Hbuf1, !length_app. simpl. lia. }
  apply wp_bind. eapply wp_byte_at; [rewrite Hbuf1, lookup_app_r, Nat.sub_diag by lia; reflexivity|]. cbn beta iota.
  change (3 =? op_code OFFLOAD_ENTRIES) with true. cbn iota.
  apply wp_bind. eapply wp_byte_at; [rewrite Hbuf1, lookup_app_r by lia; replace (length pre + 1 - length pre)%nat with 1%nat by lia; reflexivity|].
  apply wp_bind. eapply wp_byte_at; [rewrite Hbuf1, lookup_app_r by lia; replace (length pre + 2 - length pre)%nat with 2%nat by lia; reflexivity|].
  cbv zeta beta iota. rewrite !u8_id, !Nat2Z.id by (unfold in_u8; lia).
  (* the additions *)
  apply wp_bind. eapply wp_mono.
  { eapply (wp_entries add_entry add_flow read_pair); [intros; by apply wp_add_entry | done | lia | unfold RECV_SIZE in *; lia | unfold sizeof_my_pair_t; lia]. }
  intros r s1 [-> A1]. cbn beta iota. destruct (advanced_ok _ _ _ _ Hok A1) as (Hok1 & Hb1 & Hn1).
  assert (map (fun i => read_pair (recv_buffer s) (length pre + 3 + sizeof_my_pair_t * i)%nat) (seq 0 (length adds)) = adds) as Eadds.
  { rewrite Hbuf1, app_assoc.
    replace (length pre + 3)%nat with (length (pre ++ [3; Z.of_nat (length adds); Z.of_nat (length dels)])) by (rewrite length_app; simpl; lia).
    apply (read_run (pair_bytes pad) read_pair pair_ok); auto using length_pair_bytes, read_pair_bytes, read_pair_shift. }
  rewrite Eadds in A1.
  (* the removals *)
  apply wp_bind. eapply wp_mono.
  { eapply (wp_entries del_entry del_flow read_key); [intros; by apply wp_del_entry | done | lia | unfold RECV_SIZE in *; lia | unfold sizeof_my_key_t; lia]. }
  intros r s2 [-> A2]. cbn beta iota. destruct (advanced_ok _ _ _ _ Hok1 A2) as (Hok2 & Hb2 & Hn2).
  assert (map (fun i => read_key (recv_buffer s1) (length pre + 3 + sizeof_my_pair_t * length adds + sizeof_my_key_t * i)%nat) (seq 0 (length dels)) = dels) as Edels.
  { rewrite Hb1, Hbuf1, !app_assoc, <- (app_assoc _ K).
    replace (length pre + 3 + sizeof_my_pair_t * length adds)%nat
      with (length ((pre ++ [3; Z.of_nat (length adds); Z.of_nat (length dels)]) ++ A)) by (rewrite !length_app, LA; simpl length; lia).
    apply (read_run (key_bytes pad) read_key key_ok); auto using length_key_bytes, read_key_bytes, read_key_shift. }
  rewrite Edels in A2.
  replace (length pre + 3 + sizeof_my_pair_t * length adds + sizeof_my_key_t * length dels)%nat
    with (length pre + length (EntryController.frame pad adds dels))%nat
    by (rewrite length_frame; unfold sizeof_my_pair_t, sizeof_my_key_t; lia).
  apply HQ. exact (advanced_trans _ _ _ _ _ _ _ A1 A2).
Qed.

(** A run of messages that starts within the reception. *)
Lemma wp_parse_frames pad fuel batches pre tl size (Q : outcome stop unit -> proc D -> Prop) s :
  ctl_ok s -> recv_buffer s = pre ++ concat (frames pad batches) ++ tl ->
  (length pre + length (concat (frames pad batches)) <= size)%nat ->
  Forall batch_wire batches -> (entry_index s + sum_list_with batch_size batches <= 256)%nat ->
  (forall s', advanced (sum_list_with batch_size batches) (fun t => foldl apply_batch t batches) s s' ->
     wp (parse fuel (length pre + length (concat (frames pad batches))) size) Q s') ->
  wp (parse (length batches + fuel) (length pre) size) Q s.
Proof.
  revert pre s. induction batches as [|[adds dels] batches IH]; intros pre s Hok Hbuf Hsize Hw Hn HQ.
  { cbn in HQ |- *. rewrite Nat.add_0_r in HQ. apply HQ, advanced_refl, Hok. }
  apply Forall_cons in Hw as [Hw1 Hw]. cbn [sum_list_with] in *.
  assert (concat (frames pad ((adds, dels) :: batches)) = EntryController.frame pad adds dels ++ concat (frames pad batches)) as Ef by done.
  rewrite Ef, length_app in *. rewrite <- app_assoc in Hbuf.
  cbn [length Nat.add]. eapply wp_parse_one; [done | exact Hbuf | lia | done | lia |]. intros s1 A1.
  destruct (advanced_ok _ _ _ _ Hok A1) as (Hok1 & Hb1 & Hn1). rewrite <- length_app.
  apply IH; rewrite ?length_app; try done; try lia.
  - rewrite Hb1, Hbuf. by rewrite <- !app_assoc.
  - intros s2 A2. rewrite <- Nat.add_assoc. apply HQ. exact (advanced_trans _ _ _ _ _ _ _ A1 A2).
Qed.

(** ** Whole receptions *)

Lemma frame_set_batch T b r0 r : in_batch r0 = b -> frame T (set_batch true r0) r -> frame T r0 (set_batch b r).
Proof. intros <- (F1 & F2 & F3 & F4 & _). by split_and!. Qed.

(** A reception is what its parsing does, in a batch of the driver. *)
Lemma wp_on_recv_as data n (f : oft -> oft) s :
  ctl_ok s -> in_batch (rts (cl s)) = false -> reliable D -> data <> [] -> (length data < RECV_SIZE)%nat ->
  (forall s1, ctl_ok s1 -> entry_index s1 = entry_index s -> recv_buffer s1 = data ++ drop (length data) (recv_buffer s) ->
     wp (parse (2 + length data) 0 (length data)) (fun r s' => r = Ret tt /\ advanced n f s1 s') s1) ->
  wp (on_recv (Some data)) (fun r s' => r = Ret tt /\ ctl_ok s' /\
    flows s' = f (flows s) /\ frame OFT (rts (cl s)) (rts (cl s')) /\
    entry_index s' = (entry_index s + n)%nat /\ recv_buffer s' = splice (recv_buffer s) 0 data) s.
Proof.
  intros [Hlen Hi] Hbatch Rel Hne Hl Hparse. destruct data as [|z l] eqn:Ed; [done|]. rewrite <- Ed in *.
  unfold on_recv. rewrite Ed. rewrite <- Ed. cbv zeta. rewrite take_ge by lia.
  wp_step. apply wp_modify. cbn beta iota. wp_step. apply wp_within, wp_var. cbn beta iota.
  wp_step. apply wp_within. apply wp_call_; cbn [driver vars cl set_cl set_recv_buffer].
  2: { intros d' e E R. exfalso. apply (R Rel tt (set_batch true (rts (cl s)))). done. }
  intros [] d1 [_ E1]. cbn beta iota.
  set (s1 := set_cl _ _).
  assert (ctl_ok s1) as Hok1.
  { split; [change (length (splice (recv_buffer s) 0 data) = RECV_SIZE); rewrite length_splice_0; lia|].
    change (oft_ready (info s) (abs d1)). rewrite E1. exact Hi. }
  wp_step. eapply wp_mono; [by apply Hparse|].
  intros r s2 [-> A]. destruct (advanced_ok _ _ _ _ Hok1 A) as ((Hlen2 & Hi2) & Hb2 & Hn2).
  destruct A as ((c & Es2 & Hv) & F & _ & R). change (rts (cl s1)) with (abs d1) in *. rewrite E1 in F, R.
  cbn beta iota. wp_step. apply wp_within. apply wp_call_.
  2: { intros d' e E R'. exfalso. apply (R' Rel tt (set_batch false (rts (cl s2)))). split; [|done].
       destruct F as (_ & _ & _ & _ & ->). done. }
  intros [] d3 [_ E3]. wp_step. cbn [cl set_cl driver vars recv_buffer entry_index].
  assert (frame OFT (rts (cl s)) (abs d3)) as F3 by (rewrite E3; by apply frame_set_batch).
  split; [done|]. split_and!.
  - split; [exact Hlen2|]. change (oft_ready (info s2) (abs d3)). rewrite E3. exact Hi2.
  - rewrite E3. change (flows s2 = f (flows s)). exact (R Rel).
  - exact F3.
  - exact Hn2.
  - exact Hb2.
Qed.

Lemma length_batches pad batches : (length batches <= length (concat (frames pad batches)))%nat.
Proof.
  induction batches as [|[a d] bs IH]; [simpl; lia|]. cbn [frames map concat length]. rewrite length_app, length_frame.
  unfold frames in IH. lia.
Qed.

Lemma frames_nonempty pad batches : batches <> [] -> concat (frames pad batches) <> [].
Proof. by destruct batches as [|[a d] bs]. Qed.

Lemma wp_on_recv pad batches s :
  let data := concat (frames pad batches) in
  ctl_ok s -> in_batch (rts (cl s)) = false -> reliable D -> batches <> [] -> Forall batch_wire batches ->
  (entry_index s + sum_list_with batch_size batches <= 256)%nat -> (length data < RECV_SIZE)%nat ->
  recv_buffer s !! length data <> Some 3 ->
  wp (on_recv (Some data)) (fun r s' => r = Ret tt /\ ctl_ok s' /\
    flows s' = foldl apply_batch (flows s) batches /\ frame OFT (rts (cl s)) (rts (cl s')) /\
    entry_index s' = (entry_index s + sum_list_with batch_size batches)%nat /\
    recv_buffer s' = splice (recv_buffer s) 0 data) s.
Proof.
  intros data Hok Hbatch Rel Hne Hw Hn Hl Hstale.
  apply (wp_on_recv_as data _ (fun t => foldl apply_batch t batches)); try done; [by apply frames_nonempty|].
  intros s1 Hok1 En Hb1. pose proof (length_batches pad batches) as Lb. fold data in Lb.
  replace (2 + length data)%nat with (length batches + S (1 + length data - length batches))%nat by lia.
  apply (wp_parse_frames pad _ batches [] (drop (length data) (recv_buffer s))); try done; rewrite ?En; try done.
  intros s2 A2. destruct (advanced_ok _ _ _ _ Hok1 A2) as (Hok2 & Hb2 & _). cbn [length Nat.add parse]. fold data.
  rewrite decide_True by done. assert (is_Some (recv_buffer s2 !! length data)) as [b Eb].
  { apply lookup_lt_is_Some. destruct Hok2 as [-> _]. done. }
  apply wp_bind. eapply wp_byte_at; [exact Eb|]. cbn beta iota.
  rewrite Hb2, Hb1, lookup_app_r, Nat.sub_diag, lookup_drop, Nat.add_0_r in Eb by done.
  change (op_code OFFLOAD_ENTRIES) with 3. rewrite (proj2 (Z.eqb_neq _ _)) by congruence. by apply wp_ret.
Qed.

(** Where an old message starts at the end of the new ones, it is read again. *)
Lemma wp_on_recv_stale pad batches pad' b rest s :
  let data := concat (frames pad batches) in
  ctl_ok s -> in_batch (rts (cl s)) = false -> reliable D -> batches <> [] -> Forall batch_wire (b :: batches) ->
  (entry_index s + sum_list_with batch_size (batches ++ [b]) <= 256)%nat -> (length data < RECV_SIZE)%nat ->
  drop (length data) (recv_buffer s) = EntryController.frame pad' b.1 b.2 ++ rest ->
  wp (on_recv (Some data)) (fun r s' => r = Ret tt /\ ctl_ok s' /\
    flows s' = foldl apply_batch (flows s) (batches ++ [b]) /\ frame OFT (rts (cl s)) (rts (cl s')) /\
    entry_index s' = (entry_index s + sum_list_with batch_size (batches ++ [b]))%nat /\
    recv_buffer s' = splice (recv_buffer s) 0 data) s.
Proof.
  intros data Hok Hbatch Rel Hne [Hwb Hw]%Forall_cons Hn Hl Hold.
  rewrite sum_list_with_app in *. cbn [sum_list_with] in *. rewrite Nat.add_0_r in *.
  apply (wp_on_recv_as data _ (fun t => foldl apply_batch t (batches ++ [b]))); try done; [by apply frames_nonempty|].
  intros s1 Hok1 En Hb1. rewrite Hold in Hb1. pose proof (length_batches pad batches) as Lb. fold data in Lb.
  replace (2 + length data)%nat with (length batches + S (S (length data - length batches)))%nat by lia.
  apply (wp_parse_frames pad _ batches [] (EntryController.frame pad' b.1 b.2 ++ rest)); try done; rewrite ?En; try lia; try done.
  intros s2 A2. destruct (advanced_ok _ _ _ _ Hok1 A2) as (Hok2 & Hb2 & Hn2). cbn [length Nat.add]. fold data.
  destruct b as [adds dels]. cbn [fst snd] in *.
  apply (wp_parse_one pad' _ adds dels data rest); [done | by rewrite Hb2 | done | done | lia |].
  intros s3 A3. cbn [parse]. rewrite decide_False by (rewrite length_frame; lia). apply wp_ret. split; [done|].
  pose proof (advanced_trans _ _ _ _ _ _ _ A2 A3) as A. destruct A as (E & F & Hr & HR). split_and!; try done.
  intros R. rewrite (HR R). by rewrite foldl_app.
Qed.

(** ** No loop runs out of fuel *)

Definition ends {A} (m : M (proc D) stop A) : Prop := forall s, wp m (fun r _ => r <> Err Diverge) s.

Lemma ends_bind {A B} (m : M (proc D) stop A) (k : A -> M (proc D) stop B) : ends m -> (forall a, ends (k a)) -> ends (m ≫= k).
Proof. intros Hm Hk s. apply wp_bind. eapply wp_mono; [apply Hm|]. intros [a|e] s' H'; [apply Hk | congruence]. Qed.
Lemma ends_ret {A} (a : A) : ends (mret a).
Proof. intros s. by apply wp_ret. Qed.
Lemma ends_gets {A} (f : proc D -> A) : ends (gets f).
Proof. intros s. by apply wp_gets. Qed.
Lemma ends_modify f : ends (modify f).
Proof. intros s. by apply wp_modify. Qed.
Lemma ends_crash {A} : ends (fail (A := A) Crash).
Proof. intros s. by apply wp_fail. Qed.
Lemma ends_exit {A} n : ends (fail (A := A) (Exit n)).
Proof. intros s. by apply wp_fail. Qed.
Lemma ends_call_ {A} (c : bf_call A) : ends (on_client (call_ c)).
Proof. intros s. apply wp_within, wp_call_; congruence. Qed.
Lemma ends_var {A} (f : globals -> A) : ends (on_client (var f)).
Proof. intros s. by apply wp_within, wp_var. Qed.
Lemma ends_slot i n : ends (slot i n).
Proof. unfold slot. repeat case_match; auto using ends_ret, ends_crash. Qed.
Lemma ends_byte_at a : ends (byte_at a).
Proof. unfold byte_at. apply ends_bind; [apply ends_gets|]. intros b. case_match; auto using ends_ret, ends_crash. Qed.

Ltac ends_auto :=
  repeat first [apply ends_ret | apply ends_gets | apply ends_modify | apply ends_crash | apply ends_exit
               | apply ends_call_ | apply ends_var | apply ends_slot | apply ends_byte_at
               | apply ends_bind; [|let a := fresh "a" in intros a]].

Lemma ends_entries f size now n : (forall a, ends (f a)) -> ends (entries f size now n).
Proof. intros Hf. revert now. induction n as [|n IH]; intros now; cbn [entries]; ends_auto; auto. Qed.
Lemma ends_add_entry a : ends (add_entry a).
Proof. unfold add_entry. ends_auto. case_decide; ends_auto. Qed.
Lemma ends_del_entry a : ends (del_entry a).
Proof. unfold del_entry. ends_auto. case_decide; ends_auto. Qed.

Lemma ends_parse fuel now n : (1 <= fuel)%nat -> (now <= n -> n + 6 <= 3 * fuel + now)%nat -> ends (parse fuel now n).
Proof.
  revert now. induction fuel as [|fuel IH]; intros now H1 Hf; [lia|]. cbn [parse].
  case_decide as Hnow; [|ends_auto]. ends_auto. destruct (a =? op_code OFFLOAD_ENTRIES); [|ends_auto]. ends_auto.
  - apply ends_entries, ends_add_entry.
  - apply ends_entries, ends_del_entry.
  - specialize (Hf Hnow). apply IH; lia.
Qed.

Lemma ends_on_recv data : ends (on_recv data).
Proof.
  unfold on_recv. destruct data as [[|z l]|]; cbv zeta; ends_auto.
  match goal with |- context [match ?x with Ret _ => _ | Err _ => _ end] => destruct x end; [|apply ends_ret].
  apply ends_bind; [apply ends_parse; lia | intros ?; ends_auto].
Qed.
End calls.
