(* ===== verification/Main.v ===== *)
(** * The switch program's main (Switch/control_plane/src/main.c)

    Start the driver, find the tables, read the controller's configuration, then
    fill five tables from four configuration files, and run the controller. *)
From Stdlib Require Import ZArith Lia String.
From stdpp Require Import base list gmap strings.
From S2P Require Import Prelude Wire BfRt Json Client Controller.

Definition PROG_NAME : string := "l7lb_switch".
Definition PORT_PATH : string := "config/port.json".
Definition RULE_PATH : string := "config/rule.json".
Definition D_INDEX_PATH : string := "config/d_index.json".
Definition V_INFO_PATH : string := "config/v_info.json".
Definition ARP_TABLE_PATH : string := "config/arp_table.json".
Definition LB_INDEX_PATH : string := "config/lb_index.json".
Definition DEST_TO_EGRESS_PATH : string := "config/dest_to_egress.json".

(** [((uint64_t)prefix << 24) + (uint64_t)suffix] *)
Definition make_mac (prefix suffix : Z) : Z := u64 (u64 (Z.shiftl (u64 prefix) 24) + u64 suffix).

Section main.
Context {D J : Type} `{BfRuntime D} `{CJson J}.
(** The environment: the files, the results of the controller's system calls,
    the variable SDE_INSTALL. *)
Context (files : string -> option string) (sys : syscall -> Z) (sde : option string).

Abbreviation PR := (M (proc D) stop).

Definition setup_tables : M (client D) stop unit :=
  _ ← setup_arp_table;
  _ ← setup_dip_lookup_table;
  _ ← setup_offload_connection_table;
  _ ← setup_dest_to_egress_port_table;
  _ ← setup_d_index_to_egress_port_table;
  _ ← setup_lb_index_to_egress_port_table;
  setup_d_index_to_ip_port_table.

(** Lines 46-54: one element of arp_table.json. *)
Definition read_arp (item : option J) : PR arp_table_entry_t :=
  opcode ← int_member item "opcode";
  target_proto_addr ← int_member item "target_proto_addr";
  prefix ← int_member item "mac_prefix";
  suffix ← int_member item "mac_suffix";
  mret {| opcode := u16 opcode; target_proto_addr := u32 target_proto_addr; arp_mac := make_mac prefix suffix |}.

(** Lines 84-98: one element of d_index.json, for three tables. *)
Definition read_backend (item : option J) :
    PR (dip_lookup_table_entry_t * d_index_to_egress_port_table_entry_t * d_index_to_ip_port_table_entry_t) :=
  d_index ← int_member item "d_index";
  prefix ← int_member item "mac_prefix";
  suffix ← int_member item "mac_suffix";
  egress_port ← int_member item "egress_port";
  ip ← int_member item "ip";
  port ← int_member item "port";
  mret ({| src_ip := u32 ip; src_port := u16 port |},
        {| di_d_index := u32 d_index; di_dst_mac := make_mac prefix suffix; di_dst_port := u16 egress_port |},
        {| dx_d_index := u32 d_index; dx_dst_ip := u32 ip; dx_dst_port := u16 port |}).

(** Lines 129-136: one element of lb_index.json. *)
Definition read_lb_index (item : option J) : PR lb_index_to_egress_port_table_entry_t :=
  lb_index ← int_member item "lb_index";
  prefix ← int_member item "mac_prefix";
  suffix ← int_member item "mac_suffix";
  egress_port ← int_member item "egress_port";
  mret {| lb_index := u8 lb_index; lb_dst_mac := make_mac prefix suffix; lb_dst_port := u16 egress_port |}.

(** Lines 161-173: one element of dest_to_egress.json; the prefixes of the two
    addresses are in the members [src_mac] and [dst_mac]. *)
Definition read_dest (item : option J) : PR dest_to_egress_port_table_entry_t :=
  dst_addr ← int_member item "dst_addr";
  prefix_len ← int_member item "prefix_len";
  src_prefix ← int_member item "src_mac";
  src_suffix ← int_member item "src_mac_suffix";
  dst_prefix ← int_member item "dst_mac";
  dst_suffix ← int_member item "dst_mac_suffix";
  dst_port ← int_member item "egress_port";
  mret {| dst_addr := u32 dst_addr; prefix_len := u16 prefix_len; de_src_mac := make_mac src_prefix src_suffix;
          de_dst_mac := make_mac dst_prefix dst_suffix; de_dst_port := u16 dst_port |}.

(** Lines 27-176: the tables' contents. *)
Definition load_tables : PR unit :=
  arp_table_array ← read_json files ARP_TABLE_PATH;
  arps ← for_items arp_table_array read_arp;
  _ ← on_client (add_arp_table_entry arps);
  d_index_array ← read_json files D_INDEX_PATH;
  backends ← for_items d_index_array read_backend;
  _ ← on_client (add_dip_lookup_table_entry (map (fun b => b.1.1) backends));
  _ ← on_client (add_d_index_to_egress_port_table_entry (map (fun b => b.1.2) backends));
  _ ← on_client (add_d_index_to_ip_port_table_entry (map (fun b => b.2) backends));
  lb_index_array ← read_json files LB_INDEX_PATH;
  lbs ← for_items lb_index_array read_lb_index;
  _ ← on_client (add_lb_index_to_egress_port_table_entry lbs);
  dest_to_egress_array ← read_json files DEST_TO_EGRESS_PATH;
  dests ← for_items dest_to_egress_array read_dest;
  on_client (add_dest_to_egress_port_table_entry dests).

(** [main] up to the controller's loop. *)
Definition start_switch : PR unit :=
  _ ← on_client (init_switch sde PROG_NAME);
  _ ← on_client (init_bf_rt PROG_NAME);
  _ ← on_client (init_ports files PORT_PATH);
  _ ← on_client setup_tables;
  _ ← init_controller files sys RULE_PATH D_INDEX_PATH V_INFO_PATH;
  load_tables.

(** The whole program, for a finite number of trips around the controller's loop. *)
Definition main (rounds : list (list event)) : PR unit :=
  _ ← start_switch;
  for_each on_events rounds.
End main.
