(* ===== verification/MainProofs.v ===== *)
(** * Proofs about the switch program's start

    [setup_tables] makes every table's handles usable, [load_tables] fills the
    tables with what the configuration files say. *)
From Stdlib Require Import ZArith Lia String.
From stdpp Require Import base list gmap strings.
From S2P Require Import Prelude Wire BfRt Json Client ClientProofs Controller Main.

(** ** What the configuration files say *)

Section config.
Context {J : Type} `{CJson J}.

Definition has_int (j : J) (name : string) (v : Z) : Prop :=
  exists m, cJSON_GetObjectItem (Some j) name = Some m /\ valueint m = v.

(** The file at [path] is an array of elements that say [es]. *)
Definition file_says {A} (files : string -> option string) (path : string) (says : J -> A -> Prop) (es : list A) : Prop :=
  exists text arr, files path = Some text /\ cJSON_Parse text = Some arr /\ Forall2 says (items arr) es.

Definition says_arp (j : J) (e : arp_table_entry_t) : Prop :=
  exists op addr p s, has_int j "opcode" op /\ has_int j "target_proto_addr" addr /\
    has_int j "mac_prefix" p /\ has_int j "mac_suffix" s /\
    e = {| opcode := u16 op; target_proto_addr := u32 addr; arp_mac := make_mac p s |}.

(** The elements of rule.json and of d_index.json, and v_info.json, as the
    controller keeps them. *)
Definition says_rule (j : J) (r : rule_t) : Prop :=
  exists key str i o, cJSON_GetObjectItem (Some j) "key" = Some key /\ valuestring key = Some str /\
    (length (c_string str) < 20)%nat /\ has_int j "d_index" i /\ has_int j "offload_flag" o /\
    r = Rule (c_string str) (u8 i) (u8 o).

Definition says_info (j : J) (i : server_info_t) : Prop :=
  exists ip port arr mac, has_int j "ip" ip /\ has_int j "port" port /\
    cJSON_GetObjectItem (Some j) "mac_array" = Some arr /\
    Forall2 (fun k b => exists m, cJSON_GetArrayItem (Some arr) k = Some m /\ b = u8 (valueint m)) (seqZ 0 6) mac /\
    i = ServerInfo mac (u32 ip) (u16 port).

Definition says_d_index (j : J) (d : d_index_t) : Prop :=
  exists i info, has_int j "d_index" i /\ says_info j info /\ d = DIndex (u8 i) info.

(** A back end: its address and port, its index, and how to reach it. *)
Record backend := Backend { be_index : Z; be_ip : Z; be_port : Z; be_mac : Z; be_egress : Z }.

Definition says_backend (j : J) (b : backend) : Prop :=
  exists i ip port p s eg, has_int j "d_index" i /\ has_int j "ip" ip /\ has_int j "port" port /\
    has_int j "mac_prefix" p /\ has_int j "mac_suffix" s /\ has_int j "egress_port" eg /\
    b = Backend (u32 i) (u32 ip) (u16 port) (make_mac p s) (u16 eg).

Definition says_lb (j : J) (e : lb_index_to_egress_port_table_entry_t) : Prop :=
  exists i p s eg, has_int j "lb_index" i /\ has_int j "mac_prefix" p /\ has_int j "mac_suffix" s /\
    has_int j "egress_port" eg /\ e = {| lb_index := u8 i; lb_dst_mac := make_mac p s; lb_dst_port := u16 eg |}.

Definition says_dest (j : J) (e : dest_to_egress_port_table_entry_t) : Prop :=
  exists addr len sp ss dp ds eg, has_int j "dst_addr" addr /\ has_int j "prefix_len" len /\
    has_int j "src_mac" sp /\ has_int j "src_mac_suffix" ss /\ has_int j "dst_mac" dp /\
    has_int j "dst_mac_suffix" ds /\ has_int j "egress_port" eg /\
    e = {| dst_addr := u32 addr; prefix_len := u16 len; de_src_mac := make_mac sp ss;
           de_dst_mac := make_mac dp ds; de_dst_port := u16 eg |}.
End config.

Definition backend_dip (b : backend) : dip_lookup_table_entry_t := {| src_ip := be_ip b; src_port := be_port b |}.
Definition backend_egress (b : backend) : d_index_to_egress_port_table_entry_t :=
  {| di_d_index := be_index b; di_dst_mac := be_mac b; di_dst_port := be_egress b |}.
Definition backend_ip (b : backend) : d_index_to_ip_port_table_entry_t :=
  {| dx_d_index := be_index b; dx_dst_ip := be_ip b; dx_dst_port := be_port b |}.

(** The entries of the five tables. *)
Definition entries_of {E} (key : E -> entry_key) (data : E -> entry_data) (es : list E) : list (entry_key * entry_data) :=
  map (fun e => (key e, data e)) es.

(** All seven tables can be used. *)
Definition all_ready `{BfSchema} (g : globals) (r : rt) : Prop :=
  arp_ready (arp_table_info g) r /\ dip_ready (dip_lookup_table_info g) r /\
  oft_ready (offload_connection_table_info g) r /\
  egress_ready DEST "hdr.ipv4.dst_addr" (dest_to_egress_port_table_info g) r /\
  egress_ready DIX "hdr.bridged.index" (d_index_to_egress_port_table_info g) r /\
  egress_ready LBX "ig_md.hash_result" (lb_index_to_egress_port_table_info g) r /\
  dx_ready (d_index_to_ip_port_table_info g) r.

(** The data plane has every name the control plane asks for. *)
Definition all_names `{BfSchema} : Prop :=
  has_names ARP ["hdr.arp.opcode"; "hdr.arp.target_proto_addr"]%string "SwitchIngress.reply_arp" ["arp_mac"]%string /\
  has_names DIP ["hdr.ipv4.src_addr"; "hdr.tcp.src_port"]%string "SwitchIngress.dip_hit" [] /\
  has_names OFT ["ig_md.cip"; "ig_md.cport"]%string "SwitchIngress.oft_hit" ["d_index"]%string /\
  has_names DEST ["hdr.ipv4.dst_addr"]%string SET_EGRESS egress_params /\
  has_names DIX ["hdr.bridged.index"]%string SET_EGRESS egress_params /\
  has_names LBX ["ig_md.hash_result"]%string SET_EGRESS egress_params /\
  has_names DIP_PORT ["eg_md.bridged.index"]%string "SwitchEgress.set_dst_ip_port" ["dst_ip"; "dst_port"]%string.

(** Tables, ports and batch mode are the same. *)
Definition quiet (r r' : rt) : Prop :=
  (forall T, table_of r' T = table_of r T) /\ ports r' = ports r /\ in_batch r' = in_batch r.

(** ** Setting up *)

Section setup.
Context {D : Type} `{BfRuntime D} `{BfSchema} `{!BfRuntimeLaws D}.
Abbreviation client := (client D).
Abbreviation rts s := (abs (driver s)).
Implicit Types s : client.

Lemma quiet_refl r : quiet r r.
Proof. done. Qed.

Lemma quiet_frame r0 T r r' : quiet r0 r -> frame T r r' -> table_of r' T = table_of r T -> quiet r0 r'.
Proof.
  intros (Q1 & Q2 & Q3) F E. pose proof F as (_ & _ & _ & F4 & F5). split_and!; try congruence.
  intros T'. destruct (decide (T' = T)) as [->|]; [by rewrite E|]. by rewrite (frame_table T r r').
Qed.

Lemma handles_frame T' a kn dn h aid ks ds k d T r r' :
  handles_ok T' a kn dn h aid ks ds k d r -> frame T r r' -> T' <> T -> handles_ok T' a kn dn h aid ks ds k d r'.
Proof.
  intros (A1 & A2 & A3 & A4 & A5 & A6) F HT.
  split_and!; eauto using frame_key_ready, frame_data_ready.
Qed.

Lemma oft_frame i T r r' : oft_ready i r -> frame T r r' -> OFT <> T -> oft_ready i r'.
Proof.
  intros (A1 & A2 & A3 & A4 & A5 & A6 & A7 & A8 & A9 & A10 & A11) F HT.
  split_and!; try done.
  - eapply Forall_impl; [exact A10|]. intros k Hk. by eapply frame_key_ready.
  - eapply Forall_impl; [exact A11|]. intros k Hk. by eapply frame_data_ready.
Qed.

Definition setup_all_post s (r : outcome stop unit) s' : Prop :=
  quiet (rts s) (rts s') /\
  match r with
  | Ret _ => all_ready (vars s') (rts s') /\ session (vars s') = session (vars s)
  | Err e => e = Exit 1 /\ ~ (reliable D /\ all_names)
  end.

Lemma setup_all_failed s0 T s s' names e :
  quiet (rts s0) (rts s) -> frame T (rts s) (rts s') -> table_of (rts s') T = table_of (rts s) T ->
  e = Exit 1 /\ ~ (reliable D /\ names) -> (all_names -> names) -> setup_all_post s0 (Err e) s'.
Proof. intros Q F E [-> R] Hn. split; [by eapply quiet_frame|]. split; [done|]. intros [HR HN]. apply R. auto. Qed.

Ltac setup_step L :=
  eapply wp_mono; [apply L|];
  let F := fresh "F" in let Et := fresh "Et" in let Hp := fresh "Hp" in
  let i := fresh "i" in let Hv := fresh "Hv" in let Hr := fresh "Hr" in let Q := fresh "Q" in
  intros [[]|?] ? (F & Et & Hp);
  [ destruct Hp as (i & Hv & Hr);
    match goal with Q0 : quiet _ _ |- _ => pose proof (quiet_frame _ _ _ _ Q0 F Et) as Q; clear Q0 Et end
  | match goal with Q0 : quiet _ _ |- _ => eapply (setup_all_failed _ _ _ _ _ _ Q0 F Et Hp); unfold all_names; tauto end ].

Lemma wp_setup_tables s : wp setup_tables (setup_all_post s) s.
Proof.
  unfold setup_tables. pose proof (quiet_refl (rts s)) as Q.
  apply wp_bind. setup_step wp_setup_arp_table. apply wp_bind. setup_step wp_setup_dip_lookup_table.
  apply wp_bind. setup_step wp_setup_offload_connection_table. apply wp_bind. setup_step wp_setup_dest_to_egress_port_table.
  apply wp_bind. setup_step wp_setup_d_index_to_egress_port_table. apply wp_bind. setup_step wp_setup_lb_index_to_egress_port_table.
  setup_step wp_setup_d_index_to_ip_port_table.
  split; [done|]. repeat match goal with Hv : vars _ = _ |- _ => rewrite Hv; clear Hv end.
  unfold all_ready. cbn -[handles_ok]. split; [|done]. split_and!.
  all: repeat first [eassumption | eapply handles_frame; [|eassumption|discriminate] | eapply oft_frame; [|eassumption|discriminate]].
Qed.
End setup.

(** ** Ports *)

(** The speeds of a port, in Gbit/s. *)
Definition gigabits (s : bf_port_speed_t) : Z :=
  match s with BF_SPEED_100G => 100 | BF_SPEED_40G => 40 | BF_SPEED_25G => 25 | BF_SPEED_10G => 10 end.

Lemma port_speed_gigabits v s : port_speed v = Some s <-> v = gigabits s.
Proof.
  split; [|by destruct s; intros ->]. unfold port_speed.
  repeat match goal with |- context [v =? ?k] => destruct (Z.eqb_spec v k) as [->|]; [by intros [= <-]|] end. done.
Qed.

Definition says_port `{CJson J} (j : J) (p : option string * bf_port_speed_t) : Prop :=
  exists n sp, cJSON_GetObjectItem (Some j) "port" = Some n /\ cJSON_GetObjectItem (Some j) "speed" = Some sp /\
    valuestring n = p.1 /\ valueint sp = gigabits p.2.

(** Everything but the ports is the same. *)
Definition only_ports (r r' : rt) : Prop :=
  tables r' = tables r /\ key_objs r' = key_objs r /\ data_objs r' = data_objs r /\ in_batch r' = in_batch r.

(** Every name is a port's, no name comes twice, no named port is in use. *)
Definition ports_free `{BfSchema} (l : list (option string * bf_port_speed_t)) (r : rt) : Prop :=
  NoDup l.*1 /\ (forall n, n ∈ l.*1 -> exists p, n = Some (port_name_of p)) /\
  (forall p, Some (port_name_of p) ∈ l.*1 -> ports r !! p = None).

Section ports.
Context {D J : Type} `{BfRuntime D} `{BfSchema} `{!BfRuntimeLaws D} `{CJson J} `{!CJsonLaws J}.
Context (files : string -> option string).
Abbreviation client := (client D).
Abbreviation rts s := (abs (driver s)).
Implicit Types s : client.

Lemma only_ports_refl r : only_ports r r.
Proof. done. Qed.
Lemma only_ports_trans r1 r2 r3 : only_ports r1 r2 -> only_ports r2 r3 -> only_ports r1 r3.
Proof. intros (? & ? & ? & ?) (? & ? & ? & ?). split_and!; congruence. Qed.

(** After the loop: the [hs] are the handles of the names, each port new and up. *)
Definition ports_post (l : list (option string * bf_port_speed_t)) s (r : outcome stop unit) s' : Prop :=
  vars s' = vars s /\ only_ports (rts s) (rts s') /\
  match r with
  | Ret _ => exists hs, Forall2 (fun p x => x.1 = Some (port_name_of p)) hs l /\ NoDup hs /\
               (forall p, p ∈ hs -> ports (rts s) !! p = None) /\
               ports (rts s') = list_to_map (zip hs (map (fun x => (x.2, true)) l)) ∪ ports (rts s)
  | Err e => e = Exit 1 /\ ~ (reliable D /\ ports_free l (rts s))
  end.

Lemma wp_enable_port x s :
  wp (enable_port x) (fun r s' => vars s' = vars s /\ only_ports (rts s) (rts s') /\
    match r with
    | Ret _ => exists p, x.1 = Some (port_name_of p) /\ ports (rts s) !! p = None /\
                 ports (rts s') = <[p := (x.2, true)]> (ports (rts s))
    | Err e => e = Exit 1 /\ (reliable D -> ~ ((exists p, x.1 = Some (port_name_of p)) /\
                 forall p, x.1 = Some (port_name_of p) -> ports (rts s) !! p = None))
    end) s.
Proof.
  unfold enable_port. pose proof (eq_refl (rts s)) as Hr. call_step Hr.
  2: { intros E Rel. cbn [driver vars]. rewrite E. split_and!; try done. intros R [[p Hp] _].
       apply (Rel R p (rts s)). done. }
  intros [Hn Hr1]. call_step Hr1.
  2: { intros E Rel. cbn [driver vars]. rewrite E. split_and!; try done. intros R [_ Hf].
       eapply (Rel R tt). split; [by apply Hf | done]. }
  intros [Hf Hr2]. call_step Hr2.
  2: { intros E Rel. cbn [driver vars]. rewrite E. split_and!; try done. intros R _.
       eapply (Rel R tt). do 2 eexists. split; [cbn; apply lookup_insert_eq | done]. }
  intros (sp & up & Hl & Hr3). cbn [driver vars]. rewrite Hr3. split_and!; try done.
  exists out. cbn in Hl. rewrite lookup_insert_eq in Hl. simplify_eq. cbn. rewrite insert_insert_eq. done.
Qed.

Lemma wp_enable_ports l s : wp (for_each enable_port l) (ports_post l s) s.
Proof.
  revert s. induction l as [|x l IH]; intros s; cbn [for_each].
  { apply wp_ret. split_and!; try done. exists []. split_and!; [constructor | constructor | set_solver |].
    symmetry. apply map_empty_union. }
  apply wp_bind. eapply wp_mono; [apply wp_enable_port|]. intros [[]|e] s1 (Hv & O & Hp).
  - destruct Hp as (p & Hx & Hf & Hp1). eapply wp_mono; [apply IH|]. intros r s2 (Hv2 & O2 & Hp2).
    split; [congruence|]. split; [by eapply only_ports_trans|]. rewrite Hp1 in Hp2. destruct r as [[]|e].
    + destruct Hp2 as (hs & H2 & Hnd & Hfr & ->). exists (p :: hs).
      assert (p ∉ hs) as Hni by (intros Hin; apply Hfr in Hin; by rewrite lookup_insert_eq in Hin).
      split_and!; [by constructor | by constructor | |].
      * intros q [->|Hq]%elem_of_cons; [done|]. apply Hfr in Hq. by apply lookup_insert_None in Hq as [? _].
      * cbn [map zip zip_with]. rewrite list_to_map_cons, <- insert_union_l. symmetry. apply insert_union_r.
        apply not_elem_of_list_to_map. intros Hin. apply Hni.
        assert (length hs = length l) as Hlen by by eapply Forall2_length.
        rewrite fst_zip in Hin by (rewrite length_map; lia). done.
    + destruct Hp2 as [-> R]. split; [done|]. intros [Rel (Hnd & Hnames & Hfree)]. apply R. split; [done|].
      cbn [fmap list_fmap fst] in *. apply NoDup_cons in Hnd as [Hni Hnd]. split_and!; [done | set_solver |].
      intros q Hq. unfold ports_free in *. rewrite Hp1. rewrite lookup_insert_ne.
      * apply Hfree. by right.
      * intros ->. rewrite Hx in Hni. done.
  - destruct Hp as [-> R]. split_and!; try done. intros [Rel (Hnd & Hnames & Hfree)]. apply (R Rel).
    split; [apply Hnames; by left|]. intros p Hp. apply Hfree. cbn. rewrite Hp. by left.
Qed.

(** What [read_port] gives for an element: a port, or the exit. *)
Definition port_of (j : J) : outcome stop (option string * bf_port_speed_t) :=
  match cJSON_GetObjectItem (Some j) "port", cJSON_GetObjectItem (Some j) "speed" with
  | Some n, Some sp => match port_speed (valueint sp) with Some x => Ret (valuestring n, x) | None => Err (Exit 1) end
  | _, _ => Err (Exit 1)
  end.

Lemma read_port_run j s : read_port (Some j) s = (port_of j, s).
Proof.
  unfold read_port, port_of. destruct (cJSON_GetObjectItem (Some j) "port"), (cJSON_GetObjectItem (Some j) "speed"); try done.
  by destruct (port_speed _).
Qed.

Lemma port_of_cases j : match port_of j with Ret p => says_port j p | Err e => e = Exit 1 end.
Proof.
  unfold port_of, says_port. destruct (cJSON_GetObjectItem (Some j) "port"), (cJSON_GetObjectItem (Some j) "speed"); try done.
  destruct (port_speed _) eqn:E; [|done]. apply port_speed_gigabits in E. by do 2 eexists.
Qed.

Lemma collect_exit l : (exists j, j ∈ l /\ forall p, ~ says_port j p) -> collect port_of l = Err (Exit 1).
Proof.
  induction l as [|j l IH]; intros (x & Hx & Hno); [set_solver|]. cbn [collect].
  pose proof (port_of_cases j) as Hj. destruct (port_of j) as [p|e]; [|by subst].
  apply elem_of_cons in Hx as [->|Hx]; [by apply Hno in Hj|]. rewrite IH; eauto.
Qed.

Lemma wp_init_ports path l s :
  file_says files path says_port l -> wp (init_ports files path) (ports_post l s) s.
Proof.
  intros (text & arr & Ef & Ep & H2). unfold init_ports, read_json. rewrite Ef, Ep.
  apply wp_bind, wp_ret. cbn beta iota. apply wp_bind. unfold wp at 1.
  rewrite (for_items_says read_port says_port arr l s H2); [apply wp_enable_ports|].
  intros j [n sp] s0 (m & ms & En & Es & Hn & Hs). rewrite read_port_run. unfold port_of. rewrite En, Es.
  cbn [fst snd] in *. apply port_speed_gigabits in Hs. by rewrite Hs, Hn.
Qed.
End ports.

(** ** Loading the tables *)

Section load.
Context {D J : Type} `{BfRuntime D} `{BfSchema} `{!BfRuntimeLaws D} `{CJson J} `{!CJsonLaws J}.
Context (files : string -> option string).
Abbreviation rts s := (abs (driver (cl s))).
Implicit Types s : proc D.

Lemma wp_read_file {A B} (f : option J -> M (proc D) stop A) path says es (k : list A -> M (proc D) stop B)
    (Q : outcome stop B -> proc D -> Prop) s :
  file_says files path says es -> (forall j e s, says j e -> f (Some j) s = (Ret e, s)) -> wp (k es) Q s ->
  wp (arr ← read_json files path; es ← for_items arr f; k es) Q s.
Proof.
  intros (text & arr & Ef & Ep & H2) Hf Hk. unfold read_json. rewrite Ef, Ep.
  unfold wp. rewrite bind_run. cbn. rewrite bind_run, (for_items_says f says arr es s H2 Hf). exact Hk.
Qed.

Lemma int_member_run j name v s : has_int j name v -> int_member (S := proc D) (Some j) name s = (Ret v, s).
Proof. intros (m & E & <-). unfold int_member. rewrite E. done. Qed.

Ltac members := repeat (rewrite bind_run; erewrite int_member_run by eassumption; cbn beta iota).

Lemma read_arp_run j e s : says_arp j e -> read_arp (D := D) (Some j) s = (Ret e, s).
Proof. intros (? & ? & ? & ? & ? & ? & ? & ? & ->). unfold read_arp. members. done. Qed.

Lemma read_lb_run j e s : says_lb j e -> read_lb_index (D := D) (Some j) s = (Ret e, s).
Proof. intros (? & ? & ? & ? & ? & ? & ? & ? & ->). unfold read_lb_index. members. done. Qed.

Lemma read_dest_run j e s : says_dest j e -> read_dest (D := D) (Some j) s = (Ret e, s).
Proof. intros (? & ? & ? & ? & ? & ? & ? & ? & ? & ? & ? & ? & ? & ? & ->). unfold read_dest. members. done. Qed.

Lemma read_backend_run j b s : says_backend j b ->
  read_backend (D := D) (Some j) s = (Ret (backend_dip b, backend_egress b, backend_ip b), s).
Proof. intros (? & ? & ? & ? & ? & ? & ? & ? & ? & ? & ? & ? & ->). unfold read_backend. members. done. Qed.

(** What a run that fills the tables leaves in them. *)
Definition loaded (arps : list arp_table_entry_t) (bes : list backend) (lbs : list lb_index_to_egress_port_table_entry_t)
    (dests : list dest_to_egress_port_table_entry_t) (r r' : rt) : Prop :=
  table_of r' ARP = list_to_map (entries_of arp_key arp_data arps) ∪ table_of r ARP /\
  table_of r' DIP = list_to_map (entries_of dip_key dip_data (map backend_dip bes)) ∪ table_of r DIP /\
  table_of r' DIX = list_to_map (entries_of dix_key dix_data (map backend_egress bes)) ∪ table_of r DIX /\
  table_of r' DIP_PORT = list_to_map (entries_of dx_key dx_data (map backend_ip bes)) ∪ table_of r DIP_PORT /\
  table_of r' LBX = list_to_map (entries_of lbx_key lbx_data lbs) ∪ table_of r LBX /\
  table_of r' DEST = list_to_map (entries_of dest_key dest_data dests) ∪ table_of r DEST /\
  table_of r' OFT = table_of r OFT.

Definition fresh_entries (T : string) (kvs : list (entry_key * entry_data)) (r : rt) : Prop :=
  NoDup kvs.*1 /\ forall k, k ∈ kvs.*1 -> table_of r T !! k = None.

(** No two entries of a table have one key, and none is there already. *)
Definition no_clash (arps : list arp_table_entry_t) (bes : list backend) (lbs : list lb_index_to_egress_port_table_entry_t)
    (dests : list dest_to_egress_port_table_entry_t) (r : rt) : Prop :=
  fresh_entries ARP (entries_of arp_key arp_data arps) r /\
  fresh_entries DIP (entries_of dip_key dip_data (map backend_dip bes)) r /\
  fresh_entries DIX (entries_of dix_key dix_data (map backend_egress bes)) r /\
  fresh_entries DIP_PORT (entries_of dx_key dx_data (map backend_ip bes)) r /\
  fresh_entries LBX (entries_of lbx_key lbx_data lbs) r /\
  fresh_entries DEST (entries_of dest_key dest_data dests) r.

Definition load_all_post arps bes lbs dests s (r : outcome stop unit) s' : Prop :=
  match r with
  | Ret _ => loaded arps bes lbs dests (rts s) (rts s') /\ all_ready (vars (cl s')) (rts s') /\
             vars (cl s') = vars (cl s) /\ s' = set_cl (cl s') s /\
             ports (rts s') = ports (rts s) /\ in_batch (rts s') = in_batch (rts s) /\
             no_clash arps bes lbs dests (rts s)
  | Err e => e = Exit 1 /\ ~ (reliable D /\ no_clash arps bes lbs dests (rts s))
  end.

Ltac through :=
  repeat first
  [ match goal with E : table_of ?r' ?T = _ |- context [table_of ?r' ?T] => rewrite E; clear E end
  | match goal with F : frame ?T' ?r ?r' |- context [table_of ?r' ?T] => rewrite (frame_table T' r r' T F) by discriminate end ].

Lemma all_ready_frame g T r r' (own : rt -> Prop) :
  all_ready g r -> frame T r r' -> own r' ->
  (T = ARP /\ own = arp_ready (arp_table_info g) \/ T = DIP /\ own = dip_ready (dip_lookup_table_info g) \/
   T = DEST /\ own = egress_ready DEST "hdr.ipv4.dst_addr" (dest_to_egress_port_table_info g) \/
   T = DIX /\ own = egress_ready DIX "hdr.bridged.index" (d_index_to_egress_port_table_info g) \/
   T = LBX /\ own = egress_ready LBX "ig_md.hash_result" (lb_index_to_egress_port_table_info g) \/
   T = DIP_PORT /\ own = dx_ready (d_index_to_ip_port_table_info g)) -> all_ready g r'.
Proof.
  intros (A1 & A2 & A3 & A4 & A5 & A6 & A7) F Ho HT.
  destruct_or! HT; destruct HT as [-> ->].
  all: unfold all_ready; split_and!; first [exact Ho | eapply handles_frame; [eassumption | exact F | discriminate]
                   | eapply oft_frame; [eassumption | exact F | discriminate]].
Qed.

Lemma file_says_map {A B} path (says : J -> A -> Prop) (g : A -> B) es :
  file_says files path says es -> file_says files path (fun j b => exists a, says j a /\ b = g a) (map g es).
Proof.
  intros (text & arr & Ef & Ep & H2). exists text, arr. split_and!; try done.
  clear Ep. induction H2 as [|j e js es' Hje _ IH]; simpl; constructor; eauto.
Qed.

(** No entry of a table that was loaded later was there before. *)
Ltac free_before :=
  try assumption; intros k Hk;
  match goal with N : forall k, k ∈ ?l -> table_of _ ?T !! k = None, Hk : ?k ∈ ?l |- table_of _ ?T !! ?k = None =>
    specialize (N k Hk); revert N; through; exact id end.

(** One table more: [A] says that all of them are usable, [L] is the contract of
    adding one entry, [rdy] the part of [A] the table needs. *)
Ltac load_run A L key data T rdy :=
  apply wp_within; cbn [cl set_cl]; eapply wp_mono;
  [apply (wp_load _ key data T rdy); [intros; by apply L | destruct A as (? & ? & ? & ? & ? & ? & ?); assumption]|];
  let F := fresh "F" in let Hv := fresh "Hv" in let Hp := fresh "Hp" in let c := fresh "c" in
  intros [[]|?] c (F & Hv & Hp);
  [ let Hrdy := fresh "Hrdy" in let E := fresh "E" in let A' := fresh "A" in
    let N1 := fresh "N" in let N2 := fresh "N" in destruct Hp as (Hrdy & N1 & N2 & E);
    pose proof (all_ready_frame _ _ _ _ _ A F Hrdy ltac:(tauto)) as A';
    rewrite <- Hv in A'; clear A Hrdy; rename A' into A; cbn [cl set_cl] in *
  | let Rel := fresh "Rel" in let NC := fresh "NC" in let R := fresh "R" in
    destruct Hp as (-> & _ & R); split; [done|]; intros [Rel NC]; apply (R Rel);
    destruct NC as ([? ?] & [? ?] & [? ?] & [? ?] & [? ?] & [? ?]);
    split; [assumption | let k := fresh "k" in let Hk := fresh "Hk" in intros k Hk; through; auto] ].

Lemma wp_load_tables arps bes lbs dests s :
  all_ready (vars (cl s)) (rts s) ->
  file_says files ARP_TABLE_PATH says_arp arps -> file_says files D_INDEX_PATH says_backend bes ->
  file_says files LB_INDEX_PATH says_lb lbs -> file_says files DEST_TO_EGRESS_PATH says_dest dests ->
  wp (load_tables files) (load_all_post arps bes lbs dests s) s.
Proof.
  intros A Farp Fbe Flb Fde.
  unfold load_tables, add_arp_table_entry, add_dip_lookup_table_entry, add_d_index_to_egress_port_table_entry,
    add_d_index_to_ip_port_table_entry, add_lb_index_to_egress_port_table_entry, add_dest_to_egress_port_table_entry.
  eapply wp_read_file; [exact Farp | apply read_arp_run|]. apply wp_bind.
  load_run A wp_add_arp_one arp_key arp_data ARP (fun g => arp_ready (arp_table_info g)).
  eapply wp_read_file; [apply (file_says_map _ says_backend (fun b => (backend_dip b, backend_egress b, backend_ip b))), Fbe
    | intros j e s0 (b & Hb & ->); by apply read_backend_run|].
  rewrite !map_map. cbn [fst snd]. apply wp_bind.
  load_run A wp_add_dip_lookup_one dip_key dip_data DIP (fun g => dip_ready (dip_lookup_table_info g)). apply wp_bind.
  load_run A wp_add_d_index_to_egress_one dix_key dix_data DIX
    (fun g => egress_ready DIX "hdr.bridged.index" (d_index_to_egress_port_table_info g)). apply wp_bind.
  load_run A wp_add_d_index_to_ip_one dx_key dx_data DIP_PORT (fun g => dx_ready (d_index_to_ip_port_table_info g)).
  eapply wp_read_file; [exact Flb | apply read_lb_run|]. apply wp_bind.
  load_run A wp_add_lb_index_to_egress_one lbx_key lbx_data LBX
    (fun g => egress_ready LBX "ig_md.hash_result" (lb_index_to_egress_port_table_info g)).
  eapply wp_read_file; [exact Fde | apply read_dest_run|].
  load_run A wp_add_dest_to_egress_one dest_key dest_data DEST
    (fun g => egress_ready DEST "hdr.ipv4.dst_addr" (dest_to_egress_port_table_info g)).
  repeat match goal with F : frame _ _ _ |- _ => destruct (F) as (_ & _ & _ & ? & ?); revert F end; intros.
  unfold load_all_post. cbn [cl set_cl]. split_and!; [| exact A | congruence | done | congruence | congruence |].
  - unfold loaded, entries_of. split_and!; through; done.
  - unfold no_clash, fresh_entries. split_and!; [assumption | free_before ..].
Qed.

(** ** The controller's configuration, and the whole start *)

Lemma read_rule_run j e s : says_rule j e -> read_rule (D := D) (Some j) s = (Ret e, s).
Proof.
  intros (key & str & i & o & Ek & Ev & Hl & Hi & Ho & ->). unfold read_rule. rewrite Ek.
  assert (rule_key (D := D) key s = (Ret (c_string str), s)) as Er by (unfold rule_key; by rewrite Ev, decide_True).
  rewrite bind_run. change (deref (Some key) s) with (Ret (E := stop) key, s). cbn beta iota.
  rewrite bind_run, Er. cbn beta iota. members. done.
Qed.

Lemma read_mac_run j arr mac s :
  cJSON_GetObjectItem (Some j) "mac_array" = Some arr ->
  Forall2 (fun k b => exists m, cJSON_GetArrayItem (Some arr) k = Some m /\ b = u8 (valueint m)) (seqZ 0 6) mac ->
  read_mac (D := D) (Some j) s = (Ret mac, s).
Proof.
  intros Ea H2. unfold read_mac. rewrite Ea. induction H2 as [|k b ks bs (m & Em & ->) _ IH]; [done|].
  cbn [mapM]. rewrite bind_run, Em, bind_run, deref_run, ret_run, bind_run, IH. done.
Qed.

Lemma read_v_info_run j i s : says_info j i -> read_v_info (D := D) j s = (Ret i, s).
Proof.
  intros (ip & port & arr & mac & Hip & Hport & Ea & H2 & ->). unfold read_v_info. members.
  rewrite bind_run, (read_mac_run j arr mac s Ea H2). done.
Qed.

Lemma read_d_index_run j e s : says_d_index j e -> read_d_index (D := D) (Some j) s = (Ret e, s).
Proof.
  intros (i & info & Hi & (ip & port & arr & mac & Hip & Hport & Ea & H2 & ->) & ->). unfold read_d_index. members.
  rewrite bind_run, (read_mac_run j arr mac s Ea H2). done.
Qed.

(** What the five configuration files of the tables, the ports' file and the
    three files of the controller say. *)
Record config := Config {
  c_ports : list (option string * bf_port_speed_t);
  c_arps : list arp_table_entry_t;
  c_backends : list backend;
  c_lbs : list lb_index_to_egress_port_table_entry_t;
  c_dests : list dest_to_egress_port_table_entry_t;
  c_rules : list rule_t;
  c_d_index : list d_index_t;
  c_v_info : server_info_t
}.

Definition configured (c : config) : Prop :=
  file_says files PORT_PATH says_port (c_ports c) /\ file_says files ARP_TABLE_PATH says_arp (c_arps c) /\
  file_says files D_INDEX_PATH says_backend (c_backends c) /\ file_says files LB_INDEX_PATH says_lb (c_lbs c) /\
  file_says files DEST_TO_EGRESS_PATH says_dest (c_dests c) /\ file_says files RULE_PATH says_rule (c_rules c) /\
  (length (c_rules c) <= 256)%nat /\ file_says files D_INDEX_PATH says_d_index (c_d_index c) /\
  (length (c_d_index c) <= 256)%nat /\
  exists text j, files V_INFO_PATH = Some text /\ cJSON_Parse text = Some j /\ says_info j (c_v_info c).

Lemma wp_init_controller (sys : syscall -> Z) c (Q : outcome stop unit -> proc D -> Prop) s :
  configured c -> (forall x, sys x <> -1) ->
  Q (Ret tt) (set_v_info (c_v_info c) (set_d_index_table (c_d_index c) (set_rules (c_rules c) s))) ->
  wp (init_controller files sys RULE_PATH D_INDEX_PATH V_INFO_PATH) Q s.
Proof.
  intros (_ & _ & _ & _ & _ & Fr & Lr & Fd & Ld & (text & j & Ef & Ep & Hj)) Hsys HQ.
  assert (forall x (Q : outcome stop unit -> proc D -> Prop) s, Q (Ret tt) s -> wp (checked_sys sys x) Q s) as Hc.
  { intros x Q' s' HQ'. unfold checked_sys. rewrite (proj2 (Z.eqb_neq _ _)) by done. done. }
  assert (forall {A} (l : list A) (Q : outcome stop unit -> proc D -> Prop) s, (length l <= 256)%nat -> Q (Ret tt) s -> wp (in_256 l) Q s) as Hi.
  { intros A l Q' s' Hl HQ'. unfold in_256. by rewrite decide_True. }
  unfold init_controller. do 5 (apply wp_bind, Hc; cbn beta iota).
  eapply wp_read_file; [exact Fr | apply read_rule_run|]. cbn beta.
  apply wp_bind, Hi; [done|]. apply wp_bind, wp_modify. cbn beta iota.
  eapply wp_read_file; [exact Fd | apply read_d_index_run|]. cbn beta.
  apply wp_bind, Hi; [done|]. apply wp_bind, wp_modify. cbn beta iota. unfold read_json. rewrite Ef, Ep.
  apply wp_bind, wp_ret, wp_bind. unfold wp at 1. rewrite (read_v_info_run _ _ _ Hj). apply wp_modify. exact HQ.
Qed.

Lemma wp_init_switch dir (c0 : client D) : (String.length (dir ++ "/share/p4/targets/tofino/" ++ PROG_NAME ++ ".conf") < 256)%nat ->
  wp (init_switch (Some dir) PROG_NAME) (fun r c1 => vars c1 = vars c0 /\ abs (driver c1) = abs (driver c0) /\
    match r with Ret _ => True | Err e => e = Exit 1 /\ ~ reliable D end) c0.
Proof.
  intros Hl. unfold init_switch. cbv zeta. rewrite decide_False by lia. pose proof (eq_refl (abs (driver c0))) as Hr.
  call_step Hr; [by intros ->|]. intros E Rel. cbn [driver vars]. split_and!; try done. intros R. by eapply (Rel R tt).
Qed.

Lemma wp_init_bf_rt (c0 : client D) :
  wp (init_bf_rt PROG_NAME) (fun r c1 => abs (driver c1) = abs (driver c0) /\
    match r with Ret _ => True | Err e => e = Exit 1 /\ ~ reliable D end) c0.
Proof.
  unfold init_bf_rt. pose proof (eq_refl (abs (driver c0))) as Hr. call_step Hr.
  2: { intros E Rel. cbn [driver]. split_and!; try done. intros R. by eapply (Rel R 0). }
  intros Hr1. apply wp_bind, wp_set_vars. cbn beta iota. call_step Hr1.
  - intros Hr2. by apply wp_set_vars.
  - intros E Rel. cbn [driver]. split_and!; try done. intros R. by eapply (Rel R 0).
Qed.

(** The state the program is in when it enters the controller's loop. *)
Definition started (c : config) s s' : Prop :=
  loaded (c_arps c) (c_backends c) (c_lbs c) (c_dests c) (rts s) (rts s') /\
  (exists hs, Forall2 (fun p x => x.1 = Some (port_name_of p)) hs (c_ports c) /\ NoDup hs /\
     ports (rts s') = list_to_map (zip hs (map (fun x => (x.2, true)) (c_ports c))) ∪ ports (rts s)) /\
  all_ready (vars (cl s')) (rts s') /\ in_batch (rts s') = in_batch (rts s) /\
  no_clash (c_arps c) (c_backends c) (c_lbs c) (c_dests c) (rts s) /\
  rules s' = c_rules c /\ d_index_table s' = c_d_index c /\ v_info s' = c_v_info c /\
  recv_buffer s' = recv_buffer s /\ sent s' = sent s.

Definition start_post (c : config) s (r : outcome stop unit) s' : Prop :=
  match r with
  | Ret _ => started c s s'
  | Err e => e = Exit 1 /\ ~ (reliable D /\ all_names /\ ports_free (c_ports c) (rts s) /\
               no_clash (c_arps c) (c_backends c) (c_lbs c) (c_dests c) (rts s))
  end.

Lemma no_clash_eq arps bes lbs dests r r' : (forall T, table_of r' T = table_of r T) ->
  no_clash arps bes lbs dests r -> no_clash arps bes lbs dests r'.
Proof.
  intros E (A1 & A2 & A3 & A4 & A5 & A6). unfold no_clash, fresh_entries in *.
  split_and!; rewrite ?E; try (by (apply A1 || apply A2 || apply A3 || apply A4 || apply A5 || apply A6)).
Qed.

Lemma wp_start_switch (sys : syscall -> Z) dir c s :
  configured c -> (forall x, sys x <> -1) ->
  (String.length (dir ++ "/share/p4/targets/tofino/" ++ PROG_NAME ++ ".conf") < 256)%nat ->
  wp (start_switch files sys (Some dir)) (start_post c s) s.
Proof.
  intros Hc Hsys Hdir. unfold start_switch.
  apply wp_bind, wp_within. eapply wp_mono; [by apply wp_init_switch|]. intros [[]|e] c1 (Hv1 & Hr1 & Hp).
  2: { destruct Hp as [-> R]. split; [done|]. tauto. }
  apply wp_bind, wp_within. cbn [cl set_cl]. eapply wp_mono; [apply wp_init_bf_rt|]. intros [[]|e] c2 (Hr2 & Hp2).
  2: { destruct Hp2 as [-> R]. split; [done|]. tauto. }
  rewrite Hr1 in Hr2. apply wp_bind, wp_within. cbn [cl set_cl].
  pose proof Hc as (Fp & Farp & Fbe & Flb & Fde & _).
  eapply wp_mono; [by apply wp_init_ports|]. intros r3 c3 (Hv3 & (Ot & Ok & Od & Ob) & Hp3). rewrite Hr2 in *.
  assert (forall T, table_of (abs (driver c3)) T = table_of (rts s) T) as Et by (intros; unfold table_of; by rewrite Ot).
  destruct r3 as [[]|e]; [|destruct Hp3 as [-> R]; split; [done|]; tauto].
  destruct Hp3 as (hs & Hhs & Hnd & Hfree & Eports).
  apply wp_bind, wp_within. cbn [cl set_cl]. eapply wp_mono; [apply wp_setup_tables|].
  intros r4 c4 ((Q1 & Q2 & Q3) & Hp4). destruct r4 as [[]|e]; [|destruct Hp4 as [-> R]; split; [done|]; tauto].
  destruct Hp4 as [A Hs]. apply wp_bind. apply (wp_init_controller sys c); [done | done|]. cbn beta iota.
  eapply wp_mono; [eapply (wp_load_tables (c_arps c) (c_backends c) (c_lbs c) (c_dests c)); [exact A | done..]|].
  cbn [cl set_cl set_v_info set_d_index_table set_rules]. intros r5 s5 Hp5.
  assert (forall T, table_of (abs (driver c4)) T = table_of (rts s) T) as Et4 by (intros; by rewrite Q1, Et).
  destruct r5 as [[]|e].
  - destruct Hp5 as (L & A5 & _ & -> & P5 & B5 & N5). cbn [cl set_cl] in *. unfold start_post, started. cbn.
    change (ports (rts s5) = ports (abs (driver c4))) in P5.
    change (in_batch (rts s5) = in_batch (abs (driver c4))) in B5.
    unfold loaded in *. rewrite <- !Et4. split_and!; try apply L; try done.
    + exists hs. split_and!; try done. congruence.
    + congruence.
    + by eapply (no_clash_eq _ _ _ _ (abs (driver c4))).
  - destruct Hp5 as [-> R]. split; [done|]. intros (Rel & _ & _ & NC). apply R. split; [done|].
    eapply no_clash_eq; [|exact NC]. done.
Qed.
End load.

(** ** Theorems *)

Section start_theorems.
Context {D J : Type} `{BfRuntime D} `{BfSchema} `{!BfRuntimeLaws D} `{CJson J} `{!CJsonLaws J}.
Context (files : string -> option string).

(** The seven [setup_*] functions leave the seven tables usable - handles that
    name the table, its fields, its action and the action's parameters, a key and a
    data object made for it, 256 of each for the offload table - and add no entry
    and touch no port; or the program exits with status 1, which it does only if
    the runtime fails a call it could do or the data plane lacks a name. *)
Theorem tables_usable (c : client D) : exists r c', setup_tables c = (r, c') /\ setup_all_post c r c'.
Proof. apply wp_run, wp_setup_tables. Qed.

(** [init_ports] brings up the configured ports: each name's handle is added with
    the configured speed and enabled, no port twice, and nothing else of the switch
    changes; it exits with status 1 only for a runtime that fails a call it could
    do, an unknown or repeated name, or a port in use. *)
Theorem ports_configured path l (c : client D) :
  file_says files path says_port l -> exists r c', init_ports files path c = (r, c') /\ ports_post l c r c'.
Proof. intros Hf. apply wp_run. by apply wp_init_ports. Qed.

(** A port file with one bad element - a missing name or speed, a speed other
    than 10, 25, 40 or 100 - is refused as a whole: the program exits before any
    port is touched. *)
Theorem bad_ports_rejected path text arr j (c : client D) :
  files path = Some text -> cJSON_Parse text = Some arr -> j ∈ items arr -> (forall p, ~ says_port j p) ->
  init_ports files path c = (Err (Exit 1), c).
Proof.
  intros Ef Ep Hj Hno. unfold init_ports, read_json. rewrite Ef, Ep, bind_run, ret_run, bind_run.
  rewrite (for_items_run read_port port_of) by (intros; apply read_port_run). by rewrite collect_exit by eauto.
Qed.

(** C10: The start of the switch program.  When the files are well formed, every table
    ends with what the files say - ARP answers, back ends by address, by index and
    by output port, load balancers, routes - on top of what it held, the offload
    table is untouched, no entry has replaced another, the ports are up, the
    controller has its rules, servers and virtual server, and all seven tables are
    usable; or the program has exited with
    status 1, for which there are these reasons only: the runtime fails a call it
    could do, a name is missing, a port clashes, an entry's key clashes. *)
Theorem switch_starts (sys : syscall -> Z) dir c (s : proc D) :
  configured files c -> (forall x, sys x <> -1) ->
  (String.length (dir ++ "/share/p4/targets/tofino/" ++ PROG_NAME ++ ".conf") < 256)%nat ->
  exists r s', start_switch files sys (Some dir) s = (r, s') /\ start_post c s r s'.
Proof. intros. apply wp_run. by apply wp_start_switch. Qed.
End start_theorems.

(** [make_mac] builds the 48-bit address whose upper half is the prefix and whose
    lower half is the suffix, for halves of 24 bits. *)
Theorem make_mac_halves p x : 0 <= p < 2 ^ 24 -> 0 <= x < 2 ^ 24 ->
  make_mac p x = p * 2 ^ 24 + x /\ 0 <= make_mac p x < 2 ^ 48 /\
  Z.shiftr (make_mac p x) 24 = p /\ Z.land (make_mac p x) (2 ^ 24 - 1) = x.
Proof.
  intros Hp Hx. assert (make_mac p x = p * 2 ^ 24 + x) as E.
  { unfold make_mac, u64. rewrite Z.shiftl_mul_pow2, (Z.mod_small p), (Z.mod_small x) by lia.
    rewrite (Z.mod_small (p * 2 ^ 24)), Z.mod_small; lia. }
  rewrite E. split_and!; try lia.
  - rewrite Z.shiftr_div_pow2 by lia. rewrite Z.div_add_l, Z.div_small by lia. lia.
  - change (2 ^ 24 - 1) with (Z.ones 24). rewrite Z.land_ones, Z.add_comm, Z.mod_add, Z.mod_small by lia. done.
Qed.

Lemma make_mac_halves_witness : make_mac 0x0c42a1 0x4aff02 = 0x0c42a1 * 2 ^ 24 + 0x4aff02.
Proof. apply (make_mac_halves 0x0c42a1 0x4aff02); lia. Defined.

(** ** A configuration *)

Module SampleConfig.
Import Sample.
#[local] Existing Instances Sim.schema Sim.runtime Sim.runtime_laws.

Definition int (name : string) (z : Z) : string * json := (name, JInt z).
Definition mac_array : string * json := ("mac_array"%string, JArr (map JInt [12; 66; 161; 74; 255; 2])).
Definition docs : list (string * json) := [
  (PORT_PATH, JArr [JObj [("port"%string, JStr "1/0"); int "speed" 100]; JObj [("port"%string, JStr "2/0"); int "speed" 40]]);
  (ARP_TABLE_PATH, JArr [JObj [int "opcode" 1; int "target_proto_addr" 167772414; int "mac_prefix" 803489; int "mac_suffix" 4914946]]);
  (D_INDEX_PATH, JArr [
    JObj [int "d_index" 1; int "ip" 167772161; int "port" 80; mac_array; int "mac_prefix" 803489; int "mac_suffix" 7; int "egress_port" 132];
    JObj [int "d_index" 2; int "ip" 167772162; int "port" 80; mac_array; int "mac_prefix" 803489; int "mac_suffix" 8; int "egress_port" 140]]);
  (LB_INDEX_PATH, JArr [JObj [int "lb_index" 0; int "mac_prefix" 803489; int "mac_suffix" 9; int "egress_port" 148]]);
  (DEST_TO_EGRESS_PATH, JArr [JObj [int "dst_addr" 167772160; int "prefix_len" 24; int "src_mac" 803489; int "src_mac_suffix" 1;
     int "dst_mac" 803489; int "dst_mac_suffix" 2; int "egress_port" 156]]);
  (RULE_PATH, JArr [JObj [("key"%string, JStr "/index"); int "d_index" 1; int "offload_flag" 1]]);
  (V_INFO_PATH, JObj [int "ip" 167772169; int "port" 80; mac_array])].
#[local] Instance the_json : CJson json := cjson docs.
#[local] Instance the_json_laws : CJsonLaws json := sample_laws docs.

(** The text of a file is its path. *)
Definition files (path : string) : option string := Some path.

Definition mac : list Z := [12; 66; 161; 74; 255; 2].
Definition conf : config := Config
  [(Some "1/0"%string, BF_SPEED_100G); (Some "2/0"%string, BF_SPEED_40G)]
  [{| opcode := 1; target_proto_addr := 167772414; arp_mac := make_mac 803489 4914946 |}]
  [Backend 1 167772161 80 (make_mac 803489 7) 132; Backend 2 167772162 80 (make_mac 803489 8) 140]
  [{| lb_index := 0; lb_dst_mac := make_mac 803489 9; lb_dst_port := 148 |}]
  [{| dst_addr := 167772160; prefix_len := 24; de_src_mac := make_mac 803489 1; de_dst_mac := make_mac 803489 2; de_dst_port := 156 |}]
  [Rule (c_string "/index") 1 1]
  [DIndex 1 (ServerInfo mac 167772161 80); DIndex 2 (ServerInfo mac 167772162 80)]
  (ServerInfo mac 167772169 80).

Lemma mac_ok : Forall2 (fun k b => exists m, cJSON_GetArrayItem (Some (JArr (map JInt mac))) k = Some m /\ b = u8 (valueint m)) (seqZ 0 6) mac.
Proof. repeat (apply Forall2_cons; split; [by eexists|]). apply Forall2_nil_2. Qed.

Ltac says :=
  unfold says_port, says_arp, says_backend, says_lb, says_dest, says_rule, says_d_index, says_info, has_int;
  repeat first [reflexivity | exact mac_ok | by apply Nat.ltb_lt | eexists | split].
Ltac file_ok :=
  eexists _, _; split; [reflexivity|]; split; [reflexivity|];
  match goal with
  | |- Forall2 ?P (items ?a) ?l => let l' := eval vm_compute in (items a) in change (Forall2 P l' l)
  | |- _ => idtac
  end;
  repeat (apply Forall2_cons; split); try apply Forall2_nil_2; says.
Lemma sample_configured : configured files conf.
Proof. unfold configured, file_says. split_and!; try (by apply Nat.leb_le). all: file_ok. Qed.

Definition client_0 : client rt := Client globals_0 Sim.empty.
Definition proc_0 : proc rt := Proc client_0 [] [] (ServerInfo [] 0 0) (replicate RECV_SIZE 0) 0 [].
Definition sys (_ : syscall) : Z := 3.

(** This start succeeds. *)
Lemma sample_starts : fst (start_switch files sys (Some "/sde"%string) proc_0) = Ret tt.
Proof. vm_compute. reflexivity. Qed.

Lemma switch_starts_witness :
  exists r s', start_switch files sys (Some "/sde"%string) proc_0 = (r, s') /\ start_post conf proc_0 r s'.
Proof.
  apply (switch_starts files sys "/sde" conf proc_0); [exact sample_configured | by intros [] | by apply Nat.ltb_lt].
Defined.

Lemma ports_configured_witness :
  exists r c', init_ports files PORT_PATH client_0 = (r, c') /\ ports_post (c_ports conf) client_0 r c'.
Proof. apply (ports_configured files PORT_PATH (c_ports conf) client_0). exact (proj1 sample_configured). Defined.

Lemma tables_usable_witness : exists r c', setup_tables client_0 = (r, c') /\ setup_all_post client_0 r c'.
Proof. apply (tables_usable client_0). Defined.

(** A file of something else. *)
Lemma bad_ports_rejected_witness : init_ports files LB_INDEX_PATH client_0 = (Err (Exit 1), client_0).
Proof.
  apply (bad_ports_rejected files LB_INDEX_PATH LB_INDEX_PATH
    (JArr [JObj [int "lb_index" 0; int "mac_prefix" 803489; int "mac_suffix" 9; int "egress_port" 148]])
    (JObj [int "lb_index" 0; int "mac_prefix" 803489; int "mac_suffix" 9; int "egress_port" 148]) client_0);
    [reflexivity | reflexivity | by left |].
  intros p (n & sp & En & _). discriminate En.
Defined.
End SampleConfig.

