(* ===== verification/System.v ===== *)
(** * The switch controller and a front end together

    The greeting the controller sends to a new front end, as the front end
    understands it; and the entry messages of a front end, as they end up in the
    switch's table of offloaded connections. *)
From Stdlib Require Import ZArith Lia String.
From stdpp Require Import base list gmap strings.
From S2P Require Import Prelude Wire EntryController BfRt Json Client ClientProofs Controller RuleController ControllerProofs Main MainProofs.

(** ** The greeting *)

(** The rules and servers as the front end has them after reading a message. *)
Definition install_rule (s : rule_controller_t) (r : rule_t) : rule_controller_t :=
  RuleController (<[rule r := MyData (r_offload_flag r) (r_d_index r)]> (rule_map s)) (d_index_map s) (virtual_server_info s).
Definition install_server (s : rule_controller_t) (d : d_index_t) : rule_controller_t :=
  RuleController (rule_map s) (<[dt_d_index d := dt_server_info d]> (d_index_map s)) (virtual_server_info s).
Definition install_v_info (s : rule_controller_t) (v : server_info_t) : rule_controller_t :=
  RuleController (rule_map s) (d_index_map s) v.

(** Values that fit their fields, as [init_controller] stores them. *)
Definition rule_ok (r : rule_t) : Prop :=
  Forall (fun b => b <> 0) (rule r) /\ in_u8 (r_d_index r) /\ in_u8 (r_offload_flag r).
Definition server_ok (d : d_index_t) : Prop := in_u8 (dt_d_index d) /\ info_ok (dt_server_info d).

Section greeting.
Implicit Types s : rule_controller_t.

Lemma wp_recv_rule buf r pre post s : rule_ok r ->
  buf = pre ++ rule_bytes r ++ post ->
  wp (recv_rule buf (length pre))
    (fun o s' => o = Ret (length pre + length (rule_bytes r))%nat /\ s' = install_rule s r) s.
Proof.
  intros (Hz & Hi & Ho) E. unfold recv_rule, rule_bytes in *. rewrite <- !app_assoc in E. cbn [app] in E.
  wp_step. eapply wp_string_at; [exact E | done | done |]. cbv zeta.
  assert (buf = (pre ++ rule r ++ [0]) ++ r_d_index r :: r_offload_flag r :: post) as E'
    by (rewrite E, <- !app_assoc; done).
  assert (length (pre ++ rule r ++ [0%Z]) = length pre + (length (rule r) + 1))%nat as L by (rewrite !length_app; simpl; lia).
  wp_step. eapply wp_char_at; [rewrite <- L, E'; apply list_lookup_middle; done|].
  wp_step. eapply wp_char_at; [rewrite <- L, E', lookup_app_r by lia; replace (_ + 1 - _)%nat with 1%nat by lia; reflexivity|].
  wp_step. unfold add_balancing_rule. wp_step. apply wp_modify. cbn beta iota. wp_step. wp_step.
  rewrite !u8_id by done. split; [|done]. f_equal. rewrite length_app. simpl. lia.
Qed.

Lemma length_info_msg d : info_ok (dt_server_info d) -> length (d_index_bytes d) = 17%nat.
Proof. intros (Hl & _). unfold d_index_bytes. cbn [length]. by rewrite length_info_bytes. Qed.

Lemma wp_recv_d_index buf d pre post s : server_ok d ->
  buf = pre ++ d_index_bytes d ++ post ->
  wp (recv_d_index buf (length pre))
    (fun o s' => o = Ret (length pre + length (d_index_bytes d))%nat /\ s' = install_server s d) s.
Proof.
  intros (Hi & Hd) E. unfold recv_d_index. wp_step. eapply wp_char_at; [rewrite E; by apply list_lookup_middle|].
  wp_step. unfold info_at. rewrite decide_True.
  2: { rewrite E, !length_app, length_info_msg by done. unfold sizeof_server_info_t. lia. }
  wp_step. wp_step. unfold add_d_index_rule. wp_step. apply wp_modify. cbn beta iota. wp_step. wp_step.
  rewrite length_info_msg, u8_id by done. split; [unfold sizeof_server_info_t; f_equal; lia|].
  assert (read_info buf (length pre + 1) = dt_server_info d) as ->; [|done].
  pose proof (read_info_shift (pre ++ [dt_d_index d]) (info_bytes 0 (dt_server_info d) ++ post) 0) as Hs.
  rewrite length_app, Nat.add_0_r, <- app_assoc in Hs. rewrite E. unfold d_index_bytes. cbn [app length] in *.
  rewrite Hs. by apply read_info_bytes.
Qed.

(** Each message alone, whatever follows it in the buffer. *)
Lemma wp_dispatch_rules rs post s : Forall rule_ok rs -> (length rs <= 255)%nat ->
  wp (dispatch (rule_message rs ++ post)) (fun o s' => o = Ret tt /\ s' = foldl install_rule s rs) s.
Proof.
  intros Hok Hl. unfold dispatch. set (buf := rule_message rs ++ post).
  assert (buf = [0; u8 (Z.of_nat (length rs)); 0] ++ concat (map rule_bytes rs) ++ post) as E
    by (unfold buf, rule_message; by rewrite <- app_assoc).
  wp_step. eapply wp_char_at; [rewrite E; reflexivity|]. cbn beta iota. change (0 =? op_code UPDATE_RULE) with true. cbn iota.
  wp_step. eapply wp_char_at; [rewrite E; reflexivity|]. wp_step. eapply wp_char_at; [rewrite E; reflexivity|].
  cbn beta iota. rewrite !u8_id by modlia. rewrite Nat2Z.id. change (Z.to_nat 0) with 0%nat.
  wp_step. eapply wp_mono; [apply (wp_repeat_from buf _ rule_bytes install_rule rule_ok rs [0; u8 (Z.of_nat (length rs)); 0] post)|].
  - intros. by eapply wp_recv_rule.
  - done.
  - exact E.
  - intros o s' [-> ->]. cbn [repeat_from]. do 3 wp_step. done.
Qed.

Lemma wp_dispatch_d_index ds post s : Forall server_ok ds -> (length ds <= 255)%nat ->
  wp (dispatch (d_index_message ds ++ post)) (fun o s' => o = Ret tt /\ s' = foldl install_server s ds) s.
Proof.
  intros Hok Hl. unfold dispatch. set (buf := d_index_message ds ++ post).
  assert (buf = [1; u8 (Z.of_nat (length ds)); 0] ++ concat (map d_index_bytes ds) ++ post) as E
    by (unfold buf, d_index_message; by rewrite <- app_assoc).
  wp_step. eapply wp_char_at; [rewrite E; reflexivity|]. cbn beta iota.
  change (1 =? op_code UPDATE_RULE) with false. change (1 =? op_code UPDATE_V_INFO) with false.
  change (1 =? op_code UPDATE_D_INDEX) with true. cbn iota.
  wp_step. eapply wp_char_at; [rewrite E; reflexivity|]. wp_step. eapply wp_char_at; [rewrite E; reflexivity|].
  cbn beta iota. rewrite !u8_id by modlia. rewrite Nat2Z.id. change (Z.to_nat 0) with 0%nat.
  wp_step. eapply wp_mono; [apply (wp_repeat_from buf _ d_index_bytes install_server server_ok ds [1; u8 (Z.of_nat (length ds)); 0] post)|].
  - intros. by eapply wp_recv_d_index.
  - done.
  - exact E.
  - intros o s' [-> ->]. cbn [repeat_from]. do 3 wp_step. done.
Qed.

Lemma wp_dispatch_v_info v post s : info_ok v ->
  wp (dispatch (v_info_message v ++ post)) (fun o s' => o = Ret tt /\ s' = install_v_info s v) s.
Proof.
  intros Hv. unfold dispatch. unfold v_info_message. rewrite <- !app_assoc.
  wp_step. eapply wp_char_at; [reflexivity|]. cbn beta iota.
  change (op_code UPDATE_V_INFO =? op_code UPDATE_RULE) with false. change (op_code UPDATE_V_INFO =? op_code UPDATE_V_INFO) with true.
  cbn iota. wp_step. unfold info_at. pose proof (length_info_bytes 0 v (proj1 Hv)) as L.
  rewrite decide_True by (rewrite !length_app, L; unfold sizeof_server_info_t; simpl length; lia).
  wp_step. wp_step. unfold update_virtual_server_info. wp_step. apply wp_modify. cbn beta iota. wp_step. wp_step.
  split; [done|]. unfold install_v_info. f_equal.
  pose proof (read_info_shift [op_code UPDATE_V_INFO] (info_bytes 0 v ++ [0; 0; 0] ++ post) 0) as Hs.
  change (length [op_code UPDATE_V_INFO] + 0)%nat with 1%nat in Hs. rewrite Hs. by apply read_info_bytes.
Qed.

(** A delivery whose first bytes are a message with known effect. *)
Lemma wp_on_switch_message msg post (eff : rule_controller_t) (f : front) :
  (forall post, wp (dispatch (msg ++ post)) (fun o s' => o = Ret tt /\ s' = eff) (front_rules f)) ->
  msg <> [] -> (length (msg ++ post) <= ETH_FRAME_LEN)%nat -> length (front_buffer f) = ETH_FRAME_LEN ->
  wp (on_switch_message (Some (msg ++ post))) (fun o f' => o = Ret tt /\ front_rules f' = eff /\ length (front_buffer f') = ETH_FRAME_LEN) f.
Proof.
  intros Hd Hne Hl Hb. destruct msg as [|z msg]; [done|]. cbn [app on_switch_message]. cbv zeta.
  change (z :: msg ++ post) with ((z :: msg) ++ post). rewrite take_ge by lia.
  wp_step. apply wp_modify. cbn beta iota. wp_step. wp_step. apply wp_within. cbn [front_buffer front_rules].
  assert (splice (front_buffer f) 0 ((z :: msg) ++ post) = (z :: msg) ++ (post ++ drop (length ((z :: msg) ++ post)) (front_buffer f))) as ->
    by (unfold splice; cbn [take]; by rewrite app_nil_l, app_assoc).
  eapply wp_mono; [apply Hd|]. intros o s' [-> ->]. split_and!; try done. cbn [front_buffer].
  rewrite ?length_app, ?length_drop, ?length_app in *. cbn [length] in *. lia.
Qed.
End greeting.

(** ** The two programs connected *)

Section greeting_end.
Context {D : Type} `{BfRuntime D}.
Implicit Types s : proc D.

Lemma wp_send_message msg ret (Q : outcome stop unit -> proc D -> Prop) s :
  (length msg <= SEND_SIZE)%nat -> 0 <= ret -> Q (Ret tt) (set_sent (sent s ++ [msg]) s) -> wp (send_message msg ret) Q s.
Proof.
  intros Hl Hr HQ. unfold send_message. rewrite decide_True by done. rewrite (proj2 (Z.ltb_ge _ _)) by done. by apply wp_modify.
Qed.

(** A configuration whose greeting fits the 1024-byte send buffer. *)
Definition greetable s : Prop :=
  Forall rule_ok (rules s) /\ Forall server_ok (d_index_table s) /\ info_ok (v_info s) /\
  (length (rule_message (rules s)) <= SEND_SIZE)%nat /\ (length (d_index_table s) <= 60)%nat.

Lemma length_d_index_message ds : Forall server_ok ds -> length (d_index_message ds) = (3 + 17 * length ds)%nat.
Proof.
  intros Hok. unfold d_index_message. rewrite length_app. simpl length at 1.
  rewrite (length_concat_map _ server_ok 17); [lia | | done]. intros d [_ Hd]. by apply length_info_msg.
Qed.

Lemma wp_on_accept fd n1 n2 n3 s : greetable s -> fd <> -1 -> 0 <= n1 -> 0 <= n2 -> 0 <= n3 ->
  wp (on_accept fd 0 0 n1 n2 n3) (fun r s' => r = Ret tt /\
    s' = set_sent (sent s ++ [rule_message (rules s); d_index_message (d_index_table s); v_info_message (v_info s)]) s) s.
Proof.
  intros (Hr & Hd & Hv & Lr & Ld) Hfd H1 H2 H3. unfold on_accept.
  rewrite (proj2 (Z.eqb_neq _ _)) by done. cbn [Z.ltb Z.eqb]. change (0 <? 0) with false. cbn iota.
  wp_step. wp_step. wp_step. apply wp_send_message; [done|done|]. cbn beta iota.
  wp_step. wp_step. wp_step. apply wp_send_message; [|done|].
  { cbn [d_index_table set_sent]. rewrite length_d_index_message by done. unfold SEND_SIZE. lia. }
  cbn beta iota. wp_step. wp_step. apply wp_send_message; [|done|].
  { cbn [v_info set_sent]. unfold v_info_message. rewrite !length_app, length_info_bytes by apply Hv. unfold SEND_SIZE, sizeof_server_info_t. simpl. lia. }
  split; [done|]. unfold set_sent. cbn. by rewrite <- !app_assoc.
Qed.

Definition deliver (msgs : list (list Z)) : M front stop unit := for_each (fun m => on_switch_message (Some m)) msgs.

(** The front end after a complete greeting. *)
Definition greeted (c : rule_controller_t) s : rule_controller_t :=
  install_v_info (foldl install_server (foldl install_rule c (rules s)) (d_index_table s)) (v_info s).

Lemma wp_deliver_greeting s f : greetable s -> (length (rules s) <= 255)%nat -> length (front_buffer f) = ETH_FRAME_LEN ->
  wp (deliver [rule_message (rules s); d_index_message (d_index_table s); v_info_message (v_info s)])
    (fun r f' => r = Ret tt /\ front_rules f' = greeted (front_rules f) s) f.
Proof.
  intros (Hr & Hd & Hv & Lr & Ld) L255 Hb. unfold deliver. cbn [for_each].
  assert (forall m : list Z, (length m <= SEND_SIZE)%nat -> (length (m ++ []) <= ETH_FRAME_LEN)%nat) as Hle
    by (intros; rewrite app_nil_r; unfold SEND_SIZE, ETH_FRAME_LEN in *; lia).
  wp_step. rewrite <- (app_nil_r (rule_message _)). eapply wp_mono.
  { apply (wp_on_switch_message _ _ (foldl install_rule (front_rules f) (rules s))); [|done|by apply Hle|done].
    intros. by apply wp_dispatch_rules. }
  intros r f1 (-> & E1 & L1). cbn beta iota. wp_step. rewrite <- (app_nil_r (d_index_message _)). eapply wp_mono.
  { apply (wp_on_switch_message _ _ (foldl install_server (front_rules f1) (d_index_table s))); [|done|apply Hle|done].
    - intros. apply wp_dispatch_d_index; [done|lia].
    - rewrite length_d_index_message by done. unfold SEND_SIZE. lia. }
  intros r f2 (-> & E2 & L2). cbn beta iota. wp_step. rewrite <- (app_nil_r (v_info_message _)). eapply wp_mono.
  { apply (wp_on_switch_message _ _ (install_v_info (front_rules f2) (v_info s))); [|done|apply Hle|done].
    - intros. by apply wp_dispatch_v_info.
    - unfold v_info_message. rewrite !length_app, length_info_bytes by apply Hv. unfold SEND_SIZE, sizeof_server_info_t. simpl. lia. }
  intros r f3 (-> & E3 & L3). cbn beta iota. wp_step. split; [done|]. unfold greeted. by rewrite E3, E2, E1.
Qed.

(** C27: What the switch controller sends to a front end that connects, delivered as
    the three messages it is sent as, is understood: the front end ends with the
    controller's rules, servers and virtual server, the later of two with one key
    counting. *)
Theorem greeting_installs fd n1 n2 n3 s f :
  greetable s -> (length (rules s) <= 255)%nat -> fd <> -1 -> 0 <= n1 -> 0 <= n2 -> 0 <= n3 ->
  length (front_buffer f) = ETH_FRAME_LEN ->
  exists msgs s' f', on_accept fd 0 0 n1 n2 n3 s = (Ret tt, s') /\ sent s' = sent s ++ msgs /\ length msgs = 3%nat /\
    deliver msgs f = (Ret tt, f') /\ front_rules f' = greeted (front_rules f) s.
Proof.
  intros Hg L Hfd H1 H2 H3 Hb.
  destruct (wp_run _ _ _ (wp_on_accept fd n1 n2 n3 s Hg Hfd H1 H2 H3)) as (r & s' & E & -> & Es).
  destruct (wp_run _ _ _ (wp_deliver_greeting s f Hg L Hb)) as (r' & f' & E' & -> & Ef).
  eexists _, s', f'. split; [exact E|]. rewrite Es. split; [reflexivity|]. done.
Qed.

(** The front end reads one message per delivery: when the first two messages of
    the greeting arrive together - the controller sends them back to back - the
    rules are installed and the servers are not. *)
Theorem coalesced_greeting_loses_servers s f :
  greetable s -> (length (rules s) <= 255)%nat ->
  (length (rule_message (rules s) ++ d_index_message (d_index_table s)) <= ETH_FRAME_LEN)%nat ->
  length (front_buffer f) = ETH_FRAME_LEN ->
  exists f', deliver [rule_message (rules s) ++ d_index_message (d_index_table s)] f = (Ret tt, f') /\
    rule_map (front_rules f') = rule_map (foldl install_rule (front_rules f) (rules s)) /\
    d_index_map (front_rules f') = d_index_map (front_rules f).
Proof.
  intros (Hr & _) L255 Hl Hb. unfold deliver. cbn [for_each].
  assert (wp (on_switch_message (Some (rule_message (rules s) ++ d_index_message (d_index_table s))))
    (fun o f' => o = Ret tt /\ front_rules f' = foldl install_rule (front_rules f) (rules s) /\ length (front_buffer f') = ETH_FRAME_LEN) f) as Hw.
  { apply wp_on_switch_message; [|done|done|done]. intros. by apply wp_dispatch_rules. }
  destruct (wp_run _ _ _ Hw) as (r & f' & E & -> & E1 & _). exists f'. split; [by rewrite bind_run, E|]. rewrite E1. split; [done|].
  clear. revert f. intros f. generalize (front_rules f) as c. induction (rules s) as [|r rs IH]; intros c; [done|]. cbn [foldl]. by rewrite IH.
Qed.

(** C32: The configuration may have up to 256 servers, but with more than 60 the
    controller writes past its 1024-byte send buffer when a front end connects. *)
Theorem many_servers_overflow fd n1 n2 n3 s :
  Forall server_ok (d_index_table s) -> (60 < length (d_index_table s))%nat ->
  (length (rule_message (rules s)) <= SEND_SIZE)%nat -> fd <> -1 -> 0 <= n1 ->
  exists s', on_accept fd 0 0 n1 n2 n3 s = (Err Crash, s').
Proof.
  intros Hd L Lr Hfd H1.
  assert (wp (on_accept fd 0 0 n1 n2 n3) (fun r _ => r = Err Crash) s) as Hw.
  { unfold on_accept. rewrite (proj2 (Z.eqb_neq _ _)) by done. change (0 <? 0) with false. change (0 =? -1) with false. cbn iota.
    wp_step. wp_step. wp_step. apply wp_send_message; [done|done|]. cbn beta iota. wp_step. wp_step. wp_step.
    unfold send_message. rewrite decide_False; [by apply wp_fail|]. cbn [d_index_table set_sent].
    rewrite length_d_index_message by done. unfold SEND_SIZE. lia. }
  destruct (wp_run _ _ _ Hw) as (r & s' & E & ->). by exists s'.
Qed.
End greeting_end.

(** ** Entry messages *)

Section entries_end.
Context {D : Type} `{BfRuntime D} `{BfSchema} `{!BfRuntimeLaws D}.
Context (pad : Z).
Implicit Types s : proc D.
Abbreviation rts s := (abs (driver (cl s))).
Abbreviation flows s := (table_of (rts s) OFT).

(** Every message received in a trip of its own around the controller's loop. *)
Definition receive (msgs : list (list Z)) : M (proc D) stop unit :=
  for_each on_events (map (fun m => [Recv (Some m)]) msgs).

(** No message is longer than the buffer, or ends where the buffer still holds,
    from an earlier and longer message, a byte 3. *)
Fixpoint clean (buf : list Z) (msgs : list (list Z)) : Prop :=
  match msgs with
  | [] => True
  | m :: msgs => (length m < RECV_SIZE)%nat /\ buf !! length m <> Some 3 /\ clean (splice buf 0 m) msgs
  end.

(** One of these trips. *)
Lemma wp_trip m msgs (Q : outcome stop unit -> proc D -> Prop) s :
  wp (on_recv (Some m)) (fun r s' => r = Ret tt /\ wp (receive msgs) Q s') (set_entry_index 0 s) ->
  wp (receive (m :: msgs)) Q s.
Proof.
  intros Hw. unfold receive. cbn [map for_each]. apply wp_bind. unfold on_events. wp_step. apply wp_modify. cbn beta iota.
  cbn [for_each on_event]. wp_step. eapply wp_mono; [exact Hw|]. intros r s' [-> Hr]. cbn beta iota. by apply wp_ret.
Qed.

Lemma wp_receive batches s : reliable D -> ctl_ok s -> in_batch (rts s) = false ->
  Forall batch_wire batches -> Forall batch_ok batches -> clean (recv_buffer s) (frames pad batches) ->
  wp (receive (frames pad batches)) (fun r s' => r = Ret tt /\ ctl_ok s' /\
    frame OFT (rts s) (rts s') /\ flows s' = foldl apply_batch (flows s) batches) s.
Proof.
  intros Rel. revert s. induction batches as [|b batches IH]; intros s Hok Hb Hw Ho Hc; cbn [frames map].
  { apply wp_ret. split_and!; auto using frame_refl; apply Hok. }
  apply Forall_cons in Hw as [Hwb Hw]. apply Forall_cons in Ho as [[Ha Hd] Ho]. cbn [frames map clean] in Hc.
  set (m := EntryController.frame pad b.1 b.2) in *. destruct Hc as (Hl & Hs & Hc).
  assert (concat (frames pad [b]) = m) as Em by (unfold frames; cbn [map concat]; apply app_nil_r).
  apply wp_trip. rewrite <- Em. eapply wp_mono.
  { apply (wp_on_recv pad [b]); rewrite ?Em; try done.
    - by constructor.
    - cbn [entry_index set_entry_index sum_list_with]. unfold batch_size. lia. }
  intros r s1 (-> & Hok1 & Hf1 & F1 & _ & Hb1). split; [done|]. rewrite Em in Hb1.
  eapply wp_mono; [apply IH; [done | | done | done |]|].
  - destruct F1 as (_ & _ & _ & _ & ->). exact Hb.
  - rewrite Hb1. exact Hc.
  - intros r s2 (-> & Hok2 & F2 & Hf2). split; [done|]. split; [done|]. split; [by eapply frame_trans|].
    rewrite Hf2, Hf1. done.
Qed.
End entries_end.

(** Values that fit the fields of the structures. *)
Definition op_ok (op : ec_op) : Prop :=
  match op with EnqAdd p => pair_ok p | EnqDel k => key_ok k | Tick => True end.

Lemma enqueued_ok ops : Forall op_ok ops -> Forall pair_ok (enq_adds ops) /\ Forall key_ok (enq_dels ops).
Proof.
  induction 1 as [|op ops Hop _ [IH1 IH2]]; [split; constructor|].
  destruct op; cbn [enq_adds enq_dels omap]; split; try constructor; auto.
Qed.

Lemma batches_wire batches adds dels pa pd :
  concat (map fst batches) ++ pa ≡ₚ adds -> concat (map snd batches) ++ pd ≡ₚ dels ->
  Forall pair_ok adds -> Forall key_ok dels -> Forall batch_ok batches -> Forall batch_wire batches.
Proof.
  intros Ea Ed Ha Hd Hb. rewrite <- Ea in Ha. rewrite <- Ed in Hd.
  apply Forall_app in Ha as [Ha _]. apply Forall_app in Hd as [Hd _]. clear Ea Ed.
  induction Hb as [|b bs [L1 L2] _ IH]; [constructor|]. cbn [map concat] in Ha, Hd.
  apply Forall_app in Ha as [Ha1 Ha]. apply Forall_app in Hd as [Hd1 Hd].
  constructor; [|by apply IH]. split_and!; try done; lia.
Qed.

Section end_to_end.
Context {QA QD D : Type} `{BulkQueue QA my_pair_t} `{BulkQueue QD my_key_t}.
Context `{!BulkQueueLaws QA my_pair_t} `{!BulkQueueLaws QD my_key_t}.
Context `{BfRuntime D} `{BfSchema} `{!BfRuntimeLaws D}.

(** C9: From the packet processors' queues to the switch's table.  Whatever the
    processors enqueue and whenever the timer fires, the messages the front end
    sends carry the entries enqueued so far, but for the pending ones; and a
    controller that receives these messages one at a time, none of them longer
    than its buffer or ending at a leftover byte 3, makes the table of offloaded
    connections the one obtained by applying the batches in order. *)
Theorem offload_end_to_end pad ops pairs keys (aq : QA) (dq : QD) buf (s : proc D) :
  length pairs = 80%nat -> length keys = 80%nat -> queued aq = [] -> queued dq = [] ->
  length buf = ETH_FRAME_LEN -> Forall op_ok ops ->
  reliable D -> ctl_ok s -> in_batch (abs (driver (cl s))) = false ->
  exists batches buf' fs,
    ec_run pad ops ([], buf) (init_entry_controller pairs keys aq dq) = (Ret (frames pad batches, buf'), fs) /\
    concat (map fst batches) ++ pending_adds fs ≡ₚ enq_adds ops /\
    concat (map snd batches) ++ pending_dels fs ≡ₚ enq_dels ops /\
    (clean (recv_buffer s) (frames pad batches) ->
     exists s', receive (frames pad batches) s = (Ret tt, s') /\
       table_of (abs (driver (cl s'))) OFT = foldl apply_batch (table_of (abs (driver (cl s))) OFT) batches).
Proof.
  intros Hp Hk Ha Hd Hb Hops Rel Hok Hin.
  destruct (wp_run _ _ _ (wp_ec_run pad ops [] buf _ (ec_inv_init pairs keys aq dq Hp Hk)
    ltac:(rewrite Hb; unfold ETH_FRAME_LEN; lia))) as (r & fs & E & _ & batches & buf' & -> & _ & Hbok & Pa & Pd).
  unfold pending_adds at 1, init_entry_controller at 1 in Pa. unfold pending_dels at 1, init_entry_controller at 1 in Pd.
  cbn in Pa, Pd. rewrite Ha, app_nil_r in Pa. rewrite Hd, app_nil_r in Pd.
  exists batches, buf', fs. split_and!; try done. intros Hc.
  destruct (enqueued_ok ops Hops) as [Oa Od].
  assert (Forall batch_wire batches) as Hw by (by eapply batches_wire).
  destruct (wp_run _ _ _ (wp_receive pad batches s Rel Hok Hin Hw Hbok Hc)) as (r & s' & E' & -> & _ & _ & Hf). eauto.
Qed.

(** Removals come last. *)
Lemma removals_win (t : oft) adds dels k : k ∈ dels -> apply_batch t (adds, dels) !! flow_key k = None.
Proof.
  intros Hk. unfold apply_batch. cbn [fst snd]. generalize (foldl add_flow t adds) as t'. clear t.
  assert (forall l (t : oft) k, t !! flow_key k = None -> foldl del_flow t l !! flow_key k = None) as Hkeep.
  { induction l as [|x l IH]; intros t k' E; [done|]. cbn [foldl]. apply IH. unfold del_flow.
    destruct (decide (flow_key x = flow_key k')) as [->|]; [apply lookup_delete_eq | by rewrite lookup_delete_ne]. }
  induction dels as [|x dels IH]; intros t; [set_solver|]. cbn [foldl]. apply elem_of_cons in Hk as [->|Hk]; [|by apply IH].
  apply Hkeep, lookup_delete_eq.
Qed.

(** C31: A connection is taken back, and before the next tick another one of the same
    client and port is offloaded.  In the order in which they were put in, the two
    entries give a table with the new connection.  But the front end sends both in
    one message, additions first, and the controller that receives it ends with a
    table without the connection: it is lost. *)
Theorem reused_flow_is_lost pad p k (fs : entry_controller_t QA QD) sent buf (s : proc D) :
  ec_inv fs -> pending_adds fs = [] -> pending_dels fs = [] -> (1123 <= length buf)%nat ->
  pair_ok p -> key_ok k -> flow_key (pair_key p) = flow_key k ->
  reliable D -> ctl_ok s -> in_batch (abs (driver (cl s))) = false -> recv_buffer s !! 31%nat <> Some 3 ->
  add_flow (del_flow (table_of (abs (driver (cl s))) OFT) k) p !! flow_key k = Some (flow_data (pair_data p)) /\
  exists m buf' fs',
    ec_run pad [EnqDel k; EnqAdd p; Tick] (sent, buf) fs = (Ret (sent ++ [m], buf'), fs') /\
    pending_adds fs' = [] /\ pending_dels fs' = [] /\
    exists s', receive [m] s = (Ret tt, s') /\ table_of (abs (driver (cl s'))) OFT !! flow_key k = None.
Proof.
  intros Hi Pa Pd Lb Hp Hk Ek Rel Hok Hb Hs. split.
  { assert (forall t : oft, del_flow t k !! flow_key k = None) as Hdel by (intros; apply lookup_delete_eq).
    unfold add_flow. rewrite Ek, Hdel. apply lookup_insert_eq. }
  assert (wp (ec_run pad [EnqDel k; EnqAdd p; Tick] (sent, buf)) (fun r s' => ec_inv s' /\ pending_adds s' = [] /\
    pending_dels s' = [] /\ exists buf', r = Ret (sent ++ [EntryController.frame pad [p] [k]], buf')) fs) as Hw.
  { change [EnqDel k; EnqAdd p; Tick] with ([EnqDel k; EnqAdd p] ++ [Tick]). apply wp_ec_run_app.
    apply wp_bind. cbn [ec_run ec_step]. do 4 wp_step. apply wp_modify. cbn beta iota. wp_step.
    cbn [ec_step]. do 4 wp_step. apply wp_modify. cbn beta iota. do 2 wp_step.
    unfold pending_adds, pending_dels in Pa, Pd. apply app_eq_nil in Pa as [Pa1 Pa2], Pd as [Pd1 Pd2].
    apply wp_one_tick; [done | done | |]; unfold pending_adds, pending_dels; cbn;
      [by rewrite Pa1, enqueue_queued, Pa2 | by rewrite Pd1, enqueue_queued, Pd2]. }
  destruct (wp_run _ _ _ Hw) as (r & fs' & E & _ & Na & Nd & buf' & ->).
  exists (EntryController.frame pad [p] [k]), buf', fs'. split_and!; try done.
  assert (batch_wire ([p], [k])) as Hbw by (split_and!; cbn; try (by constructor); lia).
  assert (wp (receive [EntryController.frame pad [p] [k]]) (fun r s' => r = Ret tt /\
    table_of (abs (driver (cl s'))) OFT = apply_batch (table_of (abs (driver (cl s))) OFT) ([p], [k])) s) as Hr.
  { apply wp_trip. change (EntryController.frame pad [p] [k]) with (concat (frames pad [([p], [k])])).
    assert (length (concat (frames pad [([p], [k])])) = 31%nat) as L by (cbn [frames map concat fst snd]; by rewrite app_nil_r, length_frame).
    eapply wp_mono; [apply wp_on_recv; try done; try (rewrite L; done); [by constructor | cbn; lia | rewrite L; by apply Nat.ltb_lt]|].
    intros r s1 (-> & _ & Hf & _). split; [done|]. by apply wp_ret. }
  destruct (wp_run _ _ _ Hr) as (r & s' & Es & -> & Ht). exists s'. split; [done|]. rewrite Ht. apply removals_win. by left.
Qed.
End end_to_end.

(** ** Messages that are read again *)

Section stale.
Context {D : Type} `{BfRuntime D} `{BfSchema} `{!BfRuntimeLaws D}.
Implicit Types s : proc D.
Abbreviation flows s := (table_of (abs (driver (cl s))) OFT).

(** C30: The loop looks at the byte behind what was received, where the buffer still
    holds an earlier reception.  Several messages come together, and then others,
    as long as those in front of some message [b] of the first: [b] is there still,
    and is applied again after the new ones.  What [b] took back is taken back once
    more, and what it added comes back, though it was taken back in between. *)
Theorem stale_message_applied_again pad before b after new s :
  let old := concat (frames pad (before ++ b :: after)) in
  ctl_ok s -> in_batch (abs (driver (cl s))) = false -> reliable D ->
  Forall batch_wire (before ++ b :: after) -> Forall batch_wire new -> new <> [] ->
  length (concat (frames pad new)) = length (concat (frames pad before)) ->
  (sum_list_with batch_size (before ++ b :: after) <= 256)%nat -> (sum_list_with batch_size (new ++ [b]) <= 256)%nat ->
  (length old < RECV_SIZE)%nat -> recv_buffer s !! length old <> Some 3 ->
  exists s', receive [old; concat (frames pad new)] s = (Ret tt, s') /\
    flows s' = foldl apply_batch (flows s) ((before ++ b :: after) ++ new ++ [b]).
Proof.
  intros old Hok Hb Rel Hw Hwn Hne Hlen Hn1 Hn2 Hl Hs.
  assert (old = concat (frames pad before) ++ EntryController.frame pad b.1 b.2 ++ concat (frames pad after)) as Eold.
  { unfold old, frames. rewrite map_app, concat_app. done. }
  assert (wp (receive [old; concat (frames pad new)]) (fun r s' => r = Ret tt /\
    flows s' = foldl apply_batch (flows s) ((before ++ b :: after) ++ new ++ [b])) s) as Hwp.
  { apply wp_trip. eapply wp_mono; [apply (wp_on_recv pad (before ++ b :: after)); try done; by destruct before|].
    intros r s1 (-> & Hok1 & Hf1 & F1 & _ & Hb1). split; [done|]. fold old in Hb1. apply wp_trip. eapply wp_mono.
    { apply (wp_on_recv_stale pad new pad b (concat (frames pad after) ++ drop (length old) (recv_buffer s))); try done.
      - destruct F1 as (_ & _ & _ & _ & E). exact (eq_trans E Hb).
      - apply Forall_app in Hw as [_ [Hwb _]%Forall_cons]. by constructor.
      - rewrite Hlen. rewrite Eold, length_app in Hl. lia.
      - cbn [recv_buffer set_entry_index] in *. rewrite Hb1, Hlen. unfold splice. rewrite take_0, Nat.add_0_l. cbn [app].
        rewrite Eold at 1. rewrite <- !app_assoc. apply drop_app_length. }
    intros r s2 (-> & _ & Hf2 & _). split; [done|]. apply wp_ret. split; [done|].
    rewrite Hf2. change (flows (set_entry_index 0 s1)) with (flows s1). rewrite Hf1. by rewrite <- foldl_app. }
  destruct (wp_run _ _ _ Hwp) as (r & s' & E & -> & Hf). by exists s'.
Qed.
End stale.

(** ** A message longer than the receive buffer *)

Section full_batch.
Context {D : Type} `{BfRuntime D} `{BfSchema} `{!BfRuntimeLaws D}.
Implicit Types s : proc D.

Lemma entries_add (f : nat -> M (proc D) stop unit) size now n m s :
  entries f size now (n + m) s = (entries f size now n ≫= fun _ => entries f size (now + size * n) m) s.
Proof.
  revert now s. induction n as [|n IH]; intros now s; cbn [Nat.add entries].
  - by rewrite bind_run, ret_run, Nat.mul_0_r, Nat.add_0_r.
  - rewrite M_bind_assoc, !bind_run. destruct (f now s) as [[[]|e] s']; [|done]. rewrite IH, !bind_run.
    replace (now + size * S n)%nat with (now + size + size * n)%nat by lia. done.
Qed.

Lemma wp_entries_add (f : nat -> M (proc D) stop unit) size now n m (Q : outcome stop unit -> proc D -> Prop) s :
  wp (entries f size now n ≫= fun _ => entries f size (now + size * n) m) Q s -> wp (entries f size now (n + m)) Q s.
Proof. unfold wp. by rewrite entries_add. Qed.

(** The loop on the first 1024 bytes of such a message. *)
Lemma wp_parse_full fuel m s : ctl_ok s -> (entry_index s + 80 <= 256)%nat ->
  recv_buffer s = 3 :: 40 :: 40 :: m -> wp (parse (S fuel) 0 RECV_SIZE) (fun r _ => r = Err Crash) s.
Proof.
  intros Hok Hn Hb. cbn [parse]. rewrite decide_True by apply Nat.le_0_l.
  wp_step. eapply wp_byte_at; [rewrite Hb; reflexivity|]. cbn beta iota. change (3 =? op_code OFFLOAD_ENTRIES) with true. cbn iota.
  wp_step. eapply wp_byte_at; [rewrite Hb; reflexivity|]. wp_step. eapply wp_byte_at; [rewrite Hb; reflexivity|].
  cbv zeta beta iota. change (Z.to_nat (u8 40)) with 40%nat.
  wp_step. eapply wp_mono.
  { apply (wp_entries add_entry add_flow read_pair sizeof_my_pair_t 14);
      [intros; by apply wp_add_entry | done | lia | by apply Nat.leb_le | by apply Nat.leb_le]. }
  intros r s2 [-> A]. destruct (advanced_ok _ _ _ _ Hok A) as (Hok2 & _ & Hn2). cbn beta iota.
  wp_step. apply (wp_entries_add del_entry _ _ 31 9). apply wp_bind. eapply wp_mono.
  { apply (wp_entries del_entry del_flow read_key sizeof_my_key_t 10);
      [intros; by apply wp_del_entry | done | lia | by apply Nat.leb_le | by apply Nat.leb_le]. }
  intros r s3 [-> A3]. destruct (advanced_ok _ _ _ _ Hok2 A3) as (Hok3 & _ & _). cbn beta iota.
  cbn [entries]. wp_step. unfold del_entry. wp_step. wp_step. rewrite decide_True; [by apply wp_fail|].
  destruct Hok3 as [-> _]. by apply Nat.ltb_lt.
Qed.

(** C29: A full message - 40 additions and 40 removals - is 1123 bytes long, the
    controller receives the first 1024 of them, and parsing these it reads a key
    beyond the end of its buffer. *)
Theorem full_batch_overruns pad adds dels s :
  length adds = 40%nat -> length dels = 40%nat -> (entry_index s + 80 <= 256)%nat ->
  reliable D -> ctl_ok s -> in_batch (abs (driver (cl s))) = false ->
  exists s', on_recv (Some (EntryController.frame pad adds dels)) s = (Err Crash, s').
Proof.
  intros La Ld Hn Rel [Hlen Hi] Hb.
  assert (wp (on_recv (Some (EntryController.frame pad adds dels))) (fun r _ => r = Err Crash) s) as Hw;
    [|destruct (wp_run _ _ _ Hw) as (r & s' & E & ->); by exists s'].
  pose proof (length_frame pad adds dels) as Lf. rewrite La, Ld in Lf. unfold EntryController.frame in *. cbn [op_code app] in *.
  rewrite La, Ld in *. change (Z.of_nat 40) with 40 in *. unfold on_recv. cbv zeta.
  set (m := concat (map (pair_bytes pad) adds) ++ concat (map (key_bytes pad) dels)) in *.
  set (msg := take RECV_SIZE (3 :: 40 :: 40 :: m)).
  assert (length msg = RECV_SIZE) as Lt by (unfold msg; rewrite length_take, Lf; unfold RECV_SIZE; lia).
  assert (exists m', msg = 3 :: 40 :: 40 :: m') as [m' Em] by (by exists (take (RECV_SIZE - 3) m)).
  clearbody msg. wp_step. apply wp_modify. cbn beta iota.
  wp_step. apply wp_within, wp_var. cbn beta iota. wp_step. apply wp_within.
  apply wp_call_; cbn [driver vars cl set_cl set_recv_buffer].
  2: { intros d' e E R. exfalso. apply (R Rel tt (set_batch true (abs (driver (cl s))))). done. }
  intros [] d1 [_ E1]. cbn beta iota. set (s1 := set_cl _ _).
  assert (recv_buffer s1 = msg) as Hb1.
  { change (recv_buffer s1) with (splice (recv_buffer s) 0 msg). unfold splice.
    rewrite take_0, app_nil_l, Lt, drop_ge by lia. apply app_nil_r. }
  rewrite Lt. apply wp_bind. eapply wp_mono; [apply (wp_parse_full (S RECV_SIZE) m')|].
  - split; [by rewrite Hb1 | change (oft_ready (offload_connection_table_info (vars (cl s))) (abs d1)); rewrite E1; exact Hi].
  - exact Hn.
  - by rewrite Hb1.
  - by intros r s2 ->.
Qed.
End full_batch.

(** ** A switch and a front end in memory *)

#[local] Existing Instances Sim.schema Sim.runtime Sim.runtime_laws.

Definition sample_rules : list rule_t := [Rule [47; 97] 1 1; Rule [47; 98] 2 0].
Definition sample_info (n : Z) : server_info_t := ServerInfo [12; 66; 161; 74; 255; n] (167772160 + n) 80.
Definition sample_servers : list d_index_t := [DIndex 1 (sample_info 1); DIndex 2 (sample_info 2)].
(** The controller after [setup_tables] on the runtime in memory. *)
Definition sample_proc : proc rt :=
  Proc (snd (setup_tables (Client globals_0 Sim.empty))) sample_rules sample_servers (sample_info 9)
    (replicate RECV_SIZE 0) 0 [].
Definition sample_front : front := Front (replicate ETH_FRAME_LEN 0) new_rule_controller.

Lemma sample_proc_setup : ctl_ok sample_proc /\ in_batch (abs (driver (cl sample_proc))) = false /\
  table_of (abs (driver (cl sample_proc))) OFT = ∅.
Proof.
  assert (exists s', setup_tables (Client globals_0 Sim.empty) = (Ret tt, s')) as [s' E].
  { eexists. apply run_eq. vm_compute. reflexivity. }
  pose proof (wp_setup_tables (Client globals_0 Sim.empty)) as Hw. unfold wp in Hw. unfold sample_proc. rewrite E in *.
  cbn [fst snd] in Hw. destruct Hw as ((T & _ & Q) & A & _). cbn [cl]. split; [|split; [exact Q | exact (T OFT)]].
  split; [reflexivity|]. apply A.
Qed.

Lemma sample_ready : ctl_ok sample_proc /\ in_batch (abs (driver (cl sample_proc))) = false.
Proof. split; apply sample_proc_setup. Qed.

(** Two flows; the port of the second is, byte by byte, 3 and 1. *)
Definition flow_1 : my_pair_t := MyPair (MyKey 0 167772161 4242) (MyData 1 5).
Definition flow_2 : my_pair_t := MyPair (MyKey 0 167772162 259) (MyData 1 5).

Lemma sample_info_ok n : 0 <= n < 256 -> info_ok (sample_info n).
Proof. intros. unfold info_ok, sample_info, is_byte. cbn. split_and!; try done; try modlia. repeat constructor; unfold is_byte; lia. Qed.

Lemma sample_greetable : greetable sample_proc.
Proof.
  unfold greetable. cbn [rules d_index_table v_info sample_proc]. split_and!.
  - repeat constructor; cbn; modlia.
  - repeat constructor; cbn; try modlia; unfold is_byte; lia.
  - apply sample_info_ok. lia.
  - by apply Nat.leb_le.
  - by apply Nat.leb_le.
Qed.

Lemma greeting_installs_witness :
  exists msgs s' f', on_accept 5 0 0 11 37 20 sample_proc = (Ret tt, s') /\ sent s' = sent sample_proc ++ msgs /\
    length msgs = 3%nat /\ deliver msgs sample_front = (Ret tt, f') /\
    front_rules f' = greeted (front_rules sample_front) sample_proc.
Proof.
  apply (greeting_installs 5 11 37 20 sample_proc sample_front);
    [exact sample_greetable | by apply Nat.leb_le | lia | lia | lia | lia | reflexivity].
Defined.

Lemma coalesced_greeting_loses_servers_witness :
  exists f', deliver [rule_message (rules sample_proc) ++ d_index_message (d_index_table sample_proc)] sample_front = (Ret tt, f') /\
    rule_map (front_rules f') = rule_map (foldl install_rule (front_rules sample_front) (rules sample_proc)) /\
    d_index_map (front_rules f') = d_index_map (front_rules sample_front).
Proof.
  apply (coalesced_greeting_loses_servers sample_proc sample_front);
    [exact sample_greetable | by apply Nat.leb_le | by apply Nat.leb_le | reflexivity].
Defined.

(** A configuration with 61 servers. *)
Definition many_servers : proc rt :=
  set_d_index_table (map (fun i => DIndex (Z.of_nat i) (sample_info (Z.of_nat i))) (seq 1 61)) sample_proc.

Lemma many_servers_overflow_witness : exists s', on_accept 5 0 0 11 37 20 many_servers = (Err Crash, s').
Proof.
  apply (many_servers_overflow 5 11 37 20 many_servers); [|by apply Nat.ltb_lt | by apply Nat.leb_le | lia | lia].
  change (Forall server_ok (map (fun i => DIndex (Z.of_nat i) (sample_info (Z.of_nat i))) (seq 1 61))).
  apply Forall_map, Forall_seq. intros i Hi. split; [cbn; modlia | apply sample_info_ok; lia].
Defined.

Definition full_adds : list my_pair_t := replicate 40 flow_1.
Definition full_dels : list my_key_t := replicate 40 (pair_key flow_1).
Lemma full_batch_overruns_witness : exists s', on_recv (Some (EntryController.frame 0 full_adds full_dels)) sample_proc = (Err Crash, s').
Proof.
  apply (full_batch_overruns 0 full_adds full_dels sample_proc);
    [reflexivity | reflexivity | by apply Nat.leb_le | exact Sim.runtime_reliable | apply sample_ready | apply sample_ready].
Defined.

(** Three flows offloaded, one of them taken back two ticks later. *)
Definition sample_ops : list ec_op :=
  [EnqAdd flow_1; Tick; EnqAdd flow_2; EnqAdd (sample_pair 9); Tick; Tick; EnqDel (pair_key flow_2); Tick].

Lemma offload_end_to_end_witness :
  exists batches buf' fs,
    ec_run 0 sample_ops ([], replicate ETH_FRAME_LEN 0)
      (init_entry_controller (QA := list my_pair_t) (QD := list my_key_t) blank_pairs blank_keys [] []) = (Ret (frames 0 batches, buf'), fs) /\
    concat (map fst batches) ++ pending_adds fs ≡ₚ enq_adds sample_ops /\
    concat (map snd batches) ++ pending_dels fs ≡ₚ enq_dels sample_ops /\
    (clean (recv_buffer sample_proc) (frames 0 batches) ->
     exists s', receive (frames 0 batches) sample_proc = (Ret tt, s') /\
       table_of (abs (driver (cl s'))) OFT = foldl apply_batch (table_of (abs (driver (cl sample_proc))) OFT) batches).
Proof.
  apply (offload_end_to_end 0 sample_ops blank_pairs blank_keys [] [] (replicate ETH_FRAME_LEN 0) sample_proc);
    [reflexivity | reflexivity | reflexivity | reflexivity | reflexivity | | exact Sim.runtime_reliable | apply sample_ready | apply sample_ready].
  repeat constructor; cbn; modlia.
Defined.

(** ** One reception *)

Section reception.
Context {D : Type} `{BfRuntime D} `{BfSchema} `{!BfRuntimeLaws D}.
Implicit Types s : proc D.

(** C17: Any number of entry messages that arrive in one reception, shorter together
    than the buffer, are applied in order, each with its additions before its
    removals; nothing else in the switch changes, every entry takes one of the 256
    slots, and the batch is closed again. *)
Theorem entries_applied pad batches s :
  let data := concat (frames pad batches) in
  ctl_ok s -> in_batch (abs (driver (cl s))) = false -> reliable D -> batches <> [] -> Forall batch_wire batches ->
  (entry_index s + sum_list_with batch_size batches <= 256)%nat -> (length data < RECV_SIZE)%nat ->
  recv_buffer s !! length data <> Some 3 ->
  exists s', on_recv (Some data) s = (Ret tt, s') /\ ctl_ok s' /\
    table_of (abs (driver (cl s'))) OFT = foldl apply_batch (table_of (abs (driver (cl s))) OFT) batches /\
    frame OFT (abs (driver (cl s))) (abs (driver (cl s'))) /\
    entry_index s' = (entry_index s + sum_list_with batch_size batches)%nat.
Proof.
  intros data Hok Hb Rel Hne Hw Hn Hl Hs.
  destruct (wp_run _ _ _ (wp_on_recv pad batches s Hok Hb Rel Hne Hw Hn Hl Hs)) as (r & s' & E & -> & A1 & A2 & A3 & A4 & _).
  by exists s'.
Qed.

(** C28: Whatever bytes arrive, the parsing loop comes to an end. *)
Theorem reception_ends data s : fst (on_recv data s) <> Err Diverge.
Proof. apply ends_on_recv. Qed.
End reception.

Lemma entries_applied_witness :
  let data := concat (frames 0 [([flow_1; flow_2], []); ([], [pair_key flow_1])]) in
  exists s', on_recv (Some data) sample_proc = (Ret tt, s') /\ ctl_ok s' /\
    table_of (abs (driver (cl s'))) OFT =
      foldl apply_batch (table_of (abs (driver (cl sample_proc))) OFT) [([flow_1; flow_2], []); ([], [pair_key flow_1])] /\
    frame OFT (abs (driver (cl sample_proc))) (abs (driver (cl s'))) /\
    entry_index s' = (entry_index sample_proc + sum_list_with batch_size [([flow_1; flow_2], []); ([], [pair_key flow_1])])%nat.
Proof.
  apply (entries_applied 0 [([flow_1; flow_2], []); ([], [pair_key flow_1])] sample_proc);
    [apply sample_ready | apply sample_ready | exact Sim.runtime_reliable | done | | by apply Nat.leb_le | by apply Nat.ltb_lt | done].
  repeat constructor; cbn; try modlia; lia.
Defined.

(** Random bytes, ending in the middle of a message. *)
Lemma reception_ends_witness : fst (on_recv (Some [3; 1; 0; 9; 9; 9; 3]) sample_proc) <> Err Diverge.
Proof. apply (reception_ends (Some [3; 1; 0; 9; 9; 9; 3]) sample_proc). Defined.

(** The flow of [flow_1] ends, and another connection of its client and port to server
    7 begins. *)
Definition flow_again : my_pair_t := MyPair (pair_key flow_1) (MyData 1 7).

Lemma reused_flow_is_lost_witness :
  exists m buf' fs',
    ec_run 0 [EnqDel (pair_key flow_1); EnqAdd flow_again; Tick] ([], replicate ETH_FRAME_LEN 0)
      (init_entry_controller (QA := list my_pair_t) (QD := list my_key_t) blank_pairs blank_keys [] []) = (Ret ([] ++ [m], buf'), fs') /\
    exists s', receive [m] sample_proc = (Ret tt, s') /\
      table_of (abs (driver (cl s'))) OFT !! flow_key (pair_key flow_1) = None.
Proof.
  destruct (reused_flow_is_lost 0 flow_again (pair_key flow_1) (init_entry_controller (QA := list my_pair_t) (QD := list my_key_t) blank_pairs blank_keys [] [])
    [] (replicate ETH_FRAME_LEN 0) sample_proc) as (_ & m & buf' & fs' & E & _ & _ & Hs).
  - by apply ec_inv_init.
  - reflexivity.
  - reflexivity.
  - by apply Nat.leb_le.
  - unfold pair_ok, key_ok, data_ok. cbn. modlia.
  - unfold key_ok. cbn. modlia.
  - reflexivity.
  - exact Sim.runtime_reliable.
  - apply sample_ready.
  - apply sample_ready.
  - vm_compute. discriminate.
  - exists m, buf', fs'. split; [exact E | exact Hs].
Defined.

(** The flow is added, taken back, and there again. *)
Lemma stale_message_applied_again_witness :
  let first := [([], [pair_key flow_1]); ([flow_2], [])] in
  exists s', receive [concat (frames 0 first); concat (frames 0 [([], [pair_key flow_2])])] sample_proc = (Ret tt, s') /\
    table_of (abs (driver (cl s'))) OFT = {[flow_key (pair_key flow_2) := flow_data (pair_data flow_2)]}.
Proof.
  destruct (stale_message_applied_again 0 [([], [pair_key flow_1])] ([flow_2], []) [] [([], [pair_key flow_2])] sample_proc)
    as (s' & E & Hf).
  - apply sample_ready.
  - apply sample_ready.
  - exact Sim.runtime_reliable.
  - repeat constructor; cbn; try modlia; lia.
  - repeat constructor; cbn; try modlia; lia.
  - done.
  - reflexivity.
  - by apply Nat.leb_le.
  - by apply Nat.leb_le.
  - by apply Nat.ltb_lt.
  - vm_compute. discriminate.
  - exists s'. split; [exact E|]. rewrite Hf. decide_now.
Defined.
