(* ===== verification/Packet.v ===== *)
(** * Packets of the front end

    The stateless half of Frontend/subprojects/pkt_processor: message buffers, the
    functions that build the packets to send, the checksum of a flow's key, and
    the search for the URL in a request. *)
From Stdlib Require Import ZArith Lia.
From stdpp Require Import base list gmap.
From S2P Require Import Prelude Bpf Wire EntryController BfRt RuleController.

(** ** Message buffers

    The fields of [rte_mbuf] that the code uses, and the bytes from its data
    pointer to the end of its data room. *)
Record mbuf := Mbuf {
  room : list Z;
  data_len : Z;
  pkt_len : Z;
  l2_len : Z;
  l3_len : Z;
  l4_len : Z;
  ol_flags : Z
}.

Definition set_room (r : list Z) (m : mbuf) : mbuf :=
  Mbuf r (data_len m) (pkt_len m) (l2_len m) (l3_len m) (l4_len m) (ol_flags m).

(** The bytes of the packet. *)
Definition content (m : mbuf) : list Z := take (Z.to_nat (data_len m)) (room m).

(** What the language leaves undefined. *)
Inductive pkt_fault : Type := OutOfRoom | NullPointer | UseAfterFree | StackOverflow.

Definition off_version_ihl : nat := 14.
Definition off_total_length : nat := 16.
Definition off_hdr_checksum : nat := 24.

Definition RTE_TCP_FIN_FLAG : Z := 0x01.
Definition RTE_TCP_SYN_FLAG : Z := 0x02.
Definition RTE_TCP_RST_FLAG : Z := 0x04.
Definition RTE_TCP_ACK_FLAG : Z := 0x10.

(** Options of a SYN to a server: MSS 1460, SACK permitted, window scale 9. *)
Definition option_char : list Z := [0x02; 0x04; 0x05; 0xB4; 0x01; 0x01; 0x04; 0x02; 0x01; 0x03; 0x03; 0x09].

(** The address every function writes as the sender's. *)
Definition OWN_MAC : list Z := [0x0c; 0x42; 0xa1; 0xd1; 0xd0; 0xc8].

(** [n] bytes at [a] of a buffer that is only read. *)
Definition read_at {S} (m : list Z) (n a : nat) : M S pkt_fault Z :=
  if decide (a + n <= length m)%nat then mret (le_at n m a) else fail OutOfRoom.

(** ** Building a packet *)

Section build.
(** [RTE_MBUF_F_TX_IPV4 | RTE_MBUF_F_TX_IP_CKSUM | RTE_MBUF_F_TX_TCP_CKSUM]: the
    device is to fill in both checksums. *)
Context (TX_CKSUM : Z).
(** The rule controller, which these functions only read. *)
Context (rc : rule_controller_t).

Abbreviation W := (M mbuf pkt_fault).

(** A load and a store through a pointer into [send_buf]. *)
Definition rd (n a : nat) : W Z := b ← gets room; read_at b n a.
Definition wr (a : nat) (bs : list Z) : W unit :=
  b ← gets room;
  if decide (a + length bs <= length b)%nat then modify (set_room (splice b a bs)) else fail OutOfRoom.

(** [memcpy(eth_hdr, src, n)] *)
Definition copy_packet (src : list Z) (n : Z) : W unit :=
  if decide (Z.to_nat n <= length src)%nat then wr 0 (take (Z.to_nat n) src) else fail OutOfRoom.

(** The assignments to [send_buf] that end every function. *)
Definition finish (l4 len : Z) : W unit :=
  modify (fun m => Mbuf (room m) (u16 len) (u16 len) 14 20 l4 (Z.lor (ol_flags m) TX_CKSUM)).

(** [send_buf->l4_len] and [data_len] from the headers. *)
Definition finish_from_headers : W unit :=
  doff ← rd 1 off_doff;
  len ← rd 2 off_total_length;
  finish (Z.shiftr doff 4 * 4) (bswap16 len + 14).

Definition server_of (d : Z) : option server_info_t := d_index_map rc !! d.

(** [server_info->...] without a check. *)
Definition deref_server (d : Z) : W server_info_t :=
  match server_of d with Some info => mret info | None => fail NullPointer end.

Definition forward_inbound_pkt (d_index : Z) (recv_buf : mbuf) : W status_t :=
  _ ← copy_packet (room recv_buf) (data_len recv_buf);
  match server_of d_index with
  | None => mret INTERNAL_ERROR
  | Some server_info =>
      _ ← wr 6 OWN_MAC;
      _ ← wr 0 (si_mac server_info);
      _ ← wr off_daddr (le_bytes 4 (bswap32 (si_ip server_info)));
      _ ← wr off_hdr_checksum (le_bytes 2 0);
      _ ← wr off_dest (le_bytes 2 (bswap16 (si_port server_info)));
      _ ← wr off_check (le_bytes 2 0);
      _ ← finish_from_headers;
      mret OK
  end.

(** [get_virtual_server_info] never returns a null pointer. *)
Definition forward_outbound_pkt (recv_buf : mbuf) : W status_t :=
  _ ← copy_packet (room recv_buf) (data_len recv_buf);
  let server_info := virtual_server_info rc in
  _ ← wr 6 OWN_MAC;
  _ ← wr 0 (si_mac server_info);
  _ ← wr off_saddr (le_bytes 4 (bswap32 (si_ip server_info)));
  _ ← wr off_hdr_checksum (le_bytes 2 0);
  _ ← wr off_source (le_bytes 2 (bswap16 (si_port server_info)));
  _ ← wr off_check (le_bytes 2 0);
  _ ← finish_from_headers;
  mret OK.

(** [version_ihl = 5 + (version_ihl & 0xf0)] *)
Definition reset_ihl : W unit :=
  v ← rd 1 off_version_ihl;
  wr off_version_ihl (le_bytes 1 (5 + Z.land v 0xf0)).

Definition reply_rst_pkt (recv_buf : mbuf) : W status_t :=
  _ ← copy_packet (room recv_buf) 54;
  b ← gets room;
  _ ← wr 0 (slice b 6 6);
  _ ← wr 6 OWN_MAC;
  tmp_ip ← rd 4 off_saddr;
  daddr ← rd 4 off_daddr;
  _ ← wr off_saddr (le_bytes 4 daddr);
  _ ← wr off_daddr (le_bytes 4 tmp_ip);
  _ ← wr off_hdr_checksum (le_bytes 2 0);
  _ ← reset_ihl;
  _ ← wr off_total_length (le_bytes 2 (bswap16 40));
  tmp_port ← rd 2 off_source;
  dst_port ← rd 2 off_dest;
  _ ← wr off_source (le_bytes 2 dst_port);
  _ ← wr off_dest (le_bytes 2 tmp_port);
  sent_seq ← rd 4 off_seq;
  recv_ack ← rd 4 off_ack_seq;
  let seq_num := bswap32 sent_seq in
  let ack_num := bswap32 recv_ack in
  _ ← wr off_ack_seq (le_bytes 4 (bswap32 (u32 (seq_num + data_len recv_buf - l2_len recv_buf - l3_len recv_buf - l4_len recv_buf))));
  _ ← wr off_seq (le_bytes 4 (bswap32 ack_num));
  _ ← wr off_doff (le_bytes 1 (Z.shiftl 5 4));
  _ ← wr off_flags (le_bytes 1 RTE_TCP_RST_FLAG);
  _ ← wr off_check (le_bytes 2 0);
  len ← rd 2 off_total_length;
  _ ← finish 20 (bswap16 len + 14);
  mret OK.

(** The server's address and port are stored as they are, not with [htonl] and
    [htons] as elsewhere. *)
Definition send_rst_pkt (d_index : Z) (recv_buf : mbuf) : W status_t :=
  _ ← copy_packet (room recv_buf) 54;
  server_info ← deref_server d_index;
  _ ← wr 0 (si_mac server_info);
  _ ← wr 6 OWN_MAC;
  _ ← wr off_daddr (le_bytes 4 (si_ip server_info));
  _ ← reset_ihl;
  _ ← wr off_total_length (le_bytes 2 (bswap16 40));
  _ ← wr off_hdr_checksum (le_bytes 2 0);
  _ ← wr off_dest (le_bytes 2 (si_port server_info));
  _ ← wr off_flags (le_bytes 1 RTE_TCP_RST_FLAG);
  _ ← wr off_doff (le_bytes 1 (Z.shiftl 5 4));
  _ ← wr off_check (le_bytes 2 0);
  _ ← finish 20 54;
  mret OK.

Definition send_cached_pkt (d_index : Z) (cached_pkt : list Z) (size : Z) : W status_t :=
  _ ← copy_packet cached_pkt size;
  server_info ← deref_server d_index;
  _ ← wr 0 (si_mac server_info);
  _ ← wr 6 OWN_MAC;
  _ ← wr off_daddr (le_bytes 4 (bswap32 (si_ip server_info)));
  _ ← wr off_hdr_checksum (le_bytes 2 0);
  _ ← wr off_dest (le_bytes 2 (bswap16 (si_port server_info)));
  _ ← wr off_check (le_bytes 2 0);
  _ ← finish_from_headers;
  mret OK.

Definition send_syn_pkt (d_index : Z) (recv_buf : mbuf) : W status_t :=
  _ ← copy_packet (room recv_buf) 66;
  server_info ← deref_server d_index;
  _ ← wr 0 (si_mac server_info);
  _ ← wr off_daddr (le_bytes 4 (bswap32 (si_ip server_info)));
  _ ← reset_ihl;
  _ ← wr off_total_length (le_bytes 2 (bswap16 52));
  _ ← wr off_hdr_checksum (le_bytes 2 0);
  _ ← wr off_dest (le_bytes 2 (bswap16 (si_port server_info)));
  _ ← wr off_flags (le_bytes 1 RTE_TCP_SYN_FLAG);
  _ ← wr off_doff (le_bytes 1 (Z.shiftl 8 4));
  sent_seq ← rd 4 off_seq;
  _ ← wr off_seq (le_bytes 4 (bswap32 (u32 (bswap32 sent_seq - 1))));
  recv_ack ← rd 4 off_ack_seq;
  _ ← wr off_ack_seq (le_bytes 4 (bswap32 (u32 (bswap32 recv_ack - 1))));
  _ ← wr off_check (le_bytes 2 0);
  _ ← wr off_options option_char;
  len ← rd 2 off_total_length;
  _ ← finish 32 (bswap16 len + 14);
  mret OK.
End build.

(** ** The checksum of a key *)

(** Lines 618-628: eight shifts of a byte with the polynomial 0x07. *)
Definition crc8_shift (crc : Z) : Z :=
  if negb (Z.land crc 0x80 =? 0) then u8 (Z.lxor (Z.shiftl crc 1) 0x07) else u8 (Z.shiftl crc 1).
Definition crc8_table : list Z := map (fun i => Nat.iter 8 crc8_shift (Z.of_nat i)) (seq 0 256).

(** [crc8_table[i]]; the index is a byte. *)
Definition crc8_at (i : Z) : Z := nth (Z.to_nat i) crc8_table 0.

Definition calculate_crc8 (ip port : Z) : Z :=
  let crc := 0 in
  let crc := crc8_at (Z.lxor crc (Z.land ip 0xff)) in
  let crc := crc8_at (Z.lxor crc (Z.land (Z.shiftr ip 8) 0xff)) in
  let crc := crc8_at (Z.lxor crc (Z.land (Z.shiftr ip 16) 0xff)) in
  let crc := crc8_at (Z.lxor crc (Z.land (Z.shiftr ip 24) 0xff)) in
  let crc := crc8_at (Z.lxor crc (Z.land port 0xff)) in
  crc8_at (Z.lxor crc (Z.shiftr port 8)).

(** ** The URL of a request *)

(** How many of the first [n] bytes of [mem] come before one that satisfies
    [stop]; a byte that is not there cannot be read. *)
Fixpoint skip_until (stop : Z -> bool) (mem : list Z) (n : nat) : outcome pkt_fault nat :=
  match n with
  | O => Ret O
  | S n =>
      match mem with
      | [] => Err OutOfRoom
      | b :: mem => if stop b then Ret O else
          match skip_until stop mem n with Ret k => Ret (S k) | Err e => Err e end
      end
  end.

Definition is_slash (b : Z) : bool := b =? 47.
Definition ends_url (b : Z) : bool := (b =? 32) || (b =? 13).

(** [parse_payload]: where the URL starts, and [size].  The [-1] that the callers
    look for is overwritten with 0. *)
Definition parse_payload (payload : list Z) (payload_size : nat) : outcome pkt_fault (nat * Z) :=
  match skip_until is_slash payload payload_size with
  | Err e => Err e
  | Ret i =>
      let i := S i in
      match skip_until ends_url (drop i payload) (payload_size - i) with
      | Err e => Err e
      | Ret n => Ret (i, Z.of_nat n)
      end
  end.

(** Copy the URL to [url_copy], 20 bytes, and terminate it: the C string found there. *)
Definition copy_url (payload : list Z) (i : nat) (size : Z) : outcome pkt_fault (list Z) :=
  if 20 <=? size then Err StackOverflow else
  match until_zero (slice payload i (Z.to_nat size) ++ [0]) with
  | Some url => Ret url
  | None => Err StackOverflow
  end.
