(* ===== verification/PacketProofs.v ===== *)
(** * Proofs about the packets of the front end

    What each function that builds a packet writes and what it leaves alone, what
    the URL search finds, and the checksum of a key. *)
From Stdlib Require Import ZArith Lia.
From stdpp Require Import base list gmap.
From S2P Require Import Prelude Bpf Wire EntryController BfRt RuleController Packet.

(** ** Big-endian fields *)

Lemma be_val_le_bytes_bswap16 z : in_u16 z -> be_val (le_bytes 2 (bswap16 z)) = z.
Proof.
  intros Hz. assert (le_bytes 2 (bswap16 z) = rev (le_bytes 2 z)) as ->.
  { unfold bswap16, be_val.
    assert (length (rev (le_bytes 2 z)) = 2%nat) as <- by (rewrite length_rev; apply length_le_bytes).
    apply le_bytes_val, bytes_ok_rev, le_bytes_ok. }
  unfold be_val. rewrite rev_involutive, le_val_bytes. by apply Z.mod_small.
Qed.

Lemma slice_splice_eq {A} (m : list A) a (bs : list A) n :
  (a + length bs <= length m)%nat -> n = length bs -> slice (splice m a bs) a n = bs.
Proof. intros ? ->. by apply slice_splice_same. Qed.

(** A packet in a buffer that can hold it, with its fixed headers. *)
Definition pkt_ok (m : mbuf) : Prop :=
  bytes_ok (room m) /\ (66 <= length (room m))%nat /\ 54 <= data_len m <= Z.of_nat (length (room m)).

Ltac pktlia :=
  unfold off_version_ihl, off_total_length, off_hdr_checksum, off_saddr, off_daddr, off_source, off_dest, off_seq,
    off_ack_seq, off_doff, off_flags, off_check, off_options in *;
  cbn [room set_room] in *; rewrite ?length_le_bytes; cbn [length OWN_MAC option_char fst snd]; lia.

Section build_rules.
Implicit Types m : mbuf.

Lemma wp_rd n a (Q : outcome pkt_fault Z -> mbuf -> Prop) m :
  (a + n <= length (room m))%nat -> Q (Ret (le_at n (room m) a)) m -> wp (rd n a) Q m.
Proof. intros Hl HQ. unfold rd. wp_step. wp_step. unfold read_at. rewrite decide_True by done. by apply wp_ret. Qed.

Lemma wp_wr a bs (Q : outcome pkt_fault unit -> mbuf -> Prop) m :
  (a + length bs <= length (room m))%nat ->
  (forall r, r = splice (room m) a bs -> length r = length (room m) -> Q (Ret tt) (set_room r m)) -> wp (wr a bs) Q m.
Proof.
  intros Hl HQ. unfold wr. wp_step. wp_step. rewrite decide_True by done. apply wp_modify.
  apply HQ; [done | by apply length_splice].
Qed.

Lemma wp_copy_packet src n (Q : outcome pkt_fault unit -> mbuf -> Prop) m :
  (Z.to_nat n <= length src)%nat -> (Z.to_nat n <= length (room m))%nat ->
  (forall r, r = splice (room m) 0 (take (Z.to_nat n) src) -> length r = length (room m) -> Q (Ret tt) (set_room r m)) ->
  wp (copy_packet src n) Q m.
Proof.
  intros Hl He HQ. unfold copy_packet. rewrite decide_True by done.
  apply wp_wr; [rewrite length_take; lia | exact HQ].
Qed.

Lemma lookup_copied {src l : list Z} {n i} :
  (n <= length src)%nat -> (n <= length l)%nat -> (i < n)%nat -> splice l 0 (take n src) !! i = src !! i.
Proof.
  intros Hn Hl Hi. rewrite lookup_splice by (rewrite length_take; lia).
  rewrite length_take, decide_True, Nat.sub_0_r, lookup_take_lt by lia. done.
Qed.

Lemma slice_copied {src l : list Z} {n a k} :
  (n <= length src)%nat -> (n <= length l)%nat -> (a + k <= n)%nat -> slice (splice l 0 (take n src)) a k = slice src a k.
Proof. intros. apply slice_ext. intros i Hi. apply lookup_copied; lia. Qed.

Lemma le_bytes_slice (p : list Z) a n : bytes_ok p -> (a + n <= length p)%nat -> le_bytes n (le_val (slice p a n)) = slice p a n.
Proof. intros Hb Hl. rewrite <- (length_slice p a n) at 1 by done. by apply le_bytes_val, slice_ok. Qed.
End build_rules.

(** Run a function that builds a packet, naming the room after every write. *)
Ltac wp_build :=
  repeat (cbn beta iota zeta; first
    [ lazymatch goal with
      | |- wp (wr _ _) _ _ => apply wp_wr; [pktlia | let r := fresh "r" in let E := fresh "E" in let L := fresh "L" in intros r E L; cbn [room set_room] in E, L]
      | |- wp (rd _ _) _ _ => apply wp_rd; [pktlia |]
      | |- wp (finish _ _ _) _ _ => unfold finish; apply wp_modify
      | |- wp (finish_from_headers _) _ _ => unfold finish_from_headers
      | |- wp reset_ihl _ _ => unfold reset_ihl
      end
    | wp_step ]).

(** Look a field up in the last of the rooms. *)
Ltac field_step :=
  match goal with
  | E : ?r = splice ?m ?a ?bs |- context [slice ?r ?b ?n] =>
      rewrite E; first [rewrite slice_splice_other by pktlia | rewrite slice_splice_eq by pktlia | rewrite slice_copied by pktlia]
  end.
Ltac field := unfold be_at, le_at in *; cbn [room set_room]; repeat field_step.
Ltac same_step :=
  match goal with
  | E : ?r = splice ?m ?a ?bs |- context [?r !! ?i] =>
      rewrite E; first [rewrite lookup_copied by pktlia | rewrite lookup_splice, decide_False by pktlia]
  end.

(** ** What the functions build *)

(** The first [n] bytes of [q] are those of [src], but for these fields, given
    as offset and size. *)
Definition keeps (n : nat) (fields : list (nat * nat)) (src q : list Z) : Prop :=
  forall i, (i < n)%nat -> Forall (fun f => i < fst f \/ fst f + snd f <= i)%nat fields -> q !! i = src !! i.

(** Both checksums left to the device; the lengths it needs. *)
Definition checksums_due (l4 len : Z) (m : mbuf) : Prop :=
  be_at 2 (room m) off_hdr_checksum = 0 /\ be_at 2 (room m) off_check = 0 /\
  l2_len m = 14 /\ l3_len m = 20 /\ l4_len m = l4 /\ data_len m = u16 len /\ pkt_len m = u16 len.

(** Addressed to a server, from this machine. *)
Definition to_server (info : server_info_t) (q : list Z) : Prop :=
  slice q 0 6 = si_mac info /\ slice q 6 6 = OWN_MAC /\
  be_at 4 q off_daddr = si_ip info /\ be_at 2 q off_dest = si_port info.

(** The link-layer addresses and the checksums. *)
Definition addr_fields : list (nat * nat) := [(0, 12); (off_hdr_checksum, 2); (off_check, 2)]%nat.

Definition l4_of (p : list Z) : Z := Z.shiftr (le_at 1 p off_doff) 4 * 4.
Definition total_length (p : list Z) : Z := be_at 2 p off_total_length.

(** A packet of the client, for the server. *)
Definition forwarded_in (info : server_info_t) (p : list Z) (len : nat) (m : mbuf) : Prop :=
  to_server info (room m) /\ checksums_due (l4_of p) (total_length p + 14) m /\
  keeps len ((off_daddr, 4) :: (off_dest, 2) :: addr_fields)%nat p (room m).

(** A packet of the server, for the client, from the virtual server. *)
Definition forwarded_out (info : server_info_t) (p : list Z) (len : nat) (m : mbuf) : Prop :=
  slice (room m) 0 6 = si_mac info /\ slice (room m) 6 6 = OWN_MAC /\
  be_at 4 (room m) off_saddr = si_ip info /\ be_at 2 (room m) off_source = si_port info /\
  checksums_due (l4_of p) (total_length p + 14) m /\
  keeps len ((off_saddr, 4) :: (off_source, 2) :: addr_fields)%nat p (room m).

(** A header without options, of a packet of [len] bytes with these flags. *)
Definition header_of (p : list Z) (doff flags len : Z) (q : list Z) : Prop :=
  le_at 1 q off_version_ihl = u8 (5 + Z.land (le_at 1 p off_version_ihl) 0xf0) /\
  be_at 2 q off_total_length = len /\ le_at 1 q off_doff = doff * 16 /\ le_at 1 q off_flags = flags.

Definition short_fields : list (nat * nat) :=
  ((off_version_ihl, 1) :: (off_total_length, 2) :: (off_doff, 1) :: (off_flags, 1) :: addr_fields)%nat.

(** The reset that answers a packet: back where it came from, numbered by what it
    acknowledges, and acknowledging it. *)
Definition reset_reply (recv m : mbuf) : Prop :=
  let p := room recv in let q := room m in
  slice q 0 6 = slice p 6 6 /\ slice q 6 6 = OWN_MAC /\
  slice q off_saddr 4 = slice p off_daddr 4 /\ slice q off_daddr 4 = slice p off_saddr 4 /\
  slice q off_source 2 = slice p off_dest 2 /\ slice q off_dest 2 = slice p off_source 2 /\
  be_at 4 q off_seq = be_at 4 p off_ack_seq /\
  be_at 4 q off_ack_seq = u32 (be_at 4 p off_seq + data_len recv - l2_len recv - l3_len recv - l4_len recv) /\
  header_of p 5 RTE_TCP_RST_FLAG 40 q /\ checksums_due 20 54 m /\
  keeps 54 ((off_saddr, 20) :: short_fields)%nat p q.

(** The reset for a server: its address and port in the host's byte order. *)
Definition reset_server (info : server_info_t) (p : list Z) (m : mbuf) : Prop :=
  slice (room m) 0 6 = si_mac info /\ slice (room m) 6 6 = OWN_MAC /\
  be_at 4 (room m) off_daddr = bswap32 (si_ip info) /\ be_at 2 (room m) off_dest = bswap16 (si_port info) /\
  header_of p 5 RTE_TCP_RST_FLAG 40 (room m) /\ checksums_due 20 54 m /\
  keeps 54 ((off_daddr, 4) :: (off_dest, 2) :: short_fields)%nat p (room m).

(** The SYN for a server: both numbers one below the request's. *)
Definition syn_of (info : server_info_t) (p : list Z) (m : mbuf) : Prop :=
  let q := room m in
  slice q 0 6 = si_mac info /\ be_at 4 q off_daddr = si_ip info /\ be_at 2 q off_dest = si_port info /\
  be_at 4 q off_seq = u32 (be_at 4 p off_seq - 1) /\ be_at 4 q off_ack_seq = u32 (be_at 4 p off_ack_seq - 1) /\
  header_of p 8 RTE_TCP_SYN_FLAG 52 q /\ slice q off_options 12 = option_char /\ checksums_due 32 66 m /\
  keeps 66 ((off_daddr, 4) :: (off_dest, 2) :: (off_seq, 8) :: (off_options, 12) :: short_fields)%nat p q.

Section built.
Context (TX_CKSUM : Z) (rc : rule_controller_t).
Implicit Types m recv : mbuf.

Ltac frame :=
  let i := fresh "i" in let Hi := fresh "Hi" in let Hf := fresh "Hf" in
  intros i Hi Hf; repeat (apply Forall_cons in Hf as [? Hf]); clear Hf; cbn [fst snd room set_room] in *; repeat same_step; try done.

Ltac value :=
  first [field; first [done | apply be_val_le_bytes_bswap32; by auto with words | apply be_val_le_bytes_bswap16; by auto with words | reflexivity
    | by apply le_bytes_slice; [|pktlia]
    | exact (le_val_bytes 1 _)
    | apply be_val_le_bytes_bswap32; refine (be_at_range 4 _ _ _ _); [done | pktlia]]].

(** The length fields of a packet whose headers were copied. *)
Ltac lengths p :=
  unfold l4_of, total_length; cbn [data_len pkt_len l2_len l3_len l4_len room set_room];
  try rewrite <- (bswap16_le_at p off_total_length) by first [done | pktlia];
  field; reflexivity.

(** What was read from these rooms is what the packet [p] has there. *)
Ltac first_byte ra p :=
  assert (le_at 1 ra off_version_ihl = le_at 1 p off_version_ihl) as Evi by (field; done);
  match goal with E : _ = splice _ off_version_ihl _ |- _ => rewrite Evi in E end.
Ltac numbers ra rb p :=
  assert (le_at 4 ra off_seq = le_at 4 p off_seq) as Eseq by (field; done);
  assert (le_at 4 rb off_ack_seq = le_at 4 p off_ack_seq) as Eack by (field; done);
  rewrite ?Eseq, ?Eack, ?(bswap32_le_at p off_seq), ?(bswap32_le_at p off_ack_seq) in * by first [done | pktlia].

Ltac built p :=
  split; [done|]; split; [cbn [room set_room] in *; lia|];
  unfold forwarded_in, forwarded_out, reset_reply, reset_server, syn_of, header_of, to_server, checksums_due;
  split_and!; cbn [room set_room]; try first [reflexivity | value | lengths p | frame].

Lemma wp_forward_inbound d recv info m :
  pkt_ok recv -> length (room recv) = length (room m) -> server_of rc d = Some info -> info_ok info ->
  wp (forward_inbound_pkt TX_CKSUM rc d recv) (fun r m' => r = Ret OK /\ length (room m') = length (room m) /\
    forwarded_in info (room recv) (Z.to_nat (data_len recv)) m') m.
Proof.
  intros (Hb & Hl & Hd) He Hs (Hm & _ & Hip & Hpo). unfold forward_inbound_pkt. wp_step.
  apply wp_copy_packet; [lia | lia |]. intros r0 E0 L0. cbn [room set_room] in E0. rewrite Hs.
  wp_build. built (room recv).
Qed.

Lemma wp_forward_inbound_unknown d recv m :
  pkt_ok recv -> length (room recv) = length (room m) -> server_of rc d = None ->
  wp (forward_inbound_pkt TX_CKSUM rc d recv)
    (fun r m' => r = Ret INTERNAL_ERROR /\ length (room m') = length (room m)) m.
Proof.
  intros (Hb & Hl & Hd) He Hs. unfold forward_inbound_pkt. wp_step.
  apply wp_copy_packet; [lia | lia |]. intros r0 E0 L0. rewrite Hs. wp_build. done.
Qed.

Lemma wp_forward_outbound recv info m :
  pkt_ok recv -> length (room recv) = length (room m) -> virtual_server_info rc = info -> info_ok info ->
  wp (forward_outbound_pkt TX_CKSUM rc recv) (fun r m' => r = Ret OK /\ length (room m') = length (room m) /\
    forwarded_out info (room recv) (Z.to_nat (data_len recv)) m') m.
Proof.
  intros (Hb & Hl & Hd) He Hv (Hm & _ & Hip & Hpo). unfold forward_outbound_pkt. rewrite Hv. wp_step.
  apply wp_copy_packet; [lia | lia |]. intros r0 E0 L0. cbn [room set_room] in E0.
  wp_build. built (room recv).
Qed.

Lemma wp_send_cached d p size info m :
  bytes_ok p -> 54 <= size <= Z.of_nat (length p) -> (Z.to_nat size <= length (room m))%nat ->
  server_of rc d = Some info -> info_ok info ->
  wp (send_cached_pkt TX_CKSUM rc d p size) (fun r m' => r = Ret OK /\ length (room m') = length (room m) /\
    forwarded_in info p (Z.to_nat size) m') m.
Proof.
  intros Hb Hd He Hs (Hm & _ & Hip & Hpo). unfold send_cached_pkt, deref_server. rewrite Hs. wp_step.
  apply wp_copy_packet; [lia | lia |]. intros r0 E0 L0. cbn [room set_room] in E0.
  wp_build. built p.
Qed.

Lemma wp_reply_rst recv m :
  pkt_ok recv -> length (room recv) = length (room m) ->
  wp (reply_rst_pkt TX_CKSUM recv) (fun r m' => r = Ret OK /\ length (room m') = length (room m) /\ reset_reply recv m') m.
Proof.
  intros (Hb & Hl & Hd) He. unfold reply_rst_pkt. wp_step.
  apply wp_copy_packet; [change (Z.to_nat 54) with 54%nat; lia | change (Z.to_nat 54) with 54%nat; lia |].
  change (Z.to_nat 54) with 54%nat. intros r0 E0 L0. cbn [room set_room] in E0.
  assert (length (slice r0 6 6) = 6%nat) as L6 by (apply length_slice; lia).
  wp_build. first_byte r4 (room recv). numbers r8 r8 (room recv). built (room recv).
Qed.

Lemma wp_send_rst d recv info m :
  pkt_ok recv -> length (room recv) = length (room m) -> server_of rc d = Some info -> info_ok info ->
  wp (send_rst_pkt TX_CKSUM rc d recv) (fun r m' => r = Ret OK /\ length (room m') = length (room m) /\
    reset_server info (room recv) m') m.
Proof.
  intros (Hb & Hl & Hd) He Hs (Hm & _ & Hip & Hpo). unfold send_rst_pkt, deref_server. rewrite Hs. wp_step.
  apply wp_copy_packet; [change (Z.to_nat 54) with 54%nat; lia | change (Z.to_nat 54) with 54%nat; lia |].
  change (Z.to_nat 54) with 54%nat. intros r0 E0 L0. cbn [room set_room] in E0.
  wp_build. first_byte r2 (room recv). built (room recv).
Qed.

Lemma wp_send_syn d recv info m :
  pkt_ok recv -> length (room recv) = length (room m) -> server_of rc d = Some info -> info_ok info ->
  wp (send_syn_pkt TX_CKSUM rc d recv) (fun r m' => r = Ret OK /\ length (room m') = length (room m) /\
    syn_of info (room recv) m') m.
Proof.
  intros (Hb & Hl & Hd) He Hs (Hm & _ & Hip & Hpo). unfold send_syn_pkt, deref_server. rewrite Hs. wp_step.
  apply wp_copy_packet; [change (Z.to_nat 66) with 66%nat; lia | change (Z.to_nat 66) with 66%nat; lia |].
  change (Z.to_nat 66) with 66%nat. intros r0 E0 L0. cbn [room set_room] in E0.
  wp_build. first_byte r1 (room recv). numbers r7 r8 (room recv). built (room recv).
Qed.
End built.

(** ** The URL *)

Lemma skip_until_spec stop mem n : (n <= length mem)%nat ->
  exists k, skip_until stop mem n = Ret k /\ (k <= n)%nat /\
    Forall (fun b => stop b = false) (take k mem) /\
    ((k < n)%nat -> exists b, mem !! k = Some b /\ stop b = true).
Proof.
  revert n. induction mem as [|b mem IH]; intros [|n] Hn; simpl in Hn; try lia; try (exists 0%nat; by repeat split; lia || constructor).
  cbn [skip_until]. destruct (stop b) eqn:Eb.
  - exists 0%nat. split_and!; [done | lia | constructor |]. intros _. by exists b.
  - destruct (IH n ltac:(lia)) as (k & -> & Hk & Hf & Hlt). exists (S k). split_and!; [done | lia | by constructor |].
    intros Hk'. apply Hlt. lia.
Qed.

Lemma parse_payload_spec payload n : (n <= length payload)%nat -> exists i size,
  parse_payload payload n = Ret (i, size) /\ 0 <= size /\
  ((~ 47 ∈ take n payload /\ i = S n /\ size = 0) \/
   (exists pre url rest, take n payload = pre ++ 47 :: url ++ rest /\ i = S (length pre) /\ size = Z.of_nat (length url) /\
      ~ 47 ∈ pre /\ Forall (fun b => ends_url b = false) url /\
      match rest with [] => True | b :: _ => ends_url b = true end)).
Proof.
  intros Hn. unfold parse_payload.
  destruct (skip_until_spec is_slash payload n Hn) as (k & -> & Hk & Hf & Hlt).
  assert (~ 47 ∈ take k payload) as Hns by (intros Hin; rewrite Forall_forall in Hf; by apply Hf in Hin).
  destruct (decide (k = n)) as [->|Hne].
  { replace (n - S n)%nat with 0%nat by lia. exists (S n), 0. split; [by destruct (drop _ _)|]. split; [lia|]. by left. }
  destruct (Hlt ltac:(lia)) as (b & Hb & E%Z.eqb_eq). subst b.
  destruct (skip_until_spec ends_url (drop (S k) payload) (n - S k) ltac:(rewrite length_drop; lia)) as (m & -> & Hm & Hf2 & Hlt2).
  exists (S k), (Z.of_nat m). split; [done|]. split; [lia|]. right.
  exists (take k payload), (take m (drop (S k) payload)), (take (n - S k - m) (drop (S k + m) payload)).
  rewrite !length_take, length_drop. split_and!; try lia; try done.
  - rewrite <- (take_drop k (take n payload)), take_take, Nat.min_l by lia. f_equal.
    apply list_eq. intros j. destruct j as [|j].
    + rewrite lookup_drop, lookup_take_lt by lia. by rewrite Nat.add_0_r.
    + rewrite lookup_drop. rewrite lookup_cons_ne_0 by done. cbn [Nat.pred]. rewrite <- (drop_drop payload m (S k)), take_take_drop.
      replace (m + (n - S k - m))%nat with (n - S k)%nat by lia.
      destruct (decide (j < n - S k)%nat).
      * rewrite (lookup_take_lt (drop _ _)), lookup_drop, lookup_take_lt by lia. f_equal. lia.
      * rewrite (lookup_take_ge (drop _ _)), lookup_take_ge by lia. done.
  - destruct (decide (m = n - S k)%nat) as [->|].
    + by rewrite Nat.sub_diag.
    + destruct (Hlt2 ltac:(lia)) as (b & Hb2 & Eb). rewrite lookup_drop in Hb2.
      destruct (n - S k - m)%nat as [|q] eqn:Eq; [lia|].
      rewrite (drop_S _ b) by done. done.
Qed.

(** A search that stops leaves the payload. *)
Lemma skip_until_error stop mem n x : skip_until stop mem n = Err x -> x = OutOfRoom /\ (length mem < n)%nat.
Proof.
  revert n. induction mem as [|b mem IH]; intros [|n]; cbn [skip_until length]; try done; [intros [= <-]; split; [done | lia]|].
  destruct (stop b); [done|]. destruct (skip_until stop mem n) as [k|e] eqn:E; [done|]. intros [= ->].
  destruct (IH n E) as [-> ?]. split; [done | lia].
Qed.

Lemma parse_payload_error payload n x : parse_payload payload n = Err x -> x = OutOfRoom /\ (length payload < n)%nat.
Proof.
  unfold parse_payload. destruct (skip_until is_slash payload n) as [i|e] eqn:E1; [|intros [= ->]; by eapply skip_until_error].
  destruct (skip_until ends_url _ _) as [m|e] eqn:E2; [done|]. intros [= ->]. apply skip_until_error in E2 as [-> Hl].
  rewrite length_drop in Hl. split; [done | lia].
Qed.

Lemma parse_payload_size payload n i size : parse_payload payload n = Ret (i, size) -> 0 <= size.
Proof. unfold parse_payload. repeat case_match; try done. intros [= _ <-]. lia. Qed.

(** ** The checksum of a key *)

(** One byte, bit by bit: the remainder of division by x^8 + x^2 + x + 1. *)
Definition crc8_byte (crc b : Z) : Z := Nat.iter 8 crc8_shift (Z.lxor crc b).

Lemma crc8_at_iter i : is_byte i -> crc8_at i = Nat.iter 8 crc8_shift i.
Proof.
  intros Hi. unfold crc8_at, crc8_table.
  rewrite (nth_indep _ 0 (Nat.iter 8 crc8_shift (Z.of_nat 0))) by (rewrite length_map, length_seq; modlia).
  rewrite (map_nth (fun i => Nat.iter 8 crc8_shift (Z.of_nat i))), seq_nth by modlia. cbn [Nat.add].
  by rewrite Z2Nat.id by modlia.
Qed.

Lemma lxor_byte a b : is_byte a -> is_byte b -> is_byte (Z.lxor a b).
Proof.
  unfold is_byte. intros Ha Hb. assert (0 <= Z.lxor a b) as Hp by (apply Z.lxor_nonneg; lia). split; [done|].
  destruct (decide (Z.lxor a b = 0)) as [->|Hn]; [done|]. change 256 with (2 ^ 8).
  apply Z.log2_lt_pow2; [lia|]. pose proof (Z.log2_lxor a b ltac:(lia) ltac:(lia)) as Hl.
  assert (forall c, 0 <= c < 256 -> Z.log2 c < 8) as Hlog; [|pose proof (Hlog a Ha); pose proof (Hlog b Hb); lia].
  intros c Hc. destruct (decide (c = 0)) as [->|]; [done|]. apply Z.log2_lt_pow2; lia.
Qed.

Lemma crc8_shift_byte z : is_byte (crc8_shift z).
Proof. unfold crc8_shift. by case_match; apply u8_range. Qed.

Lemma crc8_byte_byte a b : is_byte (crc8_byte a b).
Proof. apply crc8_shift_byte. Qed.

Lemma crc8_at_byte a b : is_byte a -> is_byte b -> crc8_at (Z.lxor a b) = crc8_byte a b.
Proof. intros. by apply crc8_at_iter, lxor_byte. Qed.

Lemma land_ff z : Z.land z 0xff = z mod 256.
Proof. exact (Z.land_ones z 8 ltac:(lia)). Qed.

Lemma calculate_crc8_spec ip port : in_u32 ip -> in_u16 port ->
  calculate_crc8 ip port = foldl crc8_byte 0 (le_bytes 4 ip ++ le_bytes 2 port).
Proof.
  intros Hi Hp. unfold calculate_crc8. cbv zeta. rewrite !land_ff, !Z.shiftr_div_pow2 by lia.
  cbn [le_bytes app foldl].
  rewrite !Z.div_div by lia. rewrite (Z.mod_small (port / 256)) by modlia.
  change (256 * 256 * 256) with (2 ^ 24). change (256 * 256) with (2 ^ 16). change (2 ^ 8) with 256.
  assert (forall z, is_byte (z mod 256)) as Hm by (intros; by apply Z.mod_pos_bound).
  assert (is_byte (port / 256)) by modlia. assert (is_byte 0) by done.
  repeat match goal with
  | |- context [crc8_at (Z.lxor ?a ?b)] => lazymatch a with context [crc8_at] => fail | _ => rewrite (crc8_at_byte a b) by auto using crc8_byte_byte end
  end. done.
Qed.
