(* ===== verification/PacketFacts.v ===== *)
(** * Theorems about the packets of the front end

    The checksum of a flow's key, the URL of a request, and how the packets sent
    to a server are addressed. *)
From Stdlib Require Import ZArith Lia.
From stdpp Require Import base list gmap.
From S2P Require Import Prelude Bpf Wire EntryController BfRt RuleController Packet PacketProofs.

(** ** A bit-serial CRC *)

(** The textbook register: shift a bit of the message in, and reduce by the
    polynomial when the bit that leaves and the bit that enters differ. *)
Definition crc_bit (crc : Z) (b : bool) : Z :=
  Z.lxor (u8 (Z.shiftl crc 1)) (if xorb (Z.testbit crc 7) b then 7 else 0).
Definition msb_first (b : Z) : list bool := map (Z.testbit b) [7; 6; 5; 4; 3; 2; 1; 0].
Definition bits_of (bs : list Z) : list bool := concat (map msb_first bs).

Lemma u8_land z : u8 z = Z.land z (Z.ones 8).
Proof. unfold u8. by rewrite Z.land_ones by lia. Qed.

Lemma u8_lxor a b : u8 (Z.lxor a b) = Z.lxor (u8 a) (u8 b).
Proof.
  rewrite !u8_land. apply Z.bits_inj'. intros i Hi. rewrite !Z.land_spec, !Z.lxor_spec, !Z.land_spec.
  by destruct (Z.testbit a i), (Z.testbit b i), (Z.testbit (Z.ones 8) i).
Qed.

Lemma land_bit7 z : negb (Z.land z 0x80 =? 0) = Z.testbit z 7.
Proof.
  destruct (Z.testbit z 7) eqn:E.
  - destruct (Z.eqb_spec (Z.land z 0x80) 0) as [E0|]; [|done].
    apply (f_equal (fun x => Z.testbit x 7)) in E0. rewrite Z.land_spec, E in E0. discriminate.
  - assert (Z.land z 0x80 = 0) as ->; [|done]. apply Z.bits_inj'. intros i Hi. rewrite Z.land_spec, Z.bits_0.
    change 0x80 with (2 ^ 7). rewrite Z.pow2_bits_eqb by lia. destruct (Z.eqb_spec 7 i) as [<-|]; [by rewrite E | apply andb_false_r].
Qed.

Lemma crc8_shift_bit z : crc8_shift z = crc_bit z false.
Proof.
  unfold crc8_shift, crc_bit. rewrite land_bit7, xorb_false_r. destruct (Z.testbit z 7).
  - by rewrite u8_lxor.
  - by rewrite Z.lxor_0_r.
Qed.

(** What is still to come can wait in the register. *)
Lemma crc_bit_lxor crc y : crc8_shift (Z.lxor crc y) = Z.lxor (crc_bit crc (Z.testbit y 7)) (u8 (Z.shiftl y 1)).
Proof.
  rewrite crc8_shift_bit. unfold crc_bit. rewrite Z.lxor_spec, xorb_false_r, Z.shiftl_lxor, u8_lxor.
  rewrite !Z.lxor_assoc. f_equal. apply Z.lxor_comm.
Qed.

Lemma testbit_shifted y k : 0 <= k <= 7 -> Z.testbit (u8 (Z.shiftl y 1)) k = if k =? 0 then false else Z.testbit y (k - 1).
Proof.
  intros Hk. rewrite u8_land, Z.land_spec, Z.shiftl_spec, Z.ones_spec_low, andb_true_r by lia.
  destruct (Z.eqb_spec k 0) as [->|]; [|done]. by rewrite Z.testbit_neg_r by lia.
Qed.

Lemma crc8_byte_bits crc b : is_byte b -> crc8_byte crc b = foldl crc_bit crc (msb_first b).
Proof.
  intros Hb. unfold crc8_byte, msb_first. cbn [Nat.iter nat_rect map foldl].
  do 8 rewrite crc_bit_lxor. rewrite !testbit_shifted by lia. cbn [Z.eqb Pos.eqb Z.sub Z.opp Z.add Z.pos_sub Pos.pred_double Z.pred_double].
  match goal with |- Z.lxor _ ?r = _ => assert (r = 0) as -> end; [|apply Z.lxor_0_r].
  rewrite !u8_land, !Z.shiftl_mul_pow2, !Z.land_ones by lia. modlia.
Qed.

(** C36: The table-driven checksum that selects a hash map is CRC-8 with polynomial
    x^8 + x^2 + x + 1: the table built at start-up and the six look-ups give what
    the bit-serial register gives on the four bytes of the address and the two of
    the port. *)
Theorem crc8_is_bitwise ip port : in_u32 ip -> in_u16 port ->
  calculate_crc8 ip port = foldl crc_bit 0 (bits_of (le_bytes 4 ip ++ le_bytes 2 port)).
Proof.
  intros Hi Hp. rewrite calculate_crc8_spec by done. unfold bits_of.
  assert (bytes_ok (le_bytes 4 ip ++ le_bytes 2 port)) as Hb by (apply Forall_app; split; apply le_bytes_ok).
  generalize 0 as crc. induction Hb as [|b bs Hb _ IH]; intros crc; [done|].
  cbn [foldl map concat]. rewrite foldl_app, <- crc8_byte_bits by done. apply IH.
Qed.

Lemma crc8_is_bitwise_witness :
  calculate_crc8 0x0102000a 0x409c = foldl crc_bit 0 (bits_of (le_bytes 4 0x0102000a ++ le_bytes 2 0x409c)).
Proof. apply (crc8_is_bitwise 0x0102000a 0x409c); modlia. Defined.

(** ** The URL of a request *)

(** The search for the URL.  In a payload that is all there, [parse_payload] reads
    no byte outside it and always gives a position and a size: behind the first
    slash, up to the next blank, carriage return or the end.  Without a slash the
    URL is empty; the size is never the -1 that the callers take for a request
    without a URL. *)
Theorem parse_payload_finds payload n : (n <= length payload)%nat -> exists i size,
  parse_payload payload n = Ret (i, size) /\ 0 <= size /\
  ((~ 47 ∈ take n payload /\ i = S n /\ size = 0) \/
   (exists pre url rest, take n payload = pre ++ 47 :: url ++ rest /\ i = S (length pre) /\ size = Z.of_nat (length url) /\
      ~ 47 ∈ pre /\ Forall (fun b => ends_url b = false) url /\
      match rest with [] => True | b :: _ => ends_url b = true end)).
Proof. apply parse_payload_spec. Qed.

(** "GET /ab HTTP". *)
Lemma parse_payload_finds_witness : exists i size,
  parse_payload [71; 69; 84; 32; 47; 97; 98; 32; 72; 84; 84; 80] 12 = Ret (i, size) /\ 0 <= size.
Proof.
  destruct (parse_payload_finds [71; 69; 84; 32; 47; 97; 98; 32; 72; 84; 84; 80] 12) as (i & size & E & H & _);
    [by apply Nat.leb_le|]. by exists i, size.
Defined.

(** ** Resets and SYNs for a server *)

Section to_servers.
Context (TX_CKSUM : Z) (rc : rule_controller_t).
Implicit Types m recv : mbuf.

(** C37: The reset for the old server of a client that moves to another one is built
    with the server's address and port as the machine holds them, not in network
    byte order: unlike the SYN, which reaches the server, it is addressed to the
    address read backwards. *)
Theorem rst_address_reversed d recv info m :
  pkt_ok recv -> length (room recv) = length (room m) -> server_of rc d = Some info -> info_ok info ->
  (exists m1, send_rst_pkt TX_CKSUM rc d recv m = (Ret OK, m1) /\
     be_at 4 (room m1) off_daddr = bswap32 (si_ip info) /\ be_at 2 (room m1) off_dest = bswap16 (si_port info)) /\
  (exists m2, send_syn_pkt TX_CKSUM rc d recv m = (Ret OK, m2) /\
     be_at 4 (room m2) off_daddr = si_ip info /\ be_at 2 (room m2) off_dest = si_port info).
Proof.
  intros Hp L Hs Hi. split.
  - destruct (wp_run _ _ _ (wp_send_rst TX_CKSUM rc d recv info m Hp L Hs Hi)) as (r & m1 & E & -> & _ & _ & _ & Ha & Hd & _).
    by exists m1.
  - destruct (wp_run _ _ _ (wp_send_syn TX_CKSUM rc d recv info m Hp L Hs Hi)) as (r & m1 & E & -> & _ & _ & Ha & Hd & _).
    by exists m1.
Qed.
End to_servers.

(** The server 10.0.1.5 gets no reset: it goes to 5.1.0.10. *)
Lemma rst_address_reversed_witness :
  let recv := Mbuf (sample_packet [10; 0; 2; 1] [10; 0; 0; 9] [156; 64] [0; 80] [0; 0; 3; 232] [0; 0; 19; 137] 5 24 [0; 0] (replicate 20 65)) 74 74 0 0 0 0 in
  let info := ServerInfo [12; 66; 161; 74; 255; 5] 167772421 80 in
  let rc := RuleController ∅ {[5 := info]} info in
  exists m1, send_rst_pkt 0 rc 5 recv (Mbuf (replicate 74 0) 0 0 0 0 0 0) = (Ret OK, m1) /\ be_at 4 (room m1) off_daddr = 83951626.
Proof.
  intros recv info rc.
  destruct (rst_address_reversed 0 rc 5 recv info (Mbuf (replicate 74 0) 0 0 0 0 0 0)) as [(m1 & E & Ha & _) _].
  - split; [decide_now|]. split; [by apply Nat.leb_le | by split].
  - done.
  - done.
  - split; [done|]. split; [decide_now|]. split; cbn; modlia.
  - exists m1. split; [exact E|]. rewrite Ha. reflexivity.
Defined.
