(* ===== verification/PktProcessor.v ===== *)
(** * The packet processor of the front end

    The stateful half of Frontend/subprojects/pkt_processor: [process_pkts] and the
    flow table it works on.  A flow lives on the heap, [flow_hash_map] holds
    pointers to it, and the flow holds a pointer to the request it keeps, so the
    model has a heap with pointers: memory that is freed is gone from it, and
    using it is an error. *)
From Stdlib Require Import ZArith Lia.
From stdpp Require Import base list gmap.
From S2P Require Import Prelude Bpf Wire EntryController BfRt RuleController Packet.

(** [libcuckoo::cuckoohash_map], a library: [insert] leaves a key that is
    already there alone. *)
Class CuckooMap (Mp V : Type) := {
  cuckoo_new : Mp;
  cuckoo_find : Mp -> Z -> option V;
  cuckoo_insert : Mp -> Z -> V -> Mp;
  cuckoo_erase : Mp -> Z -> Mp
}.

Class CuckooMapLaws (Mp V : Type) `{CuckooMap Mp V} : Prop := {
  cuckoo_find_new k : cuckoo_find (cuckoo_new : Mp) k = None;
  cuckoo_find_insert (m : Mp) k v : cuckoo_find m k = None -> cuckoo_find (cuckoo_insert m k v) k = Some v;
  cuckoo_find_insert_ne (m : Mp) k k' v : k <> k' -> cuckoo_find (cuckoo_insert m k v) k' = cuckoo_find m k';
  cuckoo_find_erase (m : Mp) k : cuckoo_find (cuckoo_erase m k) k = None;
  cuckoo_find_erase_ne (m : Mp) k k' : k <> k' -> cuckoo_find (cuckoo_erase m k) k' = cuckoo_find m k'
}.

(** A finite map meets the contract. *)
#[export] Instance gmap_cuckoo {V} : CuckooMap (gmap Z V) V := {
  cuckoo_new := ∅;
  cuckoo_find m k := m !! k;
  cuckoo_insert m k v := match m !! k with Some _ => m | None => <[k := v]> m end;
  cuckoo_erase m k := delete k m
}.

(** ** Data (flow_data.hpp) *)

Abbreviation loc := nat (only parsing).

Inductive flow_state : Type := INIT | BACKEND_SYN | OFFLOAD | COMPLETE.

#[export] Instance flow_state_eq_dec : EqDecision flow_state.
Proof. solve_decision. Defined.

(** [recv_pkt] is a pointer; [None] is NULL. *)
Record flow_data_t := FlowData {
  state : flow_state;
  entry_data : my_data_t;
  recv_pkt : option loc;
  pkt_size : Z
}.

(** What the code allocates: a flow, or the bytes of a packet. *)
Inductive block : Type := BFlow (f : flow_data_t) | BBytes (l : list Z).

(** How the processing of a packet, or of a batch, can end early. *)
Inductive pp_stop : Type := Returns (st : status_t) | Fault (f : pkt_fault).

(** The values computed from the headers of a packet. *)
Record view := View {
  payload_flag : bool;
  header_size : Z;
  src_crc : Z; dst_crc : Z;
  src_key : Z; dst_key : Z;
  src_my_key : my_key_t; dst_my_key : my_key_t
}.

Section processor.
Context {Mp : Type} `{CuckooMap Mp loc} (TX_CKSUM : Z).
(** Whether the [n]-th call of [rte_malloc] finds no memory. *)
Context (oom : nat -> bool).

(** [flow_hash_map], 256 maps; the heap, and the number of allocations so far,
    which makes the addresses fresh; the calls of [enqueue] made, in order; the
    rule controller; [send_pkts] and [send_size] of the batch in hand. *)
Record pp := PP {
  flow_hash_map : list Mp;
  heap : gmap loc block;
  allocs : nat;
  enqueued : list ec_op;
  rules_of : rule_controller_t;
  send_pkts : list mbuf;
  send_size : nat
}.

Abbreviation P := (M pp pp_stop).

Definition set_maps (m : list Mp) (s : pp) : pp :=
  PP m (heap s) (allocs s) (enqueued s) (rules_of s) (send_pkts s) (send_size s).
Definition set_heap (h : gmap loc block) (s : pp) : pp :=
  PP (flow_hash_map s) h (allocs s) (enqueued s) (rules_of s) (send_pkts s) (send_size s).
Definition set_allocs (n : nat) (s : pp) : pp :=
  PP (flow_hash_map s) (heap s) n (enqueued s) (rules_of s) (send_pkts s) (send_size s).
Definition set_enqueued (l : list ec_op) (s : pp) : pp :=
  PP (flow_hash_map s) (heap s) (allocs s) l (rules_of s) (send_pkts s) (send_size s).
Definition set_send (l : list mbuf) (n : nat) (s : pp) : pp :=
  PP (flow_hash_map s) (heap s) (allocs s) (enqueued s) (rules_of s) l n.

(** The state at the start: 256 empty maps (main.cpp, line 74), no memory in use. *)
Definition new_pp (rc : rule_controller_t) : pp := PP (replicate 256 cuckoo_new) ∅ 0 [] rc [] 0.
Definition set_rules (rc : rule_controller_t) (s : pp) : pp :=
  PP (flow_hash_map s) (heap s) (allocs s) (enqueued s) rc (send_pkts s) (send_size s).

Definition fault {A} (f : pkt_fault) : P A := fail (Fault f).
Definition lift {A} (o : outcome pkt_fault A) : P A := match o with Ret a => mret a | Err f => fault f end.

(** ** The heap *)

Definition load_flow (p : loc) : P flow_data_t :=
  h ← gets heap;
  match h !! p with Some (BFlow f) => mret f | _ => fault UseAfterFree end.

Definition store_flow (p : loc) (f : flow_data_t) : P unit :=
  h ← gets heap;
  match h !! p with Some (BFlow _) => modify (set_heap (<[p := BFlow f]> h)) | _ => fault UseAfterFree end.

(** The bytes a pointer leads to. *)
Definition load_bytes (p : option loc) : P (list Z) :=
  match p with
  | None => fault NullPointer
  | Some p =>
      h ← gets heap;
      match h !! p with Some (BBytes l) => mret l | _ => fault UseAfterFree end
  end.

Definition rte_free (p : option loc) : P unit :=
  match p with
  | None => mret tt
  | Some p =>
      h ← gets heap;
      match h !! p with Some _ => modify (set_heap (delete p h)) | None => fault UseAfterFree end
  end.

(** Allocate a block that is then filled with [b]: filling it through the NULL
    pointer is an error. *)
Definition rte_malloc (b : block) : P loc :=
  n ← gets allocs;
  _ ← modify (set_allocs (S n));
  if oom n then fault NullPointer else
  h ← gets heap; _ ← modify (set_heap (<[n := b]> h)); mret n.

(** ** Tables and queues *)

Definition find_flow (crc key : Z) : P (option loc) :=
  ms ← gets flow_hash_map;
  match ms !! Z.to_nat crc with Some m => mret (cuckoo_find m key) | None => fault OutOfRoom end.

Definition insert_flow (crc key : Z) (p : loc) : P unit :=
  ms ← gets flow_hash_map;
  match ms !! Z.to_nat crc with
  | Some m => modify (set_maps (<[Z.to_nat crc := cuckoo_insert m key p]> ms))
  | None => fault OutOfRoom
  end.

Definition erase_flow (crc key : Z) : P unit :=
  ms ← gets flow_hash_map;
  match ms !! Z.to_nat crc with
  | Some m => modify (set_maps (<[Z.to_nat crc := cuckoo_erase m key]> ms))
  | None => fault OutOfRoom
  end.

(** [add_queue->enqueue] and [del_queue->enqueue]. *)
Definition enqueue_add (p : my_pair_t) : P unit := modify (fun s => set_enqueued (enqueued s ++ [EnqAdd p]) s).
Definition enqueue_del (k : my_key_t) : P unit := modify (fun s => set_enqueued (enqueued s ++ [EnqDel k]) s).

(** Build a packet in [send_pkts[send_size]], return on a failure, and count it. *)
Definition send (w : rule_controller_t -> M mbuf pkt_fault status_t) : P unit :=
  s ← get;
  match send_pkts s !! send_size s with
  | None => fault OutOfRoom
  | Some b =>
      let '(r, b) := w (rules_of s) b in
      _ ← modify (set_send (<[send_size s := b]> (send_pkts s)) (send_size s));
      match r with
      | Err f => fault f
      | Ret OK => modify (fun s => set_send (send_pkts s) (S (send_size s)) s)
      | Ret st => fail (Returns st)
      end
  end.

(** ** Packets received *)

Definition hdr (recv : mbuf) (n a : nat) : P Z :=
  if decide (a + n <= length (room recv))%nat then mret (le_at n (room recv) a) else fault OutOfRoom.

(** [tcp_hdr->tcp_flags = RTE_TCP_RST_FLAG], in the packet received. *)
Definition as_reset (recv : mbuf) : mbuf := set_room (splice (room recv) off_flags [RTE_TCP_RST_FLAG]) recv.

Definition has_flag (flags f : Z) : bool := negb (Z.land flags f =? 0).

Definition flow_key64 (addr port : Z) : Z := u64 (u64 (Z.shiftl addr 32) + port).

(** Lines 72-82. *)
Definition view_of (recv : mbuf) : P view :=
  data_off ← hdr recv 1 off_doff;
  total_length ← hdr recv 2 off_total_length;
  src_addr ← hdr recv 4 off_saddr; src_port ← hdr recv 2 off_source;
  dst_addr ← hdr recv 4 off_daddr; dst_port ← hdr recv 2 off_dest;
  let header_size := u16 (20 + Z.shiftr data_off 4 * 4) in
  let src_crc := calculate_crc8 src_addr src_port in
  let dst_crc := calculate_crc8 dst_addr dst_port in
  mret {| payload_flag := header_size <? bswap16 total_length; header_size := header_size;
          src_crc := src_crc; dst_crc := dst_crc;
          src_key := flow_key64 src_addr src_port; dst_key := flow_key64 dst_addr dst_port;
          src_my_key := MyKey src_crc (bswap32 src_addr) (bswap16 src_port);
          dst_my_key := MyKey dst_crc (bswap32 dst_addr) (bswap16 dst_port) |}.

(** [parse_payload] on the payload, the check of its result, and the copy to
    [url_copy]; [None]: no URL. *)
Definition request_url (recv : mbuf) (v : view) : P (option (list Z)) :=
  data_off ← hdr recv 1 off_doff;
  total_length ← hdr recv 2 off_total_length;
  let payload := drop (off_tcp + Z.to_nat (Z.shiftr data_off 4 * 4)) (room recv) in
  u ← lift (parse_payload payload (Z.to_nat (bswap16 total_length - header_size v)));
  let '(i, size) := u in
  if size =? -1 then mret None else
  url ← lift (copy_url payload i size);
  mret (Some url).

(** [lookup_balancing_rule(url_copy)] *)
Definition balancing_rule (url : list Z) : P (option my_data_t) :=
  rc ← gets rules_of; mret (rule_map rc !! url).

(** ** A packet of a known client: lines 84-243 *)

(** The end of a flow: take it back from the switch, forget it, free it. *)
Definition end_flow (p : loc) (f : flow_data_t) (crc key : Z) (k : my_key_t) : P unit :=
  _ ← (if decide (state f = OFFLOAD) then enqueue_del k else mret tt);
  _ ← erase_flow crc key;
  _ ← rte_free (recv_pkt f);
  rte_free (Some p).

(** Lines 153-175: another server from now on. *)
Definition switch_server (recv : mbuf) (v : view) (p : loc) (f : flow_data_t) (new_data : my_data_t) : P unit :=
  _ ← send (fun rc => send_rst_pkt TX_CKSUM rc (d_index (entry_data f)) recv);
  _ ← (if decide (state f = OFFLOAD) then enqueue_del (src_my_key v) else mret tt);
  _ ← send (fun rc => send_syn_pkt TX_CKSUM rc (d_index new_data) recv);
  _ ← rte_free (recv_pkt f);
  if decide (Z.to_nat (data_len recv) <= length (room recv))%nat then
    q ← rte_malloc (BBytes (content recv));
    store_flow p (FlowData BACKEND_SYN new_data (Some q) (data_len recv))
  else fault OutOfRoom.

(** Lines 178-193: the same server; the rule may have another offload flag. *)
Definition same_server (recv : mbuf) (v : view) (p : loc) (f : flow_data_t) (new_data : my_data_t) : P unit :=
  _ ← send (fun rc => forward_inbound_pkt TX_CKSUM rc (d_index (entry_data f)) recv);
  if decide (state f = COMPLETE /\ offload_flag new_data = 1) then
    _ ← store_flow p (FlowData OFFLOAD (entry_data f) (recv_pkt f) (pkt_size f));
    enqueue_add (MyPair (src_my_key v) (entry_data f))
  else if decide (state f = OFFLOAD /\ offload_flag new_data = 0) then
    _ ← store_flow p (FlowData COMPLETE (entry_data f) (recv_pkt f) (pkt_size f));
    enqueue_del (src_my_key v)
  else mret tt.

Definition client_connected (recv : mbuf) (v : view) (p : loc) (f : flow_data_t) : P unit :=
  let d := d_index (entry_data f) in
  flags ← hdr recv 1 off_flags;
  if has_flag flags RTE_TCP_RST_FLAG then
    _ ← send (fun rc => forward_inbound_pkt TX_CKSUM rc d recv);
    end_flow p f (src_crc v) (src_key v) (src_my_key v)
  else if has_flag flags RTE_TCP_FIN_FLAG then
    _ ← send (fun _ => reply_rst_pkt TX_CKSUM recv);
    let recv := as_reset recv in
    _ ← send (fun rc => forward_inbound_pkt TX_CKSUM rc d recv);
    end_flow p f (src_crc v) (src_key v) (src_my_key v)
  else if payload_flag v then
    url ← request_url recv v;
    match url with
    | None => mret tt
    | Some url =>
        new_data ← balancing_rule url;
        match new_data with
        | None => mret tt
        | Some new_data =>
            if negb (d_index new_data =? d) then switch_server recv v p f new_data
            else same_server recv v p f new_data
        end
    end
  else send (fun rc => forward_inbound_pkt TX_CKSUM rc d recv).

(** Lines 211-237: the server has not answered the SYN yet. *)
Definition client_waiting (recv : mbuf) (v : view) (p : loc) (f : flow_data_t) : P unit :=
  flags ← hdr recv 1 off_flags;
  if has_flag flags RTE_TCP_FIN_FLAG || has_flag flags RTE_TCP_RST_FLAG then
    _ ← send (fun _ => reply_rst_pkt TX_CKSUM recv);
    _ ← rte_free (recv_pkt f);
    rte_free (Some p)
  else
    match recv_pkt f with
    | None => mret tt
    | Some q =>
        cached ← load_bytes (Some q);
        if decide (off_seq + 4 <= length cached)%nat then
          sent_seq ← hdr recv 4 off_seq;
          if le_at 4 cached off_seq =? sent_seq
          then send (fun rc => send_syn_pkt TX_CKSUM rc (d_index (entry_data f)) recv)
          else mret tt
        else fault OutOfRoom
    end.

(** ** A packet for a known client: lines 247-338 *)

Definition server_answers (recv : mbuf) (v : view) (p : loc) (f : flow_data_t) : P unit :=
  flags ← hdr recv 1 off_flags;
  if negb (flags =? Z.lor RTE_TCP_ACK_FLAG RTE_TCP_SYN_FLAG) then mret tt else
  _ ← (if offload_flag (entry_data f) =? 1 then
         _ ← store_flow p (FlowData OFFLOAD (entry_data f) (recv_pkt f) (pkt_size f));
         enqueue_add (MyPair (dst_my_key v) (entry_data f))
       else store_flow p (FlowData COMPLETE (entry_data f) (recv_pkt f) (pkt_size f)));
  cached ← load_bytes (recv_pkt f);
  send (fun rc => send_cached_pkt TX_CKSUM rc (d_index (entry_data f)) cached (pkt_size f)).

Definition server_connected (recv : mbuf) (v : view) (p : loc) (f : flow_data_t) : P unit :=
  flags ← hdr recv 1 off_flags;
  if has_flag flags RTE_TCP_RST_FLAG then
    _ ← send (fun rc => forward_outbound_pkt TX_CKSUM rc recv);
    end_flow p f (dst_crc v) (dst_key v) (dst_my_key v)
  else if has_flag flags RTE_TCP_FIN_FLAG then
    _ ← send (fun _ => reply_rst_pkt TX_CKSUM recv);
    let recv := as_reset recv in
    _ ← send (fun rc => forward_outbound_pkt TX_CKSUM rc recv);
    end_flow p f (dst_crc v) (dst_key v) (dst_my_key v)
  else send (fun rc => forward_outbound_pkt TX_CKSUM rc recv).

(** ** A new client: lines 342-387 *)

Definition new_client (recv : mbuf) (v : view) : P unit :=
  if negb (payload_flag v) then mret tt else
  url ← request_url recv v;
  match url with
  | None => mret tt
  | Some url =>
      new_data ← balancing_rule url;
      match new_data with
      | None => mret tt
      | Some new_data =>
          _ ← send (fun rc => send_syn_pkt TX_CKSUM rc (d_index new_data) recv);
          p ← rte_malloc (BFlow (FlowData BACKEND_SYN new_data None 0));
          if decide (Z.to_nat (data_len recv) <= length (room recv))%nat then
            q ← rte_malloc (BBytes (content recv));
            _ ← store_flow p (FlowData BACKEND_SYN new_data (Some q) (data_len recv));
            insert_flow (src_crc v) (src_key v) p
          else fault OutOfRoom
      end
  end.

(** ** The body of the loop, and the batch *)

(** From the look-up of the sender on.  A packet that no branch of a [switch] took
    falls through to the next look-up. *)
Definition process_tcp (recv : mbuf) (v : view) : P unit :=
  src ← find_flow (src_crc v) (src_key v);
  handled ← match src with
    | None => mret false
    | Some p =>
        f ← load_flow p;
        match state f with
        | COMPLETE | OFFLOAD => _ ← client_connected recv v p f; mret true
        | BACKEND_SYN => _ ← client_waiting recv v p f; mret true
        | INIT => mret false
        end
    end;
  if handled : bool then mret tt else
  dst ← find_flow (dst_crc v) (dst_key v);
  handled ← match dst with
    | None => mret false
    | Some p =>
        f ← load_flow p;
        match state f with
        | BACKEND_SYN => _ ← server_answers recv v p f; mret true
        | COMPLETE | OFFLOAD => _ ← server_connected recv v p f; mret true
        | INIT => mret false
        end
    end;
  if handled : bool then mret tt else new_client recv v.

Definition process_pkt (recv : mbuf) : P unit :=
  ether_type ← hdr recv 2 off_h_proto;
  if negb (ether_type =? bswap16 ETH_P_IP) then mret tt else
  next_proto_id ← hdr recv 1 off_protocol;
  if negb (next_proto_id =? IPPROTO_TCP) then mret tt else
  v ← view_of recv;
  process_tcp recv v.

(** What a batch does to the buffers it allocated. *)
Record batch_end := BatchEnd { batch_status : status_t; transmitted : list mbuf; freed : list mbuf }.

(** [alloc]: what [rte_pktmbuf_alloc_bulk] gives, [None] for a failure; [tx]: how
    many packets [rte_eth_tx_burst] takes. *)
Definition process_pkts (recv_pkts : list mbuf) (alloc : option (list mbuf)) (tx : nat) : P batch_end :=
  match alloc with
  | None => mret (BatchEnd INTERNAL_ERROR [] [])
  | Some bufs =>
      _ ← modify (set_send bufs 0);
      s ← get;
      let '(r, s) := for_each process_pkt recv_pkts s in
      _ ← put s;
      match r with
      | Err (Fault f) => fault f
      | Err (Returns st) => mret (BatchEnd st [] [])
      | Ret _ =>
          let pkts := take (send_size s) (send_pkts s) in
          let st := if decide (Nat.min tx (length pkts) = send_size s) then OK else INTERNAL_ERROR in
          mret (BatchEnd st (take tx pkts) (drop (send_size s) (send_pkts s)))
      end
  end.

(** The body of the loop of [worker_fun]: receive at most a burst of packets and
    process it.  Its status is only printed. *)
Definition worker_step (burst : list mbuf) (alloc : option (list mbuf)) (tx : nat) : P unit :=
  match burst with
  | [] => mret tt
  | _ => _ ← process_pkts burst alloc tx; mret tt
  end.
End processor.
Arguments pp : clear implicits.

#[export] Instance gmap_cuckoo_laws {V} : CuckooMapLaws (gmap Z V) V.
Proof.
  split; cbn.
  - done.
  - intros m k v E. rewrite E. apply lookup_insert_eq.
  - intros m k k' v Hne. destruct (m !! k); [done|]. by apply lookup_insert_ne.
  - intros m k. apply lookup_delete_eq.
  - intros m k k' Hne. by apply lookup_delete_ne.
Qed.
