(* ===== verification/FlowSpec.v ===== *)
(** * What the packet processor promises

    An abstract front end: a table from clients to flows, without pointers, hash
    buckets or buffers.  [spec_step] is what one packet does to the table, which
    entries it puts in the queues for the switch, and which packets it sends. *)
From Stdlib Require Import ZArith Lia.
From stdpp Require Import base list gmap.
From S2P Require Import Prelude Bpf Wire EntryController BfRt RuleController Packet PacketProofs PktProcessor.

(** A client: address and port. *)
Abbreviation client := (Z * Z)%type.
Definition client_ok (e : client) : Prop := in_u32 (fst e) /\ in_u16 (snd e).

Definition src_of (p : list Z) : client := (be_at 4 p off_saddr, be_at 2 p off_source).
Definition dst_of (p : list Z) : client := (be_at 4 p off_daddr, be_at 2 p off_dest).

(** The key of a client in messages, and its place in [flow_hash_map]. *)
Definition crc_of (e : client) : Z := calculate_crc8 (bswap32 (fst e)) (bswap16 (snd e)).
Definition key_of (e : client) : Z := flow_key64 (bswap32 (fst e)) (bswap16 (snd e)).
Definition my_key_of (e : client) : my_key_t := MyKey (crc_of e) (fst e) (snd e).

(** The server has the SYN; packets pass through this machine; packets pass
    through the switch alone. *)
Inductive phase : Type := Waiting | Direct | Offloaded.

#[export] Instance phase_eq_dec : EqDecision phase.
Proof. solve_decision. Defined.

Record flow := Flow { f_phase : phase; f_data : my_data_t; f_request : list Z }.

(** [Dangling]: freed, but still in the table. *)
Inductive entry : Type := Live (f : flow) | Dangling.

Abbreviation table := (gmap client entry).

(** The packets to send, in terms of the one received; [CachedTo] is the request
    the flow kept.  Servers are named by index. *)
Inductive out : Type :=
| ToServer (d : Z) (recv : mbuf)
| ToClient (recv : mbuf)
| ResetReply (recv : mbuf)
| ResetServer (d : Z) (recv : mbuf)
| SynTo (d : Z) (recv : mbuf)
| CachedTo (d : Z) (request : list Z).

Section spec.
Context (rc : rule_controller_t).

(** The bytes in the buffer are the packet asked for. *)
Definition is_out (o : out) (m : mbuf) : Prop :=
  match o with
  | ToServer d recv => exists i, server_of rc d = Some i /\ forwarded_in i (room recv) (Z.to_nat (data_len recv)) m
  | ToClient recv => forwarded_out (virtual_server_info rc) (room recv) (Z.to_nat (data_len recv)) m
  | ResetReply recv => reset_reply recv m
  | ResetServer d recv => exists i, server_of rc d = Some i /\ reset_server i (room recv) m
  | SynTo d recv => exists i, server_of rc d = Some i /\ syn_of i (room recv) m
  | CachedTo d request => exists i, server_of rc d = Some i /\ forwarded_in i request (length request) m
  end.

Abbreviation result := (outcome pp_stop (table * list ec_op * list out)).

(** ** Packets *)

Definition flags_of (p : list Z) : Z := le_at 1 p off_flags.
Definition is_reset (p : list Z) : bool := has_flag (flags_of p) RTE_TCP_RST_FLAG.
Definition is_fin (p : list Z) : bool := has_flag (flags_of p) RTE_TCP_FIN_FLAG.

Definition payload_at (p : list Z) : nat := off_tcp + Z.to_nat (l4_of p).
Definition payload_len (p : list Z) : Z := total_length p - (20 + l4_of p).
Definition has_payload (p : list Z) : bool := 0 <? payload_len p.

(** The URL of a request, where the code finds it. *)
Definition url_of (p : list Z) : outcome pkt_fault (list Z) :=
  let payload := drop (payload_at p) p in
  match parse_payload payload (Z.to_nat (payload_len p)) with
  | Err x => Err x
  | Ret (i, size) => copy_url payload i size
  end.

(** ** One packet *)

(** What the switch is told when a flow stops being offloaded. *)
Definition taken_back (e : client) (f : flow) : list ec_op :=
  if decide (f_phase f = Offloaded) then [EnqDel (my_key_of e)] else [].

(** A request of a connected client, for which there is the rule [n]. *)
Definition spec_request (t : table) (e : client) (f : flow) (recv : mbuf) (n : my_data_t) : table * list ec_op * list out :=
  let d := d_index (f_data f) in
  if negb (d_index n =? d) then
    (<[e := Live (Flow Waiting n (content recv))]> t, taken_back e f, [ResetServer d recv; SynTo (d_index n) recv])
  else if decide (f_phase f = Direct /\ offload_flag n = 1) then
    (<[e := Live (Flow Offloaded (f_data f) (f_request f))]> t, [EnqAdd (MyPair (my_key_of e) (f_data f))], [ToServer d recv])
  else if decide (f_phase f = Offloaded /\ offload_flag n = 0) then
    (<[e := Live (Flow Direct (f_data f) (f_request f))]> t, [EnqDel (my_key_of e)], [ToServer d recv])
  else (t, [], [ToServer d recv]).

(** A packet from a client with a flow. *)
Definition spec_client (t : table) (e : client) (f : flow) (recv : mbuf) : result :=
  let p := room recv in
  let d := d_index (f_data f) in
  match f_phase f with
  | Waiting =>
      if is_fin p || is_reset p then Ret (<[e := Dangling]> t, [], [ResetReply recv])
      else if le_at 4 (f_request f) off_seq =? le_at 4 p off_seq then Ret (t, [], [SynTo d recv])
      else Ret (t, [], [])
  | _ =>
      if is_reset p then Ret (delete e t, taken_back e f, [ToServer d recv])
      else if is_fin p then Ret (delete e t, taken_back e f, [ResetReply recv; ToServer d (as_reset recv)])
      else if has_payload p then
        match url_of p with
        | Err x => Err (Fault x)
        | Ret url =>
            match rule_map rc !! url with
            | None => Ret (t, [], [])
            | Some n => Ret (spec_request t e f recv n)
            end
        end
      else Ret (t, [], [ToServer d recv])
  end.

(** A packet to a client with a flow. *)
Definition spec_server (t : table) (e : client) (f : flow) (recv : mbuf) : result :=
  let p := room recv in
  let d := d_index (f_data f) in
  match f_phase f with
  | Waiting =>
      if negb (flags_of p =? Z.lor RTE_TCP_ACK_FLAG RTE_TCP_SYN_FLAG) then Ret (t, [], [])
      else if offload_flag (f_data f) =? 1 then
        Ret (<[e := Live (Flow Offloaded (f_data f) (f_request f))]> t, [EnqAdd (MyPair (my_key_of e) (f_data f))], [CachedTo d (f_request f)])
      else Ret (<[e := Live (Flow Direct (f_data f) (f_request f))]> t, [], [CachedTo d (f_request f)])
  | _ =>
      if is_reset p then Ret (delete e t, taken_back e f, [ToClient recv])
      else if is_fin p then Ret (delete e t, taken_back e f, [ResetReply recv; ToClient (as_reset recv)])
      else Ret (t, [], [ToClient recv])
  end.

(** A packet from a client without a flow. *)
Definition spec_new (t : table) (e : client) (recv : mbuf) : result :=
  if negb (has_payload (room recv)) then Ret (t, [], []) else
  match url_of (room recv) with
  | Err x => Err (Fault x)
  | Ret url =>
      match rule_map rc !! url with
      | None => Ret (t, [], [])
      | Some n => Ret (<[e := Live (Flow Waiting n (content recv))]> t, [], [SynTo (d_index n) recv])
      end
  end.

Definition tcp_packet (p : list Z) : Prop := be_at 2 p off_h_proto = ETH_P_IP /\ le_at 1 p off_protocol = IPPROTO_TCP.

Definition spec_step (t : table) (recv : mbuf) : result :=
  let p := room recv in
  if decide (tcp_packet p) then
    match t !! src_of p with
    | Some Dangling => Err (Fault UseAfterFree)
    | Some (Live f) => spec_client t (src_of p) f recv
    | None =>
        match t !! dst_of p with
        | Some Dangling => Err (Fault UseAfterFree)
        | Some (Live f) => spec_server t (dst_of p) f recv
        | None => spec_new t (src_of p) recv
        end
    end
  else Ret (t, [], []).
End spec.

(** Packets one after the other. *)
Fixpoint spec_run (rc : rule_controller_t) (t : table) (recvs : list mbuf) : outcome pp_stop (table * list ec_op * list out) :=
  match recvs with
  | [] => Ret (t, [], [])
  | recv :: recvs =>
      match spec_step rc t recv with
      | Err e => Err e
      | Ret (t, ops, outs) =>
          match spec_run rc t recvs with
          | Err e => Err e
          | Ret (t', ops', outs') => Ret (t', ops ++ ops', outs ++ outs')
          end
      end
  end.

(** ** What the switch knows

    The offloaded clients and their servers, from the entries put in the queues
    so far, taken in order. *)
Definition announce (m : gmap client Z) (op : ec_op) : gmap client Z :=
  match op with
  | EnqAdd p => <[(client_ip (pair_key p), client_port (pair_key p)) := d_index (pair_data p)]> m
  | EnqDel k => delete (client_ip k, client_port k) m
  | Tick => m
  end.
Definition announced (ops : list ec_op) : gmap client Z := foldl announce ∅ ops.

(** The offloaded flows of the table. *)
Definition offloaded (x : entry) : option Z :=
  match x with
  | Live f => if decide (f_phase f = Offloaded) then Some (d_index (f_data f)) else None
  | Dangling => None
  end.

(** Nothing is announced that is already known, nothing taken back that is not. *)
Fixpoint told (m : gmap client Z) (ops : list ec_op) : Prop :=
  match ops with
  | [] => True
  | op :: ops =>
      match op with
      | EnqAdd p => m !! (client_ip (pair_key p), client_port (pair_key p)) = None
      | EnqDel k => is_Some (m !! (client_ip k, client_port k))
      | Tick => False
      end /\ told (announce m op) ops
  end.

Lemma told_app m ops ops' : told m (ops ++ ops') <-> told m ops /\ told (foldl announce m ops) ops'.
Proof. revert m. induction ops as [|op ops IH]; intros m; cbn; [tauto|]. rewrite IH. tauto. Qed.

Lemma announced_app ops ops' : announced (ops ++ ops') = foldl announce (announced ops) ops'.
Proof. apply foldl_app. Qed.

Lemma omap_insert_none (t : table) e x : offloaded x = None -> omap offloaded (<[e := x]> t) = delete e (omap offloaded t).
Proof. intros E. apply map_eq. intros i. rewrite lookup_omap. destruct (decide (e = i)) as [<-|].
  - by rewrite lookup_insert_eq, lookup_delete_eq.
  - by rewrite lookup_insert_ne, lookup_delete_ne, lookup_omap.
Qed.

Lemma omap_same (t : table) e x : (t !! e ≫= offloaded) = offloaded x -> omap offloaded (<[e := x]> t) = omap offloaded t.
Proof.
  intros E. apply map_eq. intros i. rewrite !lookup_omap. destruct (decide (e = i)) as [<-|].
  - by rewrite lookup_insert_eq.
  - by rewrite lookup_insert_ne.
Qed.

Lemma omap_delete_same (t : table) e : (t !! e ≫= offloaded) = None -> omap offloaded (delete e t) = omap offloaded t.
Proof.
  intros E. apply map_eq. intros i. rewrite !lookup_omap. destruct (decide (e = i)) as [<-|].
  - by rewrite lookup_delete_eq.
  - by rewrite lookup_delete_ne.
Qed.

Section mirror.
Context (rc : rule_controller_t).
Implicit Types t : table.

(** [ops] tell the switch what changed from [t] to [t']. *)
Definition mirrors t t' ops : Prop :=
  told (omap offloaded t) ops /\ foldl announce (omap offloaded t) ops = omap offloaded t'.

Lemma mirrors_taken_back t e f x : t !! e = Some (Live f) -> offloaded x = None -> mirrors t (<[e := x]> t) (taken_back e f).
Proof.
  intros E Hx. destruct e as [a p]. unfold mirrors, taken_back. case_decide as Hp; cbn.
  - rewrite omap_insert_none by done. split; [|done]. split; [|done]. rewrite lookup_omap, E. cbn. by rewrite decide_True.
  - split; [done|]. symmetry. apply omap_same. rewrite E, Hx. cbn. by rewrite decide_False.
Qed.

Lemma mirrors_ended t e f : t !! e = Some (Live f) -> mirrors t (delete e t) (taken_back e f).
Proof.
  intros E. destruct e as [a p]. unfold mirrors, taken_back. case_decide as Hp; cbn.
  - rewrite omap_delete. split; [|done]. split; [|done]. rewrite lookup_omap, E. cbn. by rewrite decide_True.
  - split; [done|]. symmetry. apply omap_delete_same. rewrite E. cbn. by rewrite decide_False.
Qed.

Lemma mirrors_offload t e f : t !! e = Some (Live f) -> f_phase f <> Offloaded ->
  mirrors t (<[e := Live (Flow Offloaded (f_data f) (f_request f))]> t) [EnqAdd (MyPair (my_key_of e) (f_data f))].
Proof.
  intros E Hp. destruct e as [a p]. unfold mirrors. cbn. split.
  - split; [|done]. rewrite lookup_omap, E. cbn. by rewrite decide_False.
  - symmetry. by apply omap_insert_Some.
Qed.

Lemma mirrors_silent t e x : (t !! e ≫= offloaded) = offloaded x -> mirrors t (<[e := x]> t) [].
Proof. intros. split; [done|]. symmetry. by apply omap_same. Qed.

Lemma mirrors_nothing t : mirrors t t [].
Proof. done. Qed.

Lemma spec_client_mirror t e f recv t' ops outs : t !! e = Some (Live f) ->
  spec_client rc t e f recv = Ret (t', ops, outs) -> mirrors t t' ops.
Proof.
  intros E. unfold spec_client. destruct (f_phase f) eqn:Ep.
  - case_match; [intros [= <- <- <-] | case_match; by intros [= <- <- <-]].
    apply mirrors_silent. rewrite E. cbn. by rewrite Ep.
  - case_match; [intros [= <- <- <-]; by apply mirrors_ended|].
    case_match; [intros [= <- <- <-]; by apply mirrors_ended|].
    case_match; [|by intros [= <- <- <-]]. case_match; [|done]. case_match; [|by intros [= <- <- <-]].
    unfold spec_request. case_match; [intros [= <- <- <-]; by apply mirrors_taken_back|].
    case_decide; [intros [= <- <- <-]; apply mirrors_offload; [done | by rewrite Ep]|]. rewrite decide_False by (rewrite Ep; by intros []).
    by intros [= <- <- <-].
  - case_match; [intros [= <- <- <-]; by apply mirrors_ended|].
    case_match; [intros [= <- <- <-]; by apply mirrors_ended|].
    case_match; [|by intros [= <- <- <-]]. case_match; [|done]. case_match; [|by intros [= <- <- <-]].
    unfold spec_request. case_match; [intros [= <- <- <-]; by apply mirrors_taken_back|].
    rewrite decide_False by (rewrite Ep; by intros []). case_decide; [|by intros [= <- <- <-]].
    intros [= <- <- <-]. pose proof (mirrors_taken_back t e f (Live (Flow Direct (f_data f) (f_request f))) E eq_refl) as Hm.
    unfold taken_back in Hm. by rewrite decide_True in Hm.
Qed.

Lemma spec_server_mirror t e f recv t' ops outs : t !! e = Some (Live f) ->
  spec_server t e f recv = Ret (t', ops, outs) -> mirrors t t' ops.
Proof.
  intros E. unfold spec_server. destruct (f_phase f) eqn:Ep.
  - case_match; [by intros [= <- <- <-]|]. case_match; intros [= <- <- <-]; [apply mirrors_offload; [done | by rewrite Ep]|].
    apply mirrors_silent. rewrite E. cbn. by rewrite Ep.
  - repeat case_match; intros [= <- <- <-]; try done; by apply mirrors_ended.
  - repeat case_match; intros [= <- <- <-]; try done; by apply mirrors_ended.
Qed.

Lemma spec_step_mirror t recv t' ops outs : spec_step rc t recv = Ret (t', ops, outs) -> mirrors t t' ops.
Proof.
  unfold spec_step. case_decide; [|by intros [= <- <- <-]].
  destruct (t !! src_of (room recv)) as [[f|]|] eqn:Es; [by apply spec_client_mirror | done |].
  destruct (t !! dst_of (room recv)) as [[f|]|] eqn:Ed; [by apply spec_server_mirror | done |].
  unfold spec_new. case_match; [by intros [= <- <- <-]|]. case_match; [|done]. case_match; intros [= <- <- <-]; [|done].
  apply mirrors_silent. by rewrite Es.
Qed.

Lemma spec_run_mirror recvs : forall t t' ops outs, spec_run rc t recvs = Ret (t', ops, outs) -> mirrors t t' ops.
Proof.
  induction recvs as [|recv recvs IH]; intros t t' ops outs; cbn; [by intros [= <- <- <-]|].
  destruct (spec_step rc t recv) as [[[t1 ops1] outs1]|] eqn:E1; [|done].
  destruct (spec_run rc t1 recvs) as [[[t2 ops2] outs2]|] eqn:E2; [|done]. intros [= <- <- <-].
  apply spec_step_mirror in E1. apply IH in E2. destruct E1 as [T1 E1], E2 as [T2 E2].
  split; [by rewrite told_app, E1|]. by rewrite foldl_app, E1.
Qed.
End mirror.
