(* ===== verification/FlowHeap.v ===== *)
(** * The flow table in memory

    How the hash maps, the heap and the pointers of [PktProcessor] represent the
    table of [FlowSpec], and that each of the changes the code makes to them -
    a store, a free, an allocation, an insertion - is a change of the table. *)
From Stdlib Require Import ZArith Lia.
From stdpp Require Import base list gmap.
From S2P Require Import Prelude Bpf Wire EntryController BfRt RuleController Packet PacketProofs PktProcessor FlowSpec.

(** ** Keys *)

Lemma crc8_at_range i : is_byte (crc8_at i).
Proof.
  assert (Forall is_byte crc8_table) as Hf by (apply Forall_map, Forall_true; intros; apply crc8_shift_byte).
  unfold crc8_at. rewrite nth_lookup. destruct (crc8_table !! Z.to_nat i) eqn:E; cbn; [|done]. by eapply Forall_lookup_1 in Hf.
Qed.

Lemma crc_of_lt e : (Z.to_nat (crc_of e) < 256)%nat.
Proof.
  unfold crc_of, calculate_crc8. cbv zeta.
  match goal with |- (Z.to_nat (crc8_at ?i) < _)%nat => pose proof (crc8_at_range i) end. modlia.
Qed.

Lemma bswap16_involutive z : in_u16 z -> bswap16 (bswap16 z) = z.
Proof. intros. unfold bswap16 at 1. by apply be_val_le_bytes_bswap16. Qed.

Lemma flow_key64_val a p : in_u32 a -> in_u16 p -> flow_key64 a p = a * 2 ^ 32 + p.
Proof. intros. unfold flow_key64. rewrite Z.shiftl_mul_pow2 by lia. unfold u64. rewrite !Z.mod_small by modlia. done. Qed.

Lemma key_of_inj e e' : client_ok e -> client_ok e' -> key_of e = key_of e' -> e = e'.
Proof.
  intros [H1 H2] [H1' H2'] E. unfold key_of in E.
  rewrite !flow_key64_val in E by auto with words.
  pose proof (bswap32_range e.1). pose proof (bswap16_range e.2).
  pose proof (bswap32_range e'.1). pose proof (bswap16_range e'.2).
  assert (bswap32 e.1 = bswap32 e'.1) as E1 by modlia. assert (bswap16 e.2 = bswap16 e'.2) as E2 by modlia.
  apply (f_equal bswap32) in E1. apply (f_equal bswap16) in E2.
  rewrite !bswap32_involutive in E1 by done. rewrite !bswap16_involutive in E2 by done.
  destruct e, e'. cbn in *. congruence.
Qed.

#[local] Opaque crc_of key_of.

(** ** Hash maps *)

Lemma alter_is_insert {A} (f : A -> A) (i : nat) (l : list A) x : l !! i = Some x -> alter f i l = <[i := f x]> l.
Proof. intros E. rewrite list_insert_alter. apply list_alter_ext; [|done]. intros y Ey. congruence. Qed.

Section maps.
Context {Mp : Type} `{CuckooMap Mp loc} `{!CuckooMapLaws Mp loc}.
Implicit Types ms : list Mp.

Definition flow_at ms (e : client) : option loc := ms !! Z.to_nat (crc_of e) ≫= fun m => cuckoo_find m (key_of e).
Definition with_flow ms (e : client) (p : loc) : list Mp := alter (fun m => cuckoo_insert m (key_of e) p) (Z.to_nat (crc_of e)) ms.
Definition without_flow ms (e : client) : list Mp := alter (fun m => cuckoo_erase m (key_of e)) (Z.to_nat (crc_of e)) ms.

Lemma flow_at_with ms e p e' : length ms = 256%nat -> client_ok e -> client_ok e' -> flow_at ms e = None ->
  flow_at (with_flow ms e p) e' = if decide (e = e') then Some p else flow_at ms e'.
Proof.
  intros L Hv Hv' E. unfold flow_at, with_flow in *. destruct (decide (e = e')) as [<-|Hne].
  - rewrite list_lookup_alter_eq. destruct (lookup_lt_is_Some_2 ms (Z.to_nat (crc_of e))) as [m Em]; [rewrite L; apply crc_of_lt|].
    rewrite Em in *. cbn in *. by apply cuckoo_find_insert.
  - destruct (decide (Z.to_nat (crc_of e) = Z.to_nat (crc_of e'))) as [Ec|]; [|by rewrite list_lookup_alter_ne].
    rewrite <- Ec, list_lookup_alter_eq. destruct (ms !! _) as [m|]; [|done]. cbn.
    apply cuckoo_find_insert_ne. intros Ek. by apply Hne, key_of_inj.
Qed.

Lemma flow_at_without ms e e' : client_ok e -> client_ok e' ->
  flow_at (without_flow ms e) e' = if decide (e = e') then None else flow_at ms e'.
Proof.
  intros Hv Hv'. unfold flow_at, without_flow. destruct (decide (e = e')) as [<-|Hne].
  - rewrite list_lookup_alter_eq. destruct (ms !! _) as [m|]; [|done]. cbn. apply cuckoo_find_erase.
  - destruct (decide (Z.to_nat (crc_of e) = Z.to_nat (crc_of e'))) as [Ec|]; [|by rewrite list_lookup_alter_ne].
    rewrite <- Ec, list_lookup_alter_eq. destruct (ms !! _) as [m|]; [|done]. cbn.
    apply cuckoo_find_erase_ne. intros Ek. by apply Hne, key_of_inj.
Qed.

(** Nothing but clients, each in its own map under its own key. *)
Definition keyed ms : Prop := forall i m k p, ms !! i = Some m -> cuckoo_find m k = Some p ->
  exists e, client_ok e /\ i = Z.to_nat (crc_of e) /\ k = key_of e.

Lemma keyed_with ms e p : client_ok e -> keyed ms -> keyed (with_flow ms e p).
Proof.
  intros Hv Hk i m k p' Em E. unfold with_flow in Em. destruct (decide (Z.to_nat (crc_of e) = i)) as [<-|Hi].
  - rewrite list_lookup_alter_eq in Em. apply fmap_Some in Em as (m' & Em & ->).
    destruct (decide (key_of e = k)) as [<-|Hne]; [by exists e|]. rewrite cuckoo_find_insert_ne in E by done. by eapply Hk.
  - rewrite list_lookup_alter_ne in Em by done. by eapply Hk.
Qed.

Lemma keyed_without ms e : keyed ms -> keyed (without_flow ms e).
Proof.
  intros Hk i m k p' Em E. unfold without_flow in Em. destruct (decide (Z.to_nat (crc_of e) = i)) as [<-|Hi].
  - rewrite list_lookup_alter_eq in Em. apply fmap_Some in Em as (m' & Em & ->).
    destruct (decide (key_of e = k)) as [<-|Hne]; [by rewrite cuckoo_find_erase in E|].
    rewrite cuckoo_find_erase_ne in E by done. by eapply Hk.
  - rewrite list_lookup_alter_ne in Em by done. by eapply Hk.
Qed.
End maps.

(** ** Representation *)

Definition state_of (ph : phase) : flow_state :=
  match ph with Waiting => BACKEND_SYN | Direct => COMPLETE | Offloaded => OFFLOAD end.

Lemma state_of_offload ph : state_of ph = OFFLOAD <-> ph = Offloaded.
Proof. by destruct ph. Qed.

(** A flow in memory; [q] is where its request is. *)
Definition in_memory (f : flow) (q : loc) : flow_data_t :=
  FlowData (state_of (f_phase f)) (f_data f) (Some q) (Z.of_nat (length (f_request f))).

Section rep.
Context {Mp : Type} `{CuckooMap Mp loc} `{!CuckooMapLaws Mp loc}.
Implicit Types (t : table) (pt : gmap client (loc * loc)) (h : gmap loc block) (ms : list Mp).

(** [pt] holds, for every client in the table, the addresses of its flow and of
    the request, and the maps have a pointer for each and no other.  Addresses are never shared, the flow and the request of a live
    client are there, those of a dangling one are not, and nothing else is on the
    heap. *)
Record rep t pt ms h (n : nat) : Prop := {
  rep_length : length ms = 256%nat;
  rep_keyed : keyed ms;
  rep_find e : client_ok e -> flow_at ms e = fst <$> pt !! e;
  rep_dom e : pt !! e = None <-> t !! e = None;
  rep_ok e x : t !! e = Some x -> client_ok e;
  rep_flow e f p q : t !! e = Some (Live f) -> pt !! e = Some (p, q) -> h !! p = Some (BFlow (in_memory f q));
  rep_request e f p q : t !! e = Some (Live f) -> pt !! e = Some (p, q) -> h !! q = Some (BBytes (f_request f));
  rep_gone e p q : t !! e = Some Dangling -> pt !! e = Some (p, q) -> h !! p = None;
  rep_sep e e' p q p' q' : pt !! e = Some (p, q) -> pt !! e' = Some (p', q') -> e <> e' -> p <> p' /\ p <> q' /\ q <> p' /\ q <> q';
  rep_old e p q : pt !! e = Some (p, q) -> (p < n)%nat /\ (q < n)%nat;
  rep_owned l b : h !! l = Some b -> exists e f p q, t !! e = Some (Live f) /\ pt !! e = Some (p, q) /\ (l = p \/ l = q)
}.

Lemma rep_ptrs t pt ms h n e x : rep t pt ms h n -> t !! e = Some x -> exists p q, pt !! e = Some (p, q).
Proof.
  intros R E. destruct (pt !! e) as [[p q]|] eqn:Ep; [eauto|]. apply (rep_dom _ _ _ _ _ R) in Ep. congruence.
Qed.

Lemma rep_pq t pt ms h n e f p q : rep t pt ms h n -> t !! e = Some (Live f) -> pt !! e = Some (p, q) -> p <> q.
Proof.
  intros R E Ep ->. pose proof (rep_flow _ _ _ _ _ R _ _ _ _ E Ep). pose proof (rep_request _ _ _ _ _ R _ _ _ _ E Ep). congruence.
Qed.

Lemma rep_fresh t pt ms h n : rep t pt ms h n -> h !! n = None.
Proof.
  intros R. destruct (h !! n) as [b|] eqn:E; [|done].
  destruct (rep_owned _ _ _ _ _ R _ _ E) as (e & f & p & q & _ & Ep & Hl).
  destruct (rep_old _ _ _ _ _ R _ _ _ Ep). lia.
Qed.

End rep.

(** Solve the clauses for other clients. *)
Ltac other R := first
  [ by eapply (rep_flow _ _ _ _ _ R) | by eapply (rep_request _ _ _ _ _ R) | by eapply (rep_gone _ _ _ _ _ R)
  | by eapply (rep_ok _ _ _ _ _ R) | by eapply (rep_sep _ _ _ _ _ R) | by eapply (rep_old _ _ _ _ _ R) ].

Section changes.
Context {Mp : Type} `{CuckooMap Mp loc} `{!CuckooMapLaws Mp loc}.
Implicit Types (t : table) (pt : gmap client (loc * loc)) (h : gmap loc block) (ms : list Mp).

(** A store to a flow. *)
Lemma rep_store t pt ms h n e f f' p q : rep t pt ms h n ->
  t !! e = Some (Live f) -> pt !! e = Some (p, q) -> f_request f' = f_request f ->
  rep (<[e := Live f']> t) pt ms (<[p := BFlow (in_memory f' q)]> h) n.
Proof.
  intros R E Ep Hr. pose proof (rep_pq _ _ _ _ _ _ _ _ _ R E Ep) as Hpq. split; try other R.
  - apply R.
  - apply R.
  - apply R.
  - intros e'. destruct (decide (e = e')) as [<-|]; [by rewrite lookup_insert_eq, Ep|]. rewrite lookup_insert_ne by done. apply R.
  - intros e' x. destruct (decide (e = e')) as [<-|]; [intros _; by eapply (rep_ok _ _ _ _ _ R)|]. rewrite lookup_insert_ne by done. apply R.
  - intros e' g p' q'. destruct (decide (e = e')) as [<-|Hne].
    + rewrite lookup_insert_eq, Ep. intros [= <-] [= <- <-]. by rewrite lookup_insert_eq.
    + rewrite lookup_insert_ne by done. intros E' Ep'. destruct (rep_sep _ _ _ _ _ R _ _ _ _ _ _ Ep Ep' Hne) as (? & _).
      rewrite lookup_insert_ne by done. other R.
  - intros e' g p' q'. destruct (decide (e = e')) as [<-|Hne].
    + rewrite lookup_insert_eq, Ep. intros [= <-] [= <- <-]. rewrite lookup_insert_ne, Hr by done. other R.
    + rewrite lookup_insert_ne by done. intros E' Ep'. destruct (rep_sep _ _ _ _ _ R _ _ _ _ _ _ Ep Ep' Hne) as (_ & ? & _).
      rewrite lookup_insert_ne by done. other R.
  - intros e' p' q'. destruct (decide (e = e')) as [<-|Hne]; [by rewrite lookup_insert_eq|].
    rewrite lookup_insert_ne by done. intros E' Ep'. destruct (rep_sep _ _ _ _ _ R _ _ _ _ _ _ Ep Ep' Hne) as (? & _).
    rewrite lookup_insert_ne by done. other R.
  - intros l b. destruct (decide (p = l)) as [<-|].
    + intros _. exists e, f', p, q. rewrite lookup_insert_eq. auto.
    + rewrite lookup_insert_ne by done. intros Hl. destruct (rep_owned _ _ _ _ _ R _ _ Hl) as (e' & g & p' & q' & E' & Ep' & Hor).
      destruct (decide (e = e')) as [<-|].
      * exists e, f', p, q. rewrite lookup_insert_eq. rewrite Ep in Ep'. injection Ep' as -> ->. auto.
      * exists e', g, p', q'. rewrite lookup_insert_ne by done. auto.
Qed.

(** Blocks of a client's own: a heap that differs there alone still has the
    others' flows and requests. *)
Lemma rep_others t pt ms h h' n e p q : rep t pt ms h n -> pt !! e = Some (p, q) ->
  (forall l, l <> p -> l <> q -> (l < n)%nat -> h' !! l = h !! l) ->
  forall e', e <> e' ->
    (forall f p' q', t !! e' = Some (Live f) -> pt !! e' = Some (p', q') ->
       h' !! p' = Some (BFlow (in_memory f q')) /\ h' !! q' = Some (BBytes (f_request f))) /\
    (forall p' q', t !! e' = Some Dangling -> pt !! e' = Some (p', q') -> h' !! p' = None).
Proof.
  intros R Ep Hh e' Hne.
  assert (forall p' q', pt !! e' = Some (p', q') -> h' !! p' = h !! p' /\ h' !! q' = h !! q') as Hsame.
  { intros p' q' Ep'. destruct (rep_sep _ _ _ _ _ R _ _ _ _ _ _ Ep Ep' Hne) as (?&?&?&?).
    destruct (rep_old _ _ _ _ _ R _ _ _ Ep'). split; apply Hh; auto. }
  split.
  - intros f p' q' E' Ep'. destruct (Hsame _ _ Ep') as [-> ->]. split; other R.
  - intros p' q' E' Ep'. destruct (Hsame _ _ Ep') as [-> _]. other R.
Qed.

(** The blocks of other clients are owned as before. *)
Lemma rep_owned_others t pt ms h n e p q l b : rep t pt ms h n -> pt !! e = Some (p, q) -> h !! l = Some b -> l <> p -> l <> q ->
  exists e' f p' q', e <> e' /\ t !! e' = Some (Live f) /\ pt !! e' = Some (p', q') /\ (l = p' \/ l = q').
Proof.
  intros R Ep Hl Hp Hq. destruct (rep_owned _ _ _ _ _ R _ _ Hl) as (e' & f & p' & q' & E' & Ep' & Hor).
  exists e', f, p', q'. split_and!; try done. intros <-. rewrite Ep in Ep'. injection Ep' as <- <-. by destruct Hor.
Qed.

(** The end of a flow. *)
Lemma rep_end t pt ms h n e f p q : rep t pt ms h n -> t !! e = Some (Live f) -> pt !! e = Some (p, q) ->
  rep (delete e t) (delete e pt) (without_flow ms e) (delete p (delete q h)) n.
Proof.
  intros R E Ep. pose proof (rep_ok _ _ _ _ _ R _ _ E) as Hv.
  assert (forall l, l <> p -> l <> q -> (l < n)%nat -> delete p (delete q h) !! l = h !! l) as Hh
    by (intros; by rewrite !lookup_delete_ne).
  pose proof (rep_others _ _ _ _ _ _ _ _ _ R Ep Hh) as Ho.
  assert (forall {X} (m : gmap client X) e' x, delete e m !! e' = Some x -> e <> e' /\ m !! e' = Some x) as Hd
    by (intros X m e' x Hx; apply lookup_delete_Some in Hx; tauto).
  split.
  - unfold without_flow. rewrite length_alter. apply R.
  - apply keyed_without, R.
  - intros e' Hv'. rewrite flow_at_without by done. case_decide as Hc; [subst; by rewrite lookup_delete_eq|].
    rewrite lookup_delete_ne by done. by apply R.
  - intros e'. rewrite !lookup_delete_None. rewrite (rep_dom _ _ _ _ _ R e'). done.
  - intros e' x [_ Hx]%Hd. other R.
  - intros e' g p' q' [Hne E']%Hd [_ Ep']%Hd. by apply (proj1 (Ho e' Hne) g).
  - intros e' g p' q' [Hne E']%Hd [_ Ep']%Hd. by apply (proj1 (Ho e' Hne) g p').
  - intros e' p' q' [Hne E']%Hd [_ Ep']%Hd. by apply (proj2 (Ho e' Hne) p' q').
  - intros e1 e2 p1 q1 p2 q2 [_ E1]%Hd [_ E2]%Hd. other R.
  - intros e' p' q' [_ Ep']%Hd. other R.
  - intros l b (Hp & Hq & Hl)%lookup_delete_Some%(λ x, conj (proj1 x) (proj1 (lookup_delete_Some _ _ _ _) (proj2 x))).
    destruct (rep_owned_others _ _ _ _ _ _ _ _ _ _ R Ep Hl) as (e' & g & p' & q' & Hne & E' & Ep' & Hor); [done..|].
    exists e', g, p', q'. by rewrite !lookup_delete_ne.
Qed.

(** Freed, but not forgotten. *)
Lemma rep_dangle t pt ms h n e f p q : rep t pt ms h n -> t !! e = Some (Live f) -> pt !! e = Some (p, q) ->
  rep (<[e := Dangling]> t) pt ms (delete p (delete q h)) n.
Proof.
  intros R E Ep. pose proof (rep_ok _ _ _ _ _ R _ _ E) as Hv.
  assert (forall l, l <> p -> l <> q -> (l < n)%nat -> delete p (delete q h) !! l = h !! l) as Hh
    by (intros; by rewrite !lookup_delete_ne).
  pose proof (rep_others _ _ _ _ _ _ _ _ _ R Ep Hh) as Ho.
  split; try other R; try apply R.
  - intros e'. destruct (decide (e = e')) as [<-|]; [by rewrite lookup_insert_eq, Ep|]. rewrite lookup_insert_ne by done. apply R.
  - intros e' x. destruct (decide (e = e')) as [<-|]; [done|]. rewrite lookup_insert_ne by done. apply R.
  - intros e' g p' q'. destruct (decide (e = e')) as [<-|Hne]; [by rewrite lookup_insert_eq|].
    rewrite lookup_insert_ne by done. intros. by apply (proj1 (Ho e' Hne) g).
  - intros e' g p' q'. destruct (decide (e = e')) as [<-|Hne]; [by rewrite lookup_insert_eq|].
    rewrite lookup_insert_ne by done. intros. by apply (proj1 (Ho e' Hne) g p').
  - intros e' p' q'. destruct (decide (e = e')) as [<-|Hne].
    + rewrite Ep. intros _ [= <- <-]. by rewrite lookup_delete_eq.
    + rewrite lookup_insert_ne by done. intros. by apply (proj2 (Ho e' Hne) p' q').
  - intros l b (Hp & Hq & Hl)%lookup_delete_Some%(λ x, conj (proj1 x) (proj1 (lookup_delete_Some _ _ _ _) (proj2 x))).
    destruct (rep_owned_others _ _ _ _ _ _ _ _ _ _ R Ep Hl) as (e' & g & p' & q' & Hne & E' & Ep' & Hor); [done..|].
    exists e', g, p', q'. by rewrite lookup_insert_ne.
Qed.

(** Another request for a known client: the old one is freed, the new one
    allocated, the flow stored. *)
Lemma rep_renew t pt ms h n e f f' p q : rep t pt ms h n -> t !! e = Some (Live f) -> pt !! e = Some (p, q) ->
  rep (<[e := Live f']> t) (<[e := (p, n)]> pt) ms
    (<[p := BFlow (in_memory f' n)]> (<[n := BBytes (f_request f')]> (delete q h))) (S n).
Proof.
  intros R E Ep. pose proof (rep_ok _ _ _ _ _ R _ _ E) as Hv. destruct (rep_old _ _ _ _ _ R _ _ _ Ep) as [Hp Hq].
  set (h' := <[p := _]> _).
  assert (forall l, l <> p -> l <> q -> (l < n)%nat -> h' !! l = h !! l) as Hh
    by (intros; unfold h'; rewrite !lookup_insert_ne, lookup_delete_ne by lia; done).
  pose proof (rep_others _ _ _ _ _ _ _ _ _ R Ep Hh) as Ho.
  split; try apply R.
  - intros e' Hv'. rewrite (rep_find _ _ _ _ _ R) by done. destruct (decide (e = e')) as [<-|].
    + by rewrite lookup_insert_eq, Ep.
    + by rewrite lookup_insert_ne.
  - intros e'. destruct (decide (e = e')) as [<-|]; [by rewrite !lookup_insert_eq|]. rewrite !lookup_insert_ne by done. apply R.
  - intros e' x. destruct (decide (e = e')) as [<-|]; [done|]. rewrite lookup_insert_ne by done. apply R.
  - intros e' g p' q'. destruct (decide (e = e')) as [<-|Hne].
    + rewrite !lookup_insert_eq. intros [= <-] [= <- <-]. unfold h'. by rewrite lookup_insert_eq.
    + rewrite !lookup_insert_ne by done. intros. by apply (proj1 (Ho e' Hne) g).
  - intros e' g p' q'. destruct (decide (e = e')) as [<-|Hne].
    + rewrite !lookup_insert_eq. intros [= <-] [= <- <-]. unfold h'. rewrite lookup_insert_ne by lia. by rewrite lookup_insert_eq.
    + rewrite !lookup_insert_ne by done. intros. by apply (proj1 (Ho e' Hne) g p').
  - intros e' p' q'. destruct (decide (e = e')) as [<-|Hne]; [by rewrite lookup_insert_eq|].
    rewrite !lookup_insert_ne by done. intros. by apply (proj2 (Ho e' Hne) p' q').
  - intros e1 e2 p1 q1 p2 q2 E1 E2 Hne.
    destruct (decide (e = e1)) as [<-|], (decide (e = e2)) as [<-|]; try done;
      rewrite ?lookup_insert_eq, ?lookup_insert_ne in E1 by done; rewrite ?lookup_insert_eq, ?lookup_insert_ne in E2 by done.
    + injection E1 as <- <-. destruct (rep_sep _ _ _ _ _ R _ _ _ _ _ _ Ep E2 Hne) as (?&?&?&?).
      destruct (rep_old _ _ _ _ _ R _ _ _ E2). lia.
    + injection E2 as <- <-. destruct (rep_sep _ _ _ _ _ R _ _ _ _ _ _ E1 Ep Hne) as (?&?&?&?).
      destruct (rep_old _ _ _ _ _ R _ _ _ E1). lia.
    + by apply (rep_sep _ _ _ _ _ R e1 e2).
  - intros e' p' q' E'. destruct (decide (e = e')) as [<-|Hne].
    + rewrite lookup_insert_eq in E'. injection E' as <- <-. lia.
    + rewrite lookup_insert_ne in E' by done. destruct (rep_old _ _ _ _ _ R _ _ _ E'). lia.
  - intros l b Hl. destruct (decide (l = p)) as [->|Hlp]; [exists e, f', p, n; rewrite !lookup_insert_eq; auto|].
    destruct (decide (l = n)) as [->|Hln]; [exists e, f', p, n; rewrite !lookup_insert_eq; auto|].
    unfold h' in Hl. rewrite !lookup_insert_ne in Hl by done. apply lookup_delete_Some in Hl as [Hlq Hl].
    destruct (rep_owned_others _ _ _ _ _ _ _ _ _ _ R Ep Hl) as (e' & g & p' & q' & Hne & E' & Ep' & Hor); [done..|].
    exists e', g, p', q'. by rewrite !lookup_insert_ne.
Qed.

(** A new client. *)
Lemma rep_new t pt ms h n e f b : rep t pt ms h n -> t !! e = None -> client_ok e ->
  rep (<[e := Live f]> t) (<[e := (n, S n)]> pt) (with_flow ms e n)
    (<[n := BFlow (in_memory f (S n))]> (<[S n := BBytes (f_request f)]> (<[n := b]> h))) (S (S n)).
Proof.
  intros R E Hv. assert (pt !! e = None) as Ep by by apply (rep_dom _ _ _ _ _ R).
  set (h' := <[n := BFlow _]> _).
  assert (forall l, (l < n)%nat -> h' !! l = h !! l) as Hh by (intros; unfold h'; rewrite !lookup_insert_ne by lia; done).
  split.
  - unfold with_flow. rewrite length_alter. apply R.
  - apply keyed_with; [done | apply R].
  - intros e' Hv'. rewrite flow_at_with by first [done | apply (rep_length _ _ _ _ _ R) | by rewrite (rep_find _ _ _ _ _ R), Ep].
    case_decide as Hc; [subst; by rewrite lookup_insert_eq|]. rewrite lookup_insert_ne by done. by apply R.
  - intros e'. destruct (decide (e = e')) as [<-|]; [by rewrite !lookup_insert_eq|]. rewrite !lookup_insert_ne by done. apply R.
  - intros e' x. destruct (decide (e = e')) as [<-|]; [done|]. rewrite lookup_insert_ne by done. apply R.
  - intros e' g p' q'. destruct (decide (e = e')) as [<-|Hne].
    + rewrite !lookup_insert_eq. intros [= <-] [= <- <-]. unfold h'. by rewrite lookup_insert_eq.
    + rewrite !lookup_insert_ne by done. intros E' Ep'. destruct (rep_old _ _ _ _ _ R _ _ _ Ep'). rewrite Hh by done. other R.
  - intros e' g p' q'. destruct (decide (e = e')) as [<-|Hne].
    + rewrite !lookup_insert_eq. intros [= <-] [= <- <-]. unfold h'. rewrite lookup_insert_ne by lia. by rewrite lookup_insert_eq.
    + rewrite !lookup_insert_ne by done. intros E' Ep'. destruct (rep_old _ _ _ _ _ R _ _ _ Ep'). rewrite Hh by done. other R.
  - intros e' p' q'. destruct (decide (e = e')) as [<-|Hne]; [by rewrite lookup_insert_eq|].
    rewrite !lookup_insert_ne by done. intros E' Ep'. destruct (rep_old _ _ _ _ _ R _ _ _ Ep'). rewrite Hh by done. other R.
  - intros e1 e2 p1 q1 p2 q2 E1 E2 Hne.
    destruct (decide (e = e1)) as [<-|], (decide (e = e2)) as [<-|]; try done;
      rewrite ?lookup_insert_eq, ?lookup_insert_ne in E1 by done; rewrite ?lookup_insert_eq, ?lookup_insert_ne in E2 by done.
    + injection E1 as <- <-. destruct (rep_old _ _ _ _ _ R _ _ _ E2). lia.
    + injection E2 as <- <-. destruct (rep_old _ _ _ _ _ R _ _ _ E1). lia.
    + by apply (rep_sep _ _ _ _ _ R e1 e2).
  - intros e' p' q' E'. destruct (decide (e = e')) as [<-|Hne].
    + rewrite lookup_insert_eq in E'. injection E' as <- <-. lia.
    + rewrite lookup_insert_ne in E' by done. destruct (rep_old _ _ _ _ _ R _ _ _ E'). lia.
  - intros l x Hl. destruct (decide (l = n)) as [->|Hln]; [exists e, f, n, (S n); rewrite !lookup_insert_eq; auto|].
    destruct (decide (l = S n)) as [->|Hls]; [exists e, f, n, (S n); rewrite !lookup_insert_eq; auto|].
    unfold h' in Hl. rewrite !lookup_insert_ne in Hl by done.
    destruct (rep_owned _ _ _ _ _ R _ _ Hl) as (e' & g & p' & q' & E' & Ep' & Hor).
    assert (e <> e') by congruence. exists e', g, p', q'. by rewrite !lookup_insert_ne.
Qed.
End changes.
