(* ===== verification/PktProofs.v ===== *)
(** * Proofs about the packet processor

    [process_pkt] on hash maps, heap and buffers does what [spec_step] does on the
    abstract table. *)
From Stdlib Require Import ZArith Lia.
From stdpp Require Import base list gmap.
From S2P Require Import Prelude Bpf Wire EntryController BfRt RuleController Packet PacketProofs PktProcessor FlowSpec FlowHeap.

#[local] Opaque calculate_crc8 flow_key64.

(** ** Headers *)

(** What [view_of] computes. *)
Definition the_view (p : list Z) : view := {|
  payload_flag := has_payload p;
  header_size := 20 + l4_of p;
  src_crc := crc_of (src_of p); dst_crc := crc_of (dst_of p);
  src_key := key_of (src_of p); dst_key := key_of (dst_of p);
  src_my_key := my_key_of (src_of p); dst_my_key := my_key_of (dst_of p)
|}.

Lemma l4_of_range p : bytes_ok p -> (47 <= length p)%nat -> 0 <= l4_of p <= 60.
Proof.
  intros Hb Hl. unfold l4_of. pose proof (le_at_range 1 p off_doff Hb ltac:(offlia)) as Hr.
  change (256 ^ Z.of_nat 1) with 256 in Hr. rewrite Z.shiftr_div_pow2 by lia. modlia.
Qed.

Lemma le_at_16 p a : bytes_ok p -> (a + 2 <= length p)%nat -> in_u16 (le_at 2 p a).
Proof. intros. exact (le_at_range 2 p a ltac:(done) ltac:(done)). Qed.
Lemma le_at_32 p a : bytes_ok p -> (a + 4 <= length p)%nat -> in_u32 (le_at 4 p a).
Proof. intros. exact (le_at_range 4 p a ltac:(done) ltac:(done)). Qed.
Lemma be_at_16 p a : bytes_ok p -> (a + 2 <= length p)%nat -> in_u16 (be_at 2 p a).
Proof. intros. exact (be_at_range 2 p a ltac:(done) ltac:(done)). Qed.
Lemma be_at_32 p a : bytes_ok p -> (a + 4 <= length p)%nat -> in_u32 (be_at 4 p a).
Proof. intros. exact (be_at_range 4 p a ltac:(done) ltac:(done)). Qed.

Lemma src_of_ok p : bytes_ok p -> (54 <= length p)%nat -> client_ok (src_of p).
Proof. intros. split; [apply be_at_32 | apply be_at_16]; try done; unfold off_saddr, off_source; lia. Qed.
Lemma dst_of_ok p : bytes_ok p -> (54 <= length p)%nat -> client_ok (dst_of p).
Proof. intros. split; [apply be_at_32 | apply be_at_16]; try done; unfold off_daddr, off_dest; lia. Qed.

Lemma bswap32_be_at p a : bytes_ok p -> (a + 4 <= length p)%nat -> bswap32 (be_at 4 p a) = le_at 4 p a.
Proof. intros. rewrite <- bswap32_le_at by done. by apply bswap32_involutive, le_at_32. Qed.
Lemma bswap16_be_at p a : bytes_ok p -> (a + 2 <= length p)%nat -> bswap16 (be_at 2 p a) = le_at 2 p a.
Proof. intros. rewrite <- bswap16_le_at by done. by apply bswap16_involutive, le_at_16. Qed.

Section rules.
Context {Mp : Type} `{CuckooMap Mp loc} `{!CuckooMapLaws Mp loc} (TX_CKSUM : Z) (oom : nat -> bool).
Implicit Types s : pp Mp.

Lemma wp_hdr recv n a (Q : outcome pp_stop Z -> pp Mp -> Prop) s :
  (a + n <= length (room recv))%nat -> Q (Ret (le_at n (room recv) a)) s -> wp (hdr recv n a) Q s.
Proof. intros Hl HQ. unfold hdr. rewrite decide_True by done. by apply wp_ret. Qed.

Lemma wp_view_of recv (Q : outcome pp_stop view -> pp Mp -> Prop) s :
  bytes_ok (room recv) -> (54 <= length (room recv))%nat -> Q (Ret (the_view (room recv))) s -> wp (view_of recv) Q s.
Proof.
  intros Hb Hl HQ. unfold view_of. do 6 (wp_step; apply wp_hdr; [pktlia|]; cbn beta iota). wp_step.
  assert (forall v v', v = v' -> Q (Ret v') s -> Q (Ret v) s) as Heq by (by intros ? ? ->). eapply Heq; [|exact HQ].
  pose proof (l4_of_range (room recv) Hb ltac:(lia)) as Hr. unfold l4_of in Hr.
  unfold the_view, has_payload, payload_len, total_length, my_key_of, crc_of, key_of, src_of, dst_of, l4_of. cbn [fst snd].
  rewrite !bswap32_be_at, !bswap16_be_at by first [done | pktlia]. rewrite !bswap32_le_at, !bswap16_le_at by first [done | pktlia].
  f_equal; [|by apply u16_id; modlia]. rewrite u16_id by modlia.
  apply eq_bool_prop_intro. rewrite !Is_true_true, !Z.ltb_lt. lia.
Qed.

(** [request_url] finds what [url_of] says. *)
Lemma wp_request_url recv (Q : outcome pp_stop (option (list Z)) -> pp Mp -> Prop) s :
  bytes_ok (room recv) -> (54 <= length (room recv))%nat ->
  match url_of (room recv) with Ret url => Q (Ret (Some url)) s | Err x => Q (Err (Fault x)) s end ->
  wp (request_url recv (the_view (room recv))) Q s.
Proof.
  intros Hb Hl HQ. unfold request_url, url_of in *. unfold payload_len in *.
  pose proof (l4_of_range (room recv) Hb ltac:(lia)) as Hr.
  do 2 (wp_step; apply wp_hdr; [pktlia|]; cbn beta iota). cbv zeta. cbn [header_size the_view].
  rewrite bswap16_le_at by first [done | pktlia].
  change (Z.shiftr (le_at 1 (room recv) off_doff) 4 * 4) with (l4_of (room recv)).
  change (be_at 2 (room recv) off_total_length) with (total_length (room recv)).
  change (off_tcp + Z.to_nat (l4_of (room recv)))%nat with (payload_at (room recv)).
  set (n := Z.to_nat (total_length (room recv) - (20 + l4_of (room recv)))) in *.
  destruct (parse_payload _ _) as [[i size]|x] eqn:E; wp_step; unfold lift at 1; [|by apply wp_fail].
  wp_step. apply parse_payload_size in E. rewrite (proj2 (Z.eqb_neq _ _)) by lia.
  wp_step. unfold lift. destruct (copy_url _ i size); [by do 2 wp_step | by apply wp_fail].
Qed.

(** ** Sending *)

(** Buffers of [cap] bytes, [k] of them free. *)
Definition ready (cap k : nat) s : Prop :=
  Forall (fun b => length (room b) = cap) (send_pkts s) /\ (send_size s + k <= length (send_pkts s))%nat.

(** [outs] have been built in the next buffers. *)
Definition outbox (cap : nat) (outs : list out) s s' : Prop :=
  rules_of s' = rules_of s /\
  Forall (fun b => length (room b) = cap) (send_pkts s') /\ length (send_pkts s') = length (send_pkts s) /\
  exists ms, Forall2 (is_out (rules_of s)) outs ms /\ send_size s' = (send_size s + length outs)%nat /\
    take (send_size s') (send_pkts s') = take (send_size s) (send_pkts s) ++ ms.

(** Nothing else has changed. *)
Definition sent (cap : nat) (outs : list out) s s' : Prop :=
  s' = set_send (send_pkts s') (send_size s') s /\ outbox cap outs s s'.

Lemma outbox_nil cap s k : ready cap k s -> outbox cap [] s s.
Proof.
  intros [Hc Hk]. split_and!; [done | done | done |]. exists []. split; [constructor|].
  rewrite Nat.add_0_r, app_nil_r. done.
Qed.

Lemma outbox_trans cap o1 o2 s s1 s2 : outbox cap o1 s s1 -> outbox cap o2 s1 s2 -> outbox cap (o1 ++ o2) s s2.
Proof.
  intros (E1 & _ & L1 & ms1 & F1 & S1 & T1) (E2 & C2 & L2 & ms2 & F2 & S2 & T2). split_and!; [congruence | done | congruence |].
  exists (ms1 ++ ms2). rewrite E1 in F2. split; [by apply Forall2_app|]. rewrite length_app. split; [lia|].
  rewrite T2, T1. by rewrite app_assoc.
Qed.

Lemma outbox_ready cap k outs s s' : ready cap (length outs + k) s -> outbox cap outs s s' -> ready cap k s'.
Proof. intros [_ Hk] (_ & C & L & ms & _ & S & _). split; [done|]. lia. Qed.

(** A function that builds [o] in any buffer. *)
Definition builds (cap : nat) (rc : rule_controller_t) (o : out) (w : M mbuf pkt_fault status_t) : Prop :=
  forall b, length (room b) = cap ->
    wp w (fun r b' => r = Ret OK /\ length (room b') = length (room b) /\ is_out rc o b') b.

Lemma wp_send cap k w o (Q : outcome pp_stop unit -> pp Mp -> Prop) s :
  ready cap (S k) s -> builds cap (rules_of s) o (w (rules_of s)) ->
  (forall s', sent cap [o] s s' -> Q (Ret tt) s') -> wp (send w) Q s.
Proof.
  intros [Hc Hk] Hw HQ. unfold send. wp_step. wp_step.
  destruct (lookup_lt_is_Some_2 (send_pkts s) (send_size s)) as [b Eb]; [lia|]. rewrite Eb.
  pose proof Hc as Hc'. rewrite Forall_lookup in Hc'.
  destruct (wp_run _ _ _ (Hw b (Hc' _ _ Eb))) as (r & b' & E & -> & L & Ho). rewrite E.
  wp_step. wp_step. apply wp_modify. apply HQ. split; [done|]. cbn [send_pkts send_size set_send rules_of]. split_and!.
  - done.
  - apply Forall_insert; [done|]. rewrite L. by eapply Hc'.
  - apply length_insert.
  - exists [b']. split; [by constructor|]. split; [cbn; lia|].
    cbn [send_pkts send_size set_send]. erewrite take_S_r by (rewrite list_lookup_insert_eq by lia; done). by rewrite take_insert_ge by lia.
Qed.

(** ** What the builders build *)

(** Every rule names a server there is, and addresses fit their fields. *)
Definition server_ok (rc : rule_controller_t) (d : Z) : Prop := exists i, server_of rc d = Some i /\ info_ok i.
Definition rules_ok (rc : rule_controller_t) : Prop :=
  info_ok (virtual_server_info rc) /\ forall url n, rule_map rc !! url = Some n -> server_ok rc (d_index n).

(** Flows are served by servers there are, and their requests fit a buffer. *)
Definition table_ok (cap : nat) (rc : rule_controller_t) (t : table) : Prop := forall e f, t !! e = Some (Live f) ->
  server_ok rc (d_index (f_data f)) /\ bytes_ok (f_request f) /\ (54 <= length (f_request f) <= cap)%nat.

Lemma builds_to_server cap rc d recv : pkt_ok recv -> length (room recv) = cap -> server_ok rc d ->
  builds cap rc (ToServer d recv) (forward_inbound_pkt TX_CKSUM rc d recv).
Proof.
  intros Hp L (i & Hi & Hio) b Lb. eapply wp_mono; [apply (wp_forward_inbound _ _ _ _ i); [done | lia | done | done]|].
  intros r b' (-> & L' & Hf). split_and!; [done | done |]. cbn. eauto.
Qed.

Lemma builds_to_client cap rc recv : pkt_ok recv -> length (room recv) = cap -> info_ok (virtual_server_info rc) ->
  builds cap rc (ToClient recv) (forward_outbound_pkt TX_CKSUM rc recv).
Proof. intros Hp L Hio b Lb. apply wp_forward_outbound; [done | lia | done | done]. Qed.

Lemma builds_reset_reply cap rc recv : pkt_ok recv -> length (room recv) = cap ->
  builds cap rc (ResetReply recv) (reply_rst_pkt TX_CKSUM recv).
Proof. intros Hp L b Lb. apply wp_reply_rst; [done | lia]. Qed.

Lemma builds_reset_server cap rc d recv : pkt_ok recv -> length (room recv) = cap -> server_ok rc d ->
  builds cap rc (ResetServer d recv) (send_rst_pkt TX_CKSUM rc d recv).
Proof.
  intros Hp L (i & Hi & Hio) b Lb. eapply wp_mono; [apply (wp_send_rst _ _ _ _ i); [done | lia | done | done]|].
  intros r b' (-> & L' & Hf). split_and!; [done | done |]. cbn. eauto.
Qed.

Lemma builds_syn cap rc d recv : pkt_ok recv -> length (room recv) = cap -> server_ok rc d ->
  builds cap rc (SynTo d recv) (send_syn_pkt TX_CKSUM rc d recv).
Proof.
  intros Hp L (i & Hi & Hio) b Lb. eapply wp_mono; [apply (wp_send_syn _ _ _ _ i); [done | lia | done | done]|].
  intros r b' (-> & L' & Hf). split_and!; [done | done |]. cbn. eauto.
Qed.

Lemma builds_cached cap rc d request : bytes_ok request -> (54 <= length request <= cap)%nat -> server_ok rc d ->
  builds cap rc (CachedTo d request) (send_cached_pkt TX_CKSUM rc d request (Z.of_nat (length request))).
Proof.
  intros Hb Hl (i & Hi & Hio) b Lb. eapply wp_mono; [apply (wp_send_cached _ _ _ _ _ i); [done | lia | lia | done | done]|].
  intros r b' (-> & L' & Hf). split_and!; [done | done |]. cbn. rewrite Nat2Z.id in Hf. eauto.
Qed.

Lemma as_reset_ok recv : pkt_ok recv -> pkt_ok (as_reset recv) /\ length (room (as_reset recv)) = length (room recv).
Proof.
  intros (Hb & Hl & Hd). assert (length (room (as_reset recv)) = length (room recv)) as L
    by (apply length_splice; unfold off_flags; simpl; lia).
  split; [|done]. unfold pkt_ok. rewrite L. split; [|done]. apply splice_ok; [done | repeat constructor; done].
Qed.

(** ** The heap and the tables *)

(** The state holds the table [t]. *)
Definition holds (t : table) s : Prop := exists pt, rep t pt (flow_hash_map s) (heap s) (allocs s).

Lemma wp_find_flow e (Q : outcome pp_stop (option loc) -> pp Mp -> Prop) s : length (flow_hash_map s) = 256%nat ->
  Q (Ret (flow_at (flow_hash_map s) e)) s -> wp (find_flow (crc_of e) (key_of e)) Q s.
Proof.
  intros L HQ. unfold find_flow, flow_at in *. wp_step. wp_step.
  destruct (lookup_lt_is_Some_2 (flow_hash_map s) (Z.to_nat (crc_of e))) as [m Em]; [rewrite L; apply crc_of_lt|].
  rewrite Em in *. by apply wp_ret.
Qed.

(** Looking a client up, and following the pointer. *)
Lemma wp_lookup {A} t e (k : option loc -> M (pp Mp) pp_stop A) (Q : outcome pp_stop A -> pp Mp -> Prop) s :
  holds t s -> client_ok e ->
  match t !! e with
  | None => wp (k None) Q s
  | Some x => forall p, match x with
      | Live f => forall pt q, rep t pt (flow_hash_map s) (heap s) (allocs s) -> pt !! e = Some (p, q) ->
          heap s !! p = Some (BFlow (in_memory f q)) -> wp (k (Some p)) Q s
      | Dangling => heap s !! p = None -> wp (k (Some p)) Q s
      end
  end -> wp (mbind k (find_flow (crc_of e) (key_of e))) Q s.
Proof.
  intros [pt R] Hv HQ. apply wp_bind, wp_find_flow; [apply (rep_length _ _ _ _ _ R)|]. cbn beta iota.
  rewrite (rep_find _ _ _ _ _ R) by done. destruct (t !! e) as [x|] eqn:E.
  - destruct (rep_ptrs _ _ _ _ _ _ _ R E) as (p & q & Ep). rewrite Ep. cbn [fmap option_fmap option_map fst].
    destruct x as [f|]; [eapply HQ; try done; by eapply (rep_flow _ _ _ _ _ R) | apply HQ; by eapply (rep_gone _ _ _ _ _ R)].
  - apply (rep_dom _ _ _ _ _ R) in E. by rewrite E.
Qed.

Lemma wp_load_flow p f (Q : outcome pp_stop flow_data_t -> pp Mp -> Prop) s :
  heap s !! p = Some (BFlow f) -> Q (Ret f) s -> wp (load_flow p) Q s.
Proof. intros E HQ. unfold load_flow. wp_step. wp_step. rewrite E. by apply wp_ret. Qed.

Lemma wp_load_freed p (Q : outcome pp_stop flow_data_t -> pp Mp -> Prop) s :
  heap s !! p = None -> Q (Err (Fault UseAfterFree)) s -> wp (load_flow p) Q s.
Proof. intros E HQ. unfold load_flow. wp_step. wp_step. rewrite E. by apply wp_fail. Qed.

Lemma wp_store_flow p f g (Q : outcome pp_stop unit -> pp Mp -> Prop) s :
  heap s !! p = Some (BFlow g) -> Q (Ret tt) (set_heap (<[p := BFlow f]> (heap s)) s) -> wp (store_flow p f) Q s.
Proof. intros E HQ. unfold store_flow. wp_step. wp_step. rewrite E. by apply wp_modify. Qed.

Lemma wp_load_bytes q l (Q : outcome pp_stop (list Z) -> pp Mp -> Prop) s :
  heap s !! q = Some (BBytes l) -> Q (Ret l) s -> wp (load_bytes (Some q)) Q s.
Proof. intros E HQ. unfold load_bytes. wp_step. wp_step. rewrite E. by apply wp_ret. Qed.

Lemma wp_rte_free p b (Q : outcome pp_stop unit -> pp Mp -> Prop) s :
  heap s !! p = Some b -> Q (Ret tt) (set_heap (delete p (heap s)) s) -> wp (rte_free (Some p)) Q s.
Proof. intros E HQ. unfold rte_free. wp_step. wp_step. rewrite E. by apply wp_modify. Qed.

Lemma wp_rte_malloc b (Q : outcome pp_stop loc -> pp Mp -> Prop) s :
  oom (allocs s) = false -> Q (Ret (allocs s)) (set_heap (<[allocs s := b]> (heap s)) (set_allocs (S (allocs s)) s)) ->
  wp (rte_malloc oom b) Q s.
Proof. intros E HQ. unfold rte_malloc. wp_step. wp_step. wp_step. wp_step. rewrite E. do 5 wp_step. done. Qed.

Lemma wp_insert_flow e p (Q : outcome pp_stop unit -> pp Mp -> Prop) s : length (flow_hash_map s) = 256%nat ->
  Q (Ret tt) (set_maps (with_flow (flow_hash_map s) e p) s) -> wp (insert_flow (crc_of e) (key_of e) p) Q s.
Proof.
  intros L HQ. unfold insert_flow. wp_step. wp_step.
  destruct (lookup_lt_is_Some_2 (flow_hash_map s) (Z.to_nat (crc_of e))) as [m Em]; [rewrite L; apply crc_of_lt|].
  rewrite Em. apply wp_modify. unfold with_flow in HQ. by rewrite (alter_is_insert _ _ _ m) in HQ by done.
Qed.
End rules.

(** ** Refinement *)

Section refinement.
Context {Mp : Type} `{CuckooMap Mp loc} `{!CuckooMapLaws Mp loc} (TX_CKSUM : Z) (oom : nat -> bool).
Context (cap : nat).
Implicit Types (s : pp Mp) (t : table) (recv : mbuf).

Abbreviation in_state t pt s := (rep t pt (flow_hash_map s) (heap s) (allocs s)).
Abbreviation post := (outcome pp_stop unit -> pp Mp -> Prop).

(** A received packet in a buffer of [cap] bytes; what its headers say of lengths is
    left open. *)
Definition fits recv : Prop := pkt_ok recv /\ length (room recv) = cap.

(** The state after a step. *)
Definition stepped s t' ops outs (r : outcome pp_stop unit) s' : Prop :=
  r = Ret tt /\ holds t' s' /\ enqueued s' = enqueued s ++ ops /\ outbox cap outs s s'.

(** [m] does what the specification says. *)
Definition refines (o : outcome pp_stop (table * list ec_op * list out)) (m : M (pp Mp) pp_stop unit) s : Prop :=
  match o with
  | Ret (t', ops, outs) => wp m (stepped s t' ops outs) s
  | Err e => wp m (fun r _ => r = Err e) s
  end.

(** Everything but the buffers is the same. *)
Definition same_core s s' : Prop :=
  flow_hash_map s' = flow_hash_map s /\ heap s' = heap s /\ allocs s' = allocs s /\ enqueued s' = enqueued s /\ rules_of s' = rules_of s.

(** The buffers and the rules are the same. *)
Definition same_out s s' : Prop := send_pkts s' = send_pkts s /\ send_size s' = send_size s /\ rules_of s' = rules_of s.

Lemma outbox_same outs s s1 s2 : outbox cap outs s s1 -> same_out s1 s2 -> outbox cap outs s s2.
Proof. unfold outbox. intros Ho (-> & -> & ->). exact Ho. Qed.

Lemma wp_sending k w o (Q : post) s :
  ready cap (S k) s -> builds cap (rules_of s) o (w (rules_of s)) ->
  (forall s', same_core s s' -> outbox cap [o] s s' -> ready cap k s' -> Q (Ret tt) s') -> wp (send w) Q s.
Proof.
  intros Hr Hb HQ. eapply wp_send; [done | done |]. intros s' [E Ho]. apply HQ; [by rewrite E | done |].
  by eapply (outbox_ready cap k [o]).
Qed.

Lemma core_rep t pt s s' : same_core s s' -> in_state t pt s -> in_state t pt s'.
Proof. by intros (-> & -> & -> & _). Qed.

Lemma same_core_sym s s' : same_core s s' -> same_core s' s.
Proof. unfold same_core. intuition congruence. Qed.

(** Nothing changes but what is sent. *)
Lemma stepped_sent t s s' outs : holds t s -> same_core s s' -> outbox cap outs s s' -> stepped s t [] outs (Ret tt) s'.
Proof.
  intros [pt R] Hc Ho. split; [done|]. split; [exists pt; by eapply core_rep|]. rewrite app_nil_r.
  split; [apply Hc | done].
Qed.

Lemma stepped_nothing t s k : holds t s -> ready cap k s -> stepped s t [] [] (Ret tt) s.
Proof. intros Hh Hr. apply stepped_sent; [done | done | by eapply outbox_nil]. Qed.

(** A step after some sending is a step from where the sending began. *)
Lemma stepped_after s s1 t' ops o1 o2 r s' : same_core s s1 -> outbox cap o1 s s1 ->
  stepped s1 t' ops o2 r s' -> stepped s t' ops (o1 ++ o2) r s'.
Proof.
  intros Hc Ho (Hr & Hh & He & Ho2). split; [done|]. split; [done|]. split; [by rewrite He; destruct Hc as (_ & _ & _ & -> & _)|].
  by eapply outbox_trans.
Qed.

(** A change of the table alone. *)
Lemma stepped_core s t' ops s' k : ready cap k s -> same_out s s' -> enqueued s' = enqueued s ++ ops -> holds t' s' ->
  stepped s t' ops [] (Ret tt) s'.
Proof. intros Hr Ho He Hh. split_and!; try done. eapply outbox_same; [by eapply outbox_nil | done]. Qed.

Lemma wp_taken_back e f q (Q : post) s :
  Q (Ret tt) (set_enqueued (enqueued s ++ taken_back e f) s) ->
  wp (if decide (state (in_memory f q) = OFFLOAD) then enqueue_del (my_key_of e) else mret tt) Q s.
Proof.
  intros HQ. unfold taken_back in HQ. cbn [state in_memory]. destruct (decide (f_phase f = Offloaded)) as [E|E].
  - rewrite decide_True by (by rewrite E). by apply wp_modify.
  - rewrite decide_False by (by rewrite state_of_offload). rewrite app_nil_r in HQ. apply wp_ret. by destruct s.
Qed.

Lemma wp_end_flow k t pt e f p q s : in_state t pt s -> ready cap k s -> t !! e = Some (Live f) -> pt !! e = Some (p, q) ->
  wp (end_flow p (in_memory f q) (crc_of e) (key_of e) (my_key_of e)) (stepped s (delete e t) (taken_back e f) []) s.
Proof.
  intros R Hr E Ep. pose proof (rep_pq _ _ _ _ _ _ _ _ _ R E Ep) as Hpq. unfold end_flow.
  apply wp_bind, wp_taken_back. cbn beta iota. wp_step. unfold erase_flow. wp_step. wp_step. cbn [flow_hash_map set_enqueued].
  destruct (lookup_lt_is_Some_2 (flow_hash_map s) (Z.to_nat (crc_of e))) as [m Em];
    [rewrite (rep_length _ _ _ _ _ R); apply crc_of_lt|]. rewrite Em. apply wp_modify. cbn beta iota.
  wp_step. cbn [recv_pkt in_memory]. eapply wp_rte_free; [cbn; by eapply (rep_request _ _ _ _ _ R)|]. cbn beta iota.
  eapply wp_rte_free; [cbn; rewrite lookup_delete_ne by done; by eapply (rep_flow _ _ _ _ _ R)|].
  eapply (stepped_core _ _ _ _ k); try done. exists (delete e pt). cbn.
  rewrite <- (alter_is_insert (fun m => cuckoo_erase m (key_of e))) by done. by eapply rep_end.
Qed.

(** A forwarded reset or FIN, and the end of the flow. *)
Lemma wp_send_and_end w o t pt e f p q s :
  in_state t pt s -> ready cap 1 s -> t !! e = Some (Live f) -> pt !! e = Some (p, q) ->
  builds cap (rules_of s) o (w (rules_of s)) ->
  wp (_ ← send w; end_flow p (in_memory f q) (crc_of e) (key_of e) (my_key_of e))
    (stepped s (delete e t) (taken_back e f) [o]) s.
Proof.
  intros R Hr E Ep Hb. apply wp_bind. eapply wp_sending; [done | done |]. intros s1 Hc Ho Hr1. cbn beta iota.
  eapply wp_mono; [apply (wp_end_flow 0 t pt e f p q); [by eapply core_rep | done | done | done]|].
  intros r s2 Hs. by apply (stepped_after s s1 _ _ [o] []).
Qed.

(** ** Each case *)

(** A state in which a packet [recv] is to be processed. *)
Definition prepared t recv s : Prop :=
  fits recv /\ ready cap 2 s /\ rules_ok (rules_of s) /\ table_ok cap (rules_of s) t /\ forall n, oom n = false.

Lemma ready_less k k' s : ready cap k s -> (k' <= k)%nat -> ready cap k' s.
Proof. intros [Hc Hk] Hle. split; [done | lia]. Qed.

Lemma wp_just_send w o t pt s : in_state t pt s -> ready cap 1 s -> builds cap (rules_of s) o (w (rules_of s)) ->
  wp (send w) (stepped s t [] [o]) s.
Proof.
  intros R Hr Hb. eapply wp_sending; [done | done |]. intros s1 Hc Ho _. apply stepped_sent; [by exists pt | done | done].
Qed.

(** A FIN is answered with a reset and passed on as one. *)
Lemma wp_fin_and_end w o t pt e f p q recv s :
  in_state t pt s -> ready cap 2 s -> pkt_ok recv -> length (room recv) = cap -> t !! e = Some (Live f) -> pt !! e = Some (p, q) ->
  builds cap (rules_of s) o (w (rules_of s)) ->
  wp (_ ← send (fun _ => reply_rst_pkt TX_CKSUM recv); _ ← send w; end_flow p (in_memory f q) (crc_of e) (key_of e) (my_key_of e))
    (stepped s (delete e t) (taken_back e f) [ResetReply recv; o]) s.
Proof.
  intros R Hr Hp L E Ep Hb. apply wp_bind. eapply (wp_sending 1 _ (ResetReply recv)); [done | by apply builds_reset_reply |].
  intros s1 Hc Ho Hr1. cbn beta iota. pose proof Hc as (_ & _ & _ & _ & Erc).
  eapply wp_mono; [apply (wp_send_and_end _ o t pt e f p q); [by eapply core_rep | done | done | done | by rewrite Erc]|].
  intros r s2 Hs. by apply (stepped_after s s1 _ _ [ResetReply recv] [o]).
Qed.

(** A store to the flow, and perhaps a word to the switch. *)
Lemma wp_store k t pt e f f' p q s : in_state t pt s -> ready cap k s -> t !! e = Some (Live f) -> pt !! e = Some (p, q) ->
  f_request f' = f_request f -> wp (store_flow p (in_memory f' q)) (stepped s (<[e := Live f']> t) [] []) s.
Proof.
  intros R Hr E Ep Hreq. eapply wp_store_flow; [by eapply (rep_flow _ _ _ _ _ R)|].
  eapply (stepped_core _ _ _ _ k); try done; [by rewrite app_nil_r|]. exists pt. by eapply rep_store.
Qed.

(** The pointers are the same. *)
Lemma wp_store_exact t pt e f f' p q (Q : post) s : in_state t pt s -> t !! e = Some (Live f) -> pt !! e = Some (p, q) ->
  f_request f' = f_request f ->
  (forall s1, in_state (<[e := Live f']> t) pt s1 -> same_out s s1 -> enqueued s1 = enqueued s -> Q (Ret tt) s1) ->
  wp (store_flow p (in_memory f' q)) Q s.
Proof.
  intros R E Ep Hreq HQ. eapply wp_store_flow; [by eapply (rep_flow _ _ _ _ _ R)|].
  apply HQ; [by eapply rep_store | done | done].
Qed.

Lemma wp_store_and_tell k t pt e f f' p q op s : in_state t pt s -> ready cap k s -> t !! e = Some (Live f) -> pt !! e = Some (p, q) ->
  f_request f' = f_request f ->
  wp (_ ← store_flow p (in_memory f' q); modify (fun s => set_enqueued (enqueued s ++ [op]) s)) (stepped s (<[e := Live f']> t) [op] []) s.
Proof.
  intros R Hr E Ep Hreq. apply wp_bind. eapply wp_mono; [by eapply (wp_store k t pt e f f')|].
  intros r s1 (-> & [pt' R'] & He & Ho). cbn beta iota. apply wp_modify. split; [done|]. split; [by exists pt'|].
  split; [cbn; by rewrite He, app_nil_r | exact Ho].
Qed.

Lemma wp_same_server e n t pt f p q recv s : prepared t recv s -> in_state t pt s -> t !! e = Some (Live f) -> pt !! e = Some (p, q) ->
  e = src_of (room recv) -> d_index n = d_index (f_data f) -> f_phase f <> Waiting ->
  refines (Ret (spec_request t e f recv n)) (same_server TX_CKSUM recv (the_view (room recv)) p (in_memory f q) n) s.
Proof.
  intros ((Hp & L) & Hr & [Hv Hrules] & Ht & Ho) R E Ep -> En Hph. unfold spec_request. rewrite En, Z.eqb_refl. cbn [negb].
  destruct (Ht _ _ E) as (Hs & _). unfold same_server. cbn [entry_data in_memory state src_my_key the_view].
  assert (forall s' (op : M (pp Mp) pp_stop unit) t' ops, s' = s ->
    (forall s1, same_core s s1 -> ready cap 1 s1 -> wp op (stepped s1 t' ops []) s1) ->
    wp (_ ← send (fun rc => forward_inbound_pkt TX_CKSUM rc (d_index (f_data f)) recv); op)
      (stepped s t' ops [ToServer (d_index (f_data f)) recv]) s') as Hsend.
  { intros s' op t' ops -> Hop. apply wp_bind. eapply (wp_sending 1); [done | by apply builds_to_server |].
    intros s1 Hc Hob Hr1. cbn beta iota. eapply wp_mono; [by apply Hop|]. intros r s2 Hst.
    by apply (stepped_after s s1 _ _ [_] []). }
  destruct (decide (f_phase f = Direct /\ offload_flag n = 1)) as [[E1 E2]|N1].
  { apply Hsend; [done|]. intros s1 Hc Hr1. rewrite decide_True by (by rewrite E1).
    apply (wp_store_and_tell 1 t pt _ f (Flow Offloaded (f_data f) (f_request f)) p q); try done. by eapply core_rep. }
  destruct (decide (f_phase f = Offloaded /\ offload_flag n = 0)) as [[E1 E2]|N2].
  { apply Hsend; [done|]. intros s1 Hc Hr1. rewrite decide_False by (rewrite E1; by intros []). rewrite decide_True by (by rewrite E1).
    apply (wp_store_and_tell 1 t pt _ f (Flow Direct (f_data f) (f_request f)) p q); try done. by eapply core_rep. }
  apply Hsend; [done|]. intros s1 Hc Hr1.
  rewrite decide_False by (destruct (f_phase f); cbn; naive_solver). rewrite decide_False by (destruct (f_phase f); cbn; naive_solver).
  apply wp_ret. eapply stepped_nothing; [exists pt; by eapply core_rep | done].
Qed.

Lemma wp_switch_server e n t pt f p q recv s : prepared t recv s -> in_state t pt s -> t !! e = Some (Live f) -> pt !! e = Some (p, q) ->
  e = src_of (room recv) -> d_index n <> d_index (f_data f) -> server_ok (rules_of s) (d_index n) ->
  refines (Ret (spec_request t e f recv n)) (switch_server TX_CKSUM oom recv (the_view (room recv)) p (in_memory f q) n) s.
Proof.
  intros ((Hp & L) & Hr & _ & Ht & Ho) R E Ep -> En Hn. unfold spec_request. rewrite (proj2 (Z.eqb_neq _ _)) by done. cbn [negb].
  destruct (Ht _ _ E) as (Hs & _). pose proof (rep_pq _ _ _ _ _ _ _ _ _ R E Ep) as Hpq.
  unfold switch_server. cbn [entry_data in_memory src_my_key the_view recv_pkt].
  set (d := d_index (f_data f)) in *. set (e := src_of (room recv)) in *.
  apply wp_bind. eapply (wp_sending 1 _ (ResetServer d recv)); [done | by apply builds_reset_server |].
  intros s1 Hc1 Ho1 Hr1. cbn beta iota. apply wp_bind, (wp_taken_back e f q). cbn beta iota.
  pose proof Hc1 as (Em & Eh & Ea & Ee & Er). apply wp_bind.
  eapply (wp_sending 0 _ (SynTo (d_index n) recv)); [exact Hr1 | cbn; rewrite Er; by apply builds_syn |].
  intros s2 (Em2 & Eh2 & Ea2 & Ee2 & Er2) Ho2 Hr2. cbn beta iota. cbn in Em2, Eh2, Ea2, Ee2, Er2.
  rewrite Em in Em2. rewrite Eh in Eh2. rewrite Ea in Ea2. rewrite Ee in Ee2.
  wp_step. eapply wp_rte_free; [rewrite Eh2; by eapply (rep_request _ _ _ _ _ R)|]. cbn beta iota.
  destruct Hp as (Hb & Hl & Hd). rewrite decide_True by lia.
  wp_step. apply wp_rte_malloc; [apply Ho|]. cbn beta iota. rewrite Eh2. cbn [heap allocs set_heap set_allocs]. rewrite Ea2.
  eapply wp_store_flow.
  { cbn. destruct (rep_old _ _ _ _ _ R _ _ _ Ep). rewrite lookup_insert_ne, lookup_delete_ne by lia. by eapply (rep_flow _ _ _ _ _ R). }
  cbn. split; [done|]. split; [|split].
  - exists (<[e := (p, allocs s)]> pt). cbn. rewrite Em2.
    assert (data_len recv = Z.of_nat (length (content recv))) as Elen by (unfold content; rewrite length_take; lia).
    rewrite Elen. by apply (rep_renew t pt _ _ _ e f (Flow Waiting n (content recv)) p q).
  - exact Ee2.
  - change (outbox cap ([ResetServer d recv] ++ [SynTo (d_index n) recv]) s s2). by eapply outbox_trans.
Qed.

(** The beginning of a case: reading a field, finding the URL, its rule. *)
Lemma refines_hdr recv n a o (m : Z -> M (pp Mp) pp_stop unit) s : (a + n <= length (room recv))%nat ->
  refines o (m (le_at n (room recv) a)) s -> refines o (k ← hdr recv n a; m k) s.
Proof. intros Hl. unfold refines. destruct o as [[[t' ops] outs]|x]; intros Hm; apply wp_bind, wp_hdr; done. Qed.

Lemma refines_url recv o (m : option (list Z) -> M (pp Mp) pp_stop unit) s : fits recv ->
  match url_of (room recv) with Ret url => refines o (m (Some url)) s | Err x => o = Err (Fault x) end ->
  refines o (k ← request_url recv (the_view (room recv)); m k) s.
Proof.
  intros ((Hb & Hl & Hd) & L) Hm. unfold refines in *.
  destruct o as [[[t' ops] outs]|x]; apply wp_bind, wp_request_url; try done; try lia; destruct (url_of (room recv)); congruence || done.
Qed.

Lemma refines_rule url o (m : option my_data_t -> M (pp Mp) pp_stop unit) s :
  refines o (m (rule_map (rules_of s) !! url)) s -> refines o (k ← balancing_rule url; m k) s.
Proof. by destruct o as [[[t' ops] outs]|x]. Qed.

Lemma refines_nothing t s k : holds t s -> ready cap k s -> refines (Ret (t, [], [])) (mret tt) s.
Proof. intros. by eapply stepped_nothing. Qed.

(** The two connected phases are one case. *)
Lemma spec_client_connected rc t e f recv : f_phase f <> Waiting -> spec_client rc t e f recv =
  let p := room recv in let d := d_index (f_data f) in
  if is_reset p then Ret (delete e t, taken_back e f, [ToServer d recv])
  else if is_fin p then Ret (delete e t, taken_back e f, [ResetReply recv; ToServer d (as_reset recv)])
  else if has_payload p then
    match url_of p with
    | Err x => Err (Fault x)
    | Ret url => match rule_map rc !! url with None => Ret (t, [], []) | Some n => Ret (spec_request t e f recv n) end
    end
  else Ret (t, [], [ToServer d recv]).
Proof. unfold spec_client. by destruct (f_phase f). Qed.

Lemma client_connected_refines e t pt f p q recv s : prepared t recv s -> in_state t pt s -> t !! e = Some (Live f) -> pt !! e = Some (p, q) ->
  e = src_of (room recv) -> f_phase f <> Waiting ->
  refines (spec_client (rules_of s) t e f recv) (client_connected TX_CKSUM oom recv (the_view (room recv)) p (in_memory f q)) s.
Proof.
  intros Hprep R E Ep Ee Hph. pose proof Hprep as (Hf & Hr & [Hv Hrules] & Ht & Ho). pose proof Hf as (Hp & L).
  pose proof Hp as (Hb & Hl & Hd). destruct (Ht _ _ E) as (Hs & _). pose proof (ready_less 2 1 s Hr ltac:(lia)) as Hr1.
  destruct (as_reset_ok recv Hp) as [Hp' L']. rewrite L in L'.
  rewrite spec_client_connected by done. cbv zeta. unfold client_connected. cbn [entry_data in_memory].
  apply refines_hdr; [pktlia|]. unfold is_reset, is_fin, flags_of. cbn beta.
  destruct (has_flag _ RTE_TCP_RST_FLAG).
  { subst e. apply (wp_send_and_end _ _ t pt); try done. by apply builds_to_server. }
  destruct (has_flag _ RTE_TCP_FIN_FLAG).
  { subst e. apply (wp_fin_and_end _ _ t pt); try done. by apply builds_to_server. }
  cbn [payload_flag the_view]. destruct (has_payload (room recv)) eqn:Epl.
  2: { apply (wp_just_send _ _ t pt); try done. by apply builds_to_server. }
  apply refines_url; [done |]. destruct (url_of (room recv)) as [url|x]; [|done].
  apply refines_rule. destruct (rule_map (rules_of s) !! url) as [n|] eqn:En.
  2: { eapply refines_nothing; [by exists pt | done]. }
  destruct (Z.eqb_spec (d_index n) (d_index (f_data f))) as [Eq|Nq]; cbn [negb].
  - by apply (wp_same_server e n t pt).
  - apply (wp_switch_server e n t pt); try done. by eapply Hrules.
Qed.

Lemma client_waiting_refines e t pt f p q recv s : prepared t recv s -> in_state t pt s -> t !! e = Some (Live f) -> pt !! e = Some (p, q) ->
  f_phase f = Waiting ->
  refines (spec_client (rules_of s) t e f recv) (client_waiting TX_CKSUM recv (the_view (room recv)) p (in_memory f q)) s.
Proof.
  intros Hprep R E Ep Hph. pose proof Hprep as (Hf & Hr & [Hv Hrules] & Ht & Ho). pose proof Hf as (Hp & L).
  pose proof Hp as (Hb & Hl & Hd). destruct (Ht _ _ E) as (Hs & Hbr & Hlr). pose proof (ready_less 2 1 s Hr ltac:(lia)) as Hr1.
  pose proof (rep_pq _ _ _ _ _ _ _ _ _ R E Ep) as Hpq.
  unfold spec_client. rewrite Hph. unfold client_waiting. cbn [entry_data in_memory recv_pkt].
  apply refines_hdr; [pktlia|]. unfold is_reset, is_fin, flags_of. cbn beta.
  destruct (has_flag _ RTE_TCP_FIN_FLAG || has_flag _ RTE_TCP_RST_FLAG).
  - apply wp_bind. eapply (wp_sending 0); [done | by apply builds_reset_reply |]. intros s1 Hc Hob _. cbn beta iota.
    pose proof (core_rep t pt s s1 Hc R) as R1. wp_step.
    eapply wp_rte_free; [by eapply (rep_request _ _ _ _ _ R1)|]. cbn beta iota.
    eapply wp_rte_free; [cbn; rewrite lookup_delete_ne by done; by eapply (rep_flow _ _ _ _ _ R1)|].
    split; [done|]. split; [exists pt; by eapply rep_dangle|]. split; [|done]. cbn. rewrite app_nil_r. apply Hc.
  - assert (forall o (m : list Z -> M (pp Mp) pp_stop unit), refines o (m (f_request f)) s ->
      refines o (k ← load_bytes (Some q); m k) s) as Hload.
    { intros o m Hm. unfold refines in *. pose proof (rep_request _ _ _ _ _ R _ _ _ _ E Ep).
      destruct o as [[[t' ops] outs]|x]; eapply wp_bind, wp_load_bytes; done. }
    apply Hload. clear Hload. rewrite decide_True by (unfold off_seq; lia). apply refines_hdr; [pktlia|].
    destruct (_ =? _); [|eapply refines_nothing; [by exists pt | done]].
    apply (wp_just_send _ _ t pt); try done. by apply builds_syn.
Qed.

Lemma server_connected_refines e t pt f p q recv s : prepared t recv s -> in_state t pt s -> t !! e = Some (Live f) -> pt !! e = Some (p, q) ->
  e = dst_of (room recv) -> f_phase f <> Waiting ->
  refines (spec_server t e f recv) (server_connected TX_CKSUM recv (the_view (room recv)) p (in_memory f q)) s.
Proof.
  intros Hprep R E Ep Ee Hph. pose proof Hprep as (Hf & Hr & [Hv Hrules] & Ht & Ho). pose proof Hf as (Hp & L).
  pose proof Hp as (Hb & Hl & Hd). pose proof (ready_less 2 1 s Hr ltac:(lia)) as Hr1.
  destruct (as_reset_ok recv Hp) as [Hp' L']. rewrite L in L'.
  assert (spec_server t e f recv =
    if is_reset (room recv) then Ret (delete e t, taken_back e f, [ToClient recv])
    else if is_fin (room recv) then Ret (delete e t, taken_back e f, [ResetReply recv; ToClient (as_reset recv)])
    else Ret (t, [], [ToClient recv])) as -> by (unfold spec_server; by destruct (f_phase f)).
  unfold server_connected. apply refines_hdr; [pktlia|]. unfold is_reset, is_fin, flags_of. cbn beta.
  destruct (has_flag _ RTE_TCP_RST_FLAG).
  { subst e. apply (wp_send_and_end _ _ t pt); try done. by apply builds_to_client. }
  destruct (has_flag _ RTE_TCP_FIN_FLAG).
  { subst e. apply (wp_fin_and_end _ _ t pt); try done. by apply builds_to_client. }
  apply (wp_just_send _ _ t pt); try done. by apply builds_to_client.
Qed.

Lemma server_answers_refines e t pt f p q recv s : prepared t recv s -> in_state t pt s -> t !! e = Some (Live f) -> pt !! e = Some (p, q) ->
  e = dst_of (room recv) -> f_phase f = Waiting ->
  refines (spec_server t e f recv) (server_answers TX_CKSUM recv (the_view (room recv)) p (in_memory f q)) s.
Proof.
  intros Hprep R E Ep -> Hph. pose proof Hprep as (Hf & Hr & [Hv Hrules] & Ht & Ho). pose proof Hf as (Hp & L).
  pose proof Hp as (Hb & Hl & Hd). destruct (Ht _ _ E) as (Hs & Hbr & Hlr). pose proof (ready_less 2 1 s Hr ltac:(lia)) as Hr1.
  unfold spec_server. rewrite Hph. unfold server_answers. cbn [entry_data in_memory dst_my_key the_view].
  apply refines_hdr; [pktlia|]. unfold flags_of. cbn beta.
  destruct (_ =? _); cbn [negb]; [|eapply refines_nothing; [by exists pt | done]].
  set (e := dst_of (room recv)) in *.
  assert (forall ops s1 f', f_request f' = f_request f -> in_state (<[e := Live f']> t) pt s1 -> same_out s s1 -> enqueued s1 = enqueued s ++ ops ->
    wp (cached ← load_bytes (Some q); send (fun rc => send_cached_pkt TX_CKSUM rc (d_index (f_data f)) cached (Z.of_nat (length (f_request f)))))
      (stepped s (<[e := Live f']> t) ops [CachedTo (d_index (f_data f)) (f_request f)]) s1) as Hsend.
  { intros ops s1 f' Hreq R1 Hout He. eapply wp_bind, wp_load_bytes.
    { rewrite (rep_request _ _ _ _ _ R1 e f' p q); [by rewrite Hreq | apply lookup_insert_eq | done]. }
    cbn beta iota. pose proof Hout as (Esp & Ess & Er).
    eapply (wp_sending 0); [split; [rewrite Esp; apply Hr1 | rewrite Esp, Ess; apply Hr1] | rewrite Er; by apply builds_cached |].
    intros s2 Hc Hob _. split; [done|]. split; [exists pt; by eapply core_rep|].
    destruct Hc as (_ & _ & _ & -> & _). split; [done|]. eapply (outbox_trans cap [] [_]); [|done].
    eapply outbox_same; [by eapply outbox_nil | done]. }
  destruct (offload_flag (f_data f) =? 1).
  - apply wp_bind. wp_step. apply (wp_store_exact t pt e f (Flow Offloaded (f_data f) (f_request f)) p q); try done.
    intros s1 R1 Hout He. cbn beta iota. apply wp_modify. cbn beta iota.
    apply (Hsend _ _ (Flow Offloaded (f_data f) (f_request f))); try done. cbn. by rewrite He.
  - apply wp_bind. apply (wp_store_exact t pt e f (Flow Direct (f_data f) (f_request f)) p q); try done.
    intros s1 R1 Hout He. cbn beta iota. apply (Hsend [] _ (Flow Direct (f_data f) (f_request f))); try done. by rewrite He, app_nil_r.
Qed.

Lemma new_client_refines e t recv s : prepared t recv s -> holds t s -> t !! e = None -> e = src_of (room recv) ->
  refines (spec_new (rules_of s) t e recv) (new_client TX_CKSUM oom recv (the_view (room recv))) s.
Proof.
  intros Hprep Hh E Ee. pose proof Hprep as (Hf & Hr & [Hv Hrules] & Ht & Ho). pose proof Hf as (Hp & L).
  pose proof Hp as (Hb & Hl & Hd). pose proof (ready_less 2 1 s Hr ltac:(lia)) as Hr1.
  unfold spec_new, new_client. cbn [payload_flag the_view]. destruct (has_payload (room recv)) eqn:Epl; cbn [negb].
  2: { by eapply refines_nothing. }
  apply refines_url; [done |]. destruct (url_of (room recv)) as [url|x]; [|done].
  apply refines_rule. destruct (rule_map (rules_of s) !! url) as [n|] eqn:En.
  2: { by eapply refines_nothing. }
  apply wp_bind. eapply (wp_sending 0); [done | apply builds_syn; [done | done | by eapply Hrules] |].
  intros s1 Hc Hob _. cbn beta iota. destruct Hh as [pt R]. pose proof (core_rep t pt s s1 Hc R) as R1.
  wp_step. apply wp_rte_malloc; [apply Ho|]. cbn beta iota. rewrite decide_True by lia.
  wp_step. apply wp_rte_malloc; [apply Ho|]. cbn beta iota. cbn [heap allocs set_heap set_allocs].
  wp_step. eapply wp_store_flow; [cbn; rewrite lookup_insert_ne by lia; apply lookup_insert_eq|]. cbn beta iota.
  cbn [src_crc src_key the_view]. subst e. apply wp_insert_flow; [cbn; apply (rep_length _ _ _ _ _ R1)|].
  split; [done|]. split; [|split; [|done]].
  - exists (<[src_of (room recv) := (allocs s1, S (allocs s1))]> pt). cbn.
    assert (data_len recv = Z.of_nat (length (content recv))) as Elen by (unfold content; rewrite length_take; lia).
    rewrite Elen. apply (rep_new t pt _ _ _ _ (Flow Waiting n (content recv)) _ R1); [done|]. apply src_of_ok; [done | lia].
  - cbn. rewrite app_nil_r. apply Hc.
Qed.

(** ** One packet *)

Lemma refines_lookup t (e : client) (o : outcome pp_stop (table * list ec_op * list out)) (k : option loc -> M (pp Mp) pp_stop unit) s :
  holds t s -> client_ok e ->
  match t !! e with
  | None => refines o (k None) s
  | Some (Live f) => forall pt p q, in_state t pt s -> pt !! e = Some (p, q) -> heap s !! p = Some (BFlow (in_memory f q)) -> refines o (k (Some p)) s
  | Some Dangling => forall p, heap s !! p = None -> refines o (k (Some p)) s
  end -> refines o (p ← find_flow (crc_of e) (key_of e); k p) s.
Proof.
  intros Hh Hv Hk. unfold refines in *.
  destruct o as [[[t' ops] outs]|x]; apply (wp_lookup t); try done; destruct (t !! e) as [[f|]|]; auto; intros; by eapply Hk.
Qed.

Lemma refines_load p f o (k : flow_data_t -> M (pp Mp) pp_stop unit) s : heap s !! p = Some (BFlow f) ->
  refines o (k f) s -> refines o (g ← load_flow p; k g) s.
Proof. intros E. unfold refines. destruct o as [[[t' ops] outs]|x]; intros Hk; eapply wp_bind, wp_load_flow; done. Qed.

Lemma tcp_packet_checks p : bytes_ok p -> (54 <= length p)%nat ->
  (le_at 2 p off_h_proto =? bswap16 ETH_P_IP) && (le_at 1 p off_protocol =? IPPROTO_TCP) = bool_decide (tcp_packet p).
Proof.
  intros Hb Hl. unfold tcp_packet. rewrite <- (bswap16_le_at p off_h_proto) by first [done | offlia].
  apply eq_bool_prop_intro. rewrite andb_True, bool_decide_spec, !Is_true_true, !Z.eqb_eq.
  pose proof (le_at_16 p off_h_proto Hb ltac:(offlia)) as Hr. split; intros [E1 E2]; (split; [|done]).
  - by rewrite E1.
  - rewrite <- E1. by rewrite bswap16_involutive.
Qed.

(** Two runs that are the same refine the same. *)
Lemma refines_run o (m m' : M (pp Mp) pp_stop unit) s : m s = m' s -> refines o m' s -> refines o m s.
Proof. intros E. unfold refines, wp. by rewrite E. Qed.

(** A case that takes the packet ends the loop's body. *)
Lemma refines_handled p f o (m : flow_data_t -> M (pp Mp) pp_stop bool) (m' k : M (pp Mp) pp_stop unit) s :
  heap s !! p = Some (BFlow f) -> m f = (_ ← m'; mret true) -> refines o m' s ->
  refines o (h ← (g ← load_flow p; m g); if h : bool then mret tt else k) s.
Proof.
  intros E Em. apply refines_run. rewrite M_bind_assoc.
  unfold load_flow, gets, mbind, M_bind, mret, M_ret. cbn. rewrite E. rewrite Em.
  unfold mbind, M_bind, mret, M_ret. by destruct (m' s) as [[[]|] s'].
Qed.

Lemma refines_unhandled o (h : bool) (k : M (pp Mp) pp_stop unit) s : h = false -> refines o k s -> refines o (b ← mret h; if b : bool then mret tt else k) s.
Proof. by intros ->. Qed.

Lemma refines_freed p (m : flow_data_t -> M (pp Mp) pp_stop bool) k s : heap s !! p = None ->
  refines (Err (Fault UseAfterFree)) (h ← (g ← load_flow p; m g); if h : bool then mret tt else k) s.
Proof. intros E. cbn. apply wp_bind, wp_bind, wp_load_freed; done. Qed.

(** The checks of the headers, for any outcome of what follows. *)
Lemma refines_headers o recv s : fits recv -> tcp_packet (room recv) ->
  refines o (process_tcp TX_CKSUM oom recv (the_view (room recv))) s -> refines o (process_pkt TX_CKSUM oom recv) s.
Proof.
  intros ((Hb & Hl & Hd) & L) Hp Hk.
  pose proof (tcp_packet_checks (room recv) Hb ltac:(lia)) as Hchk. rewrite (bool_decide_eq_true_2 _ Hp) in Hchk.
  apply andb_prop in Hchk as [E1 E2]. unfold process_pkt.
  apply refines_hdr; [offlia|]. rewrite E1. apply refines_hdr; [offlia|]. rewrite E2. cbn [negb].
  unfold refines in *. destruct o as [[[t' ops] outs]|x]; apply wp_bind, wp_view_of; try done; lia.
Qed.

(** A packet of another protocol is left alone. *)
Lemma process_pkt_other t recv s : fits recv -> ready cap 2 s -> holds t s -> ~ tcp_packet (room recv) ->
  refines (Ret (t, [], [])) (process_pkt TX_CKSUM oom recv) s.
Proof.
  intros ((Hb & Hl & Hd) & L) Hr Hh Hp.
  pose proof (tcp_packet_checks (room recv) Hb ltac:(lia)) as Hchk. rewrite (bool_decide_eq_false_2 _ Hp) in Hchk.
  unfold process_pkt. apply refines_hdr; [offlia|].
  destruct (le_at 2 (room recv) off_h_proto =? bswap16 ETH_P_IP); cbn [negb andb] in *; [|by eapply refines_nothing].
  apply refines_hdr; [offlia|]. rewrite Hchk. by eapply refines_nothing.
Qed.

(** Which part of the code a packet reaches, for any outcome of that part. *)
Section reaches.
Context (o : outcome pp_stop (table * list ec_op * list out)) (t : table) (recv : mbuf) (s : pp Mp).
Context (Hf : fits recv) (Hh : holds t s).
Abbreviation tcp := (process_tcp TX_CKSUM oom recv (the_view (room recv))).

Lemma client_ends_ok : client_ok (src_of (room recv)) /\ client_ok (dst_of (room recv)).
Proof using Hf. destruct Hf as ((Hb & Hl & _) & _). split; [apply src_of_ok | apply dst_of_ok]; done || lia. Qed.

Lemma reach_client f : t !! src_of (room recv) = Some (Live f) ->
  (forall pt p q, in_state t pt s -> pt !! src_of (room recv) = Some (p, q) ->
    refines o (if decide (f_phase f = Waiting) then client_waiting TX_CKSUM recv (the_view (room recv)) p (in_memory f q)
               else client_connected TX_CKSUM oom recv (the_view (room recv)) p (in_memory f q)) s) ->
  refines o tcp s.
Proof using Hf Hh.
  intros E Hk. unfold process_tcp. cbn [src_crc src_key the_view].
  apply (refines_lookup t); [done | apply client_ends_ok |]. rewrite E. intros pt p q R Ep Hm. specialize (Hk pt p q R Ep).
  destruct (f_phase f) eqn:Eph; (eapply refines_handled; [done | cbn; rewrite Eph; cbn; reflexivity |]);
    first [rewrite decide_True in Hk by done | rewrite decide_False in Hk by done]; exact Hk.
Qed.

Lemma reach_freed : t !! src_of (room recv) = Some Dangling \/ (t !! src_of (room recv) = None /\ t !! dst_of (room recv) = Some Dangling) ->
  refines (Err (Fault UseAfterFree)) tcp s.
Proof using Hf Hh.
  intros E. unfold process_tcp. cbn [src_crc src_key dst_crc dst_key the_view].
  apply (refines_lookup t); [done | apply client_ends_ok |].
  destruct E as [E | [E E']]; rewrite E; [intros p Hp; by apply refines_freed|]. apply refines_unhandled; [done|].
  apply (refines_lookup t); [done | apply client_ends_ok |]. rewrite E'. intros p Hp. by apply refines_freed.
Qed.

Lemma reach_server f : t !! src_of (room recv) = None -> t !! dst_of (room recv) = Some (Live f) ->
  (forall pt p q, in_state t pt s -> pt !! dst_of (room recv) = Some (p, q) ->
    refines o (if decide (f_phase f = Waiting) then server_answers TX_CKSUM recv (the_view (room recv)) p (in_memory f q)
               else server_connected TX_CKSUM recv (the_view (room recv)) p (in_memory f q)) s) ->
  refines o tcp s.
Proof using Hf Hh.
  intros E E' Hk. unfold process_tcp. cbn [src_crc src_key dst_crc dst_key the_view].
  apply (refines_lookup t); [done | apply client_ends_ok |]. rewrite E. apply refines_unhandled; [done|].
  apply (refines_lookup t); [done | apply client_ends_ok |]. rewrite E'. intros pt p q R Ep Hm. specialize (Hk pt p q R Ep).
  destruct (f_phase f) eqn:Eph; (eapply refines_handled; [done | cbn; rewrite Eph; cbn; reflexivity |]);
    first [rewrite decide_True in Hk by done | rewrite decide_False in Hk by done]; exact Hk.
Qed.

Lemma reach_new : t !! src_of (room recv) = None -> t !! dst_of (room recv) = None ->
  refines o (new_client TX_CKSUM oom recv (the_view (room recv))) s -> refines o tcp s.
Proof using Hf Hh.
  intros E E' Hk. unfold process_tcp. cbn [src_crc src_key dst_crc dst_key the_view].
  apply (refines_lookup t); [done | apply client_ends_ok |]. rewrite E. apply refines_unhandled; [done|].
  apply (refines_lookup t); [done | apply client_ends_ok |]. rewrite E'. by apply refines_unhandled.
Qed.
End reaches.

Lemma process_pkt_refines t recv s : prepared t recv s -> holds t s ->
  refines (spec_step (rules_of s) t recv) (process_pkt TX_CKSUM oom recv) s.
Proof.
  intros Hprep Hh. pose proof Hprep as (Hf & Hr & _). unfold spec_step.
  destruct (decide (tcp_packet (room recv))) as [Hp|Hp]; [|by apply process_pkt_other].
  apply refines_headers; [done | done |]. cbv zeta.
  destruct (t !! src_of (room recv)) as [[f|]|] eqn:Es; [| apply (reach_freed t); auto |].
  { apply (reach_client _ t _ _ Hf Hh f); [done|]. intros pt p q R Ep.
    case_decide; [by apply (client_waiting_refines _ t pt) | by apply (client_connected_refines _ t pt)]. }
  destruct (t !! dst_of (room recv)) as [[f|]|] eqn:Ed; [| apply (reach_freed t); auto |].
  { apply (reach_server _ t _ _ Hf Hh f); [done | done |]. intros pt p q R Ep.
    case_decide; [by apply (server_answers_refines _ t pt) | by apply (server_connected_refines _ t pt)]. }
  apply (reach_new _ t); try done. by apply new_client_refines.
Qed.
End refinement.
