(* ===== verification/FrontEnd.v ===== *)
(** * The front end's theorems

    Batches of packets; what the switch is told; the faults there are and the runs
    that reach them. *)
From Stdlib Require Import ZArith Lia.
From stdpp Require Import base list gmap.
From S2P Require Import Prelude Bpf Wire EntryController BfRt RuleController Packet PacketProofs PktProcessor FlowSpec FlowHeap PktProofs.

(** ** The table stays well formed *)

Section table.
Context (cap : nat) (rc : rule_controller_t).
Implicit Types (t : table) (recv : mbuf).

Lemma table_ok_insert t e f : table_ok cap rc t ->
  server_ok rc (d_index (f_data f)) -> bytes_ok (f_request f) -> (54 <= length (f_request f) <= cap)%nat ->
  table_ok cap rc (<[e := Live f]> t).
Proof.
  intros Ht H1 H2 H3 e' g. destruct (decide (e = e')) as [<-|]; [rewrite lookup_insert_eq; by intros [= <-]|].
  rewrite lookup_insert_ne by done. apply Ht.
Qed.

Lemma table_ok_dangle t e : table_ok cap rc t -> table_ok cap rc (<[e := Dangling]> t).
Proof.
  intros Ht e' g. destruct (decide (e = e')) as [<-|]; [by rewrite lookup_insert_eq|]. rewrite lookup_insert_ne by done. apply Ht.
Qed.

Lemma table_ok_delete t e : table_ok cap rc t -> table_ok cap rc (delete e t).
Proof. intros Ht e' g [_ E]%lookup_delete_Some. by eapply Ht. Qed.

Lemma content_ok recv : fits cap recv -> bytes_ok (content recv) /\ (54 <= length (content recv) <= cap)%nat.
Proof.
  intros ((Hb & Hl & Hd) & L). unfold content. split; [by apply Forall_take|]. rewrite length_take. lia.
Qed.

Lemma table_ok_request t e f recv n : table_ok cap rc t -> fits cap recv -> t !! e = Some (Live f) -> server_ok rc (d_index n) ->
  table_ok cap rc (fst (fst (spec_request t e f recv n))).
Proof.
  intros Ht Hf E Hn. destruct (content_ok recv Hf). destruct (Ht _ _ E) as (?&?&?).
  unfold spec_request. repeat case_match; try done; by apply table_ok_insert.
Qed.

Lemma table_ok_step t recv t' ops outs : rules_ok rc -> table_ok cap rc t -> fits cap recv ->
  spec_step rc t recv = Ret (t', ops, outs) -> table_ok cap rc t'.
Proof.
  intros [Hv Hr] Ht Hf. destruct (content_ok recv Hf) as [Hc1 Hc2]. unfold spec_step. case_decide; [|by intros [= <- <- <-]].
  destruct (t !! src_of (room recv)) as [[f|]|] eqn:Es; [| done |].
  { pose proof (fun n => table_ok_request t (src_of (room recv)) f recv n) as Hreq. destruct (Ht _ _ Es) as (?&?&?).
    unfold spec_client. destruct (f_phase f).
    - repeat case_match; intros [= <- <- <-]; try done; by apply table_ok_dangle.
    - repeat case_match; intros Hx; try discriminate Hx;
        first [injection Hx as <- <- <-; first [done | by apply table_ok_delete] | injection Hx as Hx].
      match goal with E : rule_map rc !! _ = Some ?n |- _ => specialize (Hreq n Ht Hf Es (Hr _ _ E)); by rewrite Hx in Hreq end.
    - repeat case_match; intros Hx; try discriminate Hx;
        first [injection Hx as <- <- <-; first [done | by apply table_ok_delete] | injection Hx as Hx].
      match goal with E : rule_map rc !! _ = Some ?n |- _ => specialize (Hreq n Ht Hf Es (Hr _ _ E)); by rewrite Hx in Hreq end. }
  destruct (t !! dst_of (room recv)) as [[f|]|] eqn:Ed; [| done |].
  { destruct (Ht _ _ Ed) as (?&?&?). unfold spec_server. destruct (f_phase f);
      repeat case_match; intros [= <- <- <-]; try done; first [by apply table_ok_delete | by apply table_ok_insert].
  }
  unfold spec_new. repeat case_match; intros [= <- <- <-]; try done.
  apply table_ok_insert; try done. by eapply Hr.
Qed.

(** Two packets at most for each one received. *)
Lemma spec_outs t recv t' ops outs : spec_step rc t recv = Ret (t', ops, outs) -> (length outs <= 2)%nat.
Proof.
  unfold spec_step, spec_client, spec_server, spec_new, spec_request.
  repeat case_match; intros Hx; simplify_eq Hx; intros; subst; cbn; lia.
Qed.
End table.

(** ** Batches *)

Section batch.
Context {Mp : Type} `{CuckooMap Mp loc} `{!CuckooMapLaws Mp loc} (TX_CKSUM : Z) (oom : nat -> bool).
Context (cap : nat).
Implicit Types (s : pp Mp) (t : table) (recv : mbuf).

Lemma batch_refines recvs : forall t s, holds t s -> rules_ok (rules_of s) -> table_ok cap (rules_of s) t ->
  Forall (fits cap) recvs -> (forall n, oom n = false) -> ready cap (2 * length recvs) s ->
  refines cap (spec_run (rules_of s) t recvs) (for_each (process_pkt TX_CKSUM oom) recvs) s.
Proof.
  induction recvs as [|recv recvs IH]; intros t s Hh Hrc Ht Hf Ho Hr; cbn [spec_run for_each].
  { by eapply refines_nothing. }
  apply Forall_cons in Hf as [Hf1 Hf]. cbn [length] in Hr.
  assert (prepared oom cap t recv s) as Hprep by (split_and!; try done; by eapply (ready_less cap (2 * S (length recvs))); [|lia]).
  pose proof (process_pkt_refines TX_CKSUM oom cap t recv s Hprep Hh) as Hp.
  destruct (spec_step (rules_of s) t recv) as [[[t1 ops1] outs1]|x] eqn:E1.
  2: { cbn in *. apply wp_bind. eapply wp_mono; [exact Hp|]. by intros r s1 ->. }
  pose proof (spec_outs _ _ _ _ _ _ E1) as Hlen. cbn in Hp.
  assert (forall s1, stepped cap s t1 ops1 outs1 (Ret tt) s1 ->
    refines cap (spec_run (rules_of s) t1 recvs) (for_each (process_pkt TX_CKSUM oom) recvs) s1) as Hrest.
  { intros s1 (_ & Hh1 & He1 & Hob). pose proof Hob as (Er & _). rewrite <- Er. apply IH; try done; rewrite ?Er; try done.
    - by eapply table_ok_step.
    - eapply outbox_ready; [|done]. eapply ready_less; [done | lia]. }
  destruct (spec_run (rules_of s) t1 recvs) as [[[t2 ops2] outs2]|x]; cbn in *; apply wp_bind;
    (eapply wp_mono; [exact Hp|]); intros r s1 Hs1; pose proof Hs1 as (-> & _ & He1 & Hob); cbn beta iota;
    (eapply wp_mono; [by apply Hrest|]); [|done].
  intros r s2 (-> & Hh2 & He2 & Hob2). split; [done|]. split; [done|]. split; [by rewrite He2, He1, app_assoc|].
  by eapply outbox_trans.
Qed.

(** What a batch of [k] packets leaves behind: [outs] are built, in order, and
    sent as far as the device takes them; every buffer allocated is sent, given
    back, or built and not taken. *)
Definition batch_done (k : nat) rc (outs : list out) (tx : nat) (b : batch_end) : Prop :=
  exists ms, Forall2 (is_out rc) outs ms /\ transmitted b = take tx ms /\
    (length ms + length (freed b) = 2 * k)%nat /\
    batch_status b = if decide (length ms <= tx)%nat then OK else INTERNAL_ERROR.

(** What a batch makes of the outcome of its packets. *)
Definition batch_result (tx : nat) (r : outcome pp_stop unit) s : outcome pp_stop batch_end :=
  match r with
  | Err (Fault f) => Err (Fault f)
  | Err (Returns st) => Ret (BatchEnd st [] [])
  | Ret _ => let pkts := take (send_size s) (send_pkts s) in
      Ret (BatchEnd (if decide (Nat.min tx (length pkts) = send_size s) then OK else INTERNAL_ERROR)
        (take tx pkts) (drop (send_size s) (send_pkts s)))
  end.

Lemma process_pkts_run recvs bufs tx s r s1 : for_each (process_pkt TX_CKSUM oom) recvs (set_send bufs 0 s) = (r, s1) ->
  process_pkts TX_CKSUM oom recvs (Some bufs) tx s = (batch_result tx r s1, s1).
Proof.
  intros E. unfold process_pkts, mbind, M_bind, modify, get, put. rewrite E. by destruct r as [[]|[]].
Qed.

Lemma wp_process_pkts recvs bufs tx t s : holds t s -> rules_ok (rules_of s) -> table_ok cap (rules_of s) t ->
  Forall (fits cap) recvs -> (forall n, oom n = false) ->
  length bufs = (2 * length recvs)%nat -> Forall (fun b => length (room b) = cap) bufs ->
  match spec_run (rules_of s) t recvs with
  | Ret (t', ops, outs) => wp (process_pkts TX_CKSUM oom recvs (Some bufs) tx)
      (fun r s' => holds t' s' /\ enqueued s' = enqueued s ++ ops /\ rules_of s' = rules_of s /\
         exists b, r = Ret b /\ batch_done (length recvs) (rules_of s) outs tx b) s
  | Err (Fault x) => wp (process_pkts TX_CKSUM oom recvs (Some bufs) tx) (fun r _ => r = Err (Fault x)) s
  | Err (Returns st) => wp (process_pkts TX_CKSUM oom recvs (Some bufs) tx) (fun r _ => r = Ret (BatchEnd st [] [])) s
  end.
Proof.
  intros Hh Hrc Ht Hf Ho Lb Hb. pose proof (batch_refines recvs t (set_send bufs 0 s)) as Hrun.
  cbn [rules_of set_send] in Hrun. specialize (Hrun Hh Hrc Ht Hf Ho). unfold refines in Hrun.
  assert (ready cap (2 * length recvs) (set_send bufs 0 s)) as Hr by (split; [done | cbn; lia]). specialize (Hrun Hr).
  assert (forall Q, (forall r s1, for_each (process_pkt TX_CKSUM oom) recvs (set_send bufs 0 s) = (r, s1) ->
      Q (batch_result tx r s1) s1) -> wp (process_pkts TX_CKSUM oom recvs (Some bufs) tx) Q s) as Hcalc.
  { intros Q HQ. destruct (for_each (process_pkt TX_CKSUM oom) recvs (set_send bufs 0 s)) as [r s1] eqn:E.
    unfold wp. rewrite (process_pkts_run _ _ _ _ _ _ E). by apply HQ. }
  destruct (spec_run (rules_of s) t recvs) as [[[t' ops] outs]|[st|x]].
  - apply Hcalc. intros r s1 E. unfold wp in Hrun. rewrite E in Hrun. destruct Hrun as (Hret & Hh' & He & (Er & Hcap & L & ms & Hms & Hsz & Htk)).
    cbn [fst snd] in *. subst r. cbn in He, Er, L, Hsz, Htk. split; [done|]. split; [done|]. split; [done|].
    cbn zeta. eexists. split; [reflexivity|]. exists ms. rewrite Htk. pose proof (Forall2_length _ _ _ Hms) as Hlm.
    cbn. split; [done|]. split; [done|]. split.
    + apply (f_equal length) in Htk. rewrite length_take, length_app, length_take, L, Hsz, <- Hlm in Htk. cbn in Htk.
      rewrite length_drop, L, Hsz, <- Hlm. lia.
    + rewrite Hsz, <- Hlm, take_0. cbn [app]. case_decide as H1; case_decide as H2; done || (exfalso; clear - H1 H2 Hlm; lia).
  - apply Hcalc. intros r s1 E. unfold wp in Hrun. rewrite E in Hrun. cbn in Hrun. by subst r.
  - apply Hcalc. intros r s1 E. unfold wp in Hrun. rewrite E in Hrun. cbn in Hrun. by subst r.
Qed.
End batch.
