(* ===== verification/Worker.v ===== *)
(** * The worker of the front end

    What a worker does with the bursts it receives, from an empty flow table on:
    the faults there are and the runs that reach them, what the switch is told,
    and what becomes of the buffers. *)
From Stdlib Require Import ZArith Lia.
From stdpp Require Import base list gmap.
From S2P Require Import Prelude Bpf Wire EntryController BfRt RuleController Packet PacketProofs PktProcessor FlowSpec FlowHeap PktProofs FrontEnd.

(** ** The faults of the specification *)

Lemma until_zero_terminated l : exists url, until_zero (l ++ [0]) = Some url.
Proof.
  induction l as [|b l [url IH]]; cbn; [by eexists|]. destruct (b =? 0); [by eexists|]. rewrite IH. by eexists.
Qed.

Lemma copy_url_error payload i size x : copy_url payload i size = Err x <-> 20 <= size /\ x = StackOverflow.
Proof.
  unfold copy_url. destruct (Z.leb_spec 20 size); [by split; [intros [= <-] | intros [_ ->]]|].
  destruct (until_zero_terminated (slice payload i (Z.to_nat size))) as [url ->]. split; [done | lia].
Qed.

(** The length of the URL in a request. *)
Definition url_size (p : list Z) : Z :=
  match parse_payload (drop (payload_at p) p) (Z.to_nat (payload_len p)) with Ret (_, size) => size | Err _ => 0 end.

(** The IP length field of the packet sends the search for the URL past the end of
    the buffer. *)
Definition overreads (p : list Z) : Prop :=
  parse_payload (drop (payload_at p) p) (Z.to_nat (payload_len p)) = Err OutOfRoom.

(** The search reads past the end only if the length field asks for more than the
    buffer has. *)
Lemma overreads_long p : overreads p -> Z.of_nat (length p - payload_at p) < payload_len p.
Proof. intros E. apply parse_payload_error in E as [_ Hl]. rewrite length_drop in Hl. lia. Qed.

(** How the search for the URL goes wrong. *)
Definition url_fault (p : list Z) (x : pkt_fault) : Prop :=
  20 <= url_size p /\ x = StackOverflow \/ overreads p /\ x = OutOfRoom.

Lemma url_of_error p x : url_of p = Err x <-> url_fault p x.
Proof.
  unfold url_of, url_fault, url_size, overreads. destruct (parse_payload _ _) as [[i size]|y] eqn:E.
  - rewrite copy_url_error. intuition congruence.
  - apply parse_payload_error in E as [-> _]. intuition (congruence || lia).
Qed.

(** The packet finds an entry whose flow has been freed. *)
Definition finds_freed (t : table) (p : list Z) : Prop :=
  t !! src_of p = Some Dangling \/ t !! src_of p = None /\ t !! dst_of p = Some Dangling.

(** The packet is a request: of a connected client, or of a new one. *)
Definition is_request (t : table) (p : list Z) : Prop :=
  has_payload p = true /\
  match t !! src_of p with
  | Some (Live f) => f_phase f <> Waiting /\ is_reset p = false /\ is_fin p = false
  | Some Dangling => False
  | None => t !! dst_of p = None
  end.

(** How processing a packet goes wrong. *)
Definition goes_wrong (t : table) (p : list Z) (x : pp_stop) : Prop :=
  tcp_packet p /\ (finds_freed t p /\ x = Fault UseAfterFree \/ is_request t p /\ exists y, url_fault p y /\ x = Fault y).

Lemma spec_step_error cap rc t recv x : fits cap recv -> spec_step rc t recv = Err x <-> goes_wrong t (room recv) x.
Proof.
  intros Hf. pose proof (url_of_error (room recv)) as Hurl. unfold spec_step, goes_wrong, finds_freed, is_request.
  destruct (decide (tcp_packet (room recv))) as [Hp|Hp]; [|by split; [|intros []]].
  assert (forall o, (match url_of (room recv) with Err y => Err (Fault y) | Ret url => Ret (o url) end = Err x :> outcome pp_stop (table * list ec_op * list out)) <->
    exists y, url_fault (room recv) y /\ x = Fault y) as Hreq.
  { intros o. destruct (url_of (room recv)) as [url|y].
    - split; [done|]. by intros (y & E%Hurl & _).
    - split; [intros [= <-]; exists y; by rewrite <- Hurl | by intros (z & [= <-]%Hurl & ->)]. }
  assert (forall f, f_phase f <> Waiting -> spec_client rc t (src_of (room recv)) f recv = Err x <->
    (has_payload (room recv) = true /\ is_reset (room recv) = false /\ is_fin (room recv) = false) /\
      exists y, url_fault (room recv) y /\ x = Fault y) as Hconn.
  { intros f Hph. rewrite spec_client_connected by done. cbv zeta.
    destruct (is_reset _); [split; [done | (intuition congruence)]|]. destruct (is_fin _); [split; [done | (intuition congruence)]|].
    destruct (has_payload _); [|split; [done | (intuition congruence)]].
    rewrite <- (Hreq (fun url => match rule_map rc !! url with None => (t, [], []) | Some n => spec_request t (src_of (room recv)) f recv n end)).
    destruct (url_of (room recv)) as [url|]; [destruct (rule_map rc !! url)|]; (intuition congruence). }
  destruct (t !! src_of (room recv)) as [[f|]|] eqn:Es.
  - destruct (decide (f_phase f = Waiting)) as [Hw|Hw]; [|rewrite (Hconn f Hw); (intuition congruence)].
    unfold spec_client. rewrite Hw. repeat case_match; split; (done || (intuition congruence)).
  - (intuition congruence).
  - destruct (t !! dst_of (room recv)) as [[f|]|] eqn:Ed.
    + unfold spec_server. repeat case_match; split; (done || (intuition congruence)).
    + (intuition congruence).
    + unfold spec_new. destruct (has_payload _); cbn [negb]; [|split; [done | (intuition congruence)]].
      rewrite <- (Hreq (fun url => match rule_map rc !! url with None => (t, [], []) | Some n => (<[src_of (room recv) := Live (Flow Waiting n (content recv))]> t, [], [SynTo (d_index n) recv]) end)).
      destruct (url_of (room recv)) as [url|]; [destruct (rule_map rc !! url)|]; (intuition congruence).
Qed.

(** A fault is all that can stop a run. *)
Lemma spec_run_error cap rc recvs : Forall (fits cap) recvs -> forall t x, spec_run rc t recvs = Err x ->
  x = Fault UseAfterFree \/ x = Fault StackOverflow \/ x = Fault OutOfRoom.
Proof.
  induction 1 as [|recv recvs Hf _ IH]; intros t x; cbn; [done|].
  destruct (spec_step rc t recv) as [[[t1 ops1] outs1]|y] eqn:E.
  - destruct (spec_run rc t1 recvs) as [[[t2 ops2] outs2]|y] eqn:E2; [done|]. intros [= <-]. by eapply IH.
  - intros [= <-]. apply (spec_step_error cap) in E as [_ [[_ ->]|(_ & z & [[_ ->]|[_ ->]] & ->)]]; auto.
Qed.

Lemma spec_run_outs rc recvs : forall t t' ops outs, spec_run rc t recvs = Ret (t', ops, outs) ->
  (length outs <= 2 * length recvs)%nat.
Proof.
  induction recvs as [|recv recvs IH]; intros t t' ops outs; cbn [spec_run]; [by intros [= <- <- <-]|].
  destruct (spec_step rc t recv) as [[[t1 ops1] outs1]|y] eqn:E; [|done].
  destruct (spec_run rc t1 recvs) as [[[t2 ops2] outs2]|y] eqn:E2; [|done]. intros [= <- <- <-].
  apply spec_outs in E. apply IH in E2. rewrite length_app. cbn [length]. lia.
Qed.

Lemma table_ok_run cap rc recvs : rules_ok rc -> Forall (fits cap) recvs -> forall t t' ops outs, table_ok cap rc t ->
  spec_run rc t recvs = Ret (t', ops, outs) -> table_ok cap rc t'.
Proof.
  intros Hrc. induction 1 as [|recv recvs Hf _ IH]; intros t t' ops outs Ht; cbn; [by intros [= <- <- <-]|].
  destruct (spec_step rc t recv) as [[[t1 ops1] outs1]|y] eqn:E; [|done].
  destruct (spec_run rc t1 recvs) as [[[t2 ops2] outs2]|y] eqn:E2; [|done]. intros [= <- <- <-].
  eapply IH; [|done]. by eapply table_ok_step.
Qed.

(** ** One packet, one batch *)

Section one.
Context {Mp : Type} `{CuckooMap Mp loc} `{!CuckooMapLaws Mp loc} (TX_CKSUM : Z) (oom : nat -> bool).
Context (cap : nat).
Implicit Types (s : pp Mp) (t : table) (recv : mbuf).

Lemma process_pkt_ok t recv s : prepared oom cap t recv s -> holds t s ->
  forall t' ops outs, spec_step (rules_of s) t recv = Ret (t', ops, outs) ->
  exists s', process_pkt TX_CKSUM oom recv s = (Ret tt, s') /\ holds t' s' /\ enqueued s' = enqueued s ++ ops /\ outbox cap outs s s'.
Proof.
  intros Hprep Hh t' ops outs E. pose proof (process_pkt_refines TX_CKSUM oom cap t recv s Hprep Hh) as Hr.
  rewrite E in Hr. unfold refines in Hr. destruct (wp_run _ _ _ Hr) as (r & s' & Erun & -> & ? & ? & ?). by exists s'.
Qed.

Lemma process_pkt_err t recv s : prepared oom cap t recv s -> holds t s ->
  forall x, spec_step (rules_of s) t recv = Err x -> exists s', process_pkt TX_CKSUM oom recv s = (Err x, s').
Proof.
  intros Hprep Hh x E. pose proof (process_pkt_refines TX_CKSUM oom cap t recv s Hprep Hh) as Hr.
  rewrite E in Hr. unfold refines in Hr. destruct (wp_run _ _ _ Hr) as (r & s' & Erun & ->). by exists s'.
Qed.

(** C6: A batch does what the specification says.  From a state that holds the table
    of flows [t], and with two buffers for every packet, [process_pkts] ends in a
    state that holds the table the packets lead to, one after the other; the
    entries for the switch are those of the specification, in order; the packets
    it asks for are built, in order, and sent as far as the device takes them,
    and the buffers not needed are given back.  It faults exactly where the
    specification does. *)
Theorem process_pkts_refines recvs bufs tx t s :
  holds t s -> rules_ok (rules_of s) -> table_ok cap (rules_of s) t -> Forall (fits cap) recvs -> (forall n, oom n = false) ->
  length bufs = (2 * length recvs)%nat -> Forall (fun b => length (room b) = cap) bufs ->
  match spec_run (rules_of s) t recvs with
  | Ret (t', ops, outs) => exists b s', process_pkts TX_CKSUM oom recvs (Some bufs) tx s = (Ret b, s') /\
      holds t' s' /\ table_ok cap (rules_of s) t' /\ enqueued s' = enqueued s ++ ops /\ rules_of s' = rules_of s /\
      batch_done (length recvs) (rules_of s) outs tx b
  | Err x => exists s', process_pkts TX_CKSUM oom recvs (Some bufs) tx s = (Err x, s')
  end.
Proof.
  intros Hh Hrc Ht Hf Ho L Hb. pose proof (wp_process_pkts TX_CKSUM oom cap recvs bufs tx t s Hh Hrc Ht Hf Ho L Hb) as Hw.
  destruct (spec_run (rules_of s) t recvs) as [[[t' ops] outs]|x] eqn:E.
  - destruct (wp_run _ _ _ Hw) as (r & s' & Erun & Hh' & He & Er & b & -> & Hd). exists b, s'. split_and!; try done.
    by eapply table_ok_run.
  - destruct (spec_run_error cap _ _ Hf _ _ E) as [-> | [-> | ->]]; destruct (wp_run _ _ _ Hw) as (r & s' & Erun & ->); by exists s'.
Qed.

(** C8: The only faults.  Where buffers are at hand for what is to be sent, memory is
    not exhausted, and the rules and the flows name servers that are known
    ([prepared]), the code that processes a packet leaves the bounds of a
    buffer, a table or the heap in three cases and no other: the packet belongs to
    a flow that was freed and left in the table, it is a request whose URL does
    not fit [url_copy], or it is a request whose length field says more than the
    buffer has, and the search for the URL runs out of the buffer.  Nothing is
    assumed of the lengths in the headers.  What a server that is not known does is
    in [removed_server_stops_batch] and [unknown_server_crashes]. *)
Theorem process_pkt_faults t recv s x : prepared oom cap t recv s -> holds t s ->
  fst (process_pkt TX_CKSUM oom recv s) = Err x <-> goes_wrong t (room recv) x.
Proof.
  intros Hprep Hh. rewrite <- (spec_step_error cap (rules_of s)) by apply Hprep.
  destruct (spec_step (rules_of s) t recv) as [[[t' ops] outs]|y] eqn:E.
  - destruct (process_pkt_ok _ _ _ Hprep Hh _ _ _ E) as (s' & -> & _). split; intros [=].
  - destruct (process_pkt_err _ _ _ Hprep Hh _ E) as (s' & ->). cbn. split; by intros [= ->].
Qed.

(** C33: A client that closes before the server has answered leaves a pointer to
    freed memory in the table: the flow is freed and not erased, and the next
    packet of this client reads it. *)
Theorem early_close_dangles t f recv s recv' :
  prepared oom cap t recv s -> holds t s -> tcp_packet (room recv) ->
  t !! src_of (room recv) = Some (Live f) -> f_phase f = Waiting -> is_fin (room recv) || is_reset (room recv) = true ->
  fits cap recv' -> tcp_packet (room recv') -> src_of (room recv') = src_of (room recv) -> ready cap 3 s ->
  exists s1 s2, process_pkt TX_CKSUM oom recv s = (Ret tt, s1) /\
    holds (<[src_of (room recv) := Dangling]> t) s1 /\
    process_pkt TX_CKSUM oom recv' s1 = (Err (Fault UseAfterFree), s2).
Proof.
  intros Hprep Hh Hp E Hw Hc Hf' Hp' Esrc Hr.
  assert (spec_step (rules_of s) t recv = Ret (<[src_of (room recv) := Dangling]> t, [], [ResetReply recv])) as Es.
  { unfold spec_step, spec_client. rewrite decide_True by done. cbv zeta. by rewrite E, Hw, Hc. }
  destruct (process_pkt_ok _ _ _ Hprep Hh _ _ _ Es) as (s1 & E1 & Hh1 & He & Hob). pose proof Hob as (Er & _).
  destruct Hprep as (Hf & _ & Hrc & Ht & Ho).
  assert (prepared oom cap (<[src_of (room recv) := Dangling]> t) recv' s1) as Hprep'.
  { split_and!; try done; rewrite ?Er; try done; [|by apply table_ok_dangle]. by apply (outbox_ready cap 2 [ResetReply recv] s). }
  assert (spec_step (rules_of s1) (<[src_of (room recv) := Dangling]> t) recv' = Err (Fault UseAfterFree)) as Es'.
  { unfold spec_step. rewrite decide_True by done. cbv zeta. by rewrite Esrc, lookup_insert_eq. }
  destruct (process_pkt_err _ _ _ Hprep' Hh1 _ Es') as (s2 & E2). by exists s1, s2.
Qed.

(** ** Servers that are not there *)

Lemma wp_send_syn_unknown rc d recv m : (66 <= length (room recv))%nat -> (66 <= length (room m))%nat -> server_of rc d = None ->
  wp (send_syn_pkt TX_CKSUM rc d recv) (fun r m' => r = Err NullPointer) m.
Proof.
  intros Hl Hm Hs. unfold send_syn_pkt, deref_server. rewrite Hs. wp_step.
  apply wp_copy_packet; [change (Z.to_nat 66) with 66%nat; lia | change (Z.to_nat 66) with 66%nat; lia |].
  intros r E L. by do 2 wp_step.
Qed.

Lemma wp_send_fails k (w : rule_controller_t -> M mbuf pkt_fault status_t) (Qw : outcome pkt_fault status_t -> mbuf -> Prop) e s :
  ready cap (S k) s -> (forall b, length (room b) = cap -> wp (w (rules_of s)) Qw b) ->
  (forall r b, Qw r b -> match r with Err f => e = Fault f | Ret OK => False | Ret st => e = Returns st end) ->
  wp (send (Mp:=Mp) w) (fun r _ => r = Err e) s.
Proof.
  intros [Hc Hk] Hw He. unfold send. wp_step. wp_step.
  destruct (lookup_lt_is_Some_2 (send_pkts s) (send_size s)) as [b Eb]; [lia|]. rewrite Eb.
  rewrite Forall_lookup in Hc. destruct (wp_run _ _ _ (Hw b (Hc _ _ Eb))) as (r & b' & E & HQ). rewrite E.
  specialize (He r b' HQ). wp_step. wp_step. destruct r as [[]|]; subst; done || by apply wp_fail.
Qed.

Lemma refines_send_fails k w Qw e (m : unit -> M (pp Mp) pp_stop unit) s : ready cap (S k) s ->
  (forall b, length (room b) = cap -> wp (w (rules_of s)) Qw b) ->
  (forall r b, Qw r b -> match r with Err f => e = Fault f | Ret OK => False | Ret st => e = Returns st end) ->
  refines cap (Err e) (x ← send w; m x) s.
Proof.
  intros Hr Hw He. unfold refines. apply wp_bind. eapply wp_mono; [by eapply wp_send_fails|]. by intros r s' ->.
Qed.


(** C35: A rule can name a server that is not there, since rules and servers come
    and go in separate messages; the first request for it is a null pointer
    dereference, in [send_syn_pkt]. *)
Theorem unknown_server_crashes t recv url n s :
  holds t s -> fits cap recv -> tcp_packet (room recv) -> ready cap 1 s ->
  t !! src_of (room recv) = None -> t !! dst_of (room recv) = None -> has_payload (room recv) = true ->
  url_of (room recv) = Ret url -> rule_map (rules_of s) !! url = Some n -> server_of (rules_of s) (d_index n) = None ->
  exists s', process_pkt TX_CKSUM oom recv s = (Err (Fault NullPointer), s').
Proof.
  intros Hh Hf Hp Hr E E' Hpl Hurl Hn Hs.
  assert (refines cap (Err (Fault NullPointer)) (process_pkt TX_CKSUM oom recv) s) as Href.
  { apply refines_headers; [done | done |]. apply (reach_new _ _ _ _ t); try done.
    unfold new_client. cbn [payload_flag the_view]. rewrite Hpl. cbn [negb].
    apply refines_url; [done |]. rewrite Hurl. apply refines_rule. rewrite Hn.
    eapply (refines_send_fails 0); [done | |].
    - intros b Lb. pose proof Hf as ((_ & L66 & _) & Lr). apply wp_send_syn_unknown; [lia | lia | done].
    - by intros r b ->. }
  unfold refines in Href. destruct (wp_run _ _ _ Href) as (r & s1 & Erun & ->). by exists s1.
Qed.
End one.

(** ** What the front end tells the switch fits the messages *)

(** An entry about a client, in the fields of the structures. *)
Definition op_wf (op : ec_op) : Prop :=
  match op with
  | EnqAdd p => exists e, client_ok e /\ pair_key p = my_key_of e /\ data_ok (pair_data p)
  | EnqDel k => exists e, client_ok e /\ k = my_key_of e
  | Tick => False
  end.

Definition rules_wf (rc : rule_controller_t) : Prop := forall url n, rule_map rc !! url = Some n -> data_ok n.
Definition table_wf (t : table) : Prop := forall e f, t !! e = Some (Live f) -> data_ok (f_data f).

Lemma table_wf_insert t e f : table_wf t -> data_ok (f_data f) -> table_wf (<[e := Live f]> t).
Proof.
  intros Ht Hd e' g. destruct (decide (e = e')) as [<-|]; [rewrite lookup_insert_eq; by intros [= <-]|].
  rewrite lookup_insert_ne by done. apply Ht.
Qed.
Lemma table_wf_dangle t e : table_wf t -> table_wf (<[e := Dangling]> t).
Proof.
  intros Ht e' g. destruct (decide (e = e')) as [<-|]; [by rewrite lookup_insert_eq|]. rewrite lookup_insert_ne by done. apply Ht.
Qed.
Lemma table_wf_delete t e : table_wf t -> table_wf (delete e t).
Proof. intros Ht e' g [_ E]%lookup_delete_Some. by eapply Ht. Qed.

Lemma add_wf e d : client_ok e -> data_ok d -> Forall op_wf [EnqAdd (MyPair (my_key_of e) d)].
Proof. intros He Hd. constructor; [|done]. by exists e. Qed.
Lemma del_wf e : client_ok e -> Forall op_wf [EnqDel (my_key_of e)].
Proof. intros He. constructor; [|done]. by exists e. Qed.
Lemma taken_back_wf e f : client_ok e -> Forall op_wf (taken_back e f).
Proof. intros He. unfold taken_back. case_decide; [by apply del_wf | done]. Qed.

Create HintDb wf.
#[local] Hint Resolve table_wf_insert table_wf_dangle table_wf_delete add_wf del_wf taken_back_wf : wf.

Lemma spec_step_wf cap rc t recv t' ops outs : fits cap recv -> rules_wf rc -> table_wf t ->
  spec_step rc t recv = Ret (t', ops, outs) -> table_wf t' /\ Forall op_wf ops.
Proof.
  intros ((Hb & Hl & _) & _) Hr Ht. pose proof (src_of_ok _ Hb ltac:(lia)) as Hs. pose proof (dst_of_ok _ Hb ltac:(lia)) as Hd.
  unfold spec_step. case_decide; [|by intros [= <- <- <-]].
  destruct (t !! src_of (room recv)) as [[f|]|] eqn:Es; [| done |].
  { pose proof (Ht _ _ Es) as Hdf. unfold spec_client, spec_request.
    destruct (f_phase f); repeat case_match; intros Hx; try discriminate Hx; injection Hx as <- <- <-; split; eauto 6 with wf. }
  destruct (t !! dst_of (room recv)) as [[f|]|] eqn:Ed; [| done |].
  { pose proof (Ht _ _ Ed) as Hdf. unfold spec_server.
    destruct (f_phase f); repeat case_match; intros Hx; try discriminate Hx; injection Hx as <- <- <-; split; eauto with wf. }
  unfold spec_new. repeat case_match; intros Hx; try discriminate Hx; injection Hx as <- <- <-; split; eauto with wf.
Qed.

Lemma spec_run_wf cap rc recvs : Forall (fits cap) recvs -> rules_wf rc -> forall t t' ops outs, table_wf t ->
  spec_run rc t recvs = Ret (t', ops, outs) -> table_wf t' /\ Forall op_wf ops.
Proof.
  intros Hf Hr. induction Hf as [|recv recvs Hf _ IH]; intros t t' ops outs Ht; cbn; [by intros [= <- <- <-]|].
  destruct (spec_step rc t recv) as [[[t1 ops1] outs1]|y] eqn:E; [|done].
  destruct (spec_run rc t1 recvs) as [[[t2 ops2] outs2]|y] eqn:E2; [|done]. intros [= <- <- <-].
  eapply spec_step_wf in E as [Ht1 Ho1]; [|done..]. eapply IH in E2 as [Ht2 Ho2]; [|done]. split; [done|]. by apply Forall_app.
Qed.

(** ** The life of a worker *)

(** What happens to the state of the packet processor: a worker receives a burst,
    with what the allocation and the device give; or [main] has handled a message
    and left these rules. *)
Inductive round : Type :=
| Burst (recv_pkts : list mbuf) (alloc : option (list mbuf)) (tx : nat)
| Update (rc : rule_controller_t).

Section life.
Context {Mp : Type} `{CuckooMap Mp loc} `{!CuckooMapLaws Mp loc} (TX_CKSUM : Z) (oom : nat -> bool).
Context (cap : nat).
Implicit Types (s : pp Mp) (t : table) (recv : mbuf).

Definition on_round (r : round) : M (pp Mp) pp_stop unit :=
  match r with
  | Burst recv_pkts alloc tx => worker_step TX_CKSUM oom recv_pkts alloc tx
  | Update rc => modify (set_rules rc)
  end.

(** Packets fit their buffers; rules are complete, and servers in use are not
    withdrawn. *)
Fixpoint rounds_ok (rc : rule_controller_t) (rs : list round) : Prop :=
  match rs with
  | [] => True
  | Burst recvs alloc tx :: rs =>
      Forall (fits cap) recvs /\
      match alloc with
      | None => True
      | Some bufs => length bufs = (2 * length recvs)%nat /\ Forall (fun b => length (room b) = cap) bufs
      end /\ rounds_ok rc rs
  | Update rc' :: rs => rules_ok rc' /\ rules_wf rc' /\ (forall d, server_ok rc d -> server_ok rc' d) /\ rounds_ok rc' rs
  end.

(** The invariant: the state holds a table of flows, all of them well formed; the
    switch was told exactly of the offloaded ones, never twice of the same. *)
Definition running t s : Prop :=
  holds t s /\ rules_ok (rules_of s) /\ rules_wf (rules_of s) /\ table_ok cap (rules_of s) t /\ table_wf t /\
  Forall op_wf (enqueued s) /\ told ∅ (enqueued s) /\ announced (enqueued s) = omap offloaded t.

Lemma holds_new rc : holds ∅ (new_pp (Mp:=Mp) rc).
Proof.
  assert (forall e, flow_at (replicate 256 (cuckoo_new : Mp)) e = None) as Hat.
  { intros e. unfold flow_at. rewrite lookup_replicate_2 by apply crc_of_lt. apply cuckoo_find_new. }
  exists ∅. split; try done; try (by intros; rewrite lookup_empty; apply Hat).
  intros i m k p [-> _]%lookup_replicate. by rewrite cuckoo_find_new.
Qed.

Lemma running_new rc : rules_ok rc -> rules_wf rc -> running ∅ (new_pp rc).
Proof. intros Hr Hw. split_and!; try done. apply holds_new. Qed.

Lemma running_burst t recvs bufs tx s : running t s -> Forall (fits cap) recvs -> (forall n, oom n = false) ->
  length bufs = (2 * length recvs)%nat -> Forall (fun b => length (room b) = cap) bufs ->
  wp (process_pkts TX_CKSUM oom recvs (Some bufs) tx) (fun r s' => match r with
    | Ret _ => rules_of s' = rules_of s /\ (exists ops, enqueued s' = enqueued s ++ ops) /\ exists t', running t' s'
    | Err x => x = Fault UseAfterFree \/ x = Fault StackOverflow \/ x = Fault OutOfRoom
    end) s.
Proof.
  intros (Hh & Hr & Hw & Ht & Htw & Ho & Htold & Hm) Hf Hoom L Hb.
  pose proof (wp_process_pkts TX_CKSUM oom cap recvs bufs tx t s Hh Hr Ht Hf Hoom L Hb) as Hp.
  destruct (spec_run (rules_of s) t recvs) as [[[t' ops] outs]|x] eqn:E.
  - eapply wp_mono; [exact Hp|]. intros r s' (Hh' & He & Er & b & -> & _). split; [done|]. split; [by exists ops|]. exists t'.
    destruct (spec_run_wf cap _ _ Hf Hw _ _ _ _ Htw E) as [Htw' Hops]. destruct (spec_run_mirror _ _ _ _ _ _ E) as [T1 T2].
    unfold running. rewrite Er, He. split_and!; try done.
    + by eapply table_ok_run.
    + by apply Forall_app.
    + rewrite told_app. split; [done|]. unfold announced in Hm. by rewrite Hm.
    + by rewrite announced_app, Hm.
  - destruct (spec_run_error cap _ _ Hf _ _ E) as [-> | [-> | ->]]; (eapply wp_mono; [exact Hp|]); intros r s' ->; auto.
Qed.

Lemma running_update t rc s : running t s -> rules_ok rc -> rules_wf rc ->
  (forall d, server_ok (rules_of s) d -> server_ok rc d) -> running t (set_rules rc s).
Proof.
  intros (Hh & Hr & Hw & Ht & Hrest) Hr' Hw' Hd. split_and!; try done; try apply Hrest.
  intros e f E. destruct (Ht e f E) as (? & ? & ?). auto.
Qed.

(** Runs from a state within the invariant. *)
Lemma wp_rounds rs : (forall n, oom n = false) -> forall t s, running t s -> rounds_ok (rules_of s) rs ->
  wp (for_each on_round rs) (fun r s' => match r with
    | Ret _ => exists t', running t' s'
    | Err x => x = Fault UseAfterFree \/ x = Fault StackOverflow \/ x = Fault OutOfRoom
    end) s.
Proof.
  intros Ho. induction rs as [|r rs IH]; intros t s Hs Hok; cbn [for_each]; [apply wp_ret; eauto|]. apply wp_bind.
  destruct r as [recvs alloc tx|rc]; cbn [rounds_ok] in Hok.
  - destruct Hok as (Hf & Ha & Hok). cbn [on_round]. unfold worker_step.
    destruct recvs as [|recv recvs]; [apply wp_ret; by apply (IH t)|]. set (burst := recv :: recvs) in *. apply wp_bind.
    destruct alloc as [bufs|]; [|apply wp_ret; cbn beta iota; apply wp_ret; by apply (IH t)]. destruct Ha as [L Hb].
    eapply wp_mono; [by apply (running_burst t)|]. intros [b|x] s'; cbn beta iota; [|done].
    intros (Er & _ & t' & Hs'). apply wp_ret. apply (IH t'); [done|]. by rewrite Er.
  - destruct Hok as (H1 & H2 & H3 & Hok). cbn [on_round]. apply wp_modify. apply (IH t); [by apply running_update | done].
Qed.

(** The invariant of the front end.  From an empty table on, through any bursts
    of packets and any changes of the rules that keep the servers in use, the
    state represents a table of flows without sharing, the heap holds the flows
    and the requests of this table and nothing more, and the entries put in the
    queues so far, taken in order, name exactly the clients whose flows are
    offloaded, with their servers: none is announced twice, none taken back that
    was not announced.  Only the three faults of [process_pkt_faults] end a run. *)
Theorem front_end_invariant rc rs : rules_ok rc -> rules_wf rc -> rounds_ok rc rs -> (forall n, oom n = false) ->
  let '(r, s) := for_each on_round rs (new_pp rc) in
  match r with
  | Ret _ => exists t, running t s
  | Err x => x = Fault UseAfterFree \/ x = Fault StackOverflow \/ x = Fault OutOfRoom
  end.
Proof.
  intros Hr Hw Hok Ho. pose proof (wp_rounds rs Ho ∅ (new_pp rc) (running_new rc Hr Hw) Hok) as Hrun.
  unfold wp in Hrun. by destruct (for_each on_round rs (new_pp rc)) as [[]].
Qed.
End life.

(** ** Concrete runs *)

#[export] Instance fits_dec cap recv : Decision (fits cap recv).
Proof. unfold fits, pkt_ok. apply _. Defined.
#[export] Instance tcp_packet_dec p : Decision (tcp_packet p).
Proof. unfold tcp_packet. apply _. Defined.

(** A received frame in a buffer of 96 bytes. *)
Definition sample_mbuf (p : list Z) : mbuf :=
  Mbuf (p ++ replicate (96 - length p) 0) (Z.of_nat (length p)) (Z.of_nat (length p)) 0 0 0 0.

(** The client 10.0.2.1:40000 and the virtual server 10.0.0.9:80. *)
Definition from_client (flags : Z) (payload : list Z) : mbuf :=
  sample_mbuf (sample_packet [10; 0; 2; 1] [10; 0; 0; 9] [156; 64] [0; 80] [0; 0; 3; 232] [0; 0; 19; 137] 5 flags [0; 0] payload).
Definition to_client (flags : Z) (payload : list Z) : mbuf :=
  sample_mbuf (sample_packet [10; 0; 1; 5] [10; 0; 2; 1] [0; 80] [156; 64] [0; 0; 35; 40] [0; 0; 3; 232] 5 flags [0; 0] payload).
Definition sample_client : client := (167772673, 40000).

(** "GET /a ", a request whose URL is 24 bytes long, and "GET" in a packet that
    claims 60000 bytes. *)
Definition sample_request : mbuf := from_client 24 [71; 69; 84; 32; 47; 97; 32].
Definition long_request : mbuf := from_client 24 ([71; 69; 84; 32; 47] ++ replicate 24 97 ++ [32]).
Definition lying_request : mbuf :=
  let p := room (from_client 24 [71; 69; 84]) in sample_mbuf (take 57 (take 16 p ++ [234; 96] ++ drop 18 p)).
Definition sample_synack : mbuf := to_client 18 [].

(** The rule "a": server 5, to be offloaded. *)
Definition server_5 : server_info_t := ServerInfo [12; 66; 161; 74; 255; 5] 167772421 80.
Definition front_rc : rule_controller_t :=
  RuleController {[[97] := MyData 1 5]} {[5 := server_5]} (ServerInfo [12; 66; 161; 74; 255; 9] 167772169 80).
(** The same after the switch has withdrawn the server. *)
Definition gone_rc : rule_controller_t := RuleController (rule_map front_rc) ∅ (virtual_server_info front_rc).

Definition no_oom (n : nat) : bool := false.
Definition sample_bufs (k : nat) : list mbuf := replicate (2 * k) (Mbuf (replicate 96 0) 0 0 0 0 0 0).

Lemma front_rc_ok : rules_ok front_rc /\ rules_wf front_rc.
Proof.
  assert (info_ok server_5 /\ info_ok (virtual_server_info front_rc)) as [H5 Hv]
    by (split; (split; [done|]; split; [decide_now | split; cbn; modlia])).
  split; [split; [exact Hv|]|]; intros url n E; cbn in E; apply lookup_singleton_Some in E as [_ <-].
  - by exists server_5.
  - split; cbn; modlia.
Qed.

(** The state after these packets, with two buffers left, and its table. *)
Definition sample_state (recvs : list mbuf) : pp (gmap Z nat) :=
  snd (for_each (process_pkt 0 no_oom) recvs (set_send (sample_bufs (S (S (length recvs)))) 0 (new_pp front_rc))).
Definition sample_table (recvs : list mbuf) : table :=
  match spec_run front_rc ∅ recvs with Ret (t, _, _) => t | Err _ => ∅ end.

Lemma sample_runs recvs : Forall (fits 96) recvs -> (if spec_run front_rc ∅ recvs is Ret _ then True else False) ->
  let s := sample_state recvs in let t := sample_table recvs in
  holds t s /\ rules_of s = front_rc /\ table_ok 96 front_rc t /\ ready 96 3 s.
Proof.
  intros Hf. pose proof front_rc_ok as [Hr _]. unfold sample_state, sample_table. set (bufs := sample_bufs _).
  assert (Forall (fun b => length (room b) = 96%nat) bufs) as Hb by by apply Forall_replicate.
  assert (length bufs = 2 * length recvs + 4)%nat as L by (unfold bufs, sample_bufs; rewrite length_replicate; lia).
  set (s0 := set_send bufs 0 (new_pp front_rc)).
  assert (ready 96 (2 * length recvs) s0) as Hrd by (split; [done | change (0 + 2 * length recvs <= length bufs)%nat; lia]).
  assert (table_ok 96 front_rc ∅) as Ht by done.
  pose proof (batch_refines 0 no_oom 96 recvs ∅ s0 (holds_new front_rc) Hr Ht Hf (fun _ => eq_refl) Hrd) as Hb'.
  change (rules_of s0) with front_rc in Hb'. destruct (spec_run front_rc ∅ recvs) as [[[t ops] outs]|] eqn:E; [|done]. intros _.
  destruct (wp_run _ _ _ Hb') as (r & s & Erun & -> & Hh & _ & Er & Hc & Ls & ms & _ & Hsz & _). fold s0. rewrite Erun. cbn [snd].
  split_and!; [done | by rewrite Er | by apply (table_ok_run 96 _ recvs Hr Hf ∅ _ _ _ Ht E) |].
  split; [done|]. rewrite Ls, Hsz. change (send_size s0) with 0%nat. change (send_pkts s0) with bufs. rewrite L.
  pose proof (spec_run_outs front_rc recvs ∅ t ops outs E). lia.
Qed.

Lemma holds_set_rules {Mp} `{CuckooMap Mp nat} t rc (s : pp Mp) : holds t s -> holds t (set_rules rc s).
Proof. done. Qed.
Lemma holds_set_send {Mp} `{CuckooMap Mp nat} t bufs n (s : pp Mp) : holds t s -> holds t (set_send bufs n s).
Proof. done. Qed.
Lemma ready_set_rules {Mp} cap k rc (s : pp Mp) : ready cap k s -> ready cap k (set_rules rc s).
Proof. done. Qed.

Lemma sample_run_spec : spec_run front_rc ∅ [sample_request; sample_synack] =
  Ret (sample_table [sample_request; sample_synack], [EnqAdd (MyPair (my_key_of sample_client) (MyData 1 5))],
       [SynTo 5 sample_request; CachedTo 5 (content sample_request)]).
Proof. vm_compute. reflexivity. Qed.

(** A client offloaded: its request, and the answer of the server. *)
Lemma process_pkts_refines_witness :
  exists b s', process_pkts 0 no_oom [sample_request; sample_synack] (Some (sample_bufs 2)) 10 (new_pp (Mp := gmap Z nat) front_rc) = (Ret b, s') /\
    holds (sample_table [sample_request; sample_synack]) s' /\
    enqueued s' = [EnqAdd (MyPair (my_key_of sample_client) (MyData 1 5))] /\ batch_status b = OK.
Proof.
  pose proof (process_pkts_refines 0 no_oom 96 [sample_request; sample_synack] (sample_bufs 2) 10 ∅ (new_pp (Mp := gmap Z nat) front_rc)
    (holds_new front_rc) (proj1 front_rc_ok) ltac:(done) ltac:(decide_now) (fun _ => eq_refl) eq_refl ltac:(by apply Forall_replicate)) as Hw.
  change (rules_of (new_pp front_rc)) with front_rc in Hw. rewrite sample_run_spec in Hw.
  destruct Hw as (b & s' & E & Hh & _ & He & _ & ms & Hms & _ & _ & Hst). exists b, s'. split_and!; [done | done | done |].
  rewrite Hst. apply Forall2_length in Hms. cbn in Hms. by rewrite <- Hms.
Defined.

(** A new client whose URL has 24 characters, and one that lies about its length. *)
Lemma process_pkt_faults_witness :
  fst (process_pkt 0 no_oom long_request (sample_state [])) = Err (Fault StackOverflow) /\
  fst (process_pkt 0 no_oom lying_request (sample_state [])) = Err (Fault OutOfRoom).
Proof.
  destruct (sample_runs []) as (Hh & Er & Ht & Hr); [done | done |].
  split; (apply (process_pkt_faults 0 no_oom 96 ∅); [|exact Hh|]).
  1, 3: split_and!; [decide_now | by apply (ready_less 96 3); [|lia] | apply front_rc_ok | exact Ht | done].
  all: split; [decide_now|]; right; split; [split; [vm_compute; reflexivity | done]|].
  - exists StackOverflow. split; [|done]. left. split; [by apply Z.leb_le; vm_compute | done].
  - exists OutOfRoom. split; [|done]. right. split; [vm_compute; reflexivity | done].
Defined.

(** A client sends its request, then closes, then sends again. *)
Lemma early_close_dangles_witness :
  exists s1 s2, process_pkt 0 no_oom (from_client 17 []) (sample_state [sample_request]) = (Ret tt, s1) /\
    holds (<[sample_client := Dangling]> (sample_table [sample_request])) s1 /\
    process_pkt 0 no_oom sample_request s1 = (Err (Fault UseAfterFree), s2).
Proof.
  destruct (sample_runs [sample_request]) as (Hh & Er & Ht & Hr); [decide_now | vm_compute; exact I |].
  apply (early_close_dangles 0 no_oom 96 (sample_table [sample_request]) (Flow Waiting (MyData 1 5) (content sample_request))
    (from_client 17 []) (sample_state [sample_request]) sample_request);
    [| exact Hh | decide_now | vm_compute; reflexivity | reflexivity | vm_compute; reflexivity | decide_now | decide_now | vm_compute; reflexivity | exact Hr].
  split_and!; [decide_now | by apply (ready_less 96 3); [|lia] | rewrite Er; apply front_rc_ok | rewrite Er; exact Ht | done].
Defined.

(** An established connection to a server that the switch then withdraws.  A packet
    of the server to the client has been prepared when the client's next one stops
    the batch. *)
Definition withdrawn : pp (gmap Z nat) := set_rules gone_rc (sample_state [sample_request; sample_synack]).
Definition half_done : pp (gmap Z nat) := snd (for_each (process_pkt 0 no_oom) [to_client 16 [72]] (set_send (sample_bufs 3) 0 withdrawn)).


(** The request arrives between the rule and its server. *)
Lemma unknown_server_crashes_witness :
  exists s', process_pkt 0 no_oom sample_request (set_rules gone_rc (sample_state [])) = (Err (Fault NullPointer), s').
Proof.
  destruct (sample_runs []) as (Hh & _ & _ & Hr); [done | done |].
  apply (unknown_server_crashes 0 no_oom 96 ∅ sample_request [97] (MyData 1 5));
    [by apply holds_set_rules | decide_now | decide_now | apply ready_set_rules, (ready_less 96 3 _ _ Hr); lia | done | done
    | vm_compute; reflexivity | vm_compute; reflexivity | vm_compute; reflexivity | vm_compute; reflexivity].
Defined.

(** Three bursts and a change of the rules in between. *)
Definition sample_rounds : list round :=
  [Burst [sample_request] (Some (sample_bufs 1)) 2; Update front_rc;
   Burst [sample_synack; from_client 16 []] (Some (sample_bufs 2)) 4; Burst [sample_request] None 0].
Lemma front_end_invariant_witness :
  let '(r, s) := for_each (on_round 0 no_oom) sample_rounds (new_pp (Mp := gmap Z nat) front_rc) in
  match r with
  | Ret _ => exists t, running 96 t s
  | Err x => x = Fault UseAfterFree \/ x = Fault StackOverflow \/ x = Fault OutOfRoom
  end.
Proof.
  apply (front_end_invariant 0 no_oom 96 front_rc sample_rounds); [apply front_rc_ok | apply front_rc_ok | | done].
  cbn [rounds_ok sample_rounds]. split_and!; try apply front_rc_ok; try done; try decide_now; by apply Forall_replicate.
Defined.
