(* ===== verification/Dpdk.v ===== *)
(** * The network device of the packet processor

    [init_static_variable] brings the device up through DPDK, [run] starts a worker
    on a core, [stop] and the second half of [destroy_static_variable] take it
    down.  DPDK is a parameter here: the calls, the part of its state they act on,
    and what a call that succeeds does to it; any call may fail, and then leaves
    that state as it was. *)
From Stdlib Require Import ZArith Lia String.
From stdpp Require Import base list gmap strings.
From S2P Require Import Prelude BfRt RuleController Packet.

(** ** The library *)

(** What [rte_eth_dev_configure] is given, and what [rte_eth_dev_info_get] gives. *)
Record eth_conf := EthConf { rx_offloads : Z; tx_offloads : Z; rx_mq_mode : Z; rss_hf : Z }.
Record dev_info := DevInfo { default_rxconf : Z; default_txconf : Z; nb_rx_queues : Z; nb_tx_queues : Z }.

(** The calls, with the type of what they return; [rte_pktmbuf_pool_create] without
    the name, the private size 0 and the socket.  Of the configuration of a queue only
    the offloads are modelled.  [rte_eal_remote_launch] starts the worker with this
    queue; [rte_eal_wait_lcore] fails when it does not return, which depends on
    whether the workers finish; [rte_mempool_free] fails when the pool is in use,
    which its contract leaves undefined. *)
Inductive dpdk_call : Type -> Type :=
| rte_eal_init (args : list string) : dpdk_call unit
| rte_pktmbuf_pool_create (n cache_size data_room_size : Z) : dpdk_call Z
| rte_eth_dev_get_port_by_name (name : string) : dpdk_call Z
| rte_eth_dev_configure (port nb_rx nb_tx : Z) (conf : eth_conf) : dpdk_call unit
| rte_eth_dev_info_get (port : Z) : dpdk_call dev_info
| rte_eth_rx_queue_setup (port queue nb_desc offloads : Z) (pool : option Z) : dpdk_call unit
| rte_eth_tx_queue_setup (port queue nb_desc offloads : Z) : dpdk_call unit
| rte_eth_promiscuous_enable (port : Z) : dpdk_call unit
| rte_eth_dev_start (port : Z) : dpdk_call unit
| rte_eal_remote_launch (worker core : Z) : dpdk_call unit
| rte_eal_wait_lcore (finishes : Z -> bool) (core : Z) : dpdk_call unit
| rte_mempool_free (pool : option Z) : dpdk_call unit
| rte_eth_dev_rx_queue_stop (port queue : Z) : dpdk_call unit
| rte_eth_dev_tx_queue_stop (port queue : Z) : dpdk_call unit
| rte_eth_dev_stop (port : Z) : dpdk_call unit
| rte_eth_dev_close (port : Z) : dpdk_call unit
| rte_eal_cleanup : dpdk_call unit.

(** A queue: its descriptors, its offloads, and the pool it takes buffers from. *)
Record rxq := RxQ { rx_desc : Z; rx_conf : Z; rx_pool : Z }.
Record txq := TxQ { tx_desc : Z; tx_conf : Z }.
Record port := Port { p_conf : option (Z * Z * eth_conf); p_rx : gmap Z rxq; p_tx : gmap Z txq; p_promiscuous : bool; p_started : bool }.

(** [e_pools]: number of buffers, cache, room; [e_running]: the worker on a core. *)
Record eal := Eal { e_up : bool; e_pools : gmap Z (Z * Z * Z); e_ports : gmap Z port; e_running : gmap Z Z }.

Definition set_up (e : eal) : eal := Eal true (e_pools e) (e_ports e) (e_running e).
Definition set_pool (p : Z) (x : Z * Z * Z) (e : eal) : eal := Eal (e_up e) (<[p := x]> (e_pools e)) (e_ports e) (e_running e).
Definition set_port (p : Z) (x : port) (e : eal) : eal := Eal (e_up e) (e_pools e) (<[p := x]> (e_ports e)) (e_running e).
Definition del_pool (p : Z) (e : eal) : eal := Eal (e_up e) (delete p (e_pools e)) (e_ports e) (e_running e).
Definition del_port (p : Z) (e : eal) : eal := Eal (e_up e) (e_pools e) (delete p (e_ports e)) (e_running e).
Definition set_down (e : eal) : eal := Eal false (e_pools e) (e_ports e) (e_running e).
Definition set_running (r : gmap Z Z) (e : eal) : eal := Eal (e_up e) (e_pools e) (e_ports e) r.

(** The header's constants, the devices, and the cores for workers. *)
Class DpdkNames := {
  RTE_ETH_RX_OFFLOAD_CHECKSUM : Z;
  RTE_ETH_TX_OFFLOAD_IPV4_CKSUM : Z;
  RTE_ETH_TX_OFFLOAD_TCP_CKSUM : Z;
  RTE_ETH_MQ_RX_RSS : Z;
  RTE_ETH_RSS_IP : Z;
  RTE_ETH_RSS_TCP : Z;
  port_of : string -> option Z;
  worker_cores : list Z
}.

(** A device that runs takes buffers from the pool. *)
Definition pool_in_use (b : Z) (e : eal) : Prop :=
  exists p x q r, e_ports e !! p = Some x /\ p_started x = true /\ p_rx x !! q = Some r /\ rx_pool r = b.

(** What a successful call does.  A port is configured while it is stopped, its queues
    are set up between that and its start, and it starts with all of them set up. *)
Definition dpdk_eff `{DpdkNames} {A} (c : dpdk_call A) : eal -> A -> eal -> Prop :=
  match c in dpdk_call A return eal -> A -> eal -> Prop with
  | rte_eal_init _ => fun e _ e' => e_up e = false /\ e' = set_up e
  | rte_pktmbuf_pool_create n cache room => fun e p e' => e_up e = true /\ e_pools e !! p = None /\ e' = set_pool p (n, cache, room) e
  | rte_eth_dev_get_port_by_name name => fun e p e' => port_of name = Some p /\ is_Some (e_ports e !! p) /\ e' = e
  | rte_eth_dev_configure p n m c => fun e _ e' => exists x n' m', e_ports e !! p = Some x /\ p_started x = false /\
      (n <> 0 \/ m <> 0 -> n' = n /\ m' = m) /\
      e' = set_port p (Port (Some (n', m', c)) (p_rx x) (p_tx x) (p_promiscuous x) false) e
  | rte_eth_dev_info_get p => fun e _ e' => is_Some (e_ports e !! p) /\ e' = e
  | rte_eth_rx_queue_setup p q d o pool => fun e _ e' => exists x n m c b, e_ports e !! p = Some x /\ p_conf x = Some (n, m, c) /\
      0 <= q < n /\ p_started x = false /\ pool = Some b /\ is_Some (e_pools e !! b) /\
      e' = set_port p (Port (p_conf x) (<[q := RxQ d o b]> (p_rx x)) (p_tx x) (p_promiscuous x) false) e
  | rte_eth_tx_queue_setup p q d o => fun e _ e' => exists x n m c, e_ports e !! p = Some x /\ p_conf x = Some (n, m, c) /\
      0 <= q < m /\ p_started x = false /\
      e' = set_port p (Port (p_conf x) (p_rx x) (<[q := TxQ d o]> (p_tx x)) (p_promiscuous x) false) e
  | rte_eth_promiscuous_enable p => fun e _ e' => exists x, e_ports e !! p = Some x /\
      e' = set_port p (Port (p_conf x) (p_rx x) (p_tx x) true (p_started x)) e
  | rte_eth_dev_start p => fun e _ e' => exists x n m c, e_ports e !! p = Some x /\ p_conf x = Some (n, m, c) /\ p_started x = false /\
      (forall q, 0 <= q < n -> is_Some (p_rx x !! q)) /\ (forall q, 0 <= q < m -> is_Some (p_tx x !! q)) /\
      e' = set_port p (Port (p_conf x) (p_rx x) (p_tx x) (p_promiscuous x) true) e
  | rte_eal_remote_launch w core => fun e _ e' => e_up e = true /\ core ∈ worker_cores /\ e_running e !! core = None /\
      e' = set_running (<[core := w]> (e_running e)) e
  | rte_eal_wait_lcore finishes core => fun e _ e' =>
      match e_running e !! core with
      | None => e' = e
      | Some w => finishes w = true /\ e' = set_running (delete core (e_running e)) e
      end
  | rte_mempool_free pool => fun e _ e' =>
      match pool with None => e' = e | Some b => is_Some (e_pools e !! b) /\ ~ pool_in_use b e /\ e' = del_pool b e end
  | rte_eth_dev_rx_queue_stop p _ | rte_eth_dev_tx_queue_stop p _ => fun e _ e' => is_Some (e_ports e !! p) /\ e' = e
  | rte_eth_dev_stop p => fun e _ e' => exists x, e_ports e !! p = Some x /\
      e' = set_port p (Port (p_conf x) (p_rx x) (p_tx x) (p_promiscuous x) false) e
  | rte_eth_dev_close p => fun e _ e' => exists x, e_ports e !! p = Some x /\ p_started x = false /\ e' = del_port p e
  | rte_eal_cleanup => fun e _ e' => e_up e = true /\ e' = set_down e
  end.

(** A library: how it answers a call, [None] for a failure. *)
Class Dpdk (D : Type) := {
  dpdk_exec : forall {A}, dpdk_call A -> D -> option A * D;
  eal_of : D -> eal
}.

Class DpdkLaws (D : Type) `{Dpdk D} `{DpdkNames} : Prop := {
  dpdk_exec_some {A} (c : dpdk_call A) d a d' : dpdk_exec c d = (Some a, d') -> dpdk_eff c (eal_of d) a (eal_of d');
  dpdk_exec_none {A} (c : dpdk_call A) d d' : dpdk_exec c d = (None, d') -> eal_of d' = eal_of d
}.

(** A library that refuses only what the state does not allow. *)
Definition works (D : Type) `{Dpdk D} `{DpdkNames} : Prop :=
  forall A (c : dpdk_call A) d a e', dpdk_eff c (eal_of d) a e' -> exists a' d', dpdk_exec c d = (Some a', d').

(** ** The code *)

(** [dpdk_config_t]; [pci_addr] is what the pointer leads to when it is used. *)
Record dpdk_config_t := DpdkConfig {
  pci_addr : string;
  rx_ring_size : Z; tx_ring_size : Z;
  num_mbufs : Z; mbuf_cache_size : Z; mbuf_data_room_size : Z;
  burst_size : Z; queue_size : Z
}.

Section code.
Context {D : Type} `{Dpdk D} `{DpdkNames}.

(** The library, the static members [init_static_variable] sets, and the flag
    [exit_flag] of every worker. *)
Record device := Device {
  lib : D;
  static_crc8_table : list Z;
  mbuf_pool : option Z;
  port_id : Z;
  exit_flags : gmap Z bool
}.

(** Before the program does anything. *)
Definition new_device (d : D) : device := Device d (replicate 256 0) None 0 ∅.

Definition set_lib (d : D) (s : device) : device := Device d (static_crc8_table s) (mbuf_pool s) (port_id s) (exit_flags s).
Definition set_crc8_table (l : list Z) (s : device) : device := Device (lib s) l (mbuf_pool s) (port_id s) (exit_flags s).
Definition set_mbuf_pool (p : option Z) (s : device) : device := Device (lib s) (static_crc8_table s) p (port_id s) (exit_flags s).
Definition set_port_id (p : Z) (s : device) : device := Device (lib s) (static_crc8_table s) (mbuf_pool s) p (exit_flags s).
Definition set_exit_flag (w : Z) (b : bool) (s : device) : device :=
  Device (lib s) (static_crc8_table s) (mbuf_pool s) (port_id s) (<[w := b]> (exit_flags s)).

(** The status returned early is the error. *)
Abbreviation I := (M device status_t).

Definition dpdk {A E} (c : dpdk_call A) : M device E (option A) :=
  fun s => let '(r, d) := dpdk_exec c (lib s) in (Ret r, set_lib d s).

(** [if(ret < 0) ... return INTERNAL_ERROR;] *)
Definition or_return {A} (c : dpdk_call A) : I A :=
  r ← dpdk c; match r with Some a => mret a | None => fail INTERNAL_ERROR end.

(** Lines 646-651. *)
Definition port_conf : eth_conf :=
  EthConf RTE_ETH_RX_OFFLOAD_CHECKSUM (Z.lor RTE_ETH_TX_OFFLOAD_IPV4_CKSUM RTE_ETH_TX_OFFLOAD_TCP_CKSUM)
    RTE_ETH_MQ_RX_RSS (Z.lor RTE_ETH_RSS_IP RTE_ETH_RSS_TCP).

(** Both queues of worker [i]. *)
Definition setup_queues (rxconf txconf i : Z) : I unit :=
  s ← get;
  _ ← or_return (rte_eth_rx_queue_setup (port_id s) (u16 i) 2048 rxconf (mbuf_pool s));
  or_return (rte_eth_tx_queue_setup (port_id s) (u16 i) 2048 txconf).

(** Lines 657-691: the queues, and the start. *)
Definition start_port (p : Z) (config : dpdk_config_t) : I unit :=
  info ← or_return (rte_eth_dev_info_get p);
  let txconf := Z.lor (Z.lor (default_txconf info) RTE_ETH_TX_OFFLOAD_IPV4_CKSUM) RTE_ETH_TX_OFFLOAD_TCP_CKSUM in
  _ ← for_each (setup_queues (default_rxconf info) txconf) (seqZ 0 (queue_size config));
  _ ← or_return (rte_eth_promiscuous_enable p);
  or_return (rte_eth_dev_start p).

(** The checks of [init_static_variable], in order. *)
Definition init_device (args : list string) (config : dpdk_config_t) : I unit :=
  _ ← modify (set_crc8_table crc8_table);
  _ ← or_return (rte_eal_init args);
  pool ← dpdk (rte_pktmbuf_pool_create (num_mbufs config) (mbuf_cache_size config) (u16 (mbuf_data_room_size config)));
  _ ← modify (set_mbuf_pool pool);
  _ ← match pool with None => fail INTERNAL_ERROR | Some _ => mret tt end;
  p ← or_return (rte_eth_dev_get_port_by_name (pci_addr config));
  _ ← modify (set_port_id p);
  _ ← or_return (rte_eth_dev_configure p (u16 (queue_size config)) (u16 (queue_size config)) port_conf);
  start_port p config.

Definition init_static_variable {E} (args : list string) (config : dpdk_config_t) : M device E status_t := fun s =>
  match init_device args config s with
  | (Ret _, s) => (Ret OK, s)
  | (Err st, s) => (Ret st, s)
  end.

(** The constructor. *)
Definition new_pkt_processor {E} (queue_id : Z) : M device E unit := modify (set_exit_flag queue_id true).

(** [run]: whether the worker was started is not looked at. *)
Definition run {E} (worker core_id : Z) : M device E unit :=
  _ ← modify (set_exit_flag worker false);
  _ ← dpdk (rte_eal_remote_launch worker core_id); mret tt.

(** A worker leaves its loop when its flag is set. *)
Definition finishes (s : device) (w : Z) : bool := bool_decide (exit_flags s !! w = Some true).

(** [stop]; a wait that does not return is the error. *)
Definition stop_worker (worker : Z) : M device unit unit :=
  _ ← modify (set_exit_flag worker true);
  for_each (fun core_id =>
    s ← get; r ← dpdk (rte_eal_wait_lcore (finishes s) core_id);
    match r with Some _ => mret tt | None => fail tt end) worker_cores.

(** The second half of [destroy_static_variable].  Only what the contract leaves
    undefined ends it; [junk] is what [dev_info] holds when nothing is stored. *)
Definition destroy_device (junk : dev_info) : M device unit unit :=
  s ← get;
  r ← dpdk (rte_mempool_free (mbuf_pool s));
  _ ← match r with Some _ => mret tt | None => fail tt end;
  info ← dpdk (rte_eth_dev_info_get (port_id s));
  let info := default junk info in
  _ ← for_each (fun q => _ ← dpdk (rte_eth_dev_rx_queue_stop (port_id s) q); mret tt) (seqZ 0 (nb_rx_queues info));
  _ ← for_each (fun q => _ ← dpdk (rte_eth_dev_tx_queue_stop (port_id s) q); mret tt) (seqZ 0 (nb_tx_queues info));
  _ ← dpdk (rte_eth_dev_stop (port_id s));
  _ ← dpdk (rte_eth_dev_close (port_id s));
  _ ← dpdk rte_eal_cleanup; mret tt.
End code.
Arguments device : clear implicits.

(** ** Proofs *)

Section proofs.
Context {D : Type} `{Dpdk D} `{DpdkNames} `{!DpdkLaws D}.
Implicit Types (s : device D) (e : eal).

Abbreviation eal_in s := (eal_of (lib s)).

Lemma wp_dpdk {A E} (c : dpdk_call A) (Q : outcome E (option A) -> device D -> Prop) s :
  (forall a d', dpdk_eff c (eal_in s) a (eal_of d') -> Q (Ret (Some a)) (set_lib d' s)) ->
  (forall d', eal_of d' = eal_in s -> (works D -> forall a e', ~ dpdk_eff c (eal_in s) a e') -> Q (Ret None) (set_lib d' s)) ->
  wp (dpdk c) Q s.
Proof.
  intros Hs Hn. unfold wp, dpdk. destruct (dpdk_exec c (lib s)) as [[a|] d'] eqn:E'; cbn.
  - by apply Hs, dpdk_exec_some.
  - apply Hn; [by apply dpdk_exec_none in E'|]. intros Hw a e' He. destruct (Hw A c _ a e' He) as (a' & d2 & E2).
    rewrite E' in E2. discriminate.
Qed.

Lemma wp_or_return {A} (c : dpdk_call A) (Q : outcome status_t A -> device D -> Prop) s :
  (forall a d', dpdk_eff c (eal_in s) a (eal_of d') -> Q (Ret a) (set_lib d' s)) ->
  (forall d', eal_of d' = eal_in s -> (works D -> forall a e', ~ dpdk_eff c (eal_in s) a e') -> Q (Err INTERNAL_ERROR) (set_lib d' s)) ->
  wp (or_return c) Q s.
Proof.
  intros Hs Hn. unfold or_return. apply wp_bind, wp_dpdk; cbn beta iota.
  - intros a d' He. apply wp_ret. auto.
  - intros d' He Hw. apply wp_fail. auto.
Qed.

(** No port has been started. *)
Definition unstarted e e' : Prop := forall p x', e_ports e' !! p = Some x' -> p_started x' = true ->
  exists x, e_ports e !! p = Some x /\ p_started x = true.

Lemma unstarted_refl e : unstarted e e.
Proof. intros p x E Hs. by exists x. Qed.
Lemma unstarted_ports e e' : e_ports e' = e_ports e -> unstarted e e'.
Proof. intros E p x. rewrite E. intros Ex Hs. by exists x. Qed.
Lemma unstarted_trans e1 e2 e3 : unstarted e1 e2 -> unstarted e2 e3 -> unstarted e1 e3.
Proof. intros H1 H2 p x E Hs. destruct (H2 p x E Hs) as (y & E' & Hs'). by apply (H1 p y). Qed.
Lemma unstarted_set_port p x e : p_started x = false -> unstarted e (set_port p x e).
Proof.
  intros Hx p' x' E Hs. cbn in E. apply lookup_insert_Some in E as [[<- <-]|[_ E]]; [congruence|]. by exists x'.
Qed.

Lemma set_port_set_port p x y e : set_port p x (set_port p y e) = set_port p x e.
Proof. unfold set_port. cbn. by rewrite insert_insert_eq. Qed.
Lemma set_lib_set_lib d d' s : set_lib d (set_lib d' s) = set_lib d s.
Proof. done. Qed.

(** The queues below [k] are set up. *)
Definition filled (k rxo txo b : Z) (x : port) : Prop := forall q, 0 <= q < k ->
  p_rx x !! q = Some (RxQ 2048 rxo b) /\ p_tx x !! q = Some (TxQ 2048 txo).

Lemma wp_setup_queues n c rxo txo b m : forall j x s, n < 2 ^ 16 -> 0 <= j -> j + Z.of_nat m = n ->
  mbuf_pool s = Some b -> is_Some (e_pools (eal_in s) !! b) ->
  e_ports (eal_in s) !! port_id s = Some x -> p_conf x = Some (n, n, c) -> p_started x = false -> filled j rxo txo b x ->
  wp (for_each (setup_queues rxo txo) (seqZ j (Z.of_nat m))) (fun r s' => s' = set_lib (lib s') s /\ match r with
    | Ret _ => exists x', eal_in s' = set_port (port_id s) x' (eal_in s) /\ p_conf x' = Some (n, n, c) /\ p_started x' = false /\
        filled n rxo txo b x'
    | Err st => st = INTERNAL_ERROR /\ ~ works D /\ unstarted (eal_in s) (eal_in s') /\ e_running (eal_in s') = e_running (eal_in s)
    end) s.
Proof.
  induction m as [|m IH]; intros j x s Hn Hj Hm Hb Hp Ex Hc Hst Hfl.
  { cbn. apply wp_ret. split; [by destruct s|]. exists x. rewrite Z.add_0_r in Hm. subst j.
    split; [|done]. unfold set_port. destruct (eal_in s) eqn:E. cbn in *. by rewrite insert_id. }
  rewrite seqZ_cons by lia. replace (Z.pred (Z.of_nat (S m))) with (Z.of_nat m) by lia. cbn [for_each].
  apply wp_bind. unfold setup_queues at 1. wp_step. wp_step. rewrite u16_id by modlia.
  apply wp_bind, wp_or_return; cbn beta iota.
  2: { intros d1 E1 Hw. split; [done|]. split; [done|]. cbn. rewrite E1. split_and!; [|apply unstarted_refl | done]. intros Hwk.
       eapply (Hw Hwk tt). do 5 eexists. split_and!; try done; lia. }
  intros [] d1 (x1 & n1 & m1 & c1 & b1 & Ex1 & Hc1 & Hj1 & Hst1 & Hb1 & Hp1 & E1).
  rewrite Ex in Ex1. injection Ex1 as <-. rewrite Hc in Hc1. injection Hc1 as <- <- <-. rewrite Hb in Hb1. injection Hb1 as <-.
  rewrite Hc in E1. set (x1 := Port _ _ _ _ _) in E1.
  assert (e_ports (eal_of d1) !! port_id s = Some x1) as Ex1 by (rewrite E1; apply lookup_insert_eq).
  apply wp_or_return; cbn [lib set_lib].
  2: { intros d2 E2 Hw. rewrite set_lib_set_lib. split; [done|]. split; [done|]. cbn. rewrite E2. split_and!.
       - intros Hwk. eapply (Hw Hwk tt). do 4 eexists. split_and!; try done; lia.
       - rewrite E1. by apply unstarted_set_port.
       - by rewrite E1. }
  intros [] d2 (x2 & n2 & m2 & c2 & Ex2 & Hc2 & _ & _ & E2). rewrite Ex1 in Ex2. injection Ex2 as <-.
  cbn in E2. set (x2 := Port _ _ _ _ _) in E2. rewrite E1, set_port_set_port in E2. rewrite set_lib_set_lib.
  eapply wp_mono; [apply (IH (Z.succ j) x2 (set_lib d2 s)); try done; try lia|].
  - cbn. by rewrite E2.
  - cbn. rewrite E2. apply lookup_insert_eq.
  - intros q Hq. cbn. destruct (decide (j = q)) as [<-|Hne]; [by rewrite !lookup_insert_eq|].
    rewrite !lookup_insert_ne by done. apply Hfl. lia.
  - cbn [lib set_lib port_id]. rewrite E2. intros r s' [Es Hr]. split; [by rewrite Es|]. destruct r as [[]|st].
    + destruct Hr as (x' & E' & Hr). exists x'. by rewrite E', set_port_set_port.
    + destruct Hr as (-> & Hw & Hq & Hr). split_and!; try done. eapply unstarted_trans; [|exact Hq]. by apply unstarted_set_port.
Qed.

(** The port the configuration names is running: promiscuous, one receive and one
    transmit queue per worker, the receive queues on the pool of [mbuf_pool], the
    transmit queues with the checksum offloads that the packets ask for. *)
Definition port_ready (config : dpdk_config_t) s : Prop := exists b x rxo txo,
  port_of (pci_addr config) = Some (port_id s) /\ mbuf_pool s = Some b /\
  e_pools (eal_in s) !! b = Some (num_mbufs config, mbuf_cache_size config, u16 (mbuf_data_room_size config)) /\
  e_ports (eal_in s) !! port_id s = Some x /\ p_started x = true /\ p_promiscuous x = true /\
  p_conf x = Some (queue_size config, queue_size config, port_conf) /\ filled (queue_size config) rxo txo b x /\
  Z.land txo RTE_ETH_TX_OFFLOAD_IPV4_CKSUM = RTE_ETH_TX_OFFLOAD_IPV4_CKSUM /\
  Z.land txo RTE_ETH_TX_OFFLOAD_TCP_CKSUM = RTE_ETH_TX_OFFLOAD_TCP_CKSUM /\ e_up (eal_in s) = true.

(** DPDK is there to be initialised, and has the port, not in use. *)
Definition port_free (config : dpdk_config_t) e : Prop := e_up e = false /\
  exists p x, port_of (pci_addr config) = Some p /\ e_ports e !! p = Some x /\ p_started x = false.

(** What [init_static_variable] leaves alone, and what it always does. *)
Definition init_frame s s' : Prop := static_crc8_table s' = crc8_table /\ exit_flags s' = exit_flags s /\
  e_running (eal_in s') = e_running (eal_in s).

Lemma has_offloads d a b : Z.land (Z.lor (Z.lor d a) b) a = a /\ Z.land (Z.lor (Z.lor d a) b) b = b.
Proof.
  split; apply Z.bits_inj'; intros n _; rewrite !Z.land_spec, !Z.lor_spec;
    destruct (Z.testbit d n), (Z.testbit a n), (Z.testbit b n); done.
Qed.

(** The port as [start_port] leaves it. *)
Definition started_port (n : Z) (c : eth_conf) (b : Z) (x : port) : Prop := exists rxo txo,
  p_started x = true /\ p_promiscuous x = true /\ p_conf x = Some (n, n, c) /\ filled n rxo txo b x /\
  Z.land txo RTE_ETH_TX_OFFLOAD_IPV4_CKSUM = RTE_ETH_TX_OFFLOAD_IPV4_CKSUM /\
  Z.land txo RTE_ETH_TX_OFFLOAD_TCP_CKSUM = RTE_ETH_TX_OFFLOAD_TCP_CKSUM.

Lemma wp_start_port config p c b x s : 0 < queue_size config < 2 ^ 16 -> p = port_id s ->
  mbuf_pool s = Some b -> is_Some (e_pools (eal_in s) !! b) -> e_ports (eal_in s) !! port_id s = Some x ->
  p_conf x = Some (queue_size config, queue_size config, c) -> p_started x = false ->
  wp (start_port p config) (fun r s' => s' = set_lib (lib s') s /\ match r with
    | Ret _ => exists x', eal_in s' = set_port (port_id s) x' (eal_in s) /\ started_port (queue_size config) c b x'
    | Err st => st = INTERNAL_ERROR /\ ~ works D /\ unstarted (eal_in s) (eal_in s') /\ e_running (eal_in s') = e_running (eal_in s)
    end) s.
Proof.
  intros Hq -> Hb Hp Ex Hc Hst. unfold start_port. apply wp_bind, wp_or_return; cbn beta iota.
  2: { intros d1 E1 Hw. split; [done|]. split; [done|]. cbn. rewrite E1. split_and!; [|apply unstarted_refl | done]. intros Hwk.
       eapply (Hw Hwk (DevInfo 0 0 0 0)). split; [by eexists | done]. }
  intros info d1 [_ E1]. set (txo := Z.lor _ _). apply wp_bind.
  rewrite <- (Z2Nat.id (queue_size config)) at 1 by lia.
  eapply wp_mono; [apply (wp_setup_queues (queue_size config) c _ txo b _ 0 x); cbn [lib set_lib mbuf_pool port_id]; rewrite ?E1; try done; try lia|].
  { intros q Hq'. lia. }
  intros r s2 [Es2 Hr]. cbn [lib set_lib port_id] in Hr. rewrite E1 in Hr. rewrite Es2, set_lib_set_lib. destruct r as [[]|st]; [|by split].
  destruct Hr as (x2 & E2 & Hc2 & Hs2 & Hf2). generalize (lib s2) E2. clear Es2 E2. intros d2 E2.
  assert (unstarted (eal_in s) (eal_of d2)) as Q2 by (rewrite E2; by apply unstarted_set_port).
  assert (e_running (eal_of d2) = e_running (eal_in s)) as R2 by by rewrite E2.
  assert (e_ports (eal_of d2) !! port_id s = Some x2) as Ex2 by (rewrite E2; apply lookup_insert_eq).
  apply wp_bind, wp_or_return; cbn [lib set_lib]; cbn beta iota.
  2: { intros d3 E3 Hw. rewrite set_lib_set_lib. split; [done|]. split; [done|]. cbn. rewrite E3. split_and!; try done. intros Hwk.
       eapply (Hw Hwk tt). eexists. by split. }
  intros [] d3 (x3 & Ex3 & E3). rewrite Ex2 in Ex3. injection Ex3 as <-. rewrite Hs2 in E3. set (x3 := Port _ _ _ _ _) in E3.
  assert (e_ports (eal_of d3) !! port_id s = Some x3) as Ex3 by (rewrite E3; apply lookup_insert_eq).
  apply wp_or_return; cbn [lib set_lib]; rewrite !set_lib_set_lib.
  2: { intros d4 E4 Hw. rewrite set_lib_set_lib. split; [done|]. split; [done|]. cbn. rewrite E4. split_and!.
       - intros Hwk. eapply (Hw Hwk tt). exists x3. do 3 eexists. split_and!; try done; intros q Hq'; destruct (Hf2 q Hq') as [E5 E6]; by eexists.
       - eapply unstarted_trans; [exact Q2|]. rewrite E3. by apply unstarted_set_port.
       - by rewrite E3. }
  intros [] d4 (x4 & n & m & c4 & Ex4 & _ & _ & _ & _ & E4). rewrite Ex3 in Ex4. injection Ex4 as <-. rewrite set_lib_set_lib.
  split; [done|]. eexists. split; [cbn; rewrite E4, E3, E2, !set_port_set_port; reflexivity|].
  exists (default_rxconf info), txo. split_and!; try done; apply has_offloads.
Qed.

Lemma fresh_pool e : exists b, e_pools e !! b = None.
Proof. exists (fresh (dom (e_pools e))). apply not_elem_of_dom, is_fresh. Qed.

Lemma wp_init_device args config s : 0 < queue_size config < 2 ^ 16 ->
  wp (init_device args config) (fun r s' => init_frame s s' /\ match r with
    | Ret _ => port_ready config s'
    | Err st => st = INTERNAL_ERROR /\ unstarted (eal_in s) (eal_in s') /\ ~ (works D /\ port_free config (eal_in s))
    end) s.
Proof.
  intros Hq. unfold init_device. do 2 wp_step.
  apply wp_bind, wp_or_return; cbn beta iota.
  2: { intros d1 E1 Hw. split; [by split_and!; cbn; rewrite ?E1|]. split; [done|]. cbn. rewrite E1. split; [apply unstarted_refl|].
       intros (Hwk & Hup & _). by eapply (Hw Hwk tt). }
  intros [] d1 [Hup E1]. cbn in E1. apply wp_bind, wp_dpdk; cbn [lib set_lib]; rewrite E1; cbn beta iota.
  2: { intros d2 E2 Hw. do 2 wp_step. wp_step. split; [by split_and!; cbn; rewrite ?E2|]. split; [done|]. cbn. rewrite E2.
       split; [by apply unstarted_ports|]. intros (Hwk & _). destruct (fresh_pool (set_up (eal_in s))) as [b Hb].
       by eapply (Hw Hwk b). }
  intros b d2 (_ & Hb & E2). do 4 wp_step.
  apply wp_bind, wp_or_return; cbn [lib set_lib set_mbuf_pool]; rewrite E2.
  2: { intros d3 E3 Hw. split; [by split_and!; cbn; rewrite ?E3|]. split; [done|]. cbn. rewrite E3.
       split; [by apply unstarted_ports|]. intros (Hwk & _ & p & x & Ep & Ex & Hx). eapply (Hw Hwk p). split; [done|]. split; [by eexists | done]. }
  intros p d3 (Ep & _ & E3). do 2 wp_step. cbn beta iota.
  apply wp_bind, wp_or_return; cbn [lib set_lib set_mbuf_pool set_port_id]; rewrite E3.
  2: { intros d4 E4 Hw. split; [by split_and!; cbn; rewrite ?E4|]. split; [done|]. cbn. rewrite E4.
       split; [by apply unstarted_ports|]. intros (Hwk & _ & p' & x & Ep' & Ex & Hx). rewrite Ep in Ep'. injection Ep' as <-.
       eapply (Hw Hwk tt). by exists x, (u16 (queue_size config)), (u16 (queue_size config)). }
  rewrite u16_id by modlia. intros [] d4 (x & n & m & Ex & Hst & Hn & E4). destruct Hn as [-> ->]; [lia|].
  set (x4 := Port _ _ _ _ _) in E4. assert (unstarted (eal_in s) (eal_of d4)) as Hq4.
  { rewrite E4. eapply unstarted_trans; [|by apply unstarted_set_port]. by apply unstarted_ports. }
  assert (e_running (eal_of d4) = e_running (eal_in s)) as Hr4 by by rewrite E4.
  assert (e_ports (eal_of d4) !! p = Some x4) as Ex4 by (rewrite E4; apply lookup_insert_eq).
  assert (e_pools (eal_of d4) !! b = Some (num_mbufs config, mbuf_cache_size config, u16 (mbuf_data_room_size config))) as Hb4
    by (rewrite E4; apply lookup_insert_eq).
  eapply wp_mono; [apply (wp_start_port config p port_conf b x4); try done; by eexists|].
  intros r s' [-> Hr]. split.
  { split_and!; [done | done |]. cbn. destruct r as [[]|st]; [destruct Hr as (x' & Hr & _) | destruct Hr as (_ & _ & _ & Hr)]; cbn in Hr; rewrite Hr; by cbn. }
  destruct r as [[]|st].
  - destruct Hr as (x' & E' & rxo & txo & Hx). exists b, x', rxo, txo. cbn in E' |- *. rewrite E'.
    split_and!; try done; try apply Hx; [apply lookup_insert_eq | cbn; by rewrite E4].
  - destruct Hr as (-> & Hw & Hq' & _). split_and!; [done | by eapply unstarted_trans | tauto].
Qed.

(** C15: The device comes up or nothing starts.  When [init_static_variable] returns
    [OK] the port that the configuration names is running, with a pair of queues for
    every worker, the receive queues on the pool, the transmit queues with the
    checksum offloads the packet builders rely on; otherwise it returns
    [INTERNAL_ERROR], and no port runs that did not run before.  It returns [OK]
    where DPDK does what the state allows and the port is free.  The table of
    [calculate_crc8] is filled in either case. *)
Theorem device_comes_up args config s : 0 < queue_size config < 2 ^ 16 ->
  let '(r, s') := init_static_variable (E := stop) args config s in
  static_crc8_table s' = crc8_table /\
  (r = Ret OK /\ port_ready config s' \/
   r = Ret INTERNAL_ERROR /\ unstarted (eal_in s) (eal_in s') /\ ~ (works D /\ port_free config (eal_in s))).
Proof.
  intros Hq. pose proof (wp_init_device args config s Hq) as Hw. unfold wp in Hw. unfold init_static_variable.
  destruct (init_device args config s) as [[[]|st] s']; cbn in Hw; destruct Hw as [(Ht & _) Hw]; (split; [done|]).
  - by left.
  - right. by destruct Hw as (-> & ? & ?).
Qed.

(** ** Workers *)

Lemma wp_run_worker {E} w core (Q : outcome E unit -> device D -> Prop) s :
  (forall d', eal_of d' = eal_in s \/ core ∈ worker_cores /\ e_running (eal_in s) !! core = None /\
      eal_of d' = set_running (<[core := w]> (e_running (eal_in s))) (eal_in s) ->
    (works D -> e_up (eal_in s) = true -> core ∈ worker_cores -> e_running (eal_in s) !! core = None ->
      e_running (eal_of d') !! core = Some w) ->
    Q (Ret tt) (set_lib d' (set_exit_flag w false s))) ->
  wp (run w core) Q s.
Proof.
  intros HQ. unfold run. do 2 wp_step. apply wp_bind, wp_dpdk; cbn beta iota.
  - intros [] d' (_ & Hc & Hr & E'). apply wp_ret, HQ; [by right|]. intros _ _ _ _. rewrite E'. apply lookup_insert_eq.
  - intros d' E' Hw. apply wp_ret, HQ; [by left|]. intros Hwk Hup Hc Hr. exfalso. by eapply (Hw Hwk tt).
Qed.

(** The workers, each on its core (main.cpp, lines 111-113). *)
Lemma wp_run_workers {E} cores : forall j s, NoDup cores ->
  wp (E := E) (for_each (fun wc => run (fst wc) (snd wc)) (zip (seqZ j (Z.of_nat (length cores))) cores)) (fun r s' => r = Ret tt /\
    mbuf_pool s' = mbuf_pool s /\ port_id s' = port_id s /\ static_crc8_table s' = static_crc8_table s /\
    e_ports (eal_in s') = e_ports (eal_in s) /\ e_pools (eal_in s') = e_pools (eal_in s) /\ e_up (eal_in s') = e_up (eal_in s) /\
    (forall core, core ∉ cores -> e_running (eal_in s') !! core = e_running (eal_in s) !! core) /\
    (works D -> e_up (eal_in s) = true -> Forall (fun c => c ∈ worker_cores /\ e_running (eal_in s) !! c = None) cores ->
      forall (i : nat) core, cores !! i = Some core -> e_running (eal_in s') !! core = Some (j + Z.of_nat i))) s.
Proof.
  induction cores as [|c cores IH]; intros j s Hd; [by apply wp_ret|].
  apply NoDup_cons in Hd as [Hn Hd]. cbn [length]. rewrite seqZ_cons by lia. cbn [zip zip_with for_each fst snd].
  replace (Z.pred (Z.of_nat (S (length cores)))) with (Z.of_nat (length cores)) by lia.
  apply wp_bind, wp_run_worker. intros d' He Hw. cbn beta iota.
  eapply wp_mono; [by apply IH|]. cbn [lib set_lib set_exit_flag mbuf_pool port_id static_crc8_table].
  intros r s' (-> & Hm & Hp & Ht & Hports & Hpools & Hup & Hoth & Hall).
  assert (e_ports (eal_of d') = e_ports (eal_in s) /\ e_pools (eal_of d') = e_pools (eal_in s) /\ e_up (eal_of d') = e_up (eal_in s) /\
    forall core, core <> c -> e_running (eal_of d') !! core = e_running (eal_in s) !! core) as (E1 & E2 & E3 & E4).
  { destruct He as [-> | (_ & _ & ->)]; [done|]. split_and!; try done. intros core Hne. cbn. by rewrite lookup_insert_ne. }
  split_and!; try congruence.
  - intros core [Hc Hcs]%not_elem_of_cons. rewrite Hoth by done. by apply E4.
  - intros Hwk Hu Hf i core. apply Forall_cons in Hf as [[Hc Hr] Hf]. destruct i as [|i]; cbn.
    + intros [= <-]. rewrite Hoth by done. rewrite Z.add_0_r. by apply Hw.
    + intros Ei. replace (j + Z.of_nat (S i)) with (Z.succ j + Z.of_nat i) by lia. apply Hall; [done | congruence | | done].
      rewrite Forall_forall in Hf |- *. intros c' Hin. destruct (Hf c' Hin) as [Hc' Hr']. split; [done|].
      cbn. rewrite E4; [done|]. by intros ->.
Qed.

(** The life of the device in [main]: the status of [init_static_variable] is not
    looked at, the workers are started in any case. *)
Definition bring_up {E} (args : list string) (config : dpdk_config_t) (cores : list Z) : M (device D) E unit :=
  _ ← init_static_variable args config;
  _ ← for_each new_pkt_processor (seqZ 0 (queue_size config));
  for_each (fun wc => run (fst wc) (snd wc)) (zip (seqZ 0 (Z.of_nat (length cores))) cores).

Lemma wp_new_pkt_processors {E} l : forall s, wp (E := E) (for_each new_pkt_processor l) (fun r s' => r = Ret tt /\
  lib s' = lib s /\ mbuf_pool s' = mbuf_pool s /\ port_id s' = port_id s /\ static_crc8_table s' = static_crc8_table s) s.
Proof.
  induction l as [|w l IH]; intros s; cbn [for_each]; [by apply wp_ret|]. apply wp_bind, wp_modify. cbn beta iota.
  eapply wp_mono; [apply IH|]. by intros r s' (-> & -> & -> & -> & ->).
Qed.

(** The cores can be used, each once. *)
Definition cores_free (cores : list Z) e : Prop := Forall (fun c => c ∈ worker_cores /\ e_running e !! c = None) cores.

Lemma wp_bring_up {E} args config cores s : 0 < queue_size config < 2 ^ 16 -> NoDup cores ->
  wp (E := E) (bring_up args config cores) (fun r s' => r = Ret tt /\ static_crc8_table s' = crc8_table /\
    (port_ready config s' \/ unstarted (eal_in s) (eal_in s')) /\
    (works D -> port_free config (eal_in s) -> port_ready config s' /\
      (cores_free cores (eal_in s) -> forall (i : nat) core, cores !! i = Some core -> e_running (eal_in s') !! core = Some (Z.of_nat i)))) s.
Proof.
  intros Hq Hd. unfold bring_up. apply wp_bind. unfold wp at 1, init_static_variable.
  pose proof (wp_init_device args config s Hq) as Hw. unfold wp in Hw.
  destruct (init_device args config s) as [r1 s1]. cbn [fst snd] in Hw. destruct Hw as [(Ht & _ & Hrun) Hw].
  assert (forall st, wp (E := E) (_ ← for_each new_pkt_processor (seqZ 0 (queue_size config));
    for_each (fun wc => run (fst wc) (snd wc)) (zip (seqZ 0 (Z.of_nat (length cores))) cores)) (fun r s' => r = Ret st /\
    static_crc8_table s' = crc8_table /\ (port_ready config s1 -> port_ready config s') /\
    e_ports (eal_in s') = e_ports (eal_in s1) /\
    (works D -> e_up (eal_in s1) = true -> cores_free cores (eal_in s) ->
      forall (i : nat) core, cores !! i = Some core -> e_running (eal_in s') !! core = Some (Z.of_nat i))) s1) as Hrest.
  { intros []. apply wp_bind. eapply wp_mono; [apply wp_new_pkt_processors|]. intros r s2 (-> & El & Em & Ep & Et). cbn beta iota.
    eapply wp_mono; [by apply wp_run_workers|]. intros r s3 (-> & Em3 & Ep3 & Et3 & Eports & Epools & Eup & _ & Hall).
    rewrite El in *. split_and!; try done; [congruence | |].
    - intros (b & x & rxo & txo & Hpr). exists b, x, rxo, txo. by rewrite Ep3, Ep, Em3, Em, Eports, Epools, Eup.
    - intros Hwk Hup Hf i core Hi. apply (Hall Hwk Hup); [|done]. unfold cores_free in Hf. by rewrite Hrun. }
  assert (unstarted (eal_in s) (eal_in s1) -> forall s', e_ports (eal_in s') = e_ports (eal_in s1) -> unstarted (eal_in s) (eal_in s')) as Hun.
  { intros Hu s' Es p x. rewrite Es. apply Hu. }
  destruct r1 as [[]|st]; cbn [fst snd]; (eapply wp_mono; [apply (Hrest tt)|]); intros r s' (-> & Ht' & Hpr & Eports & Hall); split_and!; try done.
  - left. auto.
  - intros Hwk Hf. split; [auto|]. apply Hall; [done|]. by destruct Hw as (? & ? & ? & ? & Hw); apply Hw.
  - right. destruct Hw as (_ & Hu & _). by apply Hun.
  - intros Hwk Hf. by destruct Hw as (_ & _ & []).
Qed.

(** [stop] waits for one core after the other. *)
Lemma wait_returns l : works D -> forall s,
  fst (for_each (fun core_id => s ← get; r ← dpdk (rte_eal_wait_lcore (finishes s) core_id);
    match r with Some _ => mret tt | None => fail tt end) l s) = Ret tt <->
  (forall core w, core ∈ l -> e_running (eal_in s) !! core = Some w -> exit_flags s !! w = Some true).
Proof.
  intros Hwk. induction l as [|c l IH]; intros s; cbn [for_each]; [by split; [intros _ ? ? ?%elem_of_nil|]|].
  match goal with |- fst (mbind ?k ?m s) = _ <-> ?P =>
    assert (wp (mbind k m) (fun r _ => r = Ret tt <-> P) s) as Hw; [|exact Hw] end.
  apply wp_bind. wp_step. wp_step. apply wp_bind, wp_dpdk; cbn [lib set_lib]; cbn beta iota.
  - intros [] d' He. apply wp_ret. cbn beta iota. unfold wp. rewrite IH. cbn [lib set_lib exit_flags]. cbn in He.
    destruct (e_running (eal_in s) !! c) as [w0|] eqn:E0.
    + destruct He as [Hf ->]. unfold finishes in Hf. apply bool_decide_eq_true in Hf. cbn. split.
      * intros Hl core w [->|Hc]%elem_of_cons E; [congruence|]. destruct (decide (core = c)) as [->|Hne]; [congruence|].
        apply (Hl core w Hc). by rewrite lookup_delete_ne.
      * intros Hl core w Hc [_ E]%lookup_delete_Some. apply (Hl core w); [by right | done].
    + rewrite He. split.
      * intros Hl core w [->|Hc]%elem_of_cons E; [congruence|]. by apply (Hl core w).
      * intros Hl core w Hc E. apply (Hl core w); [by right | done].
  - intros d' E' Hn. apply wp_fail. split; [done|]. intros Hl. exfalso. cbn in Hn.
    destruct (e_running (eal_in s) !! c) as [w0|] eqn:E0; [|by eapply (Hn Hwk tt)].
    eapply (Hn Hwk tt). split; [|done]. apply bool_decide_eq_true. by apply (Hl c w0); [left|].
Qed.

(** C38: [stop] waits for all.  It tells one worker to leave its loop and then waits for
    every core: it returns exactly when every other worker that runs has been
    told before.  With two workers running, the first call of [stop] never
    returns. *)
Theorem stop_waits_for_all w s : works D ->
  fst (stop_worker w s) = Ret tt <->
  (forall core w', core ∈ worker_cores -> e_running (eal_in s) !! core = Some w' -> w' = w \/ exit_flags s !! w' = Some true).
Proof.
  intros Hwk. unfold stop_worker. rewrite bind_run. cbn [modify]. rewrite wait_returns by done. cbn.
  split; intros Hl core w' Hc E; specialize (Hl core w' Hc E).
  - destruct (decide (w' = w)) as [->|Hne]; [by left|]. right. by rewrite lookup_insert_ne in Hl.
  - destruct (decide (w' = w)) as [->|Hne]; [by rewrite lookup_insert_eq|]. rewrite lookup_insert_ne by done. by destruct Hl.
Qed.

(** Taking the device down begins with the pool, which the running device uses:
    the contract of [rte_mempool_free] forbids it. *)
Lemma pool_freed_in_use config junk s : 0 < queue_size config -> port_ready config s -> fst (destroy_device junk s) = Err tt.
Proof.
  intros Hq (b & x & rxo & txo & _ & Hm & _ & Ex & Hs & _ & _ & Hf & _).
  match goal with |- fst (?m s) = _ => assert (wp m (fun r _ => r = Err tt) s) as Hw; [|exact Hw] end.
  unfold destroy_device. wp_step. wp_step. apply wp_bind, wp_dpdk; cbn beta iota; [|by intros; apply wp_bind, wp_fail].
  rewrite Hm. intros [] d' (_ & Hn & _). destruct Hn. destruct (Hf 0) as [E0 _]; [lia|]. by exists (port_id s), x, 0, (RxQ 2048 rxo b).
Qed.
End proofs.

(** ** A library in memory *)

Module EalSim.

#[export] Instance names : DpdkNames := {
  RTE_ETH_RX_OFFLOAD_CHECKSUM := 14;
  RTE_ETH_TX_OFFLOAD_IPV4_CKSUM := 2;
  RTE_ETH_TX_OFFLOAD_TCP_CKSUM := 8;
  RTE_ETH_MQ_RX_RSS := 1;
  RTE_ETH_RSS_IP := 4;
  RTE_ETH_RSS_TCP := 32;
  port_of name := if decide (name = "0000:c5:00.0"%string) then Some 1 else None;
  worker_cores := [3; 7]
}.

Definition all_set {A} (n : Z) (m : gmap Z A) : Prop := Forall (fun q => is_Some (m !! q)) (seqZ 0 n).

Lemma all_set_iff {A} n (m : gmap Z A) : all_set n m <-> forall q, 0 <= q < n -> is_Some (m !! q).
Proof. unfold all_set. rewrite Forall_forall. setoid_rewrite elem_of_seqZ. split; intros Hm q Hq; apply Hm; lia. Qed.

#[export] Instance all_set_dec {A} n (m : gmap Z A) : Decision (all_set n m).
Proof. unfold all_set. apply _. Defined.

Definition unused (b : Z) (e : eal) : Prop :=
  map_Forall (fun _ x => p_started x = true -> map_Forall (fun _ r => rx_pool r <> b) (p_rx x)) (e_ports e).

Lemma unused_iff b e : unused b e <-> ~ pool_in_use b e.
Proof.
  split.
  - intros Hu (p & x & q & r & Ex & Hs & Er & Hb). by apply (Hu p x Ex Hs q r).
  - intros Hn p x Ex Hs q r Er Hb. apply Hn. by exists p, x, q, r.
Qed.

#[export] Instance unused_dec b e : Decision (unused b e).
Proof. unfold unused. apply _. Defined.

(** Do [f] to the port, if there is one and it allows it. *)
Definition on_port (p : Z) (f : port -> option port) (e : eal) : option unit * eal :=
  match e_ports e !! p with
  | Some x => match f x with Some x' => (Some tt, set_port p x' e) | None => (None, e) end
  | None => (None, e)
  end.

Definition exec {A} (c : dpdk_call A) : eal -> option A * eal :=
  match c in dpdk_call A return eal -> option A * eal with
  | rte_eal_init _ => fun e => if e_up e then (None, e) else (Some tt, set_up e)
  | rte_pktmbuf_pool_create n cache room => fun e =>
      if e_up e then let b := fresh (dom (e_pools e)) in (Some b, set_pool b (n, cache, room) e) else (None, e)
  | rte_eth_dev_get_port_by_name name => fun e =>
      match port_of name with
      | Some p => if decide (is_Some (e_ports e !! p)) then (Some p, e) else (None, e)
      | None => (None, e)
      end
  | rte_eth_dev_configure p n m c => on_port p (fun x =>
      if p_started x then None else Some (Port (Some (n, m, c)) (p_rx x) (p_tx x) (p_promiscuous x) false))
  | rte_eth_dev_info_get p => fun e =>
      if decide (is_Some (e_ports e !! p)) then (Some (DevInfo 0 65536 2 2), e) else (None, e)
  | rte_eth_rx_queue_setup p q d o pool => fun e =>
      match pool with
      | None => (None, e)
      | Some b =>
          if decide (is_Some (e_pools e !! b)) then
            on_port p (fun x => match p_conf x with
              | Some (n, _, _) => if decide (0 <= q < n /\ p_started x = false)
                  then Some (Port (p_conf x) (<[q := RxQ d o b]> (p_rx x)) (p_tx x) (p_promiscuous x) false) else None
              | None => None end) e
          else (None, e)
      end
  | rte_eth_tx_queue_setup p q d o => on_port p (fun x => match p_conf x with
      | Some (_, m, _) => if decide (0 <= q < m /\ p_started x = false)
          then Some (Port (p_conf x) (p_rx x) (<[q := TxQ d o]> (p_tx x)) (p_promiscuous x) false) else None
      | None => None end)
  | rte_eth_promiscuous_enable p => on_port p (fun x => Some (Port (p_conf x) (p_rx x) (p_tx x) true (p_started x)))
  | rte_eth_dev_start p => on_port p (fun x => match p_conf x with
      | Some (n, m, _) => if decide (p_started x = false /\ all_set n (p_rx x) /\ all_set m (p_tx x))
          then Some (Port (p_conf x) (p_rx x) (p_tx x) (p_promiscuous x) true) else None
      | None => None end)
  | rte_eal_remote_launch w core => fun e =>
      if decide (e_up e = true /\ core ∈ worker_cores /\ e_running e !! core = None)
      then (Some tt, set_running (<[core := w]> (e_running e)) e) else (None, e)
  | rte_eal_wait_lcore finishes core => fun e =>
      match e_running e !! core with
      | None => (Some tt, e)
      | Some w => if finishes w then (Some tt, set_running (delete core (e_running e)) e) else (None, e)
      end
  | rte_mempool_free pool => fun e =>
      match pool with
      | None => (Some tt, e)
      | Some b => if decide (is_Some (e_pools e !! b) /\ unused b e) then (Some tt, del_pool b e) else (None, e)
      end
  | rte_eth_dev_rx_queue_stop p _ | rte_eth_dev_tx_queue_stop p _ => on_port p Some
  | rte_eth_dev_stop p => on_port p (fun x => Some (Port (p_conf x) (p_rx x) (p_tx x) (p_promiscuous x) false))
  | rte_eth_dev_close p => fun e =>
      match e_ports e !! p with
      | Some x => if p_started x then (None, e) else (Some tt, del_port p e)
      | None => (None, e)
      end
  | rte_eal_cleanup => fun e => if e_up e then (Some tt, set_down e) else (None, e)
  end.

#[export] Instance sim : Dpdk eal := { dpdk_exec A c := exec c; eal_of e := e }.

Lemma set_port_id p x e : e_ports e !! p = Some x -> set_port p x e = e.
Proof. intros E. destruct e. unfold set_port. cbn in *. by rewrite insert_id. Qed.

Lemma on_port_some p f e a e' : on_port p f e = (Some a, e') ->
  exists x x', e_ports e !! p = Some x /\ f x = Some x' /\ e' = set_port p x' e.
Proof.
  unfold on_port. destruct (e_ports e !! p) as [x|] eqn:Ex; [|done]. destruct (f x) as [x'|] eqn:Ef; [|done].
  intros [= <- <-]. by exists x, x'.
Qed.
Lemma on_port_none p f e e' : on_port p f e = (None, e') -> e' = e.
Proof. unfold on_port. repeat case_match; by intros [=]. Qed.
Lemma on_port_does p f e x x' : e_ports e !! p = Some x -> f x = Some x' -> on_port p f e = (Some tt, set_port p x' e).
Proof. unfold on_port. by intros -> ->. Qed.

Ltac port_case E := apply on_port_some in E as (x & x' & Ex & E & ->); repeat case_match; simplify_eq.

#[export] Instance sim_laws : DpdkLaws eal.
Proof.
  split.
  - intros A c e a e' E; change (exec c e = (Some a, e')) in E; change (dpdk_eff c e a e').
    destruct c; cbn [exec] in E; cbn [dpdk_eff].
    + case_match; simplify_eq. done.
    + case_match; simplify_eq. split; [done|]. split; [apply not_elem_of_dom, is_fresh | done].
    + repeat case_match; simplify_eq. done.
    + port_case E. exists x, nb_rx, nb_tx. by split_and!.
    + case_match; simplify_eq. done.
    + destruct pool as [b|]; [|done]. case_decide; [|done]. port_case E. destruct_and?. exists x. do 3 eexists. exists b. split_and!; done || congruence.
    + port_case E. destruct_and?. exists x. do 3 eexists. split_and!; done || congruence.
    + port_case E. by exists x.
    + port_case E. destruct_and?. exists x. do 3 eexists. split_and!; first [by apply all_set_iff | done | congruence].
    + case_decide; simplify_eq. destruct_and?. done.
    + repeat case_match; simplify_eq; done.
    + repeat case_match; simplify_eq; try done. destruct_and?. split_and!; first [by apply unused_iff | done].
    + port_case E. split; [by eexists | by apply set_port_id].
    + port_case E. split; [by eexists | by apply set_port_id].
    + port_case E. by exists x.
    + repeat case_match; simplify_eq. by exists p.
    + case_match; simplify_eq. done.
  - intros A c e e' E; change (exec c e = (None, e')) in E; change (e' = e).
    destruct c; cbn [exec] in E; try (by eapply on_port_none); repeat case_match; simplify_eq; try done; by eapply on_port_none.
Qed.

Lemma sim_works : works eal.
Proof.
  intros A c e a e' He. change (exists a' e2, exec c e = (Some a', e2)). change (dpdk_eff c e a e') in He.
  destruct c; cbn [dpdk_eff] in He; cbn [exec].
  - destruct He as [-> _]. eauto.
  - destruct He as [-> _]. eauto.
  - destruct He as (-> & Hp & _). rewrite decide_True by done. eauto.
  - destruct He as (x & _ & _ & Ex & Hs & _). do 2 eexists. eapply on_port_does; [done|]. by rewrite Hs.
  - destruct He as [Hp _]. rewrite decide_True by done. eauto.
  - destruct He as (x & n & m & c & b & Ex & Hc & Hq & Hs & -> & Hb & _). rewrite decide_True by done.
    do 2 eexists. eapply on_port_does; [done|]. rewrite Hc. by rewrite decide_True.
  - destruct He as (x & n & m & c & Ex & Hc & Hq & Hs & _). do 2 eexists. eapply on_port_does; [done|]. rewrite Hc. by rewrite decide_True.
  - destruct He as (x & Ex & _). do 2 eexists. by eapply on_port_does.
  - destruct He as (x & n & m & c & Ex & Hc & Hs & Hr & Ht & _). apply all_set_iff in Hr. apply all_set_iff in Ht.
    do 2 eexists. eapply on_port_does; [done|]. rewrite Hc. by rewrite decide_True.
  - destruct He as (H1 & H2 & H3 & _). rewrite decide_True by done. eauto.
  - destruct (e_running e !! core) as [w|]; [|eauto]. destruct He as [-> _]. eauto.
  - destruct pool as [b|]; [|eauto]. destruct He as (Hb & Hu & _). rewrite decide_True by (split; [done | by apply unused_iff]). eauto.
  - destruct He as [[x Ex] _]. do 2 eexists. by eapply on_port_does.
  - destruct He as [[x Ex] _]. do 2 eexists. by eapply on_port_does.
  - destruct He as (x & Ex & _). do 2 eexists. by eapply on_port_does.
  - destruct He as (x & Ex & Hs & _). rewrite Ex, Hs. eauto.
  - destruct He as [-> _]. eauto.
Qed.

(** A machine with one card, and the configuration of the repository for two workers. *)
Definition machine : eal := Eal false ∅ {[1 := Port None ∅ ∅ false false]} ∅.
Definition sample_config : dpdk_config_t := DpdkConfig "0000:c5:00.0" 10240 10240 65536 512 2048 32 2.

Lemma device_comes_up_witness :
  exists s', init_static_variable (E := stop) [] sample_config (new_device machine) = (Ret OK, s') /\ port_ready sample_config s'.
Proof.
  assert (fst (init_static_variable (E := stop) [] sample_config (new_device machine)) = Ret OK) as E by (vm_compute; reflexivity).
  pose proof (device_comes_up [] sample_config (new_device machine) ltac:(done)) as Hd.
  destruct (init_static_variable [] sample_config (new_device machine)) as [r s']. cbn [fst] in E. subst r. exists s'. split; [done|].
  by destruct Hd as (_ & [[_ Hr]|[Hr _]]).
Defined.

(** The device with its two workers running. *)
Definition two_workers : device eal :=
  snd ((_ ← init_static_variable [] sample_config; for_each (fun wc => run (fst wc) (snd wc)) [(0, 3); (1, 7)] : M (device eal) stop unit)
    (new_device machine)).

(** The first call of [stop] does not return. *)
Lemma stop_waits_for_all_witness : fst (stop_worker 0 two_workers) <> Ret tt.
Proof.
  intros Hs. apply (stop_waits_for_all 0 two_workers sim_works) with (core := 7) (w' := 1) in Hs; [| by vm_compute; right; left | vm_compute; reflexivity].
  destruct Hs as [|Hs]; [done | vm_compute in Hs; discriminate].
Defined.
End EalSim.
