(* ===== verification/FrontMain.v ===== *)
(** * The front end's main (Frontend/main.cpp)

    Read two configuration files, bring the device up, start the workers, connect to
    the switch, and serve three descriptors for ever: the connection, the timer of
    the entry controller, and a timer that prints statistics.  The JSON library and
    the system calls are parameters, like DPDK in [Dpdk]. *)
From Stdlib Require Import ZArith Lia String.
From stdpp Require Import base list gmap strings.
From S2P Require Import Prelude Wire EntryController BfRt RuleController Packet Dpdk.

(** ** The libraries *)

(** [nlohmann::json]: what [operator>>] parses, [operator\[\]], the conversions;
    [None] is an exception.  A member that is not there is null. *)
Class NlohmannJson (J : Type) := {
  json_parse : string -> option J;
  json_at : J -> string -> option J;
  json_string : J -> option string;
  json_u32 : J -> option Z;
  json_int : J -> option Z;
  json_is_array : J -> bool;
  json_is_null : J -> bool;
  json_elements : J -> list J
}.

(** The system calls, with the type of what they return: addresses and ports in
    network order; [sys_timerfd_settime] with one period for the first and the
    later expirations, in nanoseconds; [sys_epoll_add] for [EPOLLIN]. *)
Inductive posix_call : Type -> Type :=
| sys_epoll_create1 : posix_call Z
| sys_socket : posix_call Z
| sys_bind (fd addr port : Z) : posix_call unit
| sys_connect (fd addr port : Z) : posix_call unit
| sys_timerfd_create : posix_call Z
| sys_timerfd_settime (fd ns : Z) : posix_call unit
| sys_epoll_add (epfd fd : Z) : posix_call unit.

(** What a descriptor stands for: the descriptors an epoll instance watches, the two
    ends of a socket, the period of a timer. *)
Inductive file : Type :=
| FEpoll (watched : gset Z)
| FSocket (local remote : option (Z * Z))
| FTimer (period : option Z).

Definition posix_eff {A} (c : posix_call A) : gmap Z file -> A -> gmap Z file -> Prop :=
  match c in posix_call A return gmap Z file -> A -> gmap Z file -> Prop with
  | sys_epoll_create1 => fun fs fd fs' => fs !! fd = None /\ fs' = <[fd := FEpoll ∅]> fs
  | sys_socket => fun fs fd fs' => fs !! fd = None /\ fs' = <[fd := FSocket None None]> fs
  | sys_bind fd a p => fun fs _ fs' => fs !! fd = Some (FSocket None None) /\ fs' = <[fd := FSocket (Some (a, p)) None]> fs
  | sys_connect fd a p => fun fs _ fs' => exists l, fs !! fd = Some (FSocket l None) /\ fs' = <[fd := FSocket l (Some (a, p))]> fs
  | sys_timerfd_create => fun fs fd fs' => fs !! fd = None /\ fs' = <[fd := FTimer None]> fs
  | sys_timerfd_settime fd ns => fun fs _ fs' => exists p, fs !! fd = Some (FTimer p) /\ fs' = <[fd := FTimer (Some ns)]> fs
  | sys_epoll_add ep fd => fun fs _ fs' => exists w, fs !! ep = Some (FEpoll w) /\ is_Some (fs !! fd) /\ ~ fd ∈ w /\
      fs' = <[ep := FEpoll ({[fd]} ∪ w)]> fs
  end.

(** A system: how it answers a call, [None] for -1. *)
Class Posix (O : Type) := {
  posix_exec : forall {A}, posix_call A -> O -> option A * O;
  files_of : O -> gmap Z file
}.

Class PosixLaws (O : Type) `{Posix O} : Prop := {
  posix_exec_some {A} (c : posix_call A) o a o' : posix_exec c o = (Some a, o') -> posix_eff c (files_of o) a (files_of o');
  posix_exec_none {A} (c : posix_call A) o o' : posix_exec c o = (None, o') -> files_of o' = files_of o
}.

(** A system that refuses only what its state does not allow. *)
Definition obliging (O : Type) `{Posix O} : Prop :=
  forall A (c : posix_call A) o a fs', posix_eff c (files_of o) a fs' -> exists a' o', posix_exec c o = (Some a', o').

(** ** Configuration *)

Definition CONFIG_PATH : string := "../config/config.json".
Definition DPDK_CONFIG_PATH : string := "../config/dpdk.json".

(** The members of config.json that are read. *)
Record config_t := Config {
  local_ip : string; local_listen_port : Z; local_switch_port : Z;
  switch_ip : string; switch_port : Z; pkt_processor_core_ids : list Z; memory_pool_size : Z
}.

#[export] Instance outcome_ret E : MRet (outcome E) := fun A a => Ret a.
#[export] Instance outcome_bind E : MBind (outcome E) := fun A B k o => match o with Ret a => k a | Err e => Err e end.

Section config.
Context {J : Type} `{NlohmannJson J} (files : string -> option string).

(** An exception that nothing catches ends the program. *)
Definition or_throw {A} (o : option A) : outcome stop A := match o with Some a => Ret a | None => Err Crash end.

(** [std::ifstream] and [operator>>]: a file that is not there is no JSON either. *)
Definition read_file (path : string) : outcome stop J :=
  text ← or_throw (files path); or_throw (json_parse text).

Definition string_member (j : J) (name : string) : outcome stop string :=
  x ← or_throw (json_at j name); or_throw (json_string x).
Definition u32_member (j : J) (name : string) : outcome stop Z :=
  x ← or_throw (json_at j name); or_throw (json_u32 x).

Fixpoint all_ints (l : list J) : outcome stop (list Z) :=
  match l with
  | [] => Ret []
  | j :: l => x ← or_throw (json_int j); xs ← all_ints l; Ret (x :: xs)
  end.

(** Lines 31-50. *)
Definition read_core_ids (res : J) : outcome stop (list Z) :=
  if json_is_array res then all_ints (json_elements res)
  else if negb (json_is_null res) then x ← or_throw (json_int res); Ret [x]
  else Err (Exit 255).

(** Lines 23-52. *)
Definition read_config : outcome stop config_t :=
  config ← read_file CONFIG_PATH;
  local_ip ← string_member config "local_ip";
  local_listen_port ← u32_member config "local_listen_port";
  local_switch_port ← u32_member config "local_switch_port";
  switch_ip ← string_member config "switch_ip";
  switch_port ← u32_member config "switch_port";
  res ← or_throw (json_at config "pkt_processor_core_ids");
  pkt_processor_core_ids ← read_core_ids res;
  memory_pool_size ← u32_member config "memory_pool_size";
  Ret (Config local_ip local_listen_port local_switch_port switch_ip switch_port pkt_processor_core_ids memory_pool_size).

(** Lines 53-66.  [pci_addr] points into a string that is gone at the end of its
    statement; [stale] says what is found there later. *)
Definition read_dpdk_config (stale : string -> string) (core_ids : list Z) : outcome stop dpdk_config_t :=
  config ← read_file DPDK_CONFIG_PATH;
  pci_addr ← string_member config "pci_addr";
  rx_ring_size ← u32_member config "rx_ring_size";
  tx_ring_size ← u32_member config "tx_ring_size";
  num_mbufs ← u32_member config "num_mbufs";
  mbuf_cache_size ← u32_member config "mbuf_cache_size";
  mbuf_data_room_size ← u32_member config "mbuf_data_room_size";
  burst_size ← u32_member config "burst_size";
  Ret (DpdkConfig (stale pci_addr) rx_ring_size tx_ring_size num_mbufs mbuf_cache_size mbuf_data_room_size burst_size
    (u32 (Z.of_nat (length core_ids)))).
End config.

(** ** The program *)

(** The four descriptors. *)
Record descriptors := Descriptors { epoll_fd : Z; switch_fd : Z; timer_fd : Z; timer_fd_2 : Z }.

(** An event: its descriptor, and the results of the calls its branch makes - what
    [recv] delivers, whether [read] and [send] succeed, what [rte_eth_stats_get]
    returns. *)
Record fe_event := FEvent { ev_fd : Z; ev_recv : option (list Z); ev_read : bool; ev_sent : bool; ev_stats : Z }.

Section program.
Context {J D O QA QD : Type} `{NlohmannJson J} `{Dpdk D} `{DpdkNames} `{Posix O}.
Context `{BulkQueue QA my_pair_t} `{BulkQueue QD my_key_t}.
Context (pad : Z) (files : string -> option string) (stale : string -> string) (inet_addr : string -> Z).

(** The system, the device, the rule controller with the buffer it receives into,
    the entry controller, [send_buffer], and the messages sent so far. *)
Record host := Host {
  os : O;
  dev : device D;
  front_part : front;
  ec_part : entry_controller_t QA QD;
  send_buffer : list Z;
  sent : list (list Z)
}.

Definition set_os (o : O) (h : host) : host := Host o (dev h) (front_part h) (ec_part h) (send_buffer h) (sent h).
Definition set_dev (d : device D) (h : host) : host := Host (os h) d (front_part h) (ec_part h) (send_buffer h) (sent h).
Definition set_front (f : front) (h : host) : host := Host (os h) (dev h) f (ec_part h) (send_buffer h) (sent h).
Definition set_ec (e : entry_controller_t QA QD) (h : host) : host := Host (os h) (dev h) (front_part h) e (send_buffer h) (sent h).
Definition set_sent (b : list Z) (l : list (list Z)) (h : host) : host := Host (os h) (dev h) (front_part h) (ec_part h) b l.

Abbreviation F := (M host stop).

Definition of_outcome {A} (o : outcome stop A) : F A := match o with Ret a => mret a | Err e => fail e end.

(** A call that ends the program when it fails. *)
Definition or_exit {A} (c : posix_call A) : F A := fun h =>
  let '(r, o) := posix_exec c (os h) in
  match r with Some a => (Ret a, set_os o h) | None => (Err (Exit 255), set_os o h) end.

Definition on_device {A} (m : M (device D) stop A) : F A := within dev set_dev m.

(** Lines 85-89 and 111-113: the packet processors, and their workers. *)
Definition new_pkt_processors (n : Z) : F unit := on_device (for_each new_pkt_processor (seqZ 0 n)).
Definition run_workers (cores : list Z) : F unit :=
  on_device (for_each (fun wc => run (fst wc) (snd wc)) (zip (seqZ 0 (Z.of_nat (length cores))) cores)).

(** Lines 128-148, and 149-169 again: a timer for the loop to wait for. *)
Definition watch_timer (epfd ns : Z) : F Z :=
  fd ← or_exit sys_timerfd_create;
  _ ← or_exit (sys_timerfd_settime fd ns);
  _ ← or_exit (sys_epoll_add epfd fd);
  mret fd.

(** Everything before the loop. *)
Definition start_front (numa_available : bool) (args : list string) : F descriptors :=
  if negb numa_available then fail (Exit 255) else
  config ← of_outcome (read_config files);
  let cores := pkt_processor_core_ids config in
  dpdk_config ← of_outcome (read_dpdk_config files stale cores);
  epoll_fd ← or_exit sys_epoll_create1;
  _ ← on_device (init_static_variable args dpdk_config);
  _ ← new_pkt_processors (queue_size dpdk_config);
  switch_fd ← or_exit sys_socket;
  _ ← or_exit (sys_bind switch_fd (inet_addr (local_ip config)) (bswap16 (u16 (local_switch_port config))));
  _ ← run_workers cores;
  _ ← or_exit (sys_connect switch_fd (inet_addr (switch_ip config)) (bswap16 (u16 (switch_port config))));
  _ ← or_exit (sys_epoll_add epoll_fd switch_fd);
  timer_fd ← watch_timer epoll_fd 100000;
  timer_fd_2 ← watch_timer epoll_fd 1000000000;
  mret (Descriptors epoll_fd switch_fd timer_fd timer_fd_2).

(** Lines 244-269: the branch of the first timer. *)
Definition on_send_timer (ev : fe_event) : F unit :=
  if negb (ev_read ev) then fail (Exit 255) else
  h ← get;
  match on_timer pad (send_buffer h) (ec_part h) with
  | (Err _, e) => _ ← put (set_ec e h); fail Crash
  | (Ret (None, buf), e) => put (set_ec e (set_sent buf (sent h) h))
  | (Ret (Some m, buf), e) =>
      _ ← put (set_ec e (set_sent buf (if ev_sent ev then sent h ++ [m] else sent h) h));
      if ev_sent ev then mret tt else fail (Exit 255)
  end.

(** Lines 270-297: the statistics, which are only printed. *)
Definition on_stats_timer (ev : fe_event) : F unit :=
  if negb (ev_read ev) then fail (Exit 255)
  else if ev_stats ev =? -1 then fail (Exit 255) else mret tt.

(** Lines 183-297: one event. *)
Definition on_fe_event (d : descriptors) (ev : fe_event) : F unit :=
  if ev_fd ev =? switch_fd d then within front_part set_front (on_switch_message (ev_recv ev))
  else if ev_fd ev =? timer_fd d then on_send_timer ev
  else if ev_fd ev =? timer_fd_2 d then on_stats_timer ev
  else mret tt.

(** Lines 175-300: one trip around the loop; [None]: [epoll_wait] fails. *)
Definition on_fe_trip (d : descriptors) (trip : option (list fe_event)) : F unit :=
  match trip with None => fail (Exit 255) | Some evs => for_each (on_fe_event d) evs end.

(** The whole program, for a finite number of trips. *)
Definition front_main (numa_available : bool) (args : list string) (trips : list (option (list fe_event))) : F unit :=
  d ← start_front numa_available args;
  for_each (on_fe_trip d) trips.
End program.
Arguments host : clear implicits.

(** ** Start-up *)

Section start.
Context {J D O QA QD : Type} `{NlohmannJson J} `{Dpdk D} `{DpdkNames} `{!DpdkLaws D} `{Posix O} `{!PosixLaws O}.
Context `{BulkQueue QA my_pair_t} `{BulkQueue QD my_key_t}.
Context (pad : Z) (files : string -> option string) (stale : string -> string) (inet_addr : string -> Z).
Abbreviation host := (host D O QA QD).
Implicit Types h : host.

Lemma wp_or_exit {A} (c : posix_call A) (Q : outcome stop A -> host -> Prop) h :
  (forall a o', posix_eff c (files_of (os h)) a (files_of o') -> Q (Ret a) (set_os o' h)) ->
  (forall o', files_of o' = files_of (os h) -> (obliging O -> forall a fs', ~ posix_eff c (files_of (os h)) a fs') ->
    Q (Err (Exit 255)) (set_os o' h)) ->
  wp (or_exit c) Q h.
Proof.
  intros Hs Hn. unfold wp, or_exit. destruct (posix_exec c (os h)) as [[a|] o'] eqn:E; cbn.
  - by apply Hs, posix_exec_some.
  - apply Hn; [by apply posix_exec_none in E|]. intros Ho a fs' He. destruct (Ho A c _ a fs' He) as (a' & o2 & E2).
    rewrite E in E2. discriminate.
Qed.

(** What the loop waits for: the connection to the switch, from the configured local
    address, and the two timers. *)
Definition serving (c : config_t) (d : descriptors) (fs : gmap Z file) : Prop :=
  NoDup [epoll_fd d; switch_fd d; timer_fd d; timer_fd_2 d] /\
  fs !! epoll_fd d = Some (FEpoll {[timer_fd_2 d; timer_fd d; switch_fd d]}) /\
  fs !! switch_fd d = Some (FSocket (Some (inet_addr (local_ip c), bswap16 (u16 (local_switch_port c))))
                                    (Some (inet_addr (switch_ip c), bswap16 (u16 (switch_port c))))) /\
  fs !! timer_fd d = Some (FTimer (Some 100000)) /\ fs !! timer_fd_2 d = Some (FTimer (Some 1000000000)).

(** Everything but the system and the device is as it was. *)
Definition same_host h h' : Prop :=
  front_part h' = front_part h /\ ec_part h' = ec_part h /\ send_buffer h' = send_buffer h /\ sent h' = sent h.

(** The configuration can be read. *)
Definition configured (c : config_t) (dc : dpdk_config_t) : Prop :=
  read_config files = Ret c /\ read_dpdk_config files stale (pkt_processor_core_ids c) = Ret dc.

Lemma free_fd (fs : gmap Z file) : exists fd, fs !! fd = None.
Proof. exists (fresh (dom fs)). apply not_elem_of_dom, is_fresh. Qed.

Lemma wp_watch_timer ep ns w (Q : outcome stop Z -> host -> Prop) h :
  files_of (os h) !! ep = Some (FEpoll w) -> (forall fd, fd ∈ w -> is_Some (files_of (os h) !! fd)) ->
  (forall fd o', files_of (os h) !! fd = None ->
     files_of o' = <[ep := FEpoll ({[fd]} ∪ w)]> (<[fd := FTimer (Some ns)]> (files_of (os h))) -> Q (Ret fd) (set_os o' h)) ->
  (forall o', ~ obliging O -> Q (Err (Exit 255)) (set_os o' h)) ->
  wp (watch_timer ep ns) Q h.
Proof.
  intros Ep Hw Hs Hn. unfold watch_timer. apply wp_bind, wp_or_exit; cbn beta iota.
  2: { intros o1 E1 Hob. apply Hn. intros Ho. destruct (free_fd (files_of (os h))) as [fd Hfd]. by eapply (Hob Ho fd). }
  intros fd o1 [Hfd E1]. cbn in E1. assert (fd <> ep) as Hne by congruence.
  apply wp_bind, wp_or_exit; cbn [os set_os]; rewrite E1; cbn beta iota.
  2: { intros o2 E2 Hob. apply Hn. intros Ho. eapply (Hob Ho tt). exists None. by rewrite lookup_insert_eq. }
  intros [] o2 (p & _ & E2). rewrite insert_insert_eq in E2.
  apply wp_bind, wp_or_exit; cbn [os set_os]; rewrite E2; cbn beta iota.
  2: { intros o3 E3 Hob. apply Hn. intros Ho. eapply (Hob Ho tt). exists w. rewrite lookup_insert_ne, lookup_insert_eq by done.
       split_and!; try done. intros Hin. destruct (Hw fd Hin) as [x Hx]. congruence. }
  intros [] o3 (w' & Ew & _ & _ & E3). rewrite lookup_insert_ne, Ep in Ew by done. injection Ew as <-.
  apply wp_ret, Hs; [done|]. exact E3.
Qed.

Lemma wp_timers c ep sw (Q : outcome stop descriptors -> host -> Prop) h :
  files_of (os h) !! ep = Some (FEpoll {[sw]}) ->
  files_of (os h) !! sw = Some (FSocket (Some (inet_addr (local_ip c), bswap16 (u16 (local_switch_port c))))
                                        (Some (inet_addr (switch_ip c), bswap16 (u16 (switch_port c))))) ->
  ep <> sw ->
  (forall d o', serving c d (files_of o') -> Q (Ret d) (set_os o' h)) ->
  (forall o', ~ obliging O -> Q (Err (Exit 255)) (set_os o' h)) ->
  wp (t1 ← watch_timer ep 100000; t2 ← watch_timer ep 1000000000; mret (Descriptors ep sw t1 t2)) Q h.
Proof.
  intros Ep Es Hne Hs Hn. apply wp_bind, (wp_watch_timer ep 100000 {[sw]}); [done | | | done].
  { intros fd ->%elem_of_singleton. by eexists. }
  intros t1 o1 Ht1 E1. cbn beta iota. assert (t1 <> ep /\ t1 <> sw) as [N1 N2] by (split; congruence).
  apply wp_bind, (wp_watch_timer ep 1000000000 ({[t1]} ∪ {[sw]})); cbn [os set_os]; rewrite ?E1.
  - by rewrite lookup_insert_eq.
  - intros fd [->%elem_of_singleton| ->%elem_of_singleton]%elem_of_union; rewrite lookup_insert_ne by done.
    + rewrite lookup_insert_eq. by eexists.
    + rewrite lookup_insert_ne by done. by eexists.
  - intros t2 o2 Ht2 E2.
    assert (t2 <> ep /\ t2 <> t1 /\ t2 <> sw) as (N3 & N4 & N5).
    { split_and!; intros ->; [by rewrite lookup_insert_eq in Ht2 | by rewrite lookup_insert_ne, lookup_insert_eq in Ht2 |].
      rewrite !lookup_insert_ne in Ht2 by done. congruence. }
    apply wp_ret, Hs. split; [|cbn; rewrite E2].
    + repeat constructor; set_solver.
    + split_and!.
      * rewrite lookup_insert_eq. do 2 f_equal. set_solver.
      * by rewrite !lookup_insert_ne by done.
      * rewrite !lookup_insert_ne by done. apply lookup_insert_eq.
      * rewrite lookup_insert_ne by done. apply lookup_insert_eq.
  - intros o2 Hno. by apply Hn.
Qed.

Lemma wp_on_device {A} (m : M (device D) stop A) a (Q : outcome stop A -> host -> Prop) h :
  fst (m (dev h)) = Ret a -> Q (Ret a) (set_dev (snd (m (dev h))) h) -> wp (on_device m) Q h.
Proof. intros E HQ. apply wp_within. unfold wp. by rewrite E. Qed.

(** None of the steps that touch the device ends the program. *)
Lemma init_returns args dc (s : device D) : exists st, fst (init_static_variable (E := stop) args dc s) = Ret st.
Proof. unfold init_static_variable. destruct (init_device args dc s) as [[[]|st] s']; by eexists. Qed.
Lemma new_returns l (s : device D) : fst (for_each (E := stop) new_pkt_processor l s) = Ret tt.
Proof. exact (proj1 (wp_new_pkt_processors (E := stop) l s)). Qed.
Lemma runs_return (l : list (Z * Z)) : forall (s : device D), fst (for_each (E := stop) (fun wc => run (fst wc) (snd wc)) l s) = Ret tt.
Proof.
  induction l as [|wc l IH]; intros s; cbn [for_each]; [done|]. rewrite bind_run.
  assert (fst (run (E := stop) (fst wc) (snd wc) s) = Ret tt) as Er by (apply (wp_run_worker (fst wc) (snd wc) (fun r _ => r = Ret tt)); auto).
  destruct (run (fst wc) (snd wc) s) as [r s']. cbn in Er. subst r. apply IH.
Qed.

(** What the start leaves.  It reaches the loop with the device as [bring_up] leaves
    it, or it ends because something it needs is missing. *)
Definition start_post (numa : bool) (args : list string) h (r : outcome stop descriptors) h' : Prop :=
  sent h' = sent h /\
  match r with
  | Ret d => same_host h h' /\ exists c dc, configured c dc /\ serving c d (files_of (os h')) /\
      dev h' = snd (bring_up (E := stop) args dc (pkt_processor_core_ids c) (dev h))
  | Err _ => ~ (obliging O /\ numa = true /\ exists c dc, configured c dc)
  end.

Lemma wp_start_front numa args h : wp (start_front files stale inet_addr numa args) (start_post numa args h) h.
Proof.
  unfold start_front. destruct numa; cbn [negb]; [|apply wp_fail; split; [done|]; by intros (_ & ? & _)].
  destruct (read_config files) as [c|x] eqn:Ec; cbn [of_outcome].
  2: { apply wp_bind, wp_fail. split; [done|]. intros (_ & _ & c & dc & Hc & _). congruence. }
  wp_step. wp_step. set (cores := pkt_processor_core_ids c). destruct (read_dpdk_config files stale cores) as [dc|x] eqn:Ed; cbn [of_outcome].
  2: { apply wp_bind, wp_fail. split; [done|]. intros (_ & _ & c' & dc' & Hc & Hd). unfold cores in Ed. congruence. }
  wp_step. wp_step.
  assert (forall e h', sent h' = sent h -> ~ obliging O -> start_post true args h (Err e) h') as Hfail.
  { intros e h' Es Hn. split; [done|]. intros (Ho & _). done. }
  apply wp_bind, wp_or_exit; cbn beta iota.
  2: { intros o1 E1 Hob. apply Hfail; [done|]. intros Ho. destruct (free_fd (files_of (os h))) as [fd Hfd]. by eapply (Hob Ho fd). }
  intros ep o1 [Hep E1]. cbn in E1.
  destruct (init_returns args dc (dev h)) as [st Est]. apply wp_bind, (wp_on_device _ st); [exact Est|]. cbn beta iota.
  apply wp_bind, (wp_on_device _ tt); [apply new_returns|]. cbn beta iota. cbn [dev set_dev set_os].
  set (s2 := snd (for_each new_pkt_processor _ _)). apply wp_bind, wp_or_exit; cbn [os set_os set_dev]; rewrite E1; cbn beta iota.
  2: { intros o2 E2 Hob. apply Hfail; [done|]. intros Ho. destruct (free_fd (<[ep := FEpoll ∅]> (files_of (os h)))) as [fd Hfd]. by eapply (Hob Ho fd). }
  intros sw o2 [Hsw E2]. cbn in E2. assert (sw <> ep) as Hne by (intros ->; by rewrite lookup_insert_eq in Hsw).
  apply wp_bind, wp_or_exit; cbn [os set_os set_dev]; rewrite E2; cbn beta iota.
  2: { intros o3 E3 Hob. apply Hfail; [done|]. intros Ho. eapply (Hob Ho tt). cbn. split; [apply lookup_insert_eq | done]. }
  intros [] o3 [_ E3]. rewrite insert_insert_eq in E3.
  apply wp_bind, (wp_on_device _ tt); [apply runs_return|]. cbn beta iota. cbn [dev set_dev set_os].
  set (s3 := snd (for_each (fun wc => run (fst wc) (snd wc)) _ s2)).
  apply wp_bind, wp_or_exit; cbn [os set_os set_dev]; rewrite E3; cbn beta iota.
  2: { intros o4 E4 Hob. apply Hfail; [done|]. intros Ho. eapply (Hob Ho tt). eexists. split; [apply lookup_insert_eq | done]. }
  intros [] o4 (l & El & E4). rewrite lookup_insert_eq in El. injection El as <-. rewrite insert_insert_eq in E4.
  apply wp_bind, wp_or_exit; cbn [os set_os set_dev]; rewrite E4; cbn beta iota.
  2: { intros o5 E5 Hob. apply Hfail; [done|]. intros Ho. eapply (Hob Ho tt). exists ∅.
       rewrite lookup_insert_ne, lookup_insert_eq by done. split; [done|]. split; [rewrite lookup_insert_eq; by eexists | done]. }
  intros [] o5 (w & Ew & _ & _ & E5). rewrite lookup_insert_ne, lookup_insert_eq in Ew by done. injection Ew as <-. rewrite union_empty_r_L in E5.
  apply (wp_timers c); cbn [os set_os set_dev]; rewrite ?E5.
  - by rewrite lookup_insert_eq.
  - by rewrite lookup_insert_ne, lookup_insert_eq.
  - done.
  - intros d o6 Hs. split; [done|]. split; [done|]. exists c, dc. split; [done|]. split; [exact Hs|].
    cbn [dev set_dev set_os]. unfold bring_up. rewrite !bind_run.
    destruct (init_static_variable args dc (dev h)) as [r1 s1] eqn:E1'. cbn [fst] in Est. subst r1. rewrite bind_run.
    pose proof (new_returns (seqZ 0 (queue_size dc)) s1) as En. unfold s3, s2. cbn [snd].
    destruct (for_each new_pkt_processor (seqZ 0 (queue_size dc)) s1) as [r2 s4]. cbn in En. by subst r2.
  - intros o6 Hn. by apply Hfail.
Qed.

(** The cores for the workers: there are some, and none twice. *)
Definition usable_cores (c : config_t) : Prop :=
  NoDup (pkt_processor_core_ids c) /\ 0 < Z.of_nat (length (pkt_processor_core_ids c)) < 2 ^ 16.

Lemma dpdk_config_queues c dc : configured c dc -> usable_cores c -> 0 < queue_size dc < 2 ^ 16.
Proof.
  intros [_ Hd] [_ Hl]. unfold read_dpdk_config in Hd.
  assert (queue_size dc = u32 (Z.of_nat (length (pkt_processor_core_ids c)))) as ->; [|unfold u32; rewrite Z.mod_small; lia].
  repeat match type of Hd with mbind _ ?o = _ => destruct o; [cbn in Hd | discriminate Hd] end. by injection Hd as <-.
Qed.

Abbreviation eal_at h := (eal_of (lib (dev h))).

(** C13: The start of the front end.  It reaches the loop exactly waiting for the
    connection to the configured switch, from the configured address, and for the
    two timers; the port is running with a pair of queues per worker, or no port is
    that was not before; where DPDK does what the state allows, the former, and
    worker [i] runs on the core configured for it.  Otherwise it ends before it has
    sent anything, and then something was missing: NUMA, a readable
    configuration, or a system that refuses only what it must. *)
Theorem front_end_starts numa args h :
  let '(r, h') := start_front files stale inet_addr numa args h in
  match r with
  | Ret d => exists c dc, configured c dc /\ serving c d (files_of (os h')) /\ same_host h h' /\
      (usable_cores c ->
        (port_ready dc (dev h') \/ unstarted (eal_at h) (eal_at h')) /\
        (works D -> port_free dc (eal_at h) -> port_ready dc (dev h') /\
          (cores_free (pkt_processor_core_ids c) (eal_at h) ->
           forall (i : nat) core, pkt_processor_core_ids c !! i = Some core -> e_running (eal_at h') !! core = Some (Z.of_nat i))))
  | Err _ => sent h' = sent h /\ ~ (obliging O /\ numa = true /\ exists c dc, configured c dc)
  end.
Proof.
  pose proof (wp_start_front numa args h) as Hw. unfold wp, start_post in Hw.
  destruct (start_front files stale inet_addr numa args h) as [[d|e] h']; cbn in Hw; [|exact Hw].
  destruct Hw as (_ & Hh & c & dc & Hc & Hs & Hd). exists c, dc. split_and!; try done. intros Hu.
  pose proof (wp_bring_up (E := stop) args dc (pkt_processor_core_ids c) (dev h) (dpdk_config_queues c dc Hc Hu) (proj1 Hu)) as Hb.
  unfold wp in Hb. rewrite <- Hd in Hb. by destruct Hb as (_ & _ & ? & ?).
Qed.

(** A device that does not come up goes unnoticed.  When the card of the
    configuration is not there, [init_static_variable] fails; nothing looks at
    its status, and the front end reports to the switch and serves its timers
    without a port. *)
Theorem init_failure_ignored args h c dc : obliging O -> configured c dc -> usable_cores c -> port_of (pci_addr dc) = None ->
  exists d h', start_front files stale inet_addr true args h = (Ret d, h') /\
    serving c d (files_of (os h')) /\ unstarted (eal_at h) (eal_at h').
Proof.
  intros Ho Hc Hu Hp. pose proof (wp_start_front true args h) as Hw. unfold wp, start_post in Hw.
  destruct (start_front files stale inet_addr true args h) as [[d|e] h']; cbn in Hw.
  - destruct Hw as (_ & _ & c' & dc' & Hc' & Hs & Hd). destruct Hc as [E1 E2], Hc' as [E1' E2'].
    rewrite E1 in E1'. injection E1' as <-. rewrite E2 in E2'. injection E2' as <-. exists d, h'. split; [done|]. split; [done|].
    pose proof (wp_bring_up (E := stop) args dc (pkt_processor_core_ids c) (dev h) (dpdk_config_queues c dc (conj E1 E2) Hu) (proj1 Hu)) as Hb.
    unfold wp in Hb. rewrite <- Hd in Hb. destruct Hb as (_ & _ & [(b & x & rxo & txo & Hpo & _)|] & _); [congruence | done].
  - destruct Hw as [_ []]. split_and!; [done | done |]. by exists c, dc.
Qed.
End start.

(** ** A system in memory, and the configuration of the repository *)

Module FrontSim.
Import EalSim.

Definition run_posix {A} (c : posix_call A) : gmap Z file -> option A * gmap Z file :=
  match c in posix_call A return gmap Z file -> option A * gmap Z file with
  | sys_epoll_create1 => fun fs => let fd := fresh (dom fs) in (Some fd, <[fd := FEpoll ∅]> fs)
  | sys_socket => fun fs => let fd := fresh (dom fs) in (Some fd, <[fd := FSocket None None]> fs)
  | sys_bind fd a p => fun fs =>
      match fs !! fd with Some (FSocket None None) => (Some tt, <[fd := FSocket (Some (a, p)) None]> fs) | _ => (None, fs) end
  | sys_connect fd a p => fun fs =>
      match fs !! fd with Some (FSocket l None) => (Some tt, <[fd := FSocket l (Some (a, p))]> fs) | _ => (None, fs) end
  | sys_timerfd_create => fun fs => let fd := fresh (dom fs) in (Some fd, <[fd := FTimer None]> fs)
  | sys_timerfd_settime fd ns => fun fs =>
      match fs !! fd with Some (FTimer _) => (Some tt, <[fd := FTimer (Some ns)]> fs) | _ => (None, fs) end
  | sys_epoll_add ep fd => fun fs =>
      match fs !! ep with
      | Some (FEpoll w) => if decide (is_Some (fs !! fd) /\ ~ fd ∈ w) then (Some tt, <[ep := FEpoll ({[fd]} ∪ w)]> fs) else (None, fs)
      | _ => (None, fs)
      end
  end.

#[export] Instance sim_posix : Posix (gmap Z file) := { posix_exec A c := run_posix c; files_of fs := fs }.

#[export] Instance sim_posix_laws : PosixLaws (gmap Z file).
Proof.
  split.
  - intros A c fs a fs' E; change (run_posix c fs = (Some a, fs')) in E; change (posix_eff c fs a fs').
    destruct c; cbn [run_posix] in E; cbn [posix_eff]; repeat case_match; simplify_eq; try destruct_and?; try (eexists; split_and!; done);
      split; try done; apply not_elem_of_dom, is_fresh.
  - intros A c fs fs' E; change (run_posix c fs = (None, fs')) in E; change (fs' = fs).
    destruct c; cbn [run_posix] in E; repeat case_match; by simplify_eq.
Qed.

Lemma sim_obliging : obliging (gmap Z file).
Proof.
  intros A c fs a fs' He. change (posix_eff c fs a fs') in He. change (exists a' fs2, run_posix c fs = (Some a', fs2)).
  destruct c; cbn [run_posix posix_eff] in *; [eauto | eauto | | | eauto | |].
  - destruct He as [-> _]. eauto.
  - destruct He as (l & -> & _). eauto.
  - destruct He as (p & -> & _). eauto.
  - destruct He as (w & -> & Hfd & Hw & _). rewrite decide_True by done. eauto.
Qed.

(** JSON documents. *)
Inductive njson : Type := NNull | NInt (z : Z) | NStr (s : string) | NArr (l : list njson) | NObj (l : list (string * njson)).

Definition member (j : njson) (name : string) : option njson :=
  match j with
  | NObj l => Some (default NNull (snd <$> (snd <$> list_find (fun p => p.1 = name) l)))
  | NNull => Some NNull
  | _ => None
  end.

(** The two documents of the repository, with two workers; [card]: the address of
    the card. *)
Definition config_doc : njson := NObj
  [("local_ip", NStr "10.0.1.252"); ("local_listen_port", NInt 12345); ("local_switch_port", NInt 9999);
   ("switch_ip", NStr "10.0.1.254"); ("switch_port", NInt 12345); ("pkt_processor_core_ids", NArr [NInt 3; NInt 7]);
   ("memory_pool_size", NInt 131072)]%string.
Definition dpdk_doc (card : string) : njson := NObj
  [("pci_addr", NStr card); ("rx_ring_size", NInt 10240); ("tx_ring_size", NInt 10240); ("num_mbufs", NInt 65536);
   ("mbuf_cache_size", NInt 512); ("mbuf_data_room_size", NInt 2048); ("burst_size", NInt 32)]%string.

#[export] Instance njson_json : NlohmannJson njson := {
  json_parse text := if decide (text = "config"%string) then Some config_doc else Some (dpdk_doc text);
  json_at := member;
  json_string j := match j with NStr s => Some s | _ => None end;
  json_u32 j := match j with NInt z => Some (u32 z) | _ => None end;
  json_int j := match j with NInt z => Some z | _ => None end;
  json_is_array j := match j with NArr _ => true | _ => false end;
  json_is_null j := match j with NNull => true | _ => false end;
  json_elements j := match j with NArr l => l | _ => [] end
}.

(** A file system whose dpdk.json names this card. *)
Definition disk (card : string) (path : string) : option string :=
  if decide (path = CONFIG_PATH) then Some "config"%string else Some card.
Definition addr (ip : string) : Z := Z.of_nat (String.length ip).

Definition config : config_t := Config "10.0.1.252" 12345 9999 "10.0.1.254" 12345 [3; 7] 131072.
Definition fresh_host : host eal (gmap Z file) (list my_pair_t) (list my_key_t) :=
  Host ∅ (new_device EalSim.machine) (Front (replicate ETH_FRAME_LEN 0) new_rule_controller)
    (init_entry_controller blank_pairs blank_keys [] []) (replicate ETH_FRAME_LEN 0) [].

Definition start (card : string) : M (host eal (gmap Z file) (list my_pair_t) (list my_key_t)) stop descriptors :=
  start_front (J := njson) (disk card) id addr true [].

Lemma config_usable : usable_cores config.
Proof. split; [decide_now | cbn; lia]. Qed.

(** With the card: the front end serves, and its two workers run. *)
Lemma front_end_starts_witness : exists d h', start "0000:c5:00.0" fresh_host = (Ret d, h') /\
  serving addr config d (files_of (os h')) /\ port_ready EalSim.sample_config (dev h') /\
  e_running (eal_of (lib (dev h'))) !! 3 = Some 0 /\ e_running (eal_of (lib (dev h'))) !! 7 = Some 1.
Proof.
  pose proof (front_end_starts (disk "0000:c5:00.0") id addr true [] fresh_host) as Hf. unfold start.
  destruct (start_front (disk "0000:c5:00.0") id addr true [] fresh_host) as [[d|e] h'].
  - destruct Hf as (c & dc & [Ec Ed] & Hs & _ & Hu).
    assert (c = config) as -> by (vm_compute in Ec; by injection Ec as <-).
    assert (dc = EalSim.sample_config) as -> by (vm_compute in Ed; by injection Ed as <-).
    destruct (Hu config_usable) as [_ Hw]. destruct (Hw EalSim.sim_works) as [Hp Hr].
    { split; [done|]. exists 1. eexists. split; [done|]. split; [apply lookup_singleton_eq | done]. }
    exists d, h'. split; [done|]. split; [done|]. split; [done|].
    assert (cores_free (pkt_processor_core_ids config) (eal_of (lib (dev fresh_host)))) as Hc
      by (repeat constructor; vm_compute; auto).
    split; [by apply (Hr Hc 0%nat) | by apply (Hr Hc 1%nat)].
  - destruct Hf as [_ []]. split; [apply sim_obliging|]. split; [done|]. exists config, EalSim.sample_config. by split.
Defined.

(** Without it: it serves all the same. *)
Lemma init_failure_ignored_witness : exists d h', start "0000:00:00.0" fresh_host = (Ret d, h') /\
  serving addr config d (files_of (os h')) /\ unstarted (eal_of (lib (dev fresh_host))) (eal_of (lib (dev h'))).
Proof.
  unfold start. apply (init_failure_ignored (disk "0000:00:00.0") id addr [] fresh_host config
    (DpdkConfig "0000:00:00.0" 10240 10240 65536 512 2048 32 2)); [apply sim_obliging | by split | apply config_usable | reflexivity].
Defined.
End FrontSim.
