(* ===== verification/Shutdown.v ===== *)
(** * The end of the packet processor

    The first half of [destroy_static_variable]: every flow in the hash maps is
    freed with its request, and the maps are emptied.  The second half, which
    gives the device back, is in [Dpdk]. *)
From Stdlib Require Import ZArith Lia.
From stdpp Require Import base list gmap.
From S2P Require Import Prelude Bpf Wire EntryController BfRt RuleController Packet PacketProofs PktProcessor FlowSpec FlowHeap PktProofs FrontEnd Worker.

(** Two more operations of [libcuckoo::cuckoohash_map]: the elements one meets
    between [lock_table().begin()] and [lock_table().end()], and [clear]. *)
Class CuckooTable (Mp V : Type) := {
  lock_table : Mp -> list (Z * V);
  cuckoo_clear : Mp -> Mp
}.

Class CuckooTableLaws (Mp V : Type) `{CuckooMap Mp V} `{CuckooTable Mp V} : Prop := {
  lock_table_keys (m : Mp) : NoDup (lock_table m).*1;
  lock_table_find (m : Mp) k v : (k, v) ∈ lock_table m <-> cuckoo_find m k = Some v;
  cuckoo_find_clear (m : Mp) k : cuckoo_find (cuckoo_clear m) k = None
}.

#[export] Instance gmap_cuckoo_table {V} : CuckooTable (gmap Z V) V := {
  lock_table m := map_to_list m;
  cuckoo_clear _ := ∅
}.

#[export] Instance gmap_cuckoo_table_laws {V} : CuckooTableLaws (gmap Z V) V.
Proof.
  split; cbn.
  - intros m. apply NoDup_fst_map_to_list.
  - intros m k v. apply elem_of_map_to_list.
  - intros m k. apply lookup_empty.
Qed.

(** ** The code *)

Section code.
Context {Mp : Type} `{CuckooMap Mp loc} `{CuckooTable Mp loc}.
Abbreviation P := (M (pp Mp) pp_stop).

(** One flow of the loop. *)
Definition destroy_flow (p : loc) : P unit :=
  f ← load_flow p;
  _ ← rte_free (recv_pkt f);
  rte_free (Some p).

(** The loop over [flow_hash_map[i]], and [clear]. *)
Definition destroy_map (i : nat) : P unit :=
  ms ← gets flow_hash_map;
  match ms !! i with
  | None => fault OutOfRoom
  | Some m =>
      _ ← for_each (fun kv => destroy_flow (snd kv)) (lock_table m);
      modify (fun s => set_maps (<[i := cuckoo_clear m]> (flow_hash_map s)) s)
  end.

Definition destroy_flows : P unit := for_each destroy_map (seq 0 256).
End code.

(** ** Proofs *)

#[local] Opaque crc_of key_of.

(** The map a client is in. *)
Definition bucket (e : client) : nat := Z.to_nat (crc_of e).

(** The clients in other maps. *)
Definition others {X} (i : nat) (m : gmap client X) : gmap client X := filter (fun ex => bucket (fst ex) <> i) m.

Lemma others_Some {X} (i : nat) (m : gmap client X) e x : others i m !! e = Some x <-> m !! e = Some x /\ bucket e <> i.
Proof. unfold others. by rewrite map_lookup_filter_Some. Qed.

Lemma others_ne {X} (i : nat) (m : gmap client X) e : bucket e <> i -> others i m !! e = m !! e.
Proof. intros Hb. apply option_eq. intros x. rewrite others_Some. tauto. Qed.

Lemma others_eq {X} (m : gmap client X) e : others (bucket e) m !! e = None.
Proof. apply eq_None_not_Some. intros [x [_ Hx]%others_Some]. done. Qed.

Section proofs.
Context {Mp : Type} `{CuckooMap Mp loc} `{!CuckooMapLaws Mp loc} `{CuckooTable Mp loc} `{!CuckooTableLaws Mp loc}.
Implicit Types (s : pp Mp) (t : table).

Abbreviation in_state t pt s := (rep t pt (flow_hash_map s) (heap s) (allocs s)).

(** The queues and the rules are as they were. *)
Definition same_rest s s' : Prop := enqueued s' = enqueued s /\ rules_of s' = rules_of s.

Lemma wp_destroy_flow t pt e p q x s (Q : outcome pp_stop unit -> pp Mp -> Prop) :
  in_state t pt s -> t !! e = Some x -> pt !! e = Some (p, q) ->
  match x with
  | Live _ => Q (Ret tt) (set_heap (delete p (delete q (heap s))) s)
  | Dangling => Q (Err (Fault UseAfterFree)) s
  end -> wp (destroy_flow p) Q s.
Proof.
  intros R E Ep HQ. unfold destroy_flow. wp_step. destruct x as [f|].
  - pose proof (rep_pq _ _ _ _ _ _ _ _ _ R E Ep) as Hpq. pose proof (rep_flow _ _ _ _ _ R _ _ _ _ E Ep) as Hp.
    eapply wp_load_flow; [exact Hp|]. cbn beta iota. cbn [recv_pkt in_memory]. wp_step.
    eapply wp_rte_free; [by eapply (rep_request _ _ _ _ _ R)|]. cbn beta iota.
    eapply wp_rte_free; [cbn; rewrite lookup_delete_ne by done; exact Hp|]. exact HQ.
  - eapply wp_load_freed; [by eapply (rep_gone _ _ _ _ _ R)|]. exact HQ.
Qed.

(** These clients freed, but still in the table. *)
Definition dangle (t : table) (es : list client) : table := foldl (fun t e => <[e := Dangling]> t) t es.

Lemma dangle_lookup es : forall t e, dangle t es !! e = if decide (e ∈ es) then Some Dangling else t !! e.
Proof.
  induction es as [|e0 es IH]; intros t e; cbn [dangle foldl]; [by rewrite decide_False by apply not_elem_of_nil|].
  fold (dangle (<[e0 := Dangling]> t) es). rewrite IH. destruct (decide (e ∈ es)) as [He|He].
  - by rewrite decide_True by (by right).
  - destruct (decide (e = e0)) as [->|Hne]; [rewrite decide_True by left; apply lookup_insert_eq|].
    rewrite decide_False by (by intros [?|?]%elem_of_cons). by rewrite lookup_insert_ne.
Qed.

(** The elements of one map, as clients. *)
Definition element_of (pt : gmap client (loc * loc)) (kv : Z * loc) (e : client) : Prop :=
  client_ok e /\ fst kv = key_of e /\ exists q, pt !! e = Some (snd kv, q).

Lemma wp_destroy_elements pt l es : Forall2 (element_of pt) l es -> NoDup es -> forall t s, in_state t pt s ->
  wp (for_each (fun kv => destroy_flow (snd kv)) l) (fun r s' => match r with
    | Ret _ => Forall (fun e => t !! e <> Some Dangling) es /\ in_state (dangle t es) pt s' /\
        flow_hash_map s' = flow_hash_map s /\ same_rest s s'
    | Err x => x = Fault UseAfterFree /\ exists e, e ∈ es /\ t !! e = Some Dangling
    end) s.
Proof.
  induction 1 as [|[k p] e l es (Hv & _ & q & Ep) _ IH]; intros Hd t s R; cbn [for_each]; [by apply wp_ret|].
  apply NoDup_cons in Hd as [Hn Hd]. cbn [snd] in *.
  destruct (t !! e) as [x|] eqn:E; [|apply (rep_dom _ _ _ _ _ R) in E; congruence].
  apply wp_bind. eapply wp_destroy_flow; [done | done | done |]. destruct x as [f|]; cbn beta iota.
  2: { split; [done|]. exists e. split; [by left | done]. }
  assert (forall e', e' ∈ es -> <[e := Dangling]> t !! e' = t !! e') as Hsame
    by (intros e' He'; apply lookup_insert_ne; set_solver).
  eapply wp_mono; [apply (IH Hd (<[e := Dangling]> t)); by eapply rep_dangle|]. intros [[]|x] s'; cbn beta iota.
  - intros (Hl & R' & Hm & Hr). split; [|done]. constructor; [congruence|]. rewrite Forall_forall in Hl |- *.
    intros e' He'. rewrite <- Hsame by done. by apply Hl.
  - intros (-> & e' & He' & E'). split; [done|]. exists e'. split; [by right|]. by rewrite <- Hsame.
Qed.

(** The clients behind the elements of a map. *)
Lemma map_clients t pt s i m : in_state t pt s -> flow_hash_map s !! i = Some m ->
  exists es, Forall2 (element_of pt) (lock_table m) es /\ NoDup es /\
    forall e, e ∈ es <-> is_Some (t !! e) /\ bucket e = i.
Proof.
  intros R Em.
  assert (forall kv, kv ∈ lock_table m -> exists e, element_of pt kv e /\ bucket e = i) as Hkv.
  { intros [k p] Hk%lock_table_find. destruct (rep_keyed _ _ _ _ _ R _ _ _ _ Em Hk) as (e & Hv & -> & ->).
    pose proof (rep_find _ _ _ _ _ R e Hv) as Hf. unfold flow_at in Hf. rewrite Em in Hf. cbn in Hf. rewrite Hk in Hf.
    destruct (pt !! e) as [[p' q]|] eqn:Ep; [|done]. injection Hf as <-. exists e. split; [|done].
    split; [done|]. split; [done|]. by exists q. }
  assert (exists es, Forall2 (fun kv e => element_of pt kv e /\ bucket e = i) (lock_table m) es) as [es Hes].
  { clear -Hkv. induction (lock_table m) as [|kv l IH]; [by exists []|].
    destruct (Hkv kv) as [e He]; [by left|]. destruct IH as [es Hes]; [intros; apply Hkv; by right|]. exists (e :: es). by constructor. }
  exists es. split; [by eapply Forall2_impl; [exact Hes | tauto]|].
  assert (map key_of es = (lock_table m).*1) as Hk.
  { clear -Hes. induction Hes as [|kv e l es [(_ & Hk & _) _] _ IH]; cbn; [done | by rewrite Hk, IH]. }
  split; [apply (NoDup_fmap_1 key_of); change (key_of <$> es) with (map key_of es); rewrite Hk; apply lock_table_keys|].
  intros e. split.
  - intros He. apply list_elem_of_lookup in He as [j Hj]. destruct (Forall2_lookup_r _ _ _ _ _ Hes Hj) as (kv & _ & (_ & _ & q & Ep) & Hb).
    split; [|done]. apply not_eq_None_Some. intros E. apply (rep_dom _ _ _ _ _ R) in E. congruence.
  - intros [[x E] <-]. pose proof (rep_ok _ _ _ _ _ R _ _ E) as Hv. destruct (rep_ptrs _ _ _ _ _ _ _ R E) as (p & q & Ep).
    pose proof (rep_find _ _ _ _ _ R e Hv) as Hf. unfold flow_at in Hf. unfold bucket in Em. rewrite Em, Ep in Hf. cbn in Hf.
    apply lock_table_find, list_elem_of_lookup in Hf as [j Hj].
    destruct (Forall2_lookup_l _ _ _ _ _ Hes Hj) as (e' & Hj' & (Hv' & Hke & _) & _). cbn in Hke.
    apply key_of_inj in Hke; [|done..]. subst e'. by eapply list_elem_of_lookup_2.
Qed.

(** A map whose flows have all been freed can be cleared. *)
Lemma rep_clear t pt ms h n i m : rep t pt ms h n -> ms !! i = Some m ->
  (forall e f, bucket e = i -> t !! e <> Some (Live f)) ->
  rep (others i t) (others i pt) (<[i := cuckoo_clear m]> ms) h n.
Proof.
  intros R Em Hno. assert (i < length ms)%nat as Hi by by eapply lookup_lt_Some. split.
  - rewrite length_insert. apply R.
  - intros j m' k p. destruct (decide (i = j)) as [<-|Hne].
    + rewrite list_lookup_insert_eq by done. intros [= <-]. by rewrite cuckoo_find_clear.
    + rewrite list_lookup_insert_ne by done. apply R.
  - intros e Hv. unfold flow_at. destruct (decide (i = bucket e)) as [->|Hne].
    + unfold bucket in *. rewrite list_lookup_insert_eq by done. cbn. rewrite cuckoo_find_clear.
      change (Z.to_nat (crc_of e)) with (bucket e). by rewrite others_eq.
    + rewrite list_lookup_insert_ne, others_ne by done. by apply R.
  - intros e. destruct (decide (bucket e = i)) as [<-|Hne]; [by rewrite !others_eq|]. rewrite !others_ne by done. apply R.
  - intros e x [E _]%others_Some. other R.
  - intros e f p q [E _]%others_Some [Ep _]%others_Some. other R.
  - intros e f p q [E _]%others_Some [Ep _]%others_Some. other R.
  - intros e p q [E _]%others_Some [Ep _]%others_Some. other R.
  - intros e e' p q p' q' [E _]%others_Some [E' _]%others_Some. other R.
  - intros e p q [Ep _]%others_Some. other R.
  - intros l b Hl. destruct (rep_owned _ _ _ _ _ R _ _ Hl) as (e & f & p & q & E & Ep & Hor). exists e, f, p, q.
    assert (bucket e <> i) by (intros Hb; by apply (Hno e f)). by rewrite !others_ne.
Qed.

Lemma others_dangle t es i : (forall e, e ∈ es -> bucket e = i) -> others i (dangle t es) = others i t.
Proof.
  intros Hb. apply map_eq. intros e. destruct (decide (bucket e = i)) as [<-|Hne]; [by rewrite !others_eq|].
  rewrite !others_ne, dangle_lookup by done. rewrite decide_False; [done|]. intros He. by apply Hne, Hb.
Qed.

(** One of the maps. *)
Lemma wp_destroy_map t i s : holds t s -> (i < 256)%nat ->
  wp (destroy_map i) (fun r s' => match r with
    | Ret _ => (forall e, bucket e = i -> t !! e <> Some Dangling) /\ holds (others i t) s' /\ same_rest s s'
    | Err x => x = Fault UseAfterFree /\ exists e, bucket e = i /\ t !! e = Some Dangling
    end) s.
Proof.
  intros [pt R] Hi. unfold destroy_map. wp_step. wp_step.
  destruct (lookup_lt_is_Some_2 (flow_hash_map s) i) as [m Em]; [by rewrite (rep_length _ _ _ _ _ R)|]. rewrite Em.
  destruct (map_clients _ _ _ _ _ R Em) as (es & Hes & Hd & Hin).
  apply wp_bind. eapply wp_mono; [by apply (wp_destroy_elements pt _ es Hes Hd t)|]. intros [[]|x] s1; cbn beta iota.
  - intros (Hl & R1 & Hm & Hr). apply wp_modify. rewrite Forall_forall in Hl. split.
    { intros e Hb E. apply (Hl e); [|done]. apply Hin. split; [by eexists | done]. }
    split; [|exact Hr]. exists (others i pt). rewrite <- (others_dangle t es) by (intros e He; by apply Hin).
    cbn. rewrite Hm in *. apply rep_clear; [done | done |]. intros e f Hb. rewrite dangle_lookup.
    case_decide as He; [done|]. intros E. apply He, Hin. split; [by eexists | done].
  - intros (-> & e & He & E). split; [done|]. exists e. split; [by apply Hin | done].
Qed.
Lemma wp_destroy_maps idx : Forall (fun i => (i < 256)%nat) idx -> forall t s, holds t s ->
  wp (for_each destroy_map idx) (fun r s' => match r with
    | Ret _ => (forall e, bucket e ∈ idx -> t !! e <> Some Dangling) /\ same_rest s s' /\
        exists t', holds t' s' /\ forall e x, t' !! e = Some x -> t !! e = Some x /\ bucket e ∉ idx
    | Err x => x = Fault UseAfterFree /\ exists e, t !! e = Some Dangling
    end) s.
Proof.
  induction 1 as [|i idx Hi _ IH]; intros t s Hh; cbn [for_each].
  - apply wp_ret. split; [by intros e ?%elem_of_nil|]. split; [done|]. exists t. split; [done|]. intros e x E. split; [done | set_solver].
  - apply wp_bind. eapply wp_mono; [by apply (wp_destroy_map t)|]. intros [[]|x] s1; cbn beta iota.
    + intros (Hl & Hh1 & Hr1). eapply wp_mono; [by apply (IH (others i t))|]. intros [[]|x] s2; cbn beta iota.
      * intros (Hl' & Hr2 & t' & Hh' & Hs). split_and!.
        -- intros e He E. destruct (decide (bucket e = i)) as [Hb|Hb]; [by apply (Hl e)|].
           apply (Hl' e); [set_solver | by rewrite others_ne].
        -- destruct Hr1, Hr2. split; congruence.
        -- exists t'. split; [done|]. intros e x E. destruct (Hs e x E) as [[E' Hb]%others_Some Hn]. split; [done | set_solver].
      * intros (-> & e & [E _]%others_Some). eauto.
    + intros (-> & e & _ & E). eauto.
Qed.

(** C16: Shutting down frees every flow and every request, each once, and leaves
    empty maps and an empty heap - unless a client closed before its server had
    answered: then the pointer it left in the table is followed, to memory that
    was freed before.  The switch is told nothing: the flows that are offloaded
    stay in its table. *)
Theorem shutdown_frees t s : holds t s ->
  let '(r, s') := destroy_flows s in
  match r with
  | Ret _ => (forall e, t !! e <> Some Dangling) /\ heap s' = ∅ /\ holds ∅ s' /\ enqueued s' = enqueued s
  | Err x => x = Fault UseAfterFree /\ exists e, t !! e = Some Dangling
  end.
Proof.
  intros Hh. assert (wp destroy_flows (fun r s' => match r with
    | Ret _ => (forall e, t !! e <> Some Dangling) /\ heap s' = ∅ /\ holds ∅ s' /\ enqueued s' = enqueued s
    | Err x => x = Fault UseAfterFree /\ exists e, t !! e = Some Dangling
    end) s) as Hw; [|unfold wp in Hw; by destruct (destroy_flows s)].
  unfold destroy_flows. eapply wp_mono; [apply (wp_destroy_maps (seq 0 256)) with (t := t); [|done]|].
  { apply Forall_forall. intros i [_ Hi]%elem_of_seq. lia. }
  assert (forall e, bucket e ∈ seq 0 256) as Hin by (intros e; apply elem_of_seq; split; [lia | apply crc_of_lt]).
  intros [[]|x] s'; [|done]. intros (Hl & [He _] & t' & Hh' & Hs). split; [auto|].
  assert (t' = ∅) as -> by (apply map_empty; intros e; apply eq_None_not_Some; intros [x E]; destruct (Hs e x E) as [_ Hn]; exact (Hn (Hin e))).
  split_and!; [|done..]. destruct Hh' as [pt R]. apply map_empty. intros l. apply eq_None_not_Some. intros [b Hb].
  by destruct (rep_owned _ _ _ _ _ R _ _ Hb) as (e & f & p & q & E & _).
Qed.
End proofs.

(** One client offloaded, and one that closed too early. *)
Lemma shutdown_frees_witness :
  (exists s', destroy_flows (sample_state [sample_request; sample_synack]) = (Ret tt, s') /\ heap s' = ∅ /\ holds ∅ s') /\
  fst (destroy_flows (sample_state [sample_request; from_client 17 []])) = Err (Fault UseAfterFree).
Proof.
  split; [|vm_compute; reflexivity].
  destruct (sample_runs [sample_request; sample_synack]) as (Hh & _); [decide_now | vm_compute; exact I |].
  assert (fst (destroy_flows (sample_state [sample_request; sample_synack])) = Ret tt) as E by (vm_compute; reflexivity).
  pose proof (shutdown_frees _ _ Hh) as Hd. destruct (destroy_flows _) as [r s']. cbn [fst] in E. subst r.
  exists s'. split; [done|]. split; apply Hd.
Defined.
