(* ===== verification/FrontSystem.v ===== *)
(** * The whole front end

    The workers of [PktProcessor] and the loop of [FrontMain] in one program: the loop
    puts the switch's messages into the rules the workers look up, the workers put
    entries into the queues the loop empties. *)
From Stdlib Require Import ZArith Lia String.
From stdpp Require Import base list gmap strings.
From S2P Require Import Prelude Bpf Wire EntryController BfRt RuleController Packet PacketProofs PktProcessor FlowSpec FlowHeap PktProofs FrontEnd Worker Dpdk FrontMain.

(** What happens: a worker receives a burst, or the loop makes a trip. *)
Inductive fe_step : Type :=
| Work (recv_pkts : list mbuf) (alloc : option (list mbuf)) (tx : nat)
| Serve (trip : option (list fe_event)).

(** How it ends: the loop returns or crashes, or a worker faults. *)
Inductive fe_end : Type := Ended (e : stop) | Faulted (x : pp_stop).

Section system.
Context {D O QA QD Mp : Type} `{BulkQueue QA my_pair_t} `{BulkQueue QD my_key_t} `{CuckooMap Mp nat}.
Context (pad TX_CKSUM : Z) (oom : nat -> bool).

Record fe_state := FeState { fe_host : host D O QA QD; fe_pp : pp Mp }.

(** [enqueue] on the two concurrent queues. *)
Definition enqueue_one (ec : entry_controller_t QA QD) (op : ec_op) : entry_controller_t QA QD :=
  match op with
  | EnqAdd p => EntryController (add_pairs ec) (del_keys ec) (remain_add_size ec) (remain_del_size ec) (enqueue (add_queue ec) p) (del_queue ec)
  | EnqDel k => EntryController (add_pairs ec) (del_keys ec) (remain_add_size ec) (remain_del_size ec) (add_queue ec) (enqueue (del_queue ec) k)
  | Tick => ec
  end.
Definition enqueue_all (ops : list ec_op) (ec : entry_controller_t QA QD) : entry_controller_t QA QD := foldl enqueue_one ec ops.

(** The worker looks up the rules of the loop, and what it enqueues is in the queues
    of the loop. *)
Definition on_work recv_pkts alloc tx : M fe_state fe_end unit := fun s =>
  let p := set_rules (front_rules (front_part (fe_host s))) (fe_pp s) in
  let '(r, p') := worker_step TX_CKSUM oom recv_pkts alloc tx p in
  let h := set_ec (enqueue_all (drop (length (enqueued p)) (enqueued p')) (ec_part (fe_host s))) (fe_host s) in
  (match r with Ret a => Ret a | Err x => Err (Faulted x) end, FeState h p').

Definition on_serve (d : descriptors) trip : M fe_state fe_end unit := fun s =>
  let '(r, h) := on_fe_trip pad d trip (fe_host s) in
  (match r with Ret a => Ret a | Err e => Err (Ended e) end, FeState h (fe_pp s)).

Definition on_fe_step (d : descriptors) (st : fe_step) : M fe_state fe_end unit :=
  match st with Work recv_pkts alloc tx => on_work recv_pkts alloc tx | Serve trip => on_serve d trip end.
End system.
Arguments fe_state : clear implicits.

(** ** What is asked of the world *)

Section asked.
Context (cap : nat) (d : descriptors).

(** A message leaves complete rules, and the servers in use. *)
Definition keeps_rules (f f' : front) : Prop :=
  rules_ok (front_rules f') /\ rules_wf (front_rules f') /\
  forall i, server_ok (front_rules f) i -> server_ok (front_rules f') i.

(** The messages among these events, from [f] on, are well formed and keep the rules;
    then [k]. *)
Fixpoint events_ok (f : front) (evs : list fe_event) (k : front -> Prop) : Prop :=
  match evs with
  | [] => k f
  | ev :: evs =>
      if ev_fd ev =? switch_fd d then
        match on_switch_message (ev_recv ev) f with
        | (Ret _, f') => keeps_rules f f' /\ events_ok f' evs k
        | (Err e, _) => e = Exit 255
        end
      else events_ok f evs k
  end.

(** Packets fit their buffers, in a burst with two buffers for every packet. *)
Fixpoint steps_ok (f : front) (sts : list fe_step) : Prop :=
  match sts with
  | [] => True
  | Work recvs alloc tx :: sts =>
      Forall (fits cap) recvs /\
      match alloc with
      | None => True
      | Some bufs => length bufs = (2 * length recvs)%nat /\ Forall (fun b => length (room b) = cap) bufs
      end /\ steps_ok f sts
  | Serve None :: _ => True
  | Serve (Some evs) :: sts => events_ok f evs (fun f' => steps_ok f' sts)
  end.
End asked.

(** ** The invariant *)

Section inv.
Context {D O QA QD Mp : Type} `{BulkQueue QA my_pair_t} `{BulkQueue QD my_key_t} `{!BulkQueueLaws QA my_pair_t} `{!BulkQueueLaws QD my_key_t}.
Context `{CuckooMap Mp nat} `{!CuckooMapLaws Mp nat}.
Context (pad TX_CKSUM : Z) (oom : nat -> bool) (cap : nat) (d : descriptors).
Abbreviation state := (fe_state D O QA QD Mp).
Abbreviation host := (host D O QA QD).
Implicit Types (s : state) (h : host) (t : table).

(** Every entry the workers have put in is in a message or still pending. *)
Definition accounted h (ops : list ec_op) : Prop :=
  ec_inv (ec_part h) /\ (1123 <= length (send_buffer h))%nat /\
  exists batches, sent h = frames pad batches /\ Forall batch_ok batches /\
    concat (map fst batches) ++ pending_adds (ec_part h) ≡ₚ enq_adds ops /\
    concat (map snd batches) ++ pending_dels (ec_part h) ≡ₚ enq_dels ops.

(** The workers run on the rules of the loop, and the loop accounts for their
    entries. *)
Definition fe_inv t s : Prop :=
  running cap t (set_rules (front_rules (front_part (fe_host s))) (fe_pp s)) /\ accounted (fe_host s) (enqueued (fe_pp s)).

Lemma enqueue_all_inv ops : forall ec, ec_inv ec -> ec_inv (enqueue_all ops ec) /\
  pending_adds (enqueue_all ops ec) ≡ₚ enq_adds ops ++ pending_adds ec /\
  pending_dels (enqueue_all ops ec) ≡ₚ enq_dels ops ++ pending_dels ec.
Proof.
  induction ops as [|op ops IH]; intros ec Hi; [done|]. cbn [enqueue_all foldl]. fold (enqueue_all ops (enqueue_one ec op)).
  destruct (IH (enqueue_one ec op)) as (Hi' & Pa & Pd); [by destruct op|]. split; [done|]. rewrite Pa, Pd.
  destruct op as [p|k|]; cbn [enqueue_one enq_adds enq_dels omap app]; fold (enq_adds ops) (enq_dels ops); (split; [|]); try done;
    unfold pending_adds, pending_dels; cbn; rewrite enqueue_queued; solve_Permutation.
Qed.

(** One expiration of the timer, by the account of [ec_run]. *)
Lemma timer_run buf l (ec : entry_controller_t QA QD) : ec_run pad [Tick] (l, buf) ec =
  match on_timer pad buf ec with
  | (Ret (m, buf'), ec') => (Ret (match m with None => l | Some m => l ++ [m] end, buf'), ec')
  | (Err e, ec') => (Err e, ec')
  end.
Proof. cbn [ec_run ec_step]. rewrite !bind_run. by destruct (on_timer pad buf ec) as [[[m buf']|e] ec']. Qed.

Lemma wp_send_timer ev ops h : accounted h ops -> wp (on_send_timer pad ev) (fun r h' => match r with
  | Ret _ => accounted h' ops /\ front_part h' = front_part h
  | Err e => e = Exit 255
  end) h.
Proof.
  intros (Hi & Hb & batches & Es & Hok & Pa & Pd). unfold on_send_timer. destruct (ev_read ev); cbn [negb]; [|by apply wp_fail].
  wp_step. wp_step. pose proof (wp_ec_run pad [Tick] (sent h) (send_buffer h) (ec_part h) Hi Hb) as Hw.
  unfold wp in Hw. rewrite timer_run in Hw.
  destruct (on_timer pad (send_buffer h) (ec_part h)) as [[[m buf']|e] ec']; cbn [fst snd] in Hw;
    destruct Hw as (Hi' & bs & buf2 & Er & Lb & Hok' & Pa' & Pd'); [injection Er as Em <- | discriminate Er].
  assert (forall h', ec_part h' = ec' -> send_buffer h' = buf' -> sent h' = sent h ++ frames pad bs -> accounted h' ops) as Hacc.
  { intros h' E1 E2 E3. unfold accounted. rewrite E1, E2, E3, Lb, Es. split; [done|]. split; [done|]. exists (batches ++ bs).
    split; [unfold frames; by rewrite map_app|]. split; [by apply Forall_app|].
    rewrite !map_app, !concat_app, <- !app_assoc, <- Pa', <- Pd'. done. }
  destruct m as [m|]; [destruct (ev_sent ev)|].
  - do 2 wp_step. apply wp_ret. split; [by apply Hacc | done].
  - wp_step. apply wp_put. by apply wp_fail.
  - apply wp_put. split; [|done]. by apply Hacc.
Qed.

Lemma wp_fe_events t (p : pp Mp) evs : forall h k, running cap t (set_rules (front_rules (front_part h)) p) ->
  accounted h (enqueued p) -> events_ok d (front_part h) evs k ->
  wp (for_each (on_fe_event pad d) evs) (fun r h' => match r with
    | Ret _ => running cap t (set_rules (front_rules (front_part h')) p) /\ accounted h' (enqueued p) /\ k (front_part h')
    | Err e => e = Exit 255
    end) h.
Proof.
  induction evs as [|ev evs IH]; intros h k Hr Ha Hk; cbn [for_each events_ok] in *; [by apply wp_ret|].
  apply wp_bind. unfold on_fe_event at 1. destruct (ev_fd ev =? switch_fd d).
  { apply wp_within. unfold wp. destruct (on_switch_message (ev_recv ev) (front_part h)) as [[[]|e] f']; cbn [fst snd]; [|done].
    destruct Hk as [(K1 & K2 & K3) Hk]. apply (IH (set_front f' h)); [|done|done].
    by apply (running_update cap t (front_rules f') (set_rules (front_rules (front_part h)) p)). }
  destruct (ev_fd ev =? timer_fd d).
  { eapply wp_mono; [by eapply wp_send_timer|]. intros [[]|e] h'; [|done]. intros [Ha' Ef]. apply IH; [by rewrite Ef | done | by rewrite Ef]. }
  assert (wp (if ev_fd ev =? timer_fd_2 d then on_stats_timer ev else mret tt) (fun r h' =>
    match r with Ret _ => h' = h | Err e => e = Exit 255 end) h) as Hst.
  { unfold on_stats_timer. repeat case_match; done. }
  eapply wp_mono; [exact Hst|]. intros [[]|e] h'; [|done]. intros ->. by apply IH.
Qed.

Lemma wp_worker_step t (p : pp Mp) recvs alloc tx : running cap t p -> Forall (fits cap) recvs -> (forall n, oom n = false) ->
  match alloc with
  | None => True
  | Some bufs => length bufs = (2 * length recvs)%nat /\ Forall (fun b => length (room b) = cap) bufs
  end ->
  wp (worker_step TX_CKSUM oom recvs alloc tx) (fun r p' => match r with
    | Ret _ => rules_of p' = rules_of p /\ (exists ops, enqueued p' = enqueued p ++ ops) /\ exists t', running cap t' p'
    | Err x => x = Fault UseAfterFree \/ x = Fault StackOverflow \/ x = Fault OutOfRoom
    end) p.
Proof.
  intros Hr Hf Ho Ha. unfold worker_step.
  assert (rules_of p = rules_of p /\ (exists ops, enqueued p = enqueued p ++ ops) /\ exists t', running cap t' p) as Hsame
    by (split; [done|]; split; [exists []; by rewrite app_nil_r | by exists t]).
  destruct recvs as [|recv recvs]; [by apply wp_ret|]. apply wp_bind.
  destruct alloc as [bufs|]; [|apply wp_ret; cbn beta iota; by apply wp_ret]. destruct Ha as [L Hb].
  eapply wp_mono; [by apply (running_burst TX_CKSUM oom cap t)|]. intros [b|x] p'; cbn beta iota; [|done].
  intros Hp. by apply wp_ret.
Qed.

Lemma set_rules_same (p : pp Mp) rc : rules_of p = rc -> set_rules rc p = p.
Proof. intros <-. by destruct p. Qed.

(** Any run from a state within the invariant. *)
Lemma wp_fe_steps sts : (forall n, oom n = false) -> forall t s, fe_inv t s -> steps_ok cap d (front_part (fe_host s)) sts ->
  wp (for_each (on_fe_step pad TX_CKSUM oom d) sts) (fun r s' => match r with
    | Ret _ => exists t', fe_inv t' s'
    | Err (Ended e) => e = Exit 255
    | Err (Faulted x) => x = Fault UseAfterFree \/ x = Fault StackOverflow \/ x = Fault OutOfRoom
    end) s.
Proof.
  intros Ho. induction sts as [|st sts IH]; intros t s [Hr Ha] Hok; cbn [for_each]; [apply wp_ret; by exists t|].
  apply wp_bind. destruct st as [recvs alloc tx|[evs|]]; cbn [on_fe_step steps_ok] in *; [| |done].
  - destruct Hok as (Hf & Hal & Hok). set (p := set_rules (front_rules (front_part (fe_host s))) (fe_pp s)) in *.
    pose proof (wp_worker_step t p recvs alloc tx Hr Hf Ho Hal) as Hw. unfold wp, on_work. fold p. unfold wp in Hw.
    destruct (worker_step TX_CKSUM oom recvs alloc tx p) as [[[]|x] p']; cbn [fst snd] in *; [|done].
    destruct Hw as (Er & (ops & Eo) & t' & Hr'). apply (IH t'); [|done]. split; cbn [fe_host fe_pp front_part set_ec].
    + rewrite set_rules_same; [done | by rewrite Er].
    + destruct Ha as (Hi & Hb & batches & Es & Hbok & Pa & Pd). change (enqueued p) with (enqueued (fe_pp s)) in *.
      rewrite Eo, drop_app_length. destruct (enqueue_all_inv ops (ec_part (fe_host s)) Hi) as (Hi' & Qa & Qd).
      split; [done|]. split; [done|]. exists batches. split; [done|]. split; [done|]. cbn [ec_part set_ec].
      rewrite Qa, Qd. unfold enq_adds, enq_dels in *. rewrite !omap_app, <- Pa, <- Pd. split; solve_Permutation.
  - pose proof (wp_fe_events t (fe_pp s) evs (fe_host s) _ Hr Ha Hok) as Hw. unfold wp, on_serve, on_fe_trip. unfold wp in Hw.
    destruct (for_each (on_fe_event pad d) evs (fe_host s)) as [[[]|e] h']; cbn [fst snd] in *; [|done].
    destruct Hw as (Hr' & Ha' & Hok'). by apply (IH t (FeState h' (fe_pp s))).
Qed.
End inv.

(** ** From the start on *)

Lemma new_rules_ok : rules_ok new_rule_controller /\ rules_wf new_rule_controller.
Proof.
  split; [split|]; [|intros url n E; cbn in E; by rewrite lookup_empty in E..].
  split; [done|]. split; [repeat constructor; lia | split; cbn; modlia].
Qed.

Section life.
Context {J D O QA QD Mp : Type} `{NlohmannJson J} `{Dpdk D} `{DpdkNames} `{!DpdkLaws D} `{Posix O} `{!PosixLaws O}.
Context `{BulkQueue QA my_pair_t} `{BulkQueue QD my_key_t} `{!BulkQueueLaws QA my_pair_t} `{!BulkQueueLaws QD my_key_t}.
Context `{CuckooMap Mp nat} `{!CuckooMapLaws Mp nat}.
Context (pad TX_CKSUM : Z) (oom : nat -> bool) (cap : nat).
Context (files : string -> option string) (stale : string -> string) (inet_addr : string -> Z).
Implicit Types h : host D O QA QD.

(** What main has made by the time it reads the configuration: no rules, nothing in
    the queues or the arrays, nothing sent. *)
Definition new_host h : Prop :=
  front_rules (front_part h) = new_rule_controller /\ ec_inv (ec_part h) /\ (1123 <= length (send_buffer h))%nat /\ sent h = [] /\
  pending_adds (ec_part h) = [] /\ pending_dels (ec_part h) = [].

Lemma new_host_inv h : new_host h -> fe_inv pad cap ∅ (FeState h (new_pp (Mp := Mp) new_rule_controller)).
Proof.
  intros (Er & Hi & Hb & Es & Ea & Ed). split.
  - cbn [fe_host fe_pp]. rewrite Er, set_rules_same by done. apply running_new; apply new_rules_ok.
  - split; [done|]. split; [done|]. exists []. split; [done|]. split; [done|]. cbn. by rewrite Ea, Ed.
Qed.

(** C5: The front end as a whole.  However the bursts of the workers and the trips of
    the loop follow each other, as long as the switch's messages are well formed and
    keep the servers in use: the memory of the workers represents a table of flows;
    every entry they have put in is in one message that was sent or still pending,
    none is lost and none sent twice; and these entries, in the order in which they
    were put in, name exactly the offloaded flows.  The program ends by itself only
    when a system call fails, and is stopped only by one of the three faults of the
    packet processor. *)
Theorem front_end_accounts numa args h d h1 sts : new_host h -> (forall n, oom n = false) ->
  start_front files stale inet_addr numa args h = (Ret d, h1) -> steps_ok cap d (front_part h) sts ->
  let '(r, s) := for_each (on_fe_step pad TX_CKSUM oom d) sts (FeState h1 (new_pp (Mp := Mp) new_rule_controller)) in
  match r with
  | Ret _ => exists t, fe_inv pad cap t s
  | Err (Ended e) => e = Exit 255
  | Err (Faulted x) => x = Fault UseAfterFree \/ x = Fault StackOverflow \/ x = Fault OutOfRoom
  end.
Proof.
  intros Hn Ho Es Hok. pose proof (wp_start_front files stale inet_addr numa args h) as Hs. unfold wp, start_post in Hs.
  rewrite Es in Hs. cbn [fst snd] in Hs. destruct Hs as (_ & (Ef & Ee & Eb & Et) & _).
  assert (new_host h1) as Hn1 by (unfold new_host; by rewrite Ef, Ee, Eb, Et).
  pose proof (wp_fe_steps pad TX_CKSUM oom cap d sts Ho ∅ _ (new_host_inv h1 Hn1)) as Hw. cbn [fe_host] in Hw. rewrite Ef in Hw.
  specialize (Hw Hok). unfold wp in Hw. by destruct (for_each _ sts _) as [r s].
Qed.
End life.

(** ** A run in memory *)

Module FrontRun.
Import EalSim FrontSim.

(** The machine after the start, and the messages that install the rule of [front_rc]. *)
Definition started : host eal (gmap Z file) (list my_pair_t) (list my_key_t) := snd (start "0000:c5:00.0" fresh_host).
Definition desc : descriptors :=
  match fst (start "0000:c5:00.0" fresh_host) with Ret d => d | Err _ => Descriptors 0 0 0 0 end.
Definition from_switch (data : list Z) : fe_event := FEvent (switch_fd desc) (Some data) true true 0.
Definition tick : fe_event := FEvent (timer_fd desc) None true true 0.
Definition servers_msg : list Z := [op_code UPDATE_D_INDEX; 1; 0; 5] ++ info_bytes 0 server_5.
Definition virtual_msg : list Z := [op_code UPDATE_V_INFO] ++ info_bytes 0 (virtual_server_info front_rc).
Definition rule_msg : list Z := [op_code UPDATE_RULE; 1; 0; 97; 0; 5; 1].

(** The switch's greeting, a client's request and the server's answer, the timer. *)
Definition sample_steps : list fe_step :=
  [Serve (Some [from_switch virtual_msg; from_switch servers_msg; from_switch rule_msg]);
   Work [sample_request] (Some (sample_bufs 1)) 2;
   Work [sample_synack] (Some (sample_bufs 1)) 2;
   Serve (Some [tick])].

Definition final : outcome fe_end unit * fe_state eal (gmap Z file) (list my_pair_t) (list my_key_t) (gmap Z nat) :=
  for_each (on_fe_step 0 0 no_oom desc) sample_steps (FeState started (new_pp new_rule_controller)).

Lemma final_runs : fst final = Ret tt /\
  sent (fe_host (snd final)) = frames 0 [([MyPair (my_key_of sample_client) (MyData 1 5)], [])].
Proof. split; vm_compute; reflexivity. Qed.

(** The front end after each of the three messages. *)
Definition after (data : list Z) (f : front) : front := snd (on_switch_message (Some data) f).
Definition greeted_1 : front := after virtual_msg (front_part fresh_host).
Definition greeted_2 : front := after servers_msg greeted_1.
Definition greeted_3 : front := after rule_msg greeted_2.

Lemma greeted_rules :
  front_rules greeted_1 = RuleController ∅ ∅ (virtual_server_info front_rc) /\
  front_rules greeted_2 = RuleController ∅ {[5 := server_5]} (virtual_server_info front_rc) /\
  front_rules greeted_3 = front_rc.
Proof. split_and!; vm_compute; reflexivity. Qed.

(** No rules yet: nothing to be served by. *)
Lemma no_rules_ok m : info_ok (virtual_server_info front_rc) ->
  let rc := RuleController ∅ m (virtual_server_info front_rc) in rules_ok rc /\ rules_wf rc.
Proof. intros Hi rc. split; [split; [done|]|]; intros url n E; cbn in E; by rewrite lookup_empty in E. Qed.

Lemma events_ok_msg data f evs k : fst (on_switch_message (Some data) f) = Ret tt ->
  keeps_rules f (after data f) -> events_ok desc (after data f) evs k -> events_ok desc f (from_switch data :: evs) k.
Proof.
  intros E Hk He. cbn [events_ok from_switch ev_fd ev_recv]. rewrite Z.eqb_refl. unfold after in *.
  destruct (on_switch_message (Some data) f) as [r f']. cbn [fst snd] in *. by subst r.
Qed.

Lemma sample_steps_ok : steps_ok 96 desc (front_part fresh_host) sample_steps.
Proof.
  destruct greeted_rules as (E1 & E2 & E3). destruct (proj1 front_rc_ok) as [Hi _].
  cbn [steps_ok sample_steps].
  apply events_ok_msg; [vm_compute; reflexivity | |]; fold greeted_1.
  { unfold keeps_rules. rewrite E1. split_and!; try by apply no_rules_ok. intros i (x & Ex & _). vm_compute in Ex. discriminate Ex. }
  apply events_ok_msg; [vm_compute; reflexivity | |]; fold greeted_2.
  { unfold keeps_rules. rewrite E1, E2. split_and!; try by apply no_rules_ok. intros i (x & Ex & _). vm_compute in Ex. discriminate Ex. }
  apply events_ok_msg; [vm_compute; reflexivity | |]; fold greeted_3.
  { unfold keeps_rules. rewrite E2, E3. by split_and!; try apply front_rc_ok. }
  assert (Forall (fits 96) [sample_request] /\ Forall (fits 96) [sample_synack]) as [Hq Ha] by (split; decide_now).
  cbn [events_ok]. split; [exact Hq|]. split; [split; [reflexivity | by apply Forall_replicate]|].
  split; [exact Ha|]. split; [split; [reflexivity | by apply Forall_replicate]|].
  assert (tick_other : (timer_fd desc =? switch_fd desc) = false) by (vm_compute; reflexivity).
  cbn [events_ok tick ev_fd]. by rewrite tick_other.
Qed.

(** The client's entry reached the switch, and nothing is left over. *)
Lemma front_end_accounts_witness : exists d h1, start "0000:c5:00.0" fresh_host = (Ret d, h1) /\
  fst (for_each (on_fe_step 0 0 no_oom d) sample_steps (FeState h1 (new_pp (Mp := gmap Z nat) new_rule_controller))) = Ret tt /\
  exists t, fe_inv 0 96 t (snd (for_each (on_fe_step 0 0 no_oom d) sample_steps (FeState h1 (new_pp new_rule_controller)))).
Proof.
  exists desc, started.
  assert (start "0000:c5:00.0" fresh_host = (Ret desc, started)) as E.
  { unfold desc, started. destruct (start "0000:c5:00.0" fresh_host) as [[d|e] h1] eqn:E; [done|].
    apply (f_equal (fun x => match fst x with Ret _ => true | Err _ => false end)) in E. vm_compute in E. discriminate E. }
  split; [exact E|]. split; [exact (proj1 final_runs)|].
  pose proof (front_end_accounts (Mp := gmap Z nat) 0 0 no_oom 96 (disk "0000:c5:00.0") id addr true [] fresh_host desc started
    sample_steps) as Hf.
  assert (new_host fresh_host) as Hn.
  { split; [done|]. split; [by apply ec_inv_init|]. split; [vm_compute; lia|]. split_and!; vm_compute; reflexivity. }
  specialize (Hf Hn (fun _ => eq_refl) E sample_steps_ok). pose proof (proj1 final_runs) as Er. unfold final in Er.
  destruct (for_each _ sample_steps _) as [r s]. cbn [fst snd] in *. by subst r.
Defined.
End FrontRun.
