(* ===== verification/SplicedRequest.v ===== *)
(** * A request on its way to a server

    The front end's packets meet the back-end agent: the SYN that the packet
    processor makes of a client's request, the server's answer, and the request
    itself pass the two hooks, and the server's bytes come out numbered as the
    client expects them. *)
From Stdlib Require Import ZArith Lia.
From stdpp Require Import base list gmap.
From S2P Require Import Prelude Checksum Bpf Ingress Egress Splice Wire EntryController BfRt RuleController Packet PacketProofs.

(** ** Bytes stay bytes *)

(** An operation on a buffer that leaves bytes in it. *)
Definition tidy {A} (w : M mbuf pkt_fault A) : Prop := forall m, bytes_ok (room m) -> bytes_ok (room (snd (w m))).

Lemma tidy_ret {A} (a : A) : tidy (mret a).
Proof. by intros m Hm. Qed.
Lemma tidy_fail {A} e : tidy (fail (A := A) e).
Proof. by intros m Hm. Qed.
Lemma tidy_bind {A B} (w : M mbuf pkt_fault A) (k : A -> M mbuf pkt_fault B) : tidy w -> (forall a, tidy (k a)) -> tidy (a ← w; k a).
Proof.
  intros Hw Hk m Hm. specialize (Hw m Hm). unfold mbind, M_bind. destruct (w m) as [[a|e] m']; [by apply Hk | done].
Qed.
Lemma tidy_rd n a : tidy (rd n a).
Proof. intros m Hm. unfold rd, gets, read_at, mbind, M_bind. by case_decide. Qed.
Lemma tidy_wr a bs : bytes_ok bs -> tidy (wr a bs).
Proof. intros Hb m Hm. unfold wr, gets, modify, mbind, M_bind. case_decide; [by apply splice_ok | done]. Qed.
Lemma tidy_copy src n : bytes_ok src -> tidy (copy_packet src n).
Proof. intros Hb. unfold copy_packet. case_decide; [by apply tidy_wr, Forall_take | apply tidy_fail]. Qed.
Lemma tidy_finish tx l4 len : tidy (finish tx l4 len).
Proof. by intros m Hm. Qed.
Create HintDb tidy.
#[local] Hint Resolve tidy_ret tidy_fail tidy_rd tidy_wr tidy_copy tidy_finish le_bytes_ok : tidy.

Ltac tidy := repeat (cbv zeta; first [solve [eauto with tidy] | apply tidy_bind; [|intros ?]]).

Section builders.
Context (TX_CKSUM : Z) (rc : rule_controller_t) (d : Z) (info : server_info_t).
Context (Hd : server_of rc d = Some info) (Hi : info_ok info).

Lemma tidy_deref (k : server_info_t -> M mbuf pkt_fault status_t) : tidy (k info) -> tidy (i ← deref_server rc d; k i).
Proof using Hd. intros Hk. unfold deref_server. rewrite Hd. apply Hk. Qed.

Lemma tidy_send_syn recv : bytes_ok (room recv) -> tidy (send_syn_pkt TX_CKSUM rc d recv).
Proof using Hd Hi.
  intros Hb. unfold send_syn_pkt, reset_ihl. apply tidy_bind; [by apply tidy_copy|]. intros _.
  apply tidy_deref. destruct Hi as (_ & Hm & _). assert (bytes_ok option_char) by decide_now. tidy.
Qed.

Lemma tidy_send_cached p n : bytes_ok p -> tidy (send_cached_pkt TX_CKSUM rc d p n).
Proof using Hd Hi.
  intros Hb. unfold send_cached_pkt, finish_from_headers. apply tidy_bind; [by apply tidy_copy|]. intros _.
  apply tidy_deref. destruct Hi as (_ & Hm & _). assert (bytes_ok OWN_MAC) by decide_now. tidy.
Qed.
End builders.

(** ** The packets on the wire *)

Lemma slice_content m a n : (a + n <= Z.to_nat (data_len m))%nat -> slice (content m) a n = slice (room m) a n.
Proof. intros Hl. apply slice_ext. intros i Hi. unfold content. apply lookup_take_lt. lia. Qed.

Lemma keeps_slice {n fields src q} a k : keeps n fields src q -> (a + k <= n)%nat ->
  Forall (fun f => a + k <= fst f \/ fst f + snd f <= a)%nat fields -> slice q a k = slice src a k.
Proof.
  intros Hk Hl Hf. apply slice_ext. intros i Hi. apply Hk; [lia|]. eapply Forall_impl; [exact Hf|]. cbn. lia.
Qed.

Ltac wirelia := unfold off_h_proto, off_protocol in *; pktlia.
Ltac kept H a k := rewrite (keeps_slice a k H) by first [wirelia | repeat (constructor; [wirelia|]); constructor].

(** The SYN made of the request [p], and the request itself, as the agent sees them. *)
Lemma syn_on_wire info recv m : pkt_ok recv -> is_tcp4 (content recv) -> bytes_ok (room m) -> (66 <= length (room m))%nat ->
  syn_of info (room recv) m ->
  is_tcp4 (content m) /\ ingress_key_of (content m) = ingress_key_of (content recv) /\
  tcp_syn (le_at 1 (content m) off_flags) = true /\
  be_at 4 (content m) off_ack_seq = u32 (be_at 4 (content recv) off_ack_seq - 1).
Proof.
  intros (Hb & Hl & Hd) (_ & _ & E1 & E2) Hbm Hlm (_ & _ & _ & _ & Hack & (_ & _ & _ & Hf) & _ & (_ & _ & _ & _ & _ & Dl & _) & Hk).
  change (data_len m = 66) in Dl. assert (length (content m) = 66%nat) as Lc by (unfold content; rewrite length_take, Dl; lia).
  unfold ingress_key_of, be_at, le_at in *. rewrite !(slice_content m) by (rewrite Dl; wirelia).
  rewrite !(slice_content recv) by first [pktlia | offlia]. rewrite (slice_content recv) in E1 by first [pktlia | offlia]. rewrite (slice_content recv) in E2 by first [pktlia | offlia]. kept Hk off_saddr 4%nat. kept Hk off_source 2%nat.
  split; [|split; [done | by rewrite Hf, Hack]].
  split; [by apply Forall_take|]. split; [rewrite Lc; offlia|]. unfold be_at, le_at.
  rewrite !(slice_content m) by (rewrite Dl; wirelia). kept Hk off_h_proto 2%nat. kept Hk off_protocol 1%nat. done.
Qed.

Lemma request_on_wire info recv m : pkt_ok recv -> is_tcp4 (content recv) -> total_length (content recv) + 14 = data_len recv ->
  data_len recv < 65536 -> bytes_ok (room m) -> (Z.to_nat (data_len recv) <= length (room m))%nat ->
  forwarded_in info (content recv) (Z.to_nat (data_len recv)) m ->
  is_tcp4 (content m) /\ ingress_key_of (content m) = ingress_key_of (content recv) /\
  be_at 4 (content m) off_ack_seq = be_at 4 (content recv) off_ack_seq.
Proof.
  intros (Hb & Hl & Hd) (_ & _ & E1 & E2) Ht Hu Hbm Hlm (_ & (_ & _ & _ & _ & _ & Dl & _) & Hk).
  rewrite Ht, u16_id in Dl by modlia.
  assert (length (content m) = Z.to_nat (data_len recv)) as Lc by (unfold content; rewrite length_take, Dl; lia).
  unfold ingress_key_of, be_at, le_at in *. rewrite !(slice_content m) by (rewrite Dl; wirelia).
  kept Hk off_saddr 4%nat. kept Hk off_source 2%nat. kept Hk off_ack_seq 4%nat. split; [|done].
  split; [by apply Forall_take|]. split; [rewrite Lc; offlia|]. unfold be_at, le_at.
  rewrite !(slice_content m) by (rewrite Dl; wirelia). kept Hk off_h_proto 2%nat. kept Hk off_protocol 1%nat. done.
Qed.

(** ** The theorem *)

Section spliced.
Context {Mp : Type} `{BpfHash Mp} `{!BpfHashLaws Mp} `{CD : CsumDiff} `{!CsumDiffLaws CD}.
Context (TX_CKSUM : Z) (rc : rule_controller_t).
Implicit Types ag : agent Mp.

(** C7: A request reaches its server in a spliced connection.  The front end makes a
    SYN [m1] of the client's request and keeps the request; when the server has
    answered the SYN it sends the request, [m2].  Both pass the server's agent, and
    so do the server's packets.  Then, whatever else passed as long as the server
    does not reset the connection: the request arrives acknowledging exactly the
    server's SYN, and byte [n] of the answer leaves with the number the client
    expects for it, which is the one its request acknowledged plus [n]. *)
Theorem request_is_spliced d info recv b1 b2 m1 m2 ag synack es o k :
  pkt_ok recv -> is_tcp4 (content recv) -> total_length (content recv) + 14 = data_len recv -> data_len recv < 65536 ->
  server_of rc d = Some info -> info_ok info ->
  bytes_ok (room b1) -> length (room recv) = length (room b1) -> bytes_ok (room b2) -> length (room recv) = length (room b2) ->
  send_syn_pkt TX_CKSUM rc d recv b1 = (Ret OK, m1) ->
  send_cached_pkt TX_CKSUM rc d (content recv) (data_len recv) b2 = (Ret OK, m2) ->
  k = ingress_key_of (content recv) -> flow_of ag k = None -> bpf_room (a_flow ag) k = true -> bpf_room (a_seq ag) k = true ->
  is_tcp4 synack -> egress_key_of synack = k ->
  tcp_syn (le_at 1 synack off_flags) = true -> tcp_ack (le_at 1 synack off_flags) = true ->
  Forall (fun e => bytes_ok (event_packet e) /\ ~ server_reset k e) es -> sack_shape (content m2) o ->
  let a := be_at 4 (content recv) off_ack_seq in
  let b := be_at 4 synack off_seq in
  let ag' := run_events ag (Arrives (content m1) :: Leaves synack :: es) in
  (exists q, fst (on_event ag' (Arrives (content m2))) = Some q /\ be_at 4 q off_ack_seq = u32 (b + 1)) /\
  (forall data n, is_tcp4 data -> egress_key_of data = k -> be_at 4 data off_seq = u32 (b + 1 + n) ->
     exists q, fst (on_event ag' (Leaves data)) = Some q /\ be_at 4 q off_seq = u32 (a + n)).
Proof.
  intros Hp Ht Hlen Hu Hs Hi Hb1 L1 Hb2 L2 Eb1 Eb2 -> Hno Hr1 Hr2 Hta Hka Hsyn Hack Hes Ho a b ag'.
  pose proof Hp as (Hb & Hl & Hd). assert (length (content recv) = Z.to_nat (data_len recv)) as Lc by (unfold content; rewrite length_take; lia).
  pose proof (wp_send_syn TX_CKSUM rc d recv info b1 Hp L1 Hs Hi) as Hw1. unfold wp in Hw1. rewrite Eb1 in Hw1.
  destruct Hw1 as (_ & Lm1 & Hsy). cbn [snd] in Lm1, Hsy.
  pose proof (wp_send_cached TX_CKSUM rc d (content recv) (data_len recv) info b2 ltac:(by apply Forall_take) ltac:(lia) ltac:(lia) Hs Hi) as Hw2.
  unfold wp in Hw2. rewrite Eb2 in Hw2. destruct Hw2 as (_ & Lm2 & Hrq). cbn [snd] in Lm2, Hrq.
  pose proof (tidy_send_syn TX_CKSUM rc d info Hs Hi recv Hb b1 Hb1) as Hm1. rewrite Eb1 in Hm1. cbn [snd] in Hm1.
  pose proof (tidy_send_cached TX_CKSUM rc d info Hs Hi (content recv) (data_len recv) ltac:(by apply Forall_take) b2 Hb2) as Hm2.
  rewrite Eb2 in Hm2. cbn [snd] in Hm2.
  destruct (syn_on_wire info recv m1 Hp Ht Hm1 ltac:(lia) Hsy) as (T1 & K1 & F1 & A1).
  destruct (request_on_wire info recv m2 Hp Ht Hlen Hu Hm2 ltac:(lia) Hrq) as (T2 & K2 & A2).
  destruct (handshake_learns ag (content m1) synack _ _ T1 K1 F1 Hta Hka Hsyn Hack Hno Hr1 Hr2 eq_refl) as [_ Hf].
  apply (run_events_keep_flow es _ _ _ Hes) in Hf. change (flow_of ag' (ingress_key_of (content recv)) = Some (u32 (b - be_at 4 (content m1) off_ack_seq))) in Hf.
  rewrite A1 in Hf. fold a in Hf. rewrite u32_sub_r in Hf. split.
  - destruct (arrives_known ag' (content m2) _ _ o T2 K2 Ho Hf) as (q & Eq & Eqa). exists q. split; [exact Eq|].
    rewrite Eqa, A2. fold a. rewrite u32_add_r. f_equal. lia.
  - intros data n Htd Hkd Hseq. destruct (leaves_known ag' data _ _ Htd Hkd Hf) as (q & Eq & Eqs). exists q. split; [exact Eq|].
    rewrite Eqs, Hseq, u32_sub_l, u32_sub_r. f_equal. lia.
Qed.
End spliced.

(** "GET /a " from 10.0.2.1:40000; the server starts at 9000. *)
#[local] Existing Instance csum_diff_portable.

Definition get_request : mbuf :=
  let p := sample_packet [10; 0; 2; 1] [10; 0; 0; 9] [156; 64] [0; 80] [0; 0; 3; 232] [0; 0; 19; 137] 5 24 [0; 0] [71; 69; 84; 32; 47; 97; 32] in
  Mbuf (p ++ replicate 35 0) 61 61 0 0 0 0.
Definition empty_buf : mbuf := Mbuf (replicate 96 0) 0 0 0 0 0 0.
Definition get_server : server_info_t := ServerInfo [12; 66; 161; 74; 255; 2] 167772418 80.
Definition get_rules : rule_controller_t := RuleController ∅ {[2 := get_server]} get_server.
Definition built_syn : mbuf := snd (send_syn_pkt 0 get_rules 2 get_request empty_buf).
Definition built_request : mbuf := snd (send_cached_pkt 0 get_rules 2 (content get_request) 61 empty_buf).

Lemma built_syn_run : send_syn_pkt 0 get_rules 2 get_request empty_buf = (Ret OK, built_syn).
Proof. unfold built_syn. apply run_eq. vm_compute. reflexivity. Qed.
Lemma built_request_run : send_cached_pkt 0 get_rules 2 (content get_request) (data_len get_request) empty_buf = (Ret OK, built_request).
Proof. unfold built_request. apply run_eq. vm_compute. reflexivity. Qed.

Lemma request_is_spliced_witness :
  let ag' := run_events (sample_agent ∅) [Arrives (content built_syn); Leaves (sample_out 18)] in
  exists q, fst (on_event ag' (Arrives (content built_request))) = Some q /\ be_at 4 q off_ack_seq = 9001.
Proof.
  destruct (request_is_spliced 0 get_rules 2 get_server get_request empty_buf empty_buf built_syn built_request (sample_agent ∅)
    (sample_out 18) [] None sample_key) as [(q & Eq & Ea) _].
  - split; [decide_now|]. split; [by apply Nat.leb_le | by split].
  - decide_now.
  - vm_compute. reflexivity.
  - done.
  - reflexivity.
  - split; [done|]. split; [decide_now|]. split; cbn; modlia.
  - decide_now.
  - reflexivity.
  - decide_now.
  - reflexivity.
  - exact built_syn_run.
  - exact built_request_run.
  - vm_compute. reflexivity.
  - reflexivity.
  - reflexivity.
  - reflexivity.
  - decide_now.
  - vm_compute. reflexivity.
  - vm_compute. reflexivity.
  - vm_compute. reflexivity.
  - done.
  - apply no_options_shape. vm_compute. reflexivity.
  - exists q. split; [exact Eq|]. rewrite Ea. vm_compute. reflexivity.
Defined.
