(* ===== verification/Offload.v ===== *)
(** * From the front end's flows to the switch's table

    The whole path of an offloaded connection: the packet processor puts entries
    in the queues, the entry controller sends them in messages when its timer
    fires, and the switch applies the messages to its table. *)
From Stdlib Require Import ZArith Lia String.
From stdpp Require Import base list gmap strings.
From S2P Require Import Prelude Wire EntryController BfRt Json Client ClientProofs Controller RuleController ControllerProofs Main MainProofs System.
From S2P Require Import Packet PacketProofs PktProcessor FlowSpec FlowHeap PktProofs FrontEnd Worker.

(** ** Entries one by one *)

(** The client an entry is about. *)
Definition op_client (op : ec_op) : client :=
  match op with
  | EnqAdd p => (client_ip (pair_key p), client_port (pair_key p))
  | EnqDel k => (client_ip k, client_port k)
  | Tick => (0, 0)
  end.

(** What an entry does to the table of the switch. *)
Definition apply_op (t : oft) (op : ec_op) : oft :=
  match op with EnqAdd p => add_flow t p | EnqDel k => del_flow t k | Tick => t end.

Definition client_key (e : client) : entry_key :=
  <["ig_md.cport" := Exact (snd e)]> {["ig_md.cip" := Exact (fst e)]}.

Lemma client_key_inj e e' : client_key e = client_key e' -> e = e'.
Proof.
  intros E. pose proof (f_equal (fun m : entry_key => m !! "ig_md.cport"%string) E) as E1.
  pose proof (f_equal (fun m : entry_key => m !! "ig_md.cip"%string) E) as E2. unfold client_key in E1, E2.
  rewrite !lookup_insert_eq in E1. rewrite !lookup_insert_ne in E2 by done. rewrite !lookup_singleton_eq in E2.
  destruct e, e'. cbn in *. congruence.
Qed.

(** The table of the switch holds these clients, with their servers, and nothing else. *)
Definition shows (t : oft) (m : gmap client Z) : Prop :=
  forall k x, t !! k = Some x <-> exists e d, k = client_key e /\ m !! e = Some d /\ x = ("SwitchIngress.oft_hit"%string, {["d_index" := d]}).

Lemma shows_none t m e : shows t m -> m !! e = None -> t !! client_key e = None.
Proof.
  intros Hs E. destruct (t !! client_key e) as [x|] eqn:Et; [|done].
  apply Hs in Et as (e' & d & Ek & Em & _). apply client_key_inj in Ek as <-. congruence.
Qed.

Lemma shows_insert t m e d : shows t m ->
  shows (<[client_key e := ("SwitchIngress.oft_hit"%string, {["d_index" := d]})]> t) (<[e := d]> m).
Proof.
  unfold shows. intros Hs k x. rewrite lookup_insert_Some, Hs. setoid_rewrite lookup_insert_Some. split.
  - intros [[<- <-]|[Hne (e' & d' & -> & Em & ->)]]; [by exists e, d; auto|]. exists e', d'. split; [done|]. split; [|done].
    right. split; [|done]. by intros <-.
  - intros (e' & d' & -> & [[<- <-]|[Hne Em]] & ->); [by left|]. right.
    split; [by intros ?%client_key_inj | eauto].
Qed.

Lemma shows_delete t m e : shows t m -> shows (delete (client_key e) t) (delete e m).
Proof.
  unfold shows. intros Hs k x. rewrite lookup_delete_Some, Hs. setoid_rewrite lookup_delete_Some. split.
  - intros [Hne (e' & d' & -> & Em & ->)]. exists e', d'. split; [done|]. split; [|done]. split; [by intros -> | done].
  - intros (e' & d' & -> & [Hne Em] & ->). split; [by intros ?%client_key_inj | eauto].
Qed.

(** Entries that the front end may announce, applied in order. *)
Lemma shows_ops ops : forall t m, shows t m -> told m ops -> shows (foldl apply_op t ops) (foldl announce m ops).
Proof.
  induction ops as [|op ops IH]; intros t m Hs; [done|]. cbn [told foldl]. intros [Ho Ht]. apply IH; [|done].
  destruct op as [p|k|]; [| | done]; cbn [apply_op announce].
  - unfold add_flow. change (flow_key (pair_key p)) with (client_key (op_client (EnqAdd p))).
    rewrite (shows_none t m) by done. by apply shows_insert.
  - by apply (shows_delete t m (op_client (EnqDel k))).
Qed.

(** ** The order within a round does not matter *)

Lemma apply_op_comm t x y : op_client x <> op_client y -> apply_op (apply_op t x) y = apply_op (apply_op t y) x.
Proof.
  intros Hne. destruct x as [p|k|], y as [p'|k'|]; try done; cbn [apply_op]; unfold add_flow, del_flow;
    repeat match goal with |- context [flow_key ?k] => progress change (flow_key k) with (client_key (client_ip k, client_port k)) end;
    cbn [op_client] in Hne;
    match goal with Hne : ?a <> ?b |- _ => assert (client_key a <> client_key b) as Hk by (by intros ?%client_key_inj) end.
  - destruct (t !! client_key (client_ip (pair_key p), _)) eqn:E1, (t !! client_key (client_ip (pair_key p'), _)) eqn:E2;
      repeat first [rewrite E1 | rewrite E2 | rewrite lookup_insert_ne by done]; try done. by rewrite insert_insert_ne.
  - rewrite lookup_delete_ne by done. destruct (t !! client_key (client_ip (pair_key p), _)); [done|]. by rewrite delete_insert_ne.
  - rewrite lookup_delete_ne by done. destruct (t !! client_key (client_ip (pair_key p'), _)); [done|]. by rewrite delete_insert_ne.
  - by rewrite delete_delete.
Qed.

Lemma apply_ops_perm ops ops' : ops ≡ₚ ops' -> NoDup (map op_client ops) -> forall t, foldl apply_op t ops = foldl apply_op t ops'.
Proof.
  induction 1 as [|x l l' Hp IH|x y l|l l' l'' Hp IH Hp' IH']; intros Hd t; cbn [foldl map] in *; [done | | |].
  - apply NoDup_cons in Hd as [_ Hd]. by apply IH.
  - apply NoDup_cons in Hd as [Hn _]. rewrite apply_op_comm; [done|]. intros E. apply Hn. rewrite E. by left.
  - rewrite IH by done. apply IH'. by rewrite <- Hp.
Qed.

(** A batch is its entries, additions first. *)
Definition batch_ops (b : list my_pair_t * list my_key_t) : list ec_op := map EnqAdd (fst b) ++ map EnqDel (snd b).

Lemma foldl_map {A B C} (f : A -> B -> A) (g : C -> B) l : forall a, foldl f a (map g l) = foldl (fun a c => f a (g c)) a l.
Proof. induction l as [|c l IH]; intros a; cbn; auto. Qed.

Lemma apply_batch_ops t b : apply_batch t b = foldl apply_op t (batch_ops b).
Proof. unfold apply_batch, batch_ops. by rewrite foldl_app, !foldl_map. Qed.

Lemma apply_batches_ops batches : forall t, foldl apply_batch t batches = foldl apply_op t (concat (map batch_ops batches)).
Proof.
  induction batches as [|b batches IH]; intros t; cbn [foldl map concat]; [done|]. by rewrite foldl_app, IH, apply_batch_ops.
Qed.

Lemma batches_perm batches : concat (map batch_ops batches) ≡ₚ
  map EnqAdd (concat (map fst batches)) ++ map EnqDel (concat (map snd batches)).
Proof.
  induction batches as [|b batches IH]; cbn [map concat]; [done|]. rewrite IH, !map_app. unfold batch_ops. solve_Permutation.
Qed.

Lemma ops_perm m ops : told m ops -> ops ≡ₚ map EnqAdd (enq_adds ops) ++ map EnqDel (enq_dels ops).
Proof.
  revert m. induction ops as [|op ops IH]; intros m; cbn [told]; [done|]. intros [Ho Ht]. specialize (IH _ Ht).
  destruct op as [p|k|]; [| | done]; cbn [enq_adds enq_dels omap map app]; [by constructor|].
  fold (enq_adds ops) (enq_dels ops). rewrite IH at 1. solve_Permutation.
Qed.

(** The messages of a round, in which every client occurs once at most. *)
Lemma shows_round ops batches t m : shows t m -> told m ops -> NoDup (map op_client ops) ->
  concat (map fst batches) ≡ₚ enq_adds ops -> concat (map snd batches) ≡ₚ enq_dels ops ->
  shows (foldl apply_batch t batches) (foldl announce m ops).
Proof.
  intros Hs Ht Hd Pa Pd. rewrite apply_batches_ops.
  assert (ops ≡ₚ concat (map batch_ops batches)) as Hp by (rewrite batches_perm, Pa, Pd; by eapply ops_perm).
  rewrite <- (apply_ops_perm _ _ Hp Hd t). by apply shows_ops.
Qed.

(** ** Rounds of entries and ticks *)

Section history.
Context {QA QD : Type} `{BulkQueue QA my_pair_t} `{BulkQueue QD my_key_t}.
Context `{!BulkQueueLaws QA my_pair_t} `{!BulkQueueLaws QD my_key_t}.
Context (pad : Z).

(** Entries put in the queues round by round, with a tick for each of them before
    the next round. *)
Definition history (rounds : list (list ec_op)) : list ec_op :=
  concat (map (fun ops => ops ++ replicate (length ops) Tick) rounds).

Lemma enq_length ops : (length (enq_adds ops) + length (enq_dels ops) <= length ops)%nat.
Proof.
  unfold enq_adds, enq_dels. induction ops as [|[p|k|] ops IH]; cbn; lia.
Qed.

Lemma wp_history rounds : forall sent buf (s : entry_controller_t QA QD), ec_inv s -> (1123 <= length buf)%nat ->
  pending_adds s = [] -> pending_dels s = [] ->
  wp (ec_run pad (history rounds) (sent, buf)) (fun r s' => exists batches buf', r = Ret (sent ++ frames pad batches, buf') /\
    Forall batch_ok batches /\
    concat (map fst batches) ≡ₚ enq_adds (concat rounds) /\ concat (map snd batches) ≡ₚ enq_dels (concat rounds) /\
    forall t m, shows t m -> told m (concat rounds) -> Forall (fun ops => NoDup (map op_client ops)) rounds ->
      shows (foldl apply_batch t batches) (foldl announce m (concat rounds))) s.
Proof.
  induction rounds as [|ops rounds IH]; intros sent buf s Hi Hb Ea Ed; cbn [history map concat].
  { cbn [ec_run]. apply wp_ret. exists [], buf. rewrite app_nil_r. by split_and!. }
  fold (history rounds). apply wp_ec_run_app, wp_bind.
  eapply wp_mono; [by apply (wp_drain pad ops (length ops) sent buf s); try done; apply enq_length|].
  intros r s1 (Hi1 & Ea1 & Ed1 & b1 & buf1 & -> & L1 & Hok1 & Pa1 & Pd1). cbn beta iota.
  eapply wp_mono; [apply IH; try done; lia|]. intros r s2 (b2 & buf2 & -> & Hok2 & Pa2 & Pd2 & Hsh).
  exists (b1 ++ b2), buf2. split; [unfold frames; by rewrite map_app, app_assoc|]. split; [by apply Forall_app|].
  unfold enq_adds, enq_dels in *. rewrite !map_app, !concat_app, !omap_app, Pa1, Pd1, Pa2, Pd2. split; [done|]. split; [done|].
  intros t m Hs Ht Hd. apply told_app in Ht as [Ht1 Ht2]. apply Forall_cons in Hd as [Hd1 Hd]. rewrite !foldl_app.
  apply Hsh; [|done|done]. by apply shows_round.
Qed.
End history.

(** ** The theorem *)

Lemma op_wf_ok op : op_wf op -> op_ok op.
Proof.
  assert (forall e, client_ok e -> key_ok (my_key_of e)) as Hk.
  { intros e [H1 H2]. split; [|by split]. pose proof (crc_of_lt e) as Hc. cbn [crc my_key_of] in *.
    assert (0 <= crc_of e); [|modlia]. unfold crc_of, calculate_crc8. cbv zeta. apply crc8_at_range. }
  destruct op as [p|k|]; [| |done]; cbn; [intros (e & He & Ek & Hd) | intros (e & He & ->)]; [|by apply Hk].
  split; [|done]. rewrite Ek. by apply Hk.
Qed.

Lemma concat_Forall_ok rounds ops : concat rounds = ops -> Forall op_wf ops -> Forall op_ok (concat rounds).
Proof. intros -> Ho. eapply Forall_impl; [exact Ho | apply op_wf_ok]. Qed.

Section whole.
Context {Mp QA QD D : Type} `{CuckooMap Mp nat} `{!CuckooMapLaws Mp nat}.
Context `{BulkQueue QA my_pair_t} `{BulkQueue QD my_key_t} `{!BulkQueueLaws QA my_pair_t} `{!BulkQueueLaws QD my_key_t}.
Context `{BfRuntime D} `{BfSchema} `{!BfRuntimeLaws D}.

(** A front end that has run to [fe], with the table of flows [t], hands over its
    entries in [rounds], in each of which every client occurs once at most, with
    ticks for all entries of a round before the next.  A switch without offloaded
    connections that receives the messages one by one, none longer than its buffer
    or ending at a leftover byte 3, ends with the clients whose flows are offloaded,
    and leaves its other tables as they were. *)
Lemma switch_follows_front cap t (fe : pp Mp) rounds pad pairs keys (aq : QA) (dq : QD) buf (sw : proc D) :
  running cap t fe -> concat rounds = enqueued fe -> Forall (fun ops => NoDup (map op_client ops)) rounds ->
  length pairs = 80%nat -> length keys = 80%nat -> queued aq = [] -> queued dq = [] -> length buf = ETH_FRAME_LEN ->
  reliable D -> ctl_ok sw -> in_batch (abs (driver (cl sw))) = false -> table_of (abs (driver (cl sw))) OFT = ∅ ->
  exists batches buf' ec,
    ec_run pad (history rounds) ([], buf) (init_entry_controller pairs keys aq dq) = (Ret (frames pad batches, buf'), ec) /\
    (clean (recv_buffer sw) (frames pad batches) ->
     exists sw', receive (frames pad batches) sw = (Ret tt, sw') /\
       shows (table_of (abs (driver (cl sw'))) OFT) (omap offloaded t) /\
       BfRt.frame OFT (abs (driver (cl sw))) (abs (driver (cl sw')))).
Proof.
  intros (_ & _ & _ & _ & _ & Hwf & Htold & Hm) Hc Hd Lp Lk Ea Ed Lb Rel Hok Hin Hempty.
  pose proof (wp_history pad rounds [] buf _ (ec_inv_init pairs keys aq dq Lp Lk) ltac:(rewrite Lb; unfold ETH_FRAME_LEN; lia)
    ltac:(unfold pending_adds; cbn; by rewrite Ea) ltac:(unfold pending_dels; cbn; by rewrite Ed)) as Hw.
  destruct (wp_run _ _ _ Hw) as (r & ec & E & batches & buf' & -> & Hbok & Pa & Pd & Hsh). exists batches, buf', ec. split; [exact E|].
  intros Hcl. destruct (enqueued_ok _ (concat_Forall_ok _ _ Hc Hwf)) as [Oa Od].
  assert (Forall batch_wire batches) as Hbw.
  { apply (batches_wire batches (enq_adds (concat rounds)) (enq_dels (concat rounds)) [] []); [rewrite app_nil_r; exact Pa | rewrite app_nil_r; exact Pd | done | done | done]. }
  destruct (wp_run _ _ _ (wp_receive pad batches sw Rel Hok Hin Hbw Hbok Hcl)) as (r & sw' & E' & -> & _ & Hfr & Hf).
  exists sw'. split; [exact E'|]. split; [|exact Hfr]. rewrite Hf, Hempty, <- Hm, <- Hc. apply Hsh; [|by rewrite Hc|done].
  intros k x. rewrite lookup_empty. split; [done|]. intros (e & d & _ & Ee & _). by rewrite lookup_empty in Ee.
Qed.
End whole.

(** ** A run in memory *)

#[local] Existing Instances Sim.schema Sim.runtime Sim.runtime_laws.

(** The state after the sample rounds: one client, offloaded to server 5. *)
Definition sample_fe : pp (gmap Z nat) := snd (for_each (on_round 0 no_oom) sample_rounds (new_pp front_rc)).
Lemma sample_fe_running : exists t, running 96 t sample_fe /\ enqueued sample_fe = [EnqAdd (MyPair (my_key_of sample_client) (MyData 1 5))].
Proof.
  assert (rounds_ok 96 (rules_of (new_pp (Mp := gmap Z nat) front_rc)) sample_rounds) as Hok.
  { change (rules_of _) with front_rc. cbn [rounds_ok sample_rounds]. split_and!; try apply front_rc_ok; try done; try decide_now; by apply Forall_replicate. }
  pose proof (wp_rounds 0 no_oom 96 sample_rounds (fun _ => eq_refl) ∅ (new_pp (Mp := gmap Z nat) front_rc)
    (running_new 96 front_rc (proj1 front_rc_ok) (proj2 front_rc_ok)) Hok) as Hw.
  assert (for_each (on_round 0 no_oom) sample_rounds (new_pp (Mp := gmap Z nat) front_rc) = (Ret tt, sample_fe)) as E
    by (unfold sample_fe; apply run_eq; vm_compute; reflexivity).
  unfold wp in Hw. rewrite E in Hw. cbn [fst snd] in Hw. destruct Hw as [t Ht]. exists t. split; [exact Ht|]. vm_compute. reflexivity.
Qed.
