(* ===== verification/DataPlane.v ===== *)
(** * The data plane of the switch (Switch/data_plane)

    The P4 program on its Tofino: parsers, controls and deparsers of headers.p4,
    parser.p4, l7lb_switch.p4 and deparser.p4.  A header is its fields, a packet is
    its bytes; a table is what the control plane has put in it ([BfRt]).  The hash
    and checksum units are parameters. *)
From Stdlib Require Import ZArith Lia String.
From stdpp Require Import base list gmap strings.
From S2P Require Import Prelude BfRt Client.

(** ** Headers (headers.p4) *)

(** Consecutive bit fields, the first in the most significant bits. *)
Definition bits (ws : list Z) : Z := foldr Z.add 0 ws.
Fixpoint pack (ws vs : list Z) : Z :=
  match ws, vs with
  | w :: ws, v :: vs => v * 2 ^ bits ws + pack ws vs
  | _, _ => 0
  end.
Fixpoint unpack (ws : list Z) (z : Z) : list Z :=
  match ws with
  | [] => []
  | w :: ws => (z / 2 ^ bits ws) mod 2 ^ w :: unpack ws z
  end.

(** A header type: the widths of its fields, and its values as the list of them. *)
Class Header (H : Type) := {
  widths : list Z;
  fields : H -> list Z;
  of_fields : list Z -> H
}.
Arguments widths H {_}.

(** The size of a header in bytes. *)
Definition size_of (H : Type) `{Header H} : nat := Z.to_nat (bits (widths H) / 8).

Definition be_bytes (n : nat) (z : Z) : list Z := rev (le_bytes n z).

Definition emit {H} `{Header H} (h : H) : list Z := be_bytes (size_of H) (pack (widths H) (fields h)).
(** [emit] of a header that need not be valid. *)
Definition emit_valid {H} `{Header H} (o : option H) : list Z := match o with Some h => emit h | None => [] end.

(** A parser consumes the packet, or rejects it. *)
Abbreviation Parser := (M (list Z) unit).
Definition reject {A} : Parser A := fail tt.

Definition advance (n : nat) : Parser unit := fun p =>
  if decide (n <= length p)%nat then (Ret tt, drop n p) else (Err tt, p).
Definition extract {H} `{Header H} : Parser H := fun p =>
  if decide (size_of H <= length p)%nat
  then (Ret (of_fields (unpack (widths H) (be_val (take (size_of H) p)))), drop (size_of H) p)
  else (Err tt, p).

Record ethernet_h := Ethernet { eth_dst_addr : Z; eth_src_addr : Z; ether_type : Z }.
Record vlan_tag_h := VlanTag { pcp : Z; cfi : Z; vid : Z; vlan_ether_type : Z }.
Record arp_h := Arp { hw_type : Z; proto_type : Z; hw_addr_len : Z; proto_addr_len : Z; arp_opcode : Z;
  sender_hw_addr : Z; sender_proto_addr : Z; target_hw_addr : Z; arp_target_proto_addr : Z }.
Record ipv4_h := Ipv4 { version : Z; ihl : Z; diffserv : Z; total_len : Z; identification : Z; ip_flags : Z; frag_offset : Z;
  ttl : Z; protocol : Z; hdr_checksum : Z; ip_src_addr : Z; ip_dst_addr : Z }.
Record tcp_h := Tcp { tcp_src_port : Z; tcp_dst_port : Z; seq_no : Z; ack_no : Z; data_offset : Z; res : Z;
  urg : Z; ack : Z; psh : Z; rst : Z; syn : Z; fin : Z; window : Z; tcp_checksum : Z; urgent_ptr : Z }.
Record udp_h := Udp { udp_src_port : Z; udp_dst_port : Z; hdr_length : Z; udp_checksum : Z }.
Record bridge_h := Bridge { syn_respond : Z; lb_flag : Z; d_flag : Z; v_flag : Z; forward_to_dest : Z; hit_flag : Z;
  cpu_flag : Z; payload_flag : Z; br_index : Z }.
Record tcp_mss_h := Mss { mss_type : Z; mss_length : Z; mss_value : Z }.
Record tcp_nop_h := Nop { nop_type : Z }.
Record tcp_sack_permitted_h := SackPermitted { sack_type : Z; sack_length : Z }.
Record tcp_window_scale_h := WindowScale { ws_type : Z; ws_length : Z; ws : Z }.
Record psd_header_t := Psd { psd_src_addr : Z; psd_dst_addr : Z; psd_reserved : Z; psd_protocol : Z; psd_total_len : Z }.

(** The fields in order. *)
Definition field (l : list Z) (i : nat) : Z := nth i l 0.

#[export] Instance ethernet_header : Header ethernet_h := {
  widths := [48; 48; 16];
  fields h := [eth_dst_addr h; eth_src_addr h; ether_type h];
  of_fields l := let f := field l in Ethernet (f 0%nat) (f 1%nat) (f 2%nat) }.
#[export] Instance vlan_tag_header : Header vlan_tag_h := {
  widths := [3; 1; 12; 16];
  fields h := [pcp h; cfi h; vid h; vlan_ether_type h];
  of_fields l := let f := field l in VlanTag (f 0%nat) (f 1%nat) (f 2%nat) (f 3%nat) }.
#[export] Instance arp_header : Header arp_h := {
  widths := [16; 16; 8; 8; 16; 48; 32; 48; 32];
  fields h := [hw_type h; proto_type h; hw_addr_len h; proto_addr_len h; arp_opcode h;
    sender_hw_addr h; sender_proto_addr h; target_hw_addr h; arp_target_proto_addr h];
  of_fields l := let f := field l in
    Arp (f 0%nat) (f 1%nat) (f 2%nat) (f 3%nat) (f 4%nat) (f 5%nat) (f 6%nat) (f 7%nat) (f 8%nat) }.
#[export] Instance ipv4_header : Header ipv4_h := {
  widths := [4; 4; 8; 16; 16; 3; 13; 8; 8; 16; 32; 32];
  fields h := [version h; ihl h; diffserv h; total_len h; identification h; ip_flags h; frag_offset h;
    ttl h; protocol h; hdr_checksum h; ip_src_addr h; ip_dst_addr h];
  of_fields l := let f := field l in
    Ipv4 (f 0%nat) (f 1%nat) (f 2%nat) (f 3%nat) (f 4%nat) (f 5%nat) (f 6%nat) (f 7%nat) (f 8%nat) (f 9%nat) (f 10%nat) (f 11%nat) }.
#[export] Instance tcp_header : Header tcp_h := {
  widths := [16; 16; 32; 32; 4; 6; 1; 1; 1; 1; 1; 1; 16; 16; 16];
  fields h := [tcp_src_port h; tcp_dst_port h; seq_no h; ack_no h; data_offset h; res h;
    urg h; ack h; psh h; rst h; syn h; fin h; window h; tcp_checksum h; urgent_ptr h];
  of_fields l := let f := field l in
    Tcp (f 0%nat) (f 1%nat) (f 2%nat) (f 3%nat) (f 4%nat) (f 5%nat) (f 6%nat) (f 7%nat) (f 8%nat) (f 9%nat) (f 10%nat) (f 11%nat)
      (f 12%nat) (f 13%nat) (f 14%nat) }.
#[export] Instance udp_header : Header udp_h := {
  widths := [16; 16; 16; 16];
  fields h := [udp_src_port h; udp_dst_port h; hdr_length h; udp_checksum h];
  of_fields l := let f := field l in Udp (f 0%nat) (f 1%nat) (f 2%nat) (f 3%nat) }.
#[export] Instance bridge_header : Header bridge_h := {
  widths := [1; 1; 1; 1; 1; 1; 1; 1; 8];
  fields h := [syn_respond h; lb_flag h; d_flag h; v_flag h; forward_to_dest h; hit_flag h; cpu_flag h; payload_flag h; br_index h];
  of_fields l := let f := field l in
    Bridge (f 0%nat) (f 1%nat) (f 2%nat) (f 3%nat) (f 4%nat) (f 5%nat) (f 6%nat) (f 7%nat) (f 8%nat) }.
#[export] Instance mss_header : Header tcp_mss_h := {
  widths := [8; 8; 16];
  fields h := [mss_type h; mss_length h; mss_value h];
  of_fields l := let f := field l in Mss (f 0%nat) (f 1%nat) (f 2%nat) }.
#[export] Instance nop_header : Header tcp_nop_h := {
  widths := [8];
  fields h := [nop_type h];
  of_fields l := Nop (field l 0) }.
#[export] Instance sack_permitted_header : Header tcp_sack_permitted_h := {
  widths := [8; 8];
  fields h := [sack_type h; sack_length h];
  of_fields l := let f := field l in SackPermitted (f 0%nat) (f 1%nat) }.
#[export] Instance window_scale_header : Header tcp_window_scale_h := {
  widths := [8; 8; 8];
  fields h := [ws_type h; ws_length h; ws h];
  of_fields l := let f := field l in WindowScale (f 0%nat) (f 1%nat) (f 2%nat) }.
#[export] Instance psd_header : Header psd_header_t := {
  widths := [32; 32; 8; 8; 16];
  fields h := [psd_src_addr h; psd_dst_addr h; psd_reserved h; psd_protocol h; psd_total_len h];
  of_fields l := let f := field l in Psd (f 0%nat) (f 1%nat) (f 2%nat) (f 3%nat) (f 4%nat) }.

(** The options of the answer to a SYN, which are valid together. *)
Record options_t := Options { mss : tcp_mss_h; nop_1 : tcp_nop_h; nop_2 : tcp_nop_h; sack_permitted : tcp_sack_permitted_h;
  nop_3 : tcp_nop_h; window_scale : tcp_window_scale_h }.

(** [header_t]: both parsers begin with the Ethernet header; the others are valid
    or not.  [hdr.bridged] is in the state of the ingress, where it is always
    valid. *)
Record header_t := Hdr { ethernet : ethernet_h; vlan_tag : option vlan_tag_h; arp : option arp_h; ipv4 : option ipv4_h;
  tcp : option tcp_h; udp : option udp_h; options : option options_t }.

(** ** Constants (config.p4) *)

Definition ETHERTYPE_IPV4 : Z := 0x0800.
Definition ETHERTYPE_ARP : Z := 0x0806.
Definition ETHERTYPE_VLAN : Z := 0x8100.
Definition IP_PROTOCOLS_TCP : Z := 6.
Definition IP_PROTOCOLS_UDP : Z := 17.
Definition MSS_VALUE : Z := 1460.
Definition WINDOW_SCALE : Z := 7.
Definition VIRTUAL_IP : Z := 0x0a00010A.
Definition VIRTUAL_PORT : Z := 80.
Definition SWITCH_IP : Z := 0x0a0001FE.
Definition SWITCH_PORT : Z := 12345.

(** ** The units of the chip *)

(** What the hash and checksum units compute; [residual] is what
    [subtract_all_and_deposit] leaves of a TCP packet with these headers and this
    rest.  [invalid_field] is what a table reads from a header that is not valid. *)
Class Tofino := {
  lb_index_hasher : Z -> Z -> Z;
  seq_hasher : Z -> Z -> Z;
  checksum : list Z -> Z;
  residual : ipv4_h -> tcp_h -> list Z -> Z;
  invalid_field : Z
}.

(** They are as wide as declared. *)
Class TofinoLaws `{Tofino} : Prop := {
  lb_index_hasher_range ip port : in_u8 (lb_index_hasher ip port);
  seq_hasher_range ip port : in_u32 (seq_hasher ip port);
  checksum_range l : in_u16 (checksum l);
  residual_range ip t l : in_u16 (residual ip t l)
}.

(** The tables, as the control plane sees them. *)
Abbreviation table := (gmap entry_key entry_data).
Abbreviation tables := (string -> table).

(** A parameter of an entry's action. *)
Definition param (x : entry_data) (name : string) : Z := default 0 (snd x !! name).

(** The first [len] bits of the two addresses agree. *)
Definition same_prefix (len a b : Z) : bool := Z.shiftr a (32 - len) =? Z.shiftr b (32 - len).

(** Longest prefix match of [a] in the one key field [name]. *)
Definition longer (name : string) (a : Z) (ke : entry_key * entry_data) (best : option (Z * entry_data)) : option (Z * entry_data) :=
  match fst ke !! name with
  | Some (Lpm v len) =>
      if same_prefix len v a && match best with Some (l, _) => l <? len | None => true end then Some (len, snd ke) else best
  | _ => best
  end.
Definition lpm_lookup (t : table) (name : string) (a : Z) : option entry_data :=
  snd <$> foldr (longer name a) None (map_to_list t).

(** ** Parsers (parser.p4) *)

(** The part both parsers share.  [l4] parses the TCP header of an unfragmented
    segment; [other] is what becomes of any other type: the ingress parser accepts
    it, the egress parser does not. *)
Section parser.
Context {A : Type} (l4 : ethernet_h -> option vlan_tag_h -> ipv4_h -> Parser A) (other : header_t -> Parser A) (accept : header_t -> A).

Definition parse_udp (e : ethernet_h) (v : option vlan_tag_h) (ip : ipv4_h) : Parser A :=
  u ← extract; mret (accept (Hdr e v None (Some ip) None (Some u) None)).

Definition parse_ipv4 (e : ethernet_h) (v : option vlan_tag_h) : Parser A :=
  ip ← extract;
  if (protocol ip =? IP_PROTOCOLS_TCP) && (frag_offset ip =? 0) then l4 e v ip
  else if (protocol ip =? IP_PROTOCOLS_UDP) && (frag_offset ip =? 0) then parse_udp e v ip
  else mret (accept (Hdr e v None (Some ip) None None None)).

Definition parse_arp (e : ethernet_h) (v : option vlan_tag_h) : Parser A :=
  a ← extract; mret (accept (Hdr e v (Some a) None None None None)).

Definition parse_vlan (e : ethernet_h) : Parser A :=
  v ← extract;
  if vlan_ether_type v =? ETHERTYPE_ARP then parse_arp e (Some v)
  else if vlan_ether_type v =? ETHERTYPE_IPV4 then parse_ipv4 e (Some v)
  else other (Hdr e (Some v) None None None None None).

Definition parse_ethernet : Parser A :=
  e ← extract;
  if ether_type e =? ETHERTYPE_ARP then parse_arp e None
  else if ether_type e =? ETHERTYPE_IPV4 then parse_ipv4 e None
  else if ether_type e =? ETHERTYPE_VLAN then parse_vlan e
  else other (Hdr e None None None None None None).
End parser.

Definition parse_tcp (e : ethernet_h) (v : option vlan_tag_h) (ip : ipv4_h) : Parser header_t :=
  t ← extract; mret (Hdr e v None (Some ip) (Some t) None None).

(** [SwitchIngressParser], after the intrinsic metadata. *)
Definition switch_ingress_parser : Parser header_t := parse_ethernet parse_tcp mret id.

(** The state of the ingress: headers, [ig_md], and the intrinsic metadata the
    program uses. *)
Record ingress_t := IngressSt {
  hdr : header_t;
  bridged : bridge_h;
  cip : Z; cport : Z; hash_result : Z; direction : Z;
  ingress_port : Z;
  ucast_egress_port : option Z;
  drop_ctl : Z;
  bypass_egress : Z
}.

(** State [parse_md]. *)
Definition parse_md (port : Z) (h : header_t) : ingress_t :=
  IngressSt h (Bridge 0 0 0 0 0 0 0 1 0) 0 0 0 0 port None 0 0.

(** ** The ingress control (l7lb_switch.p4) *)

Definition set_hdr (h : header_t) (s : ingress_t) : ingress_t :=
  IngressSt h (bridged s) (cip s) (cport s) (hash_result s) (direction s) (ingress_port s) (ucast_egress_port s) (drop_ctl s) (bypass_egress s).
Definition set_bridged (b : bridge_h) (s : ingress_t) : ingress_t :=
  IngressSt (hdr s) b (cip s) (cport s) (hash_result s) (direction s) (ingress_port s) (ucast_egress_port s) (drop_ctl s) (bypass_egress s).
Definition set_direction (d : Z) (s : ingress_t) : ingress_t :=
  IngressSt (hdr s) (bridged s) (cip s) (cport s) (hash_result s) d (ingress_port s) (ucast_egress_port s) (drop_ctl s) (bypass_egress s).
Definition set_client (ip port : Z) (s : ingress_t) : ingress_t :=
  IngressSt (hdr s) (bridged s) ip port (hash_result s) (direction s) (ingress_port s) (ucast_egress_port s) (drop_ctl s) (bypass_egress s).
Definition set_hash_result (x : Z) (s : ingress_t) : ingress_t :=
  IngressSt (hdr s) (bridged s) (cip s) (cport s) x (direction s) (ingress_port s) (ucast_egress_port s) (drop_ctl s) (bypass_egress s).
Definition set_egress (port : Z) (s : ingress_t) : ingress_t :=
  IngressSt (hdr s) (bridged s) (cip s) (cport s) (hash_result s) (direction s) (ingress_port s) (Some port) (drop_ctl s) (bypass_egress s).
Definition set_drop_ctl (x : Z) (s : ingress_t) : ingress_t :=
  IngressSt (hdr s) (bridged s) (cip s) (cport s) (hash_result s) (direction s) (ingress_port s) (ucast_egress_port s) x (bypass_egress s).
Definition set_bypass (x : Z) (s : ingress_t) : ingress_t :=
  IngressSt (hdr s) (bridged s) (cip s) (cport s) (hash_result s) (direction s) (ingress_port s) (ucast_egress_port s) (drop_ctl s) x.

(** Updates of headers; of one that is not valid they have no effect. *)
Definition set_macs (dst src : Z) (h : header_t) : header_t :=
  Hdr (Ethernet dst src (ether_type (ethernet h))) (vlan_tag h) (arp h) (ipv4 h) (tcp h) (udp h) (options h).
Definition set_arp (a : arp_h) (h : header_t) : header_t :=
  Hdr (ethernet h) (vlan_tag h) (Some a) (ipv4 h) (tcp h) (udp h) (options h).

Definition set_lb_flag (b : bridge_h) : bridge_h :=
  Bridge (syn_respond b) 1 (d_flag b) (v_flag b) (forward_to_dest b) (hit_flag b) (cpu_flag b) (payload_flag b) (br_index b).
Definition set_d_flag (b : bridge_h) : bridge_h :=
  Bridge (syn_respond b) (lb_flag b) 1 (v_flag b) (forward_to_dest b) (hit_flag b) (cpu_flag b) (payload_flag b) (br_index b).
Definition set_v_flag (b : bridge_h) : bridge_h :=
  Bridge (syn_respond b) (lb_flag b) (d_flag b) 1 (forward_to_dest b) (hit_flag b) (cpu_flag b) (payload_flag b) (br_index b).
Definition set_forward_to_dest (b : bridge_h) : bridge_h :=
  Bridge (syn_respond b) (lb_flag b) (d_flag b) (v_flag b) 1 (hit_flag b) (cpu_flag b) (payload_flag b) (br_index b).
Definition set_hit (d_index : Z) (b : bridge_h) : bridge_h :=
  Bridge (syn_respond b) (lb_flag b) (d_flag b) (v_flag b) (forward_to_dest b) 1 (cpu_flag b) (payload_flag b) d_index.
Definition set_cpu_flag (b : bridge_h) : bridge_h :=
  Bridge (syn_respond b) (lb_flag b) (d_flag b) (v_flag b) (forward_to_dest b) (hit_flag b) 1 (payload_flag b) (br_index b).
Definition set_syn_respond (b : bridge_h) : bridge_h :=
  Bridge 1 (lb_flag b) (d_flag b) (v_flag b) (forward_to_dest b) (hit_flag b) (cpu_flag b) (payload_flag b) (br_index b).
Definition set_no_payload (b : bridge_h) : bridge_h :=
  Bridge (syn_respond b) (lb_flag b) (d_flag b) (v_flag b) (forward_to_dest b) (hit_flag b) (cpu_flag b) 0 (br_index b).

Section ingress.
Context `{Tofino} (tabs : tables).
Implicit Types s : ingress_t.

(** The assignments of [reply_arp] one after the other, each to what the ones before
    have left. *)
Definition reply_arp (arp_mac : Z) (a : arp_h) s : ingress_t :=
  let h := hdr s in
  let h := set_macs (eth_src_addr (ethernet h)) (eth_src_addr (ethernet h)) h in
  let h := set_macs (eth_dst_addr (ethernet h)) arp_mac h in
  let a := Arp (hw_type a) (proto_type a) (hw_addr_len a) (proto_addr_len a) 2 arp_mac (arp_target_proto_addr a)
    (target_hw_addr a) (arp_target_proto_addr a) in
  let a := Arp (hw_type a) (proto_type a) (hw_addr_len a) (proto_addr_len a) (arp_opcode a) (sender_hw_addr a) (sender_proto_addr a)
    (eth_src_addr (ethernet h)) (sender_proto_addr a) in
  set_egress (ingress_port s) (set_hdr (set_arp a h) s).

Definition arp_table (a : arp_h) s : ingress_t :=
  match tabs ARP !! (<["hdr.arp.target_proto_addr" := Exact (arp_target_proto_addr a)]> {["hdr.arp.opcode" := Exact (arp_opcode a)]}) with
  | Some x => if decide (fst x = "SwitchIngress.reply_arp"%string) then reply_arp (param x "arp_mac") a s else set_drop_ctl 1 s
  | None => set_drop_ctl 1 s
  end.

(** The constant entries of [calculate_payload_table]. *)
Definition payload_entries : list (Z * Z) :=
  [(40, 5); (44, 6); (48, 7); (52, 8); (56, 9); (60, 10); (64, 11); (68, 12); (72, 13); (76, 14); (80, 15)].
Definition calculate_payload_table (ip : ipv4_h) (t : tcp_h) s : ingress_t :=
  if decide ((total_len ip, data_offset t) ∈ payload_entries) then set_bridged (set_no_payload (bridged s)) s else s.

Definition vip_lookup_table (ip : ipv4_h) (t : tcp_h) s : ingress_t :=
  if (ip_dst_addr ip =? VIRTUAL_IP) && (tcp_dst_port t =? VIRTUAL_PORT)
  then set_client (ip_src_addr ip) (tcp_src_port t) (set_direction 1 s)
  else if (ip_dst_addr ip =? SWITCH_IP) && (tcp_dst_port t =? SWITCH_PORT) then set_direction 4 s
  else s.

Definition dip_lookup_table (ip : ipv4_h) (t : tcp_h) s : ingress_t :=
  match tabs DIP !! (<["hdr.tcp.src_port" := Exact (tcp_src_port t)]> {["hdr.ipv4.src_addr" := Exact (ip_src_addr ip)]}) with
  | Some x => if decide (fst x = "SwitchIngress.dip_hit"%string)
              then set_client (ip_dst_addr ip) (tcp_dst_port t) (set_direction 2 s) else s
  | None => s
  end.

Definition calculate_crc8_table s : ingress_t := set_hash_result (lb_index_hasher (cip s) (cport s)) s.

Definition offload_connection_table s : ingress_t :=
  match tabs OFT !! (<["ig_md.cport" := Exact (cport s)]> {["ig_md.cip" := Exact (cip s)]}) with
  | Some x => if decide (fst x = "SwitchIngress.oft_hit"%string) then set_bridged (set_hit (param x "d_index") (bridged s)) s else s
  | None => s
  end.

Definition set_egress_port (x : entry_data) s : ingress_t :=
  set_egress (param x "dst_port") (set_hdr (set_macs (param x "dst_mac") (param x "src_mac") (hdr s)) s).
Definition egress_hit (o : option entry_data) s : ingress_t :=
  match o with Some x => if decide (fst x = SET_EGRESS) then set_egress_port x s else s | None => s end.

Definition dest_to_egress_port_table s : ingress_t :=
  egress_hit (lpm_lookup (tabs DEST) "hdr.ipv4.dst_addr"
    (match ipv4 (hdr s) with Some ip => ip_dst_addr ip | None => invalid_field end)) s.
Definition d_index_to_egress_port_table s : ingress_t :=
  egress_hit (tabs DIX !! {["hdr.bridged.index" := Exact (br_index (bridged s))]}) s.
Definition lb_index_to_egress_port_table s : ingress_t :=
  egress_hit (tabs LBX !! {["ig_md.hash_result" := Exact (hash_result s)]}) s.

(** The lookups. *)
Definition lookups s : ingress_t :=
  match arp (hdr s), tcp (hdr s), ipv4 (hdr s) with
  | Some a, _, _ => set_bypass 1 (arp_table a s)
  | None, Some t, Some ip =>
      offload_connection_table (calculate_crc8_table (dip_lookup_table ip t (vip_lookup_table ip t (calculate_payload_table ip t s))))
  | None, _, _ => match udp (hdr s) with Some _ => set_bypass 1 s | None => s end
  end.

(** The flags of the bridged header.  Only a TCP packet has a direction. *)
Definition set_flags s : ingress_t :=
  let b := bridged s in
  if direction s =? 0 then set_bridged (set_forward_to_dest b) s
  else if direction s =? 4 then set_bridged (set_cpu_flag b) s
  else match tcp (hdr s) with
  | None => s
  | Some t =>
      if direction s =? 1 then
        if syn t =? 1 then set_bridged (set_syn_respond b) s
        else if (fin t =? 1) || (rst t =? 1) then set_bridged (set_lb_flag b) s
        else if hit_flag b =? 0 then set_bridged (set_lb_flag b) s
        else if (hit_flag b =? 1) && (payload_flag b =? 1) then set_bridged (set_lb_flag b) s
        else if hit_flag b =? 1 then set_bridged (set_d_flag b) s
        else s
      else if direction s =? 2 then
        if (fin t =? 1) || (rst t =? 1) then set_bridged (set_lb_flag b) s
        else if hit_flag b =? 1 then set_bridged (set_forward_to_dest (set_v_flag b)) s
        else if hit_flag b =? 0 then set_bridged (set_lb_flag b) s
        else s
      else s
  end.

(** Where the packet goes. *)
Definition choose_port s : ingress_t :=
  let b := bridged s in
  if lb_flag b =? 1 then lb_index_to_egress_port_table s
  else if d_flag b =? 1 then d_index_to_egress_port_table s
  else if cpu_flag b =? 1 then set_egress 192 s
  else if syn_respond b =? 1 then
    set_egress (ingress_port s) (set_hdr (set_macs (eth_src_addr (ethernet (hdr s))) 0xabababcdcdcd (hdr s)) s)
  else if forward_to_dest b =? 1 then dest_to_egress_port_table s
  else s.

Definition switch_ingress s : ingress_t := choose_port (set_flags (lookups s)).
End ingress.

(** [SwitchIngressDeparser]; what the parser did not extract follows. *)
Definition switch_ingress_deparser (s : ingress_t) : list Z :=
  emit (bridged s) ++ emit (ethernet (hdr s)) ++ emit_valid (arp (hdr s)) ++ emit_valid (ipv4 (hdr s)) ++
  emit_valid (tcp (hdr s)) ++ emit_valid (udp (hdr s)).

(** ** The egress *)

(** [eg_md]: the bridged header, the pseudo header, and what the checksum unit
    deposited. *)
Record egress_t := EgressSt { eg_hdr : header_t; eg_bridged : bridge_h; psd : psd_header_t; tcp_udp_checksum : Z }.

Section egress.
Context `{Tofino} (tabs : tables).
Implicit Types s : egress_t.

Definition no_psd : psd_header_t := Psd 0 0 0 0 0.

(** [parse_tcp] and [parse_tcp_options] of the egress parser. *)
Definition egress_parse_tcp (b : bridge_h) (e : ethernet_h) (v : option vlan_tag_h) (ip : ipv4_h) : Parser egress_t :=
  t ← extract;
  rest ← get;
  _ ← (if syn_respond b =? 1 then advance 20 else mret tt);
  mret (EgressSt (Hdr e v None (Some ip) (Some t) None None) b no_psd (residual ip t rest)).

(** [SwitchEgressParser]. *)
Definition switch_egress_parser : Parser egress_t :=
  b ← extract;
  parse_ethernet (egress_parse_tcp b) (fun _ => reject) (fun h => EgressSt h b no_psd 0).

(** [syn_reply] and [options_set]. *)
Definition syn_reply (ip : ipv4_h) (t : tcp_h) s : egress_t :=
  let h := eg_hdr s in
  let ip' := Ipv4 (version ip) (ihl ip) (diffserv ip) 52 (identification ip) (ip_flags ip) (frag_offset ip)
    (ttl ip) (protocol ip) (hdr_checksum ip) (ip_dst_addr ip) (ip_src_addr ip) in
  let t' := Tcp (tcp_dst_port t) (tcp_src_port t) (seq_hasher (ip_src_addr ip) (tcp_src_port t)) (u32 (seq_no t + 1)) 8 (res t)
    (urg t) 1 (psh t) (rst t) 1 (fin t) (window t) 0 (urgent_ptr t) in
  let o := Options (Mss 2 4 MSS_VALUE) (Nop 1) (Nop 1) (SackPermitted 4 2) (Nop 1) (WindowScale 3 3 WINDOW_SCALE) in
  EgressSt (Hdr (ethernet h) (vlan_tag h) (arp h) (Some ip') (Some t') (udp h) (Some o)) (eg_bridged s)
    (Psd (ip_dst_addr ip) (ip_src_addr ip) 0 IP_PROTOCOLS_TCP 32) (tcp_udp_checksum s).

Definition set_src_ip_port (ip : ipv4_h) (t : tcp_h) (src_ip src_port : Z) s : egress_t :=
  let h := eg_hdr s in
  let ip' := Ipv4 (version ip) (ihl ip) (diffserv ip) (total_len ip) (identification ip) (ip_flags ip) (frag_offset ip)
    (ttl ip) (protocol ip) (hdr_checksum ip) src_ip (ip_dst_addr ip) in
  let t' := Tcp src_port (tcp_dst_port t) (seq_no t) (ack_no t) (data_offset t) (res t)
    (urg t) (ack t) (psh t) (rst t) (syn t) (fin t) (window t) (tcp_checksum t) (urgent_ptr t) in
  EgressSt (Hdr (ethernet h) (vlan_tag h) (arp h) (Some ip') (Some t') (udp h) (options h)) (eg_bridged s) (psd s) (tcp_udp_checksum s).

Definition set_dst_ip_port (ip : ipv4_h) (t : tcp_h) (dst_ip dst_port : Z) s : egress_t :=
  let h := eg_hdr s in
  let ip' := Ipv4 (version ip) (ihl ip) (diffserv ip) (total_len ip) (identification ip) (ip_flags ip) (frag_offset ip)
    (ttl ip) (protocol ip) (hdr_checksum ip) (ip_src_addr ip) dst_ip in
  let t' := Tcp (tcp_src_port t) dst_port (seq_no t) (ack_no t) (data_offset t) (res t)
    (urg t) (ack t) (psh t) (rst t) (syn t) (fin t) (window t) (tcp_checksum t) (urgent_ptr t) in
  EgressSt (Hdr (ethernet h) (vlan_tag h) (arp h) (Some ip') (Some t') (udp h) (options h)) (eg_bridged s) (psd s) (tcp_udp_checksum s).

Definition d_index_to_ip_port_table (ip : ipv4_h) (t : tcp_h) s : egress_t :=
  match tabs DIP_PORT !! {["eg_md.bridged.index" := Exact (br_index (eg_bridged s))]} with
  | Some x => if decide (fst x = "SwitchEgress.set_dst_ip_port"%string)
              then set_dst_ip_port ip t (param x "dst_ip") (param x "dst_port") s else s
  | None => s
  end.

Definition switch_egress s : egress_t :=
  match tcp (eg_hdr s), ipv4 (eg_hdr s) with
  | Some t, Some ip =>
      if syn_respond (eg_bridged s) =? 1 then syn_reply ip t s
      else if d_flag (eg_bridged s) =? 1 then d_index_to_ip_port_table ip t s
      else if v_flag (eg_bridged s) =? 1 then set_src_ip_port ip t VIRTUAL_IP VIRTUAL_PORT s
      else s
  | _, _ => s
  end.

(** ** The egress deparser (deparser.p4) *)

Definition update_ipv4 (ip : ipv4_h) : ipv4_h :=
  Ipv4 (version ip) (ihl ip) (diffserv ip) (total_len ip) (identification ip) (ip_flags ip) (frag_offset ip) (ttl ip) (protocol ip)
    (checksum (take 10 (emit ip) ++ drop 12 (emit ip))) (ip_src_addr ip) (ip_dst_addr ip).

Definition set_tcp_checksum (c : Z) (t : tcp_h) : tcp_h :=
  Tcp (tcp_src_port t) (tcp_dst_port t) (seq_no t) (ack_no t) (data_offset t) (res t)
    (urg t) (ack t) (psh t) (rst t) (syn t) (fin t) (window t) c (urgent_ptr t).

Definition emit_options (o : options_t) : list Z :=
  emit (mss o) ++ emit (nop_1 o) ++ emit (nop_2 o) ++ emit (sack_permitted o) ++ emit (nop_3 o) ++ emit (window_scale o).

Definition options_bytes (h : header_t) : list Z := match options h with Some o => emit_options o | None => [] end.

Definition update_tcp (s : egress_t) (ip : ipv4_h) (t : tcp_h) : tcp_h :=
  if syn_respond (eg_bridged s) =? 1
  then set_tcp_checksum (checksum (emit (psd s) ++ emit t ++ options_bytes (eg_hdr s))) t
  else set_tcp_checksum (checksum (be_bytes 4 (ip_src_addr ip) ++ be_bytes 4 (ip_dst_addr ip) ++
    be_bytes 2 (tcp_src_port t) ++ be_bytes 2 (tcp_dst_port t) ++ be_bytes 2 (tcp_udp_checksum s))) t.

(** The checksums, then the headers. *)
Definition switch_egress_deparser s : list Z :=
  let h := eg_hdr s in
  emit (ethernet h) ++
  match ipv4 h with
  | Some ip => emit (update_ipv4 ip) ++ emit_valid (update_tcp s ip <$> tcp h)
  | None => []
  end ++ options_bytes h.
End egress.

(** ** The pipeline *)

Section pipeline.
Context `{Tofino} (tabs : tables).

(** Between the two: a packet that is to be dropped or has no port ends here, one
    that bypasses the egress leaves as it is. *)
Definition egress_pipe (port : Z) (p : list Z) : option (Z * list Z) :=
  match switch_egress_parser p with
  | (Ret s, rest) => Some (port, switch_egress_deparser (switch_egress tabs s) ++ rest)
  | (Err _, _) => None
  end.

Definition traffic_manager (s : ingress_t) (p : list Z) : option (Z * list Z) :=
  if drop_ctl s =? 1 then None
  else match ucast_egress_port s with
  | None => None
  | Some port => if bypass_egress s =? 1 then Some (port, p) else egress_pipe port p
  end.

(** A packet that arrives at a port: the port it leaves by, and the packet; [None]:
    it does not leave. *)
Definition switch_packet (port : Z) (p : list Z) : option (Z * list Z) :=
  match switch_ingress_parser p with
  | (Ret h, rest) => let s := switch_ingress tabs (parse_md port h) in traffic_manager s (switch_ingress_deparser s ++ rest)
  | (Err _, _) => None
  end.
End pipeline.
