(* ===== verification/DataPlaneProofs.v ===== *)
(** * What the data plane does with a packet

    First headers: what a deparser emits a parser reads back, and the other way
    round.  Then the way of a TCP segment through the pipeline, as a decision on
    addresses, flags and the connections in the table. *)
From Stdlib Require Import ZArith Lia String.
From stdpp Require Import base list gmap strings.
From S2P Require Import Prelude BfRt Client DataPlane.

(** ** Bit fields *)

Abbreviation in_fields := (Forall2 (fun w v : Z => 0 <= v < 2 ^ w)).
Abbreviation widths_ok := (Forall (fun w : Z => 0 <= w)).

Lemma bits_nonneg ws : widths_ok ws -> 0 <= bits ws.
Proof. induction 1; cbn; [done|]. fold (bits l). lia. Qed.

Lemma bits_app ws ws' : bits (ws ++ ws') = bits ws + bits ws'.
Proof. induction ws; cbn; [done|]. fold (bits (ws ++ ws')) (bits ws). lia. Qed.

Lemma pack_range ws vs : widths_ok ws -> in_fields ws vs -> 0 <= pack ws vs < 2 ^ bits ws.
Proof.
  intros Hw Hf. induction Hf as [|w v ws vs Hv Hf IH]; [done|]. inversion Hw as [|? ? Hw0 Hws]; subst.
  specialize (IH Hws). pose proof (bits_nonneg ws Hws). cbn [pack bits foldr]. fold (bits ws).
  rewrite Z.pow_add_r by done. nia.
Qed.

Lemma length_unpack ws z : length (unpack ws z) = length ws.
Proof. induction ws; cbn; auto. Qed.

Lemma unpack_in ws z : widths_ok ws -> in_fields ws (unpack ws z).
Proof. induction 1; cbn; constructor; [|done]. apply Z.mod_pos_bound. apply Z.pow_pos_nonneg; lia. Qed.

Lemma unpack_add ws a z : widths_ok ws -> unpack ws (a * 2 ^ bits ws + z) = unpack ws z.
Proof.
  intros Hw. revert a. induction Hw as [|w ws Hw Hws IH]; intros a; [done|]. pose proof (bits_nonneg ws Hws).
  cbn [unpack bits foldr]. fold (bits ws). rewrite Z.pow_add_r, Z.mul_assoc by done. f_equal; [|apply IH].
  rewrite Z.div_add_l by (apply Z.pow_nonzero; lia). rewrite Z.add_comm. apply Z.mod_add, Z.pow_nonzero; lia.
Qed.

Lemma unpack_pack ws vs : widths_ok ws -> in_fields ws vs -> unpack ws (pack ws vs) = vs.
Proof.
  intros Hw Hf. induction Hf as [|w v ws vs Hv Hf IH]; [done|]. inversion Hw as [|? ? Hw0 Hws]; subst.
  cbn [unpack pack]. rewrite unpack_add, IH by done. f_equal. pose proof (pack_range ws vs Hws Hf).
  rewrite Z.div_add_l, (Z.div_small (pack _ _)), Z.add_0_r by lia. by apply Z.mod_small.
Qed.

Lemma pack_unpack ws z : widths_ok ws -> pack ws (unpack ws z) = z mod 2 ^ bits ws.
Proof.
  induction 1 as [|w ws Hw Hws IH]; cbn [pack unpack]; [by rewrite Z.mod_1_r|]. pose proof (bits_nonneg ws Hws).
  cbn [bits foldr]. fold (bits ws). rewrite IH, (Z.add_comm w), Z.pow_add_r, Z.rem_mul_r by lia. lia.
Qed.

Lemma pack_app ws vs ws' vs' : length ws = length vs -> widths_ok ws -> widths_ok ws' ->
  pack (ws ++ ws') (vs ++ vs') = pack ws vs * 2 ^ bits ws' + pack ws' vs'.
Proof.
  intros Hl Hw Hw'. revert vs Hl. induction Hw as [|w ws Hw Hws IH]; intros [|v vs] Hl; [done..|]. injection Hl as Hl.
  cbn [pack app]. rewrite IH, bits_app, Z.pow_add_r by (done || by apply bits_nonneg). lia.
Qed.

(** ** Bytes *)

Lemma length_be_bytes n z : length (be_bytes n z) = n.
Proof. unfold be_bytes. by rewrite length_rev, length_le_bytes. Qed.

Lemma be_bytes_ok n z : bytes_ok (be_bytes n z).
Proof. apply bytes_ok_rev, le_bytes_ok. Qed.

Lemma be_val_bytes n z : be_val (be_bytes n z) = z mod 256 ^ Z.of_nat n.
Proof. unfold be_val, be_bytes. by rewrite rev_involutive, le_val_bytes. Qed.

Lemma be_bytes_val n bs : bytes_ok bs -> length bs = n -> be_bytes n (be_val bs) = bs.
Proof.
  intros Hb <-. unfold be_val, be_bytes. rewrite <- (length_rev bs), le_bytes_val by by apply bytes_ok_rev. apply rev_involutive.
Qed.

Lemma le_bytes_app n m x y : 0 <= y < 256 ^ Z.of_nat m -> le_bytes (m + n) (x * 256 ^ Z.of_nat m + y) = le_bytes m y ++ le_bytes n x.
Proof.
  revert x y. induction m as [|m IH]; intros x y Hy; cbn [le_bytes Nat.add app]; [f_equal; change (256 ^ Z.of_nat 0) with 1 in *; lia|].
  rewrite Nat2Z.inj_succ, Z.pow_succ_r in * by lia. f_equal.
  - replace (x * (256 * 256 ^ Z.of_nat m) + y) with (y + x * 256 ^ Z.of_nat m * 256) by lia. apply Z.mod_add. lia.
  - replace (x * (256 * 256 ^ Z.of_nat m) + y) with (y + x * 256 ^ Z.of_nat m * 256) by lia. rewrite Z.div_add by lia.
    rewrite Z.add_comm. apply IH. split; [apply Z.div_pos; lia | apply Z.div_lt_upper_bound; lia].
Qed.

Lemma be_bytes_app n m x y : 0 <= y < 256 ^ Z.of_nat m -> be_bytes (n + m) (x * 256 ^ Z.of_nat m + y) = be_bytes n x ++ be_bytes m y.
Proof. intros Hy. unfold be_bytes. by rewrite Nat.add_comm, le_bytes_app, rev_app_distr. Qed.

Lemma be_bytes_1 z : 0 <= z < 256 -> be_bytes 1 z = [z].
Proof. intros. unfold be_bytes. cbn. by rewrite Z.mod_small. Qed.

(** ** Headers *)

Class HeaderLaws (H : Type) `{Header H} : Prop := {
  header_widths : widths_ok (widths H);
  header_size : bits (widths H) = 8 * Z.of_nat (size_of H);
  length_fields h : length (fields h) = length (widths H);
  of_fields_fields h : of_fields (fields h) = h;
  fields_of_fields l : length l = length (widths H) -> fields (of_fields l) = l
}.

Ltac header_laws :=
  split; [decide_now | vm_compute; reflexivity | reflexivity | by intros [] |];
  let l := fresh in let E := fresh in intros l E; cbn in E;
  repeat (destruct l as [|? l]; cbn in E; try discriminate E; try apply Nat.succ_inj in E); reflexivity.

#[export] Instance ethernet_laws : HeaderLaws ethernet_h.
Proof. header_laws. Qed.
#[export] Instance vlan_tag_laws : HeaderLaws vlan_tag_h.
Proof. header_laws. Qed.
#[export] Instance arp_laws : HeaderLaws arp_h.
Proof. header_laws. Qed.
#[export] Instance ipv4_laws : HeaderLaws ipv4_h.
Proof. header_laws. Qed.
#[export] Instance tcp_laws : HeaderLaws tcp_h.
Proof. header_laws. Qed.
#[export] Instance udp_laws : HeaderLaws udp_h.
Proof. header_laws. Qed.
#[export] Instance bridge_laws : HeaderLaws bridge_h.
Proof. header_laws. Qed.

(** The fields fit their widths. *)
Definition hdr_ok {H} `{Header H} (h : H) : Prop := in_fields (widths H) (fields h).

Section headers.
Context {H : Type} `{HeaderLaws H}.
Implicit Types h : H.

Lemma length_emit h : length (emit h) = size_of H.
Proof. apply length_be_bytes. Qed.
Lemma emit_ok h : bytes_ok (emit h).
Proof. apply be_bytes_ok. Qed.

Lemma pow_size : 256 ^ Z.of_nat (size_of H) = 2 ^ bits (widths H).
Proof. rewrite header_size, Z.pow_mul_r by lia. done. Qed.

Lemma extract_emit h rest : hdr_ok h -> extract (emit h ++ rest) = (Ret h, rest).
Proof.
  intros Hh. unfold extract. rewrite decide_True by (rewrite length_app, length_emit; lia).
  rewrite <- (length_emit h) at 1 2. rewrite take_app_length, drop_app_length. unfold emit. rewrite be_val_bytes, pow_size.
  rewrite Z.mod_small by (apply pack_range; [apply header_widths | done]).
  by rewrite unpack_pack, of_fields_fields by (apply header_widths || done).
Qed.

(** What is read has fields that fit, and stands at the front of the packet. *)
Lemma emit_extract p h rest : bytes_ok p -> extract p = (Ret h, rest) -> p = emit h ++ rest /\ hdr_ok h.
Proof.
  intros Hp E. unfold extract in E. case_decide as Hl; [|discriminate E]. injection E as <- <-.
  assert (length (unpack (widths H) (be_val (take (size_of H) p))) = length (widths H)) as Hu by apply length_unpack.
  split; [|unfold hdr_ok; rewrite fields_of_fields by done; apply unpack_in, header_widths].
  rewrite <- (take_drop (size_of H) p) at 1. f_equal. unfold emit. rewrite fields_of_fields by done.
  rewrite pack_unpack by apply header_widths. rewrite <- pow_size.
  assert (length (take (size_of H) p) = size_of H) as Lt by (rewrite length_take; lia).
  rewrite Z.mod_small; [symmetry; apply be_bytes_val; [by apply Forall_take | done]|].
  pose proof (be_val_bound (take (size_of H) p) ltac:(by apply Forall_take)) as Hb. by rewrite Lt in Hb.
Qed.

Lemma extract_long p : bytes_ok p -> (size_of H <= length p)%nat -> exists h rest, p = emit h ++ rest /\ hdr_ok h.
Proof.
  intros Hp Hl. destruct (extract (H := H) p) as [[h|[]] rest] eqn:E.
  - exists h, rest. by apply emit_extract.
  - unfold extract in E. by rewrite decide_True in E.
Qed.
End headers.

(** ** TCP segments *)

(** An unfragmented TCP segment over IPv4, untagged. *)
Definition tcp_packet (e : ethernet_h) (ip : ipv4_h) (t : tcp_h) (rest : list Z) : list Z := emit e ++ emit ip ++ emit t ++ rest.
Definition segment (e : ethernet_h) (ip : ipv4_h) (t : tcp_h) : Prop :=
  hdr_ok e /\ hdr_ok ip /\ hdr_ok t /\ ether_type e = ETHERTYPE_IPV4 /\ protocol ip = IP_PROTOCOLS_TCP /\ frag_offset ip = 0.

Lemma parse_segment {A} l4 other (accept : header_t -> A) e ip t rest : segment e ip t ->
  parse_ethernet l4 other accept (tcp_packet e ip t rest) = l4 e None ip (emit t ++ rest).
Proof.
  intros (He & Hi & _ & Ee & Ep & Ef). unfold parse_ethernet, tcp_packet. rewrite bind_run, extract_emit by done. cbn beta iota.
  rewrite Ee. unfold parse_ipv4. change (ETHERTYPE_IPV4 =? ETHERTYPE_ARP) with false. change (ETHERTYPE_IPV4 =? ETHERTYPE_IPV4) with true.
  cbn beta iota. rewrite bind_run, extract_emit by done. cbn beta iota. by rewrite Ep, Ef.
Qed.

Lemma ingress_parses e ip t rest : segment e ip t ->
  switch_ingress_parser (tcp_packet e ip t rest) = (Ret (Hdr e None None (Some ip) (Some t) None None), rest).
Proof.
  intros Hs. unfold switch_ingress_parser. rewrite parse_segment by done. destruct Hs as (_ & _ & Ht & _).
  unfold parse_tcp. by rewrite bind_run, extract_emit.
Qed.

Section switch.
Context `{Tofino}.

(** What the deparser makes of the headers of a segment. *)
Definition deparsed (e : ethernet_h) (ip : ipv4_h) (t : tcp_h) (deposit : Z) (rest : list Z) : list Z :=
  tcp_packet e (update_ipv4 ip)
    (set_tcp_checksum (checksum (be_bytes 4 (ip_src_addr ip) ++ be_bytes 4 (ip_dst_addr ip) ++
       be_bytes 2 (tcp_src_port t) ++ be_bytes 2 (tcp_dst_port t) ++ be_bytes 2 deposit)) t) rest.

Lemma egress_parses b e ip t rest : hdr_ok b -> segment e ip t ->
  switch_egress_parser (emit b ++ tcp_packet e ip t rest) =
  let s := EgressSt (Hdr e None None (Some ip) (Some t) None None) b no_psd (residual ip t rest) in
  if syn_respond b =? 1 then if decide (20 <= length rest)%nat then (Ret s, drop 20 rest) else (Err tt, rest) else (Ret s, rest).
Proof.
  intros Hb Hs. unfold switch_egress_parser. rewrite bind_run, extract_emit by done. cbn beta iota. rewrite parse_segment by done.
  destruct Hs as (_ & _ & Ht & _). unfold egress_parse_tcp. rewrite bind_run, extract_emit by done. cbn beta iota.
  rewrite bind_run. cbn [get]. destruct (syn_respond b =? 1); [|done]. rewrite bind_run. unfold advance. by case_decide.
Qed.

(** ** The decision *)

(** Where a segment goes: to the front end of this client; to this server, past the
    front ends; back to the client, under the virtual address; the switch answers
    it itself; to the control plane; or it is routed as any other packet. *)
Inductive verdict : Type :=
| ToFront (ip port : Z)
| ToServer (d : Z)
| Restore
| Answer
| ToCpu
| Plain.

Definition has_payload (ip : ipv4_h) (t : tcp_h) : bool := negb (bool_decide ((total_len ip, data_offset t) ∈ payload_entries)).

(** [server]: who is a server; [offloaded]: which clients pass the front ends, and
    to which server. *)
Definition route (server : Z -> Z -> bool) (offloaded : Z -> Z -> option Z) (ip : ipv4_h) (t : tcp_h) : verdict :=
  if server (ip_src_addr ip) (tcp_src_port t) then
    if (fin t =? 1) || (rst t =? 1) then ToFront (ip_dst_addr ip) (tcp_dst_port t)
    else match offloaded (ip_dst_addr ip) (tcp_dst_port t) with
         | Some _ => Restore
         | None => ToFront (ip_dst_addr ip) (tcp_dst_port t)
         end
  else if (ip_dst_addr ip =? VIRTUAL_IP) && (tcp_dst_port t =? VIRTUAL_PORT) then
    if syn t =? 1 then Answer
    else if (fin t =? 1) || (rst t =? 1) then ToFront (ip_src_addr ip) (tcp_src_port t)
    else match offloaded (ip_src_addr ip) (tcp_src_port t) with
         | Some d => if has_payload ip t then ToFront (ip_src_addr ip) (tcp_src_port t) else ToServer d
         | None => ToFront (ip_src_addr ip) (tcp_src_port t)
         end
  else if (ip_dst_addr ip =? SWITCH_IP) && (tcp_dst_port t =? SWITCH_PORT) then ToCpu
  else Plain.

(** What the tables say. *)
Definition server_hit (tabs : tables) (ip port : Z) : bool :=
  match tabs DIP !! (<["hdr.tcp.src_port" := Exact port]> {["hdr.ipv4.src_addr" := Exact ip]}) with
  | Some x => bool_decide (fst x = "SwitchIngress.dip_hit"%string)
  | None => false
  end.
Definition oft_entry (tabs : tables) (ip port : Z) : option Z :=
  match tabs OFT !! (<["ig_md.cport" := Exact port]> {["ig_md.cip" := Exact ip]}) with
  | Some x => if decide (fst x = "SwitchIngress.oft_hit"%string) then Some (param x "d_index") else None
  | None => None
  end.

(** The entry of an egress table, if it has the table's action. *)
Definition egress_of (o : option entry_data) : option entry_data :=
  match o with Some x => if decide (fst x = SET_EGRESS) then Some x else None | None => None end.

Definition with_macs (x : entry_data) (e : ethernet_h) : ethernet_h := Ethernet (param x "dst_mac") (param x "src_mac") (ether_type e).

Definition with_dst (dst_ip dst_port : Z) (ip : ipv4_h) (t : tcp_h) : ipv4_h * tcp_h :=
  (Ipv4 (version ip) (ihl ip) (diffserv ip) (total_len ip) (identification ip) (ip_flags ip) (frag_offset ip)
     (ttl ip) (protocol ip) (hdr_checksum ip) (ip_src_addr ip) dst_ip,
   Tcp (tcp_src_port t) dst_port (seq_no t) (ack_no t) (data_offset t) (res t)
     (urg t) (ack t) (psh t) (rst t) (syn t) (fin t) (window t) (tcp_checksum t) (urgent_ptr t)).
Definition with_src (src_ip src_port : Z) (ip : ipv4_h) (t : tcp_h) : ipv4_h * tcp_h :=
  (Ipv4 (version ip) (ihl ip) (diffserv ip) (total_len ip) (identification ip) (ip_flags ip) (frag_offset ip)
     (ttl ip) (protocol ip) (hdr_checksum ip) src_ip (ip_dst_addr ip),
   Tcp src_port (tcp_dst_port t) (seq_no t) (ack_no t) (data_offset t) (res t)
     (urg t) (ack t) (psh t) (rst t) (syn t) (fin t) (window t) (tcp_checksum t) (urgent_ptr t)).

(** Every parameter of every entry fits, which the driver sees to. *)
Definition egress_table_ok (t : table) : Prop := forall k x, t !! k = Some x ->
  0 <= param x "dst_mac" < 2 ^ 48 /\ 0 <= param x "src_mac" < 2 ^ 48.
Definition tables_ok (tabs : tables) : Prop :=
  egress_table_ok (tabs LBX) /\ egress_table_ok (tabs DIX) /\ egress_table_ok (tabs DEST) /\
  (forall k x, tabs OFT !! k = Some x -> in_u8 (param x "d_index")) /\
  (forall k x, tabs DIP_PORT !! k = Some x -> in_u32 (param x "dst_ip") /\ in_u16 (param x "dst_port")).

(** The packet leaves by the port of this entry, if there is one. *)
Definition hop (o : option entry_data) (e : ethernet_h) (k : ethernet_h -> list Z) : option (Z * list Z) :=
  match o with
  | Some x => if decide (fst x = SET_EGRESS) then Some (param x "dst_port", k (with_macs x e)) else None
  | None => None
  end.

Definition readdress (tabs : tables) (d : Z) (ip : ipv4_h) (t : tcp_h) : ipv4_h * tcp_h :=
  match tabs DIP_PORT !! {["eg_md.bridged.index" := Exact d]} with
  | Some x => if decide (fst x = "SwitchEgress.set_dst_ip_port"%string) then with_dst (param x "dst_ip") (param x "dst_port") ip t else (ip, t)
  | None => (ip, t)
  end.

(** The answer to a SYN: the two ends swapped, a sequence number of the switch, and
    twelve bytes of options. *)
Definition answer (e : ethernet_h) (ip : ipv4_h) (t : tcp_h) (rest : list Z) : list Z :=
  let ip' := Ipv4 (version ip) (ihl ip) (diffserv ip) 52 (identification ip) (ip_flags ip) (frag_offset ip)
    (ttl ip) (protocol ip) (hdr_checksum ip) (ip_dst_addr ip) (ip_src_addr ip) in
  let t' := Tcp (tcp_dst_port t) (tcp_src_port t) (seq_hasher (ip_src_addr ip) (tcp_src_port t)) (u32 (seq_no t + 1)) 8 (res t)
    (urg t) 1 (psh t) (rst t) 1 (fin t) (window t) 0 (urgent_ptr t) in
  let opts := [2; 4; 5; 180; 1; 1; 4; 2; 1; 3; 3; 7] in
  let psd := Psd (ip_dst_addr ip) (ip_src_addr ip) 0 IP_PROTOCOLS_TCP 32 in
  tcp_packet (Ethernet (eth_src_addr e) 0xabababcdcdcd (ether_type e)) (update_ipv4 ip')
    (set_tcp_checksum (checksum (emit psd ++ emit t' ++ opts)) t') (opts ++ rest).

(** What a verdict means. *)
Definition routed (tabs : tables) (port : Z) (e : ethernet_h) (ip : ipv4_h) (t : tcp_h) (rest : list Z) (v : verdict) :
    option (Z * list Z) :=
  let out (ipt : ipv4_h * tcp_h) e := deparsed e (fst ipt) (snd ipt) (residual ip t rest) rest in
  match v with
  | ToFront i p => hop (tabs LBX !! {["ig_md.hash_result" := Exact (lb_index_hasher i p)]}) e (out (ip, t))
  | ToServer d => hop (tabs DIX !! {["hdr.bridged.index" := Exact d]}) e (out (readdress tabs d ip t))
  | Restore => hop (lpm_lookup (tabs DEST) "hdr.ipv4.dst_addr" (ip_dst_addr ip)) e (out (with_src VIRTUAL_IP VIRTUAL_PORT ip t))
  | Answer => if decide (20 <= length rest)%nat then Some (port, answer e ip t (drop 20 rest)) else None
  | ToCpu => Some (192, out (ip, t) e)
  | Plain => hop (lpm_lookup (tabs DEST) "hdr.ipv4.dst_addr" (ip_dst_addr ip)) e (out (ip, t))
  end.

(** ** The pipeline decides that way *)

(** A packet that the ingress sends on to the egress. *)
Lemma to_egress tabs port s rest e ip t : hdr s = Hdr e None None (Some ip) (Some t) None None -> segment e ip t -> hdr_ok (bridged s) ->
  drop_ctl s = 0 -> bypass_egress s = 0 -> ucast_egress_port s = Some port ->
  traffic_manager tabs s (switch_ingress_deparser s ++ rest) =
  egress_pipe tabs port (emit (bridged s) ++ tcp_packet e ip t rest).
Proof.
  intros Eh Hs Hb Ed Ey Ep. unfold traffic_manager. rewrite Ed, Ep, Ey. cbn [Z.eqb]. f_equal.
  unfold switch_ingress_deparser, tcp_packet. rewrite Eh. cbn [ethernet arp ipv4 tcp udp emit_valid]. by rewrite !app_nil_r, <- !app_assoc.
Qed.

Lemma egress_rewrites tabs port b e ip t rest : hdr_ok b -> segment e ip t -> syn_respond b = 0 ->
  egress_pipe tabs port (emit b ++ tcp_packet e ip t rest) =
  let ipt := if d_flag b =? 1 then readdress tabs (br_index b) ip t
             else if v_flag b =? 1 then with_src VIRTUAL_IP VIRTUAL_PORT ip t else (ip, t) in
  Some (port, deparsed e (fst ipt) (snd ipt) (residual ip t rest) rest).
Proof.
  intros Hb Hs E1. unfold egress_pipe. rewrite egress_parses by done. rewrite E1. cbn -[switch_egress_deparser switch_egress].
  assert (forall ip' t', switch_egress_deparser (EgressSt (Hdr e None None (Some ip') (Some t') None None) b no_psd (residual ip t rest)) ++ rest =
    deparsed e ip' t' (residual ip t rest) rest) as Hd.
  { intros ip' t'. unfold switch_egress_deparser. cbn [eg_hdr ethernet ipv4 tcp fmap option_fmap option_map emit_valid options_bytes options].
    unfold update_tcp. cbn [eg_bridged tcp_udp_checksum eg_hdr]. rewrite E1. cbn [Z.eqb].
    unfold deparsed, tcp_packet. by rewrite app_nil_r, <- !app_assoc. }
  rewrite <- Hd. unfold switch_egress. cbn [eg_hdr tcp ipv4 eg_bridged]. rewrite E1. cbn [Z.eqb].
  destruct (d_flag b =? 1); [|by destruct (v_flag b =? 1)]. unfold d_index_to_ip_port_table, readdress. cbn [eg_bridged].
  destruct (tabs DIP_PORT !! _) as [x|]; [|done]. by case_decide.
Qed.

Lemma segment_macs dst src e ip t : 0 <= dst < 2 ^ 48 -> 0 <= src < 2 ^ 48 -> segment e ip t ->
  segment (Ethernet dst src (ether_type e)) ip t.
Proof.
  intros Hd Hs' (He & Hr). split; [|exact Hr]. unfold hdr_ok in *. cbn in *.
  apply Forall2_cons_1 in He as [_ He]. apply Forall2_cons_1 in He as [_ He]. by repeat (constructor; [assumption|]).
Qed.

Lemma segment_reply e ip t : segment e ip t -> segment (Ethernet (eth_src_addr e) 0xabababcdcdcd (ether_type e)) ip t.
Proof.
  intros Hs. apply segment_macs; [|lia|done]. destruct Hs as (He & _). unfold hdr_ok in He. cbn in He.
  by apply Forall2_cons_1 in He as [_ [? _]%Forall2_cons_1].
Qed.

Lemma egress_answers tabs port b e ip t rest : hdr_ok b -> segment e ip t -> syn_respond b = 1 ->
  egress_pipe tabs port (emit b ++ tcp_packet (Ethernet (eth_src_addr e) 0xabababcdcdcd (ether_type e)) ip t rest) =
  if decide (20 <= length rest)%nat then Some (port, answer e ip t (drop 20 rest)) else None.
Proof.
  intros Hb Hs E1. unfold egress_pipe. rewrite egress_parses by (done || by apply segment_reply).
  rewrite E1. cbn -[switch_egress_deparser switch_egress]. case_decide; [|done].
  unfold switch_egress. cbn [eg_hdr tcp ipv4 eg_bridged]. rewrite E1. change (1 =? 1) with true. cbn beta iota.
  do 2 f_equal. unfold switch_egress_deparser, syn_reply, update_tcp.
  cbn [eg_hdr ethernet ipv4 tcp fmap option_fmap option_map emit_valid options_bytes options eg_bridged psd].
  rewrite E1. change (1 =? 1) with true. cbn beta iota. unfold answer, tcp_packet. cbv zeta. rewrite <- !app_assoc. reflexivity.
Qed.

(** The direction of a segment, and the client it belongs to. *)
Definition direct (tabs : tables) (ip : ipv4_h) (t : tcp_h) : Z * (Z * Z) :=
  if server_hit tabs (ip_src_addr ip) (tcp_src_port t) then (2, (ip_dst_addr ip, tcp_dst_port t))
  else if (ip_dst_addr ip =? VIRTUAL_IP) && (tcp_dst_port t =? VIRTUAL_PORT) then (1, (ip_src_addr ip, tcp_src_port t))
  else if (ip_dst_addr ip =? SWITCH_IP) && (tcp_dst_port t =? SWITCH_PORT) then (4, (0, 0))
  else (0, (0, 0)).

Definition hits (o : option Z) : Z := match o with Some _ => 1 | None => 0 end.

Lemma lookups_segment tabs port e ip t : let h := Hdr e None None (Some ip) (Some t) None None in
  let '(d, (i, p)) := direct tabs ip t in
  lookups tabs (parse_md port h) =
  IngressSt h (Bridge 0 0 0 0 0 (hits (oft_entry tabs i p)) 0 (if has_payload ip t then 1 else 0) (default 0 (oft_entry tabs i p)))
    i p (lb_index_hasher i p) d port None 0 0.
Proof.
  cbv zeta. unfold lookups, parse_md. cbn [hdr arp tcp ipv4]. unfold calculate_payload_table, vip_lookup_table, dip_lookup_table, direct, server_hit.
  cbn [hdr bridged set_no_payload]. unfold has_payload, set_bridged. cbn [hdr bridged cip cport hash_result direction ingress_port ucast_egress_port drop_ctl bypass_egress].
  assert (forall pl d i p, offload_connection_table tabs (calculate_crc8_table (IngressSt (Hdr e None None (Some ip) (Some t) None None)
    (Bridge 0 0 0 0 0 0 0 pl 0) i p 0 d port None 0 0)) = IngressSt (Hdr e None None (Some ip) (Some t) None None)
    (Bridge 0 0 0 0 0 (hits (oft_entry tabs i p)) 0 pl (default 0 (oft_entry tabs i p))) i p (lb_index_hasher i p) d port None 0 0) as Hoft.
  { intros pl d i p. unfold calculate_crc8_table, offload_connection_table, oft_entry, set_hash_result. cbn [cip cport].
    destruct (tabs OFT !! _) as [x|]; [|done]. by case_decide. }
  unfold set_no_payload. cbn [syn_respond lb_flag d_flag v_flag forward_to_dest hit_flag cpu_flag br_index].
  destruct (decide ((total_len ip, data_offset t) ∈ payload_entries)) as [Hp|Hp];
    [rewrite bool_decide_eq_true_2 by done | rewrite bool_decide_eq_false_2 by done]; cbn [negb];
    (destruct (tabs DIP !! _) as [x|]; [case_decide as Hx; [rewrite bool_decide_eq_true_2 by done | rewrite bool_decide_eq_false_2 by done]|]);
    repeat match goal with |- context [if ?c then _ else _] => lazymatch type of c with bool => destruct c end end;
    unfold set_client, set_direction; cbn [hdr bridged cip cport hash_result direction ingress_port ucast_egress_port drop_ctl bypass_egress];
    apply Hoft.
Qed.

(** The state in which the ingress leaves a segment that goes by an entry. *)
Definition by_entry (o : option entry_data) (e : ethernet_h) (ip : ipv4_h) (t : tcp_h) (s : ingress_t) : Prop :=
  match o with
  | Some x => if decide (fst x = SET_EGRESS)
              then hdr s = Hdr (with_macs x e) None None (Some ip) (Some t) None None /\ ucast_egress_port s = Some (param x "dst_port")
              else ucast_egress_port s = None
  | None => ucast_egress_port s = None
  end.

Lemma egress_hit_by o e ip t s : hdr s = Hdr e None None (Some ip) (Some t) None None -> ucast_egress_port s = None ->
  by_entry o e ip t (egress_hit o s) /\ bridged (egress_hit o s) = bridged s /\ drop_ctl (egress_hit o s) = drop_ctl s /\
  bypass_egress (egress_hit o s) = bypass_egress s.
Proof.
  intros Eh Ep. unfold egress_hit, by_entry. destruct o as [x|]; [case_decide|]; try done.
  unfold set_egress_port. cbn. by rewrite Eh.
Qed.

(** The flags the egress looks at. *)
Definition flags_are (sr d v : Z) (b : bridge_h) : Prop := syn_respond b = sr /\ d_flag b = d /\ v_flag b = v.

Definition decided (tabs : tables) (port : Z) (e : ethernet_h) (ip : ipv4_h) (t : tcp_h) (s : ingress_t) (v : verdict) : Prop :=
  match v with
  | ToFront i p => by_entry (tabs LBX !! {["ig_md.hash_result" := Exact (lb_index_hasher i p)]}) e ip t s /\ flags_are 0 0 0 (bridged s)
  | ToServer d => by_entry (tabs DIX !! {["hdr.bridged.index" := Exact d]}) e ip t s /\ flags_are 0 1 0 (bridged s) /\
                  br_index (bridged s) = d
  | Restore => by_entry (lpm_lookup (tabs DEST) "hdr.ipv4.dst_addr" (ip_dst_addr ip)) e ip t s /\ flags_are 0 0 1 (bridged s)
  | Answer => hdr s = Hdr (Ethernet (eth_src_addr e) 0xabababcdcdcd (ether_type e)) None None (Some ip) (Some t) None None /\
              ucast_egress_port s = Some port /\ syn_respond (bridged s) = 1
  | ToCpu => hdr s = Hdr e None None (Some ip) (Some t) None None /\ ucast_egress_port s = Some 192 /\ flags_are 0 0 0 (bridged s)
  | Plain => by_entry (lpm_lookup (tabs DEST) "hdr.ipv4.dst_addr" (ip_dst_addr ip)) e ip t s /\ flags_are 0 0 0 (bridged s)
  end.

Lemma hop_decided o e ip t s (P : bridge_h -> Prop) : hdr s = Hdr e None None (Some ip) (Some t) None None ->
  ucast_egress_port s = None -> drop_ctl s = 0 -> bypass_egress s = 0 -> hdr_ok (bridged s) -> P (bridged s) ->
  let s' := egress_hit o s in
  drop_ctl s' = 0 /\ bypass_egress s' = 0 /\ hdr_ok (bridged s') /\ by_entry o e ip t s' /\ P (bridged s').
Proof. intros Eh Ep Ed Ey Hb Hf. destruct (egress_hit_by o e ip t s Eh Ep) as (B & Eb & Ed' & Ey'). cbv zeta. rewrite Eb, Ed', Ey'. done. Qed.

Ltac bit_fields := repeat (apply Forall_cons_2; [cbn; lia|]); apply Forall_nil_2.

Lemma ingress_decides tabs port e ip t : tables_ok tabs ->
  let s := switch_ingress tabs (parse_md port (Hdr e None None (Some ip) (Some t) None None)) in
  drop_ctl s = 0 /\ bypass_egress s = 0 /\ hdr_ok (bridged s) /\
  decided tabs port e ip t s (route (server_hit tabs) (oft_entry tabs) ip t).
Proof.
  intros (_ & _ & _ & Ho & _). cbv zeta. unfold switch_ingress. pose proof (lookups_segment tabs port e ip t) as Hl. cbv zeta in Hl.
  destruct (direct tabs ip t) as [d [i p]] eqn:Ed. rewrite Hl. clear Hl.
  assert (in_u8 (default 0 (oft_entry tabs i p))) as Hx.
  { unfold oft_entry. destruct (tabs OFT !! _) as [x|] eqn:E; [|split; done]. case_decide; [by eapply Ho | split; done]. }
  assert (forall sr lb d v f h c pl, Forall (fun z => 0 <= z < 2) [sr; lb; d; v; f; h; c; pl] ->
    hdr_ok (Bridge sr lb d v f h c pl (default 0 (oft_entry tabs i p)))) as Hb.
  { intros sr lb d' v f h c pl Hf. unfold hdr_ok. cbn. repeat (apply Forall_cons in Hf as [? Hf]).
    repeat (constructor; [assumption|]). constructor. }
  assert (0 <= (if has_payload ip t then 1 else 0) < 2) as Hpl by by destruct (has_payload ip t).
  assert (0 <= hits (oft_entry tabs i p) < 2) as Hh by by destruct (oft_entry tabs i p).
  unfold direct in Ed. unfold route. set (f := (fin t =? 1) || (rst t =? 1)).
  destruct (server_hit tabs (ip_src_addr ip) (tcp_src_port t)); [injection Ed as <- <- <-|].
  - unfold set_flags. cbn [direction Z.eqb Pos.eqb hdr tcp]. fold f. destruct f.
    + apply (hop_decided (tabs LBX !! _) e ip t _ (flags_are 0 0 0)); try done. apply Hb; bit_fields.
    + cbn [bridged hit_flag]. destruct (oft_entry tabs (ip_dst_addr ip) (tcp_dst_port t)) as [x|]; cbn [hits Z.eqb Pos.eqb] in *.
      * apply (hop_decided (lpm_lookup (tabs DEST) _ _) e ip t _ (flags_are 0 0 1)); try done. apply Hb; bit_fields.
      * apply (hop_decided (tabs LBX !! _) e ip t _ (flags_are 0 0 0)); try done. apply Hb; bit_fields.
  - destruct ((ip_dst_addr ip =? VIRTUAL_IP) && (tcp_dst_port t =? VIRTUAL_PORT)); [injection Ed as <- <- <-|].
    + unfold set_flags. cbn [direction Z.eqb Pos.eqb hdr tcp]. fold f. destruct (syn t =? 1); [split_and!; try done; apply Hb; bit_fields|].
      destruct f; [apply (hop_decided (tabs LBX !! _) e ip t _ (flags_are 0 0 0)); try done; apply Hb; bit_fields|].
      cbn [bridged hit_flag payload_flag]. destruct (oft_entry tabs (ip_src_addr ip) (tcp_src_port t)) as [x|]; cbn [hits Z.eqb Pos.eqb andb] in *.
      * destruct (has_payload ip t); cbn [Z.eqb Pos.eqb].
        -- apply (hop_decided (tabs LBX !! _) e ip t _ (flags_are 0 0 0)); try done. apply Hb; bit_fields.
        -- apply (hop_decided (tabs DIX !! _) e ip t _ (fun b => flags_are 0 1 0 b /\ br_index b = x)); try done. apply Hb; bit_fields.
      * apply (hop_decided (tabs LBX !! _) e ip t _ (flags_are 0 0 0)); try done. apply Hb; bit_fields.
    + destruct ((ip_dst_addr ip =? SWITCH_IP) && (tcp_dst_port t =? SWITCH_PORT)); injection Ed as <- <- <-.
      * split_and!; try done. apply Hb; bit_fields.
      * apply (hop_decided (lpm_lookup (tabs DEST) _ _) e ip t _ (flags_are 0 0 0)); try done. apply Hb; bit_fields.
Qed.

(** Longest prefix match finds entries of the table. *)
Lemma lpm_lookup_in t name a x : lpm_lookup t name a = Some x -> exists k, t !! k = Some x.
Proof.
  unfold lpm_lookup. intros (p & E & ->)%fmap_Some.
  assert (forall l q, foldr (longer name a) None l = Some q -> exists k, (k, snd q) ∈ l) as Hin.
  { clear. induction l as [|[k y] l IH]; intros q E; [done|]. cbn [foldr] in E. unfold longer in E at 1. cbn [fst snd] in E.
    assert (foldr (longer name a) None l = Some q -> exists k', (k', snd q) ∈ (k, y) :: l) as Hr.
    { intros E'. destruct (IH q E') as [k' Hk]. exists k'. by right. }
    destruct (k !! name) as [[v|v len]|]; [by apply Hr | | by apply Hr]. destruct (same_prefix len v a && _); [|by apply Hr].
    injection E as <-. exists k. by left. }
  destruct (Hin _ _ E) as [k Hk]. exists k. by apply elem_of_map_to_list.
Qed.

Lemma hop_out tabs o e ip t rest s k : (forall x, o = Some x -> 0 <= param x "dst_mac" < 2 ^ 48 /\ 0 <= param x "src_mac" < 2 ^ 48) ->
  segment e ip t -> hdr_ok (bridged s) -> drop_ctl s = 0 -> bypass_egress s = 0 -> by_entry o e ip t s ->
  (forall e' port, segment e' ip t -> egress_pipe tabs port (emit (bridged s) ++ tcp_packet e' ip t rest) = Some (port, k e')) ->
  traffic_manager tabs s (switch_ingress_deparser s ++ rest) = hop o e k.
Proof.
  intros Hm Hs Hb Ed Ey Ho Hk. unfold by_entry in Ho. unfold hop. destruct o as [x|]; [case_decide|].
  - destruct Ho as [Eh Ep]. destruct (Hm x eq_refl) as [Hd Hm']. pose proof (segment_macs _ _ e ip t Hd Hm' Hs) as Hs'.
    rewrite (to_egress tabs _ s rest _ ip t Eh Hs' Hb Ed Ey Ep). by apply Hk.
  - unfold traffic_manager. by rewrite Ed, Ho.
  - unfold traffic_manager. by rewrite Ed, Ho.
Qed.

(** C4: The pipeline, table by table and flag by flag, is [route]: a segment leaves the
    switch as its verdict says, and otherwise not at all. *)
Theorem switch_routes tabs port e ip t rest : tables_ok tabs -> segment e ip t ->
  switch_packet tabs port (tcp_packet e ip t rest) =
  routed tabs port e ip t rest (route (server_hit tabs) (oft_entry tabs) ip t).
Proof.
  intros Ht Hs. unfold switch_packet. rewrite ingress_parses by done.
  destruct (ingress_decides tabs port e ip t Ht) as (Ed & Ey & Hb & Hv). cbv zeta in *.
  destruct Ht as (Hl & Hx & Hd & _).
  set (s := switch_ingress tabs _) in *. destruct (route _ _ ip t) as [i p|d| | | |]; cbn [decided routed] in *.
  - destruct Hv as [Ho (E1 & E2 & E3)]. apply (hop_out tabs _ e ip t rest s); try done; [by intros x Ex; eapply Hl|].
    intros e' pt Hs'. rewrite egress_rewrites by done. by rewrite E2, E3.
  - destruct Hv as (Ho & (E1 & E2 & E3) & Ei). apply (hop_out tabs _ e ip t rest s); try done; [by intros x Ex; eapply Hx|].
    intros e' pt Hs'. rewrite egress_rewrites by done. by rewrite E2, Ei.
  - destruct Hv as [Ho (E1 & E2 & E3)]. apply (hop_out tabs _ e ip t rest s); try done; [by intros x [k Ex]%lpm_lookup_in; eapply Hd|].
    intros e' pt Hs'. rewrite egress_rewrites by done. by rewrite E2, E3.
  - destruct Hv as (Eh & Ep & E1). rewrite (to_egress tabs port s rest _ ip t Eh) by (done || by apply segment_reply). by apply egress_answers.
  - destruct Hv as (Eh & Ep & (E1 & E2 & E3)). rewrite (to_egress tabs 192 s rest _ ip t Eh) by done.
    rewrite egress_rewrites by done. by rewrite E2, E3.
  - destruct Hv as [Ho (E1 & E2 & E3)]. apply (hop_out tabs _ e ip t rest s); try done; [by intros x [k Ex]%lpm_lookup_in; eapply Hd|].
    intros e' pt Hs'. rewrite egress_rewrites by done. by rewrite E2, E3.
Qed.
(** C40: The switch's answer to an ARP request reaches nobody.  It bypasses the egress,
    which would take away the two bytes the ingress put in front; and as the
    assignments of the action read what the ones before them have written, it
    names the switch itself as its target, not the machine that asked. *)
Theorem arp_answer_malformed tabs port e a rest x : hdr_ok e -> hdr_ok a -> ether_type e = ETHERTYPE_ARP ->
  tabs ARP !! (<["hdr.arp.target_proto_addr" := Exact (arp_target_proto_addr a)]> {["hdr.arp.opcode" := Exact (arp_opcode a)]}) = Some x ->
  fst x = "SwitchIngress.reply_arp"%string -> lpm_lookup (tabs DEST) "hdr.ipv4.dst_addr" invalid_field = None ->
  let mac := param x "arp_mac" in
  switch_packet tabs port (emit e ++ emit a ++ rest) =
  Some (port, [9; 0] ++ emit (Ethernet (eth_src_addr e) mac ETHERTYPE_ARP) ++
    emit (Arp (hw_type a) (proto_type a) (hw_addr_len a) (proto_addr_len a) 2 mac (arp_target_proto_addr a)
      mac (arp_target_proto_addr a)) ++ rest).
Proof.
  intros He Ha Et Ex Er Hn mac. unfold switch_packet, switch_ingress_parser, parse_ethernet. rewrite bind_run, extract_emit by done. cbn beta iota.
  rewrite Et. change (ETHERTYPE_ARP =? ETHERTYPE_ARP) with true. cbn beta iota. unfold parse_arp. rewrite bind_run, extract_emit by done.
  cbn beta iota. rewrite ret_run. unfold switch_ingress, lookups, parse_md, id. cbn [hdr arp]. unfold arp_table. rewrite Ex, decide_True by done.
  fold mac. unfold reply_arp, set_bypass, set_flags. cbn -[emit]. unfold choose_port, set_bridged. cbn -[emit]. unfold dest_to_egress_port_table. cbn -[emit].
  rewrite Hn. unfold traffic_manager, egress_hit. cbn [drop_ctl ucast_egress_port bypass_egress]. change (0 =? 1) with false. change (1 =? 1) with true.
  cbn beta iota.
  unfold switch_ingress_deparser. unfold set_arp, set_macs.
  cbn [hdr bridged ethernet arp ipv4 tcp udp emit_valid ether_type]. rewrite Et, !app_nil_r, <- !app_assoc. reflexivity.
Qed.
End switch.

(** ** Headers as memory *)

(** Fields up to a byte boundary, and the others. *)
Lemma be_bytes_pack ws vs ws' vs' (n m : nat) : widths_ok ws -> widths_ok ws' -> in_fields ws vs -> in_fields ws' vs' ->
  bits ws' = 8 * Z.of_nat m ->
  be_bytes (n + m) (pack (ws ++ ws') (vs ++ vs')) = be_bytes n (pack ws vs) ++ be_bytes m (pack ws' vs').
Proof.
  intros Hw Hw' Hf Hf' Eb. rewrite pack_app by (done || by eapply Forall2_length). pose proof (pack_range ws' vs' Hw' Hf') as Hr.
  rewrite Eb in *. rewrite Z.pow_mul_r in * by lia. by apply be_bytes_app.
Qed.

(** One field of whole bytes at the front. *)
Lemma be_bytes_field w v ws vs (n m : nat) : w = 8 * Z.of_nat n -> 0 <= v < 2 ^ w -> widths_ok ws -> in_fields ws vs ->
  bits ws = 8 * Z.of_nat m -> be_bytes (n + m) (pack (w :: ws) (v :: vs)) = be_bytes n v ++ be_bytes m (pack ws vs).
Proof.
  intros -> Hv Hw Hf Eb. cbn [pack]. pose proof (pack_range ws vs Hw Hf) as Hr. rewrite Eb in *.
  rewrite Z.pow_mul_r in * by lia. by apply be_bytes_app.
Qed.

(** The fields in front of the first whole byte or word that is looked at. *)
Definition tcp_mid (t : tcp_h) : Z :=
  pack [4; 6; 1; 1; 1; 1; 1; 1; 16] [data_offset t; res t; urg t; ack t; psh t; rst t; syn t; fin t; window t].
Definition ip_front (ip : ipv4_h) : Z :=
  pack [4; 4; 8; 16; 16; 3; 13; 8] [version ip; ihl ip; diffserv ip; total_len ip; identification ip; ip_flags ip; frag_offset ip; ttl ip].

Ltac split_fields H := unfold hdr_ok in H; cbn [widths fields ethernet_header ipv4_header tcp_header] in H;
  repeat (let E := fresh "Hf" in apply Forall2_cons_1 in H as [E H]).
Ltac fields_fit := repeat (constructor; [assumption|]); constructor.
Ltac one_field n m :=
  rewrite (be_bytes_field _ _ _ _ n m); [f_equal | reflexivity | assumption | decide_now | fields_fit | reflexivity].

Lemma emit_tcp t : hdr_ok t -> emit t =
  be_bytes 2 (tcp_src_port t) ++ be_bytes 2 (tcp_dst_port t) ++ be_bytes 4 (seq_no t) ++ be_bytes 4 (ack_no t) ++
  be_bytes 4 (tcp_mid t) ++ be_bytes 2 (tcp_checksum t) ++ be_bytes 2 (urgent_ptr t).
Proof.
  intros Ht. split_fields Ht. unfold emit. change (size_of tcp_h) with (2 + (2 + (4 + (4 + (4 + (2 + 2))))))%nat.
  cbn [widths fields tcp_header]. one_field 2%nat 18%nat. one_field 2%nat 16%nat. one_field 4%nat 12%nat. one_field 4%nat 8%nat.
  etrans; [apply (be_bytes_pack [4; 6; 1; 1; 1; 1; 1; 1; 16] [data_offset t; res t; urg t; ack t; psh t; rst t; syn t; fin t; window t]
    [16; 16] [tcp_checksum t; urgent_ptr t] 4 4); [decide_now | decide_now | fields_fit | fields_fit | reflexivity]|].
  f_equal. one_field 2%nat 2%nat. f_equal. cbn. lia.
Qed.

Lemma emit_ipv4 ip : hdr_ok ip -> emit ip =
  be_bytes 9 (ip_front ip) ++ be_bytes 1 (protocol ip) ++ be_bytes 2 (hdr_checksum ip) ++
  be_bytes 4 (ip_src_addr ip) ++ be_bytes 4 (ip_dst_addr ip).
Proof.
  intros Hi. split_fields Hi. unfold emit. change (size_of ipv4_h) with (9 + (1 + (2 + (4 + 4))))%nat. cbn [widths fields ipv4_header].
  etrans; [apply (be_bytes_pack [4; 4; 8; 16; 16; 3; 13; 8]
    [version ip; ihl ip; diffserv ip; total_len ip; identification ip; ip_flags ip; frag_offset ip; ttl ip]
    [8; 16; 32; 32] [protocol ip; hdr_checksum ip; ip_src_addr ip; ip_dst_addr ip] 9 11);
    [decide_now | decide_now | fields_fit | fields_fit | reflexivity]|].
  f_equal. one_field 1%nat 10%nat. one_field 2%nat 8%nat. one_field 4%nat 4%nat. f_equal. cbn. lia.
Qed.

Lemma emit_ethernet e : hdr_ok e -> emit e = be_bytes 6 (eth_dst_addr e) ++ be_bytes 6 (eth_src_addr e) ++ be_bytes 2 (ether_type e).
Proof.
  intros He. split_fields He. unfold emit. change (size_of ethernet_h) with (6 + (6 + 2))%nat. cbn [widths fields ethernet_header].
  one_field 6%nat 8%nat. one_field 6%nat 2%nat. f_equal. cbn. lia.
Qed.
