(* ===== verification/SwitchedPath.v ===== *)
(** * The way of an offloaded connection

    The data plane and the agent of the server: a segment of an offloaded client
    goes through the switch and the server's hook, and the server's answer through
    the hook and the switch, without a front end. *)
From Stdlib Require Import ZArith Lia String.
From stdpp Require Import base list gmap strings.
From S2P Require Import Prelude Checksum Bpf Ingress Egress Splice BfRt Client DataPlane DataPlaneProofs DataPlaneTypes MainProofs Offload.

(** ** A segment in memory *)

Lemma slice_skip {A} (l1 l2 : list A) a n : (length l1 <= a)%nat -> slice (l1 ++ l2) a n = slice l2 (a - length l1) n.
Proof. intros Hl. unfold slice. by rewrite drop_app_ge. Qed.
Lemma slice_here {A} (l1 l2 : list A) n : length l1 = n -> slice (l1 ++ l2) 0 n = l1.
Proof. intros <-. unfold slice. by rewrite drop_0, take_app_length. Qed.

Ltac slice_at Hs := let He := fresh in let Hi := fresh in let Ht := fresh in
  destruct Hs as (He & Hi & Ht & _); unfold be_at, le_at, tcp_packet; rewrite (emit_ethernet _ He), (emit_ipv4 _ Hi), (emit_tcp _ Ht), <- !app_assoc;
  repeat (rewrite slice_skip by (rewrite length_be_bytes; offlia); rewrite length_be_bytes);
  match goal with |- context [slice _ ?a _] => let a' := eval vm_compute in a in change a with a' end;
  rewrite slice_here by apply length_be_bytes;
  split_fields He; split_fields Hi; split_fields Ht.

Section memory.
Context (e : ethernet_h) (ip : ipv4_h) (t : tcp_h) (rest : list Z) (Hs : segment e ip t).
Abbreviation p := (tcp_packet e ip t rest).

Lemma seq_at : be_at 4 p off_seq = seq_no t.
Proof using Hs. slice_at Hs. rewrite be_val_bytes. by apply Z.mod_small. Qed.
Lemma ack_at : be_at 4 p off_ack_seq = ack_no t.
Proof using Hs. slice_at Hs. rewrite be_val_bytes. by apply Z.mod_small. Qed.
Lemma src_at : be_at 4 p off_saddr = ip_src_addr ip /\ be_at 2 p off_source = tcp_src_port t.
Proof using Hs. split; slice_at Hs; rewrite be_val_bytes; by apply Z.mod_small. Qed.
Lemma dst_at : be_at 4 p off_daddr = ip_dst_addr ip /\ be_at 2 p off_dest = tcp_dst_port t.
Proof using Hs. split; slice_at Hs; rewrite be_val_bytes; by apply Z.mod_small. Qed.
Lemma macs_at : be_at 6 p 0 = eth_dst_addr e /\ be_at 6 p 6 = eth_src_addr e.
Proof using Hs. split; slice_at Hs; rewrite be_val_bytes; by apply Z.mod_small. Qed.
Lemma type_at : be_at 2 p off_h_proto = ETH_P_IP.
Proof using Hs. pose proof Hs as (_ & _ & _ & E & _). slice_at Hs. by rewrite be_val_bytes, E. Qed.
Lemma protocol_at : le_at 1 p off_protocol = IPPROTO_TCP.
Proof using Hs. pose proof Hs as (_ & _ & _ & _ & E & _). slice_at Hs. by rewrite E. Qed.

(** The byte of the flags: two bits of [res], then the six flags. *)
Lemma flags_at : le_at 1 p off_flags = res t mod 4 * 64 + urg t * 32 + ack t * 16 + psh t * 8 + rst t * 4 + syn t * 2 + fin t.
Proof using Hs.
  assert (be_bytes 4 (tcp_mid t) = be_bytes 1 (tcp_mid t / 2 ^ 24) ++ be_bytes 1 (tcp_mid t / 2 ^ 16 mod 256) ++ be_bytes 2 (tcp_mid t mod 2 ^ 16)) as E.
  { rewrite (Z.div_mod (tcp_mid t) (2 ^ 16)) at 1 by lia. rewrite Z.mul_comm. change (2 ^ 16) with (256 ^ Z.of_nat 2).
    rewrite (be_bytes_app 2 2) by (apply Z.mod_pos_bound; lia). change (256 ^ Z.of_nat 2) with (2 ^ 16).
    rewrite (Z.div_mod (tcp_mid t / 2 ^ 16) 256) at 1 by lia. rewrite Z.mul_comm. change 256 with (256 ^ Z.of_nat 1) at 2.
    rewrite (be_bytes_app 1 1) by (apply Z.mod_pos_bound; lia). rewrite <- app_assoc, Z.div_div by lia. done. }
  destruct Hs as (He & Hi & Ht & _). unfold le_at, tcp_packet. rewrite (emit_ethernet _ He), (emit_ipv4 _ Hi), (emit_tcp _ Ht), E, <- !app_assoc.
  repeat (rewrite slice_skip by (rewrite length_be_bytes; offlia); rewrite length_be_bytes).
  match goal with |- context [slice _ ?a _] => let a' := eval vm_compute in a in change a with a' end.
  rewrite slice_here by apply length_be_bytes. rewrite be_bytes_1 by (apply Z.mod_pos_bound; lia). cbn [le_val]. rewrite Z.mul_0_r, Z.add_0_r.
  split_fields Ht. unfold tcp_mid. cbn [pack bits foldr].
  repeat match goal with |- context [2 ^ ?n] => let v := eval vm_compute in (2 ^ n) in change (2 ^ n) with v end. modlia.
Qed.

Lemma keys_at :
  ingress_key_of p = Key (bswap32 (ip_src_addr ip)) (bswap16 (tcp_src_port t)) 0 /\
  egress_key_of p = Key (bswap32 (ip_dst_addr ip)) (bswap16 (tcp_dst_port t)) 0.
Proof using Hs. unfold ingress_key_of, egress_key_of. split; f_equal; slice_at Hs; done. Qed.

Lemma length_packet : length p = (54 + length rest)%nat.
Proof using. unfold tcp_packet. rewrite !length_app, !length_emit. change (size_of ethernet_h) with 14%nat.
  change (size_of ipv4_h) with 20%nat. change (size_of tcp_h) with 20%nat. lia. Qed.

Lemma packet_is_tcp4 : bytes_ok rest -> is_tcp4 p.
Proof using Hs.
  intros Hr. split; [|split; [rewrite length_packet; offlia|]; split; [apply type_at | apply protocol_at]].
  unfold tcp_packet. rewrite !Forall_app. split_and!; try apply emit_ok; done.
Qed.

Lemma payload_at : drop 54 p = rest.
Proof using.
  unfold tcp_packet. rewrite !app_assoc. apply drop_app_length'. rewrite !length_app, !length_emit. reflexivity.
Qed.
End memory.

(** ** The hook of the server *)

Definition renumbered (v c : Z) (t : tcp_h) : tcp_h :=
  Tcp (tcp_src_port t) (tcp_dst_port t) v (ack_no t) (data_offset t) (res t)
    (urg t) (ack t) (psh t) (rst t) (syn t) (fin t) (window t) c (urgent_ptr t).

Lemma splice_mid {A} (l1 l2 l3 f : list A) a : length l1 = a -> length f = length l2 -> splice (l1 ++ l2 ++ l3) a f = l1 ++ f ++ l3.
Proof.
  intros <- El. unfold splice. rewrite take_app_length, El. do 2 f_equal. rewrite app_assoc. apply drop_app_length'. by rewrite length_app.
Qed.

Lemma renumbered_ok v c e ip t : in_u32 v -> in_u16 c -> segment e ip t -> segment e ip (renumbered v c t).
Proof.
  intros Hv Hc (He & Hi & Ht & Hr). split_and!; [done | done | | apply Hr..]. split_fields Ht. unfold hdr_ok. cbn [widths fields tcp_header renumbered].
  cbn. repeat (constructor; [assumption|]). constructor.
Qed.

Lemma seq_spliced e ip t rest v c : segment e ip t -> in_u32 v ->
  splice (set_be32 (tcp_packet e ip t rest) off_seq v) off_check (le_bytes 2 c) = tcp_packet e ip (renumbered v (bswap16 c) t) rest.
Proof.
  intros Hs Hv. pose proof (renumbered_ok v (bswap16 c) e ip t Hv (bswap16_range c) Hs) as Hs'.
  unfold tcp_packet. destruct Hs as (_ & _ & Ht & _), Hs' as (_ & _ & Ht' & _). rewrite (emit_tcp _ Ht), (emit_tcp _ Ht').
  cbn [renumbered tcp_src_port tcp_dst_port seq_no ack_no tcp_checksum urgent_ptr]. change (tcp_mid (renumbered v (bswap16 c) t)) with (tcp_mid t).
  unfold set_be32. change (rev (le_bytes 4 v)) with (be_bytes 4 v).
  replace (le_bytes 2 c) with (be_bytes 2 (bswap16 c)) by (apply be_bytes_val; [apply le_bytes_ok | apply length_le_bytes]).
  set (s := be_bytes 2 (tcp_src_port t)). set (d := be_bytes 2 (tcp_dst_port t)). set (a := be_bytes 4 (ack_no t)).
  set (m := be_bytes 4 (tcp_mid t)). set (u := be_bytes 2 (urgent_ptr t)). rewrite <- !app_assoc.
  transitivity (splice (splice ((emit e ++ emit ip ++ s ++ d) ++ be_bytes 4 (seq_no t) ++ a ++ m ++ be_bytes 2 (tcp_checksum t) ++ u ++ rest)
    off_seq (be_bytes 4 v)) off_check (be_bytes 2 (bswap16 c))); [by rewrite <- !app_assoc|].
  rewrite splice_mid by (rewrite ?length_app, ?length_emit; unfold s, d; rewrite ?length_be_bytes; reflexivity).
  transitivity (splice ((emit e ++ emit ip ++ s ++ d ++ be_bytes 4 v ++ a ++ m) ++ be_bytes 2 (tcp_checksum t) ++ u ++ rest)
    off_check (be_bytes 2 (bswap16 c))); [by rewrite <- !app_assoc|].
  rewrite splice_mid by (rewrite ?length_app, ?length_emit; unfold s, d, a, m; rewrite ?length_be_bytes; reflexivity).
  by rewrite <- !app_assoc.
Qed.

Section hook.
Context {Mp : Type} `{BpfHash Mp} `{!BpfHashLaws Mp} `{CD : CsumDiff} `{!CsumDiffLaws CD}.

(** The agent's name for a client. *)
Definition flow_key_of (ip port : Z) : key_t := Key (bswap32 ip) (bswap16 port) 0.

(** A segment of a known flow leaves the server renumbered, and otherwise as it is. *)
Lemma leaves_segment (ag : agent Mp) e ip t rest d : segment e ip t -> bytes_ok rest ->
  flow_of ag (flow_key_of (ip_dst_addr ip) (tcp_dst_port t)) = Some d ->
  exists c, in_u16 c /\ fst (on_event ag (Leaves (tcp_packet e ip t rest))) = Some (tcp_packet e ip (renumbered (u32 (seq_no t - d)) c t) rest).
Proof.
  intros Hs Hr Hk. pose proof (packet_is_tcp4 e ip t rest Hs Hr) as Ht. pose proof Ht as (Hb & Hl & _).
  destruct (egress_run (load_agent ag (tcp_packet e ip t rest)) Hb) as (r & s' & Hrun & Hp).
  unfold on_event. rewrite Hrun. rewrite decide_True in Hp by done. cbn [pkt flow_map load_agent] in Hp.
  rewrite (proj2 (keys_at e ip t rest Hs)) in Hp. unfold flow_of, flow_key_of in Hk. rewrite Hk in Hp.
  destruct Hp as (-> & (c & _ & Hpkt) & _). exists (bswap16 c). split; [apply bswap16_range|]. cbn [fst pkt load_agent] in *.
  by rewrite Hpkt, (seq_at e ip t rest Hs), seq_spliced by (done || apply u32_range).
Qed.
End hook.

(** ** What the switch sends is a segment *)

Section sends.
Context `{Tofino} `{!TofinoLaws}.

Lemma deparsed_segment e ip t dep rest : segment e ip t ->
  exists ip' t', deparsed e ip t dep rest = tcp_packet e ip' t' rest /\ segment e ip' t' /\
    (ip_src_addr ip', ip_dst_addr ip') = (ip_src_addr ip, ip_dst_addr ip) /\
    (tcp_src_port t', tcp_dst_port t', seq_no t', ack_no t') = (tcp_src_port t, tcp_dst_port t, seq_no t, ack_no t).
Proof.
  intros (He & Hi & Ht & Hr). eexists _, _. split; [reflexivity|]. unfold segment. split_and!; try done; try apply Hr; unfold hdr_ok;
    cbn [widths fields ipv4_header tcp_header update_ipv4 set_tcp_checksum].
  - split_fields Hi. repeat (constructor; [assumption || exact (checksum_range _)|]). constructor.
  - split_fields Ht. repeat (constructor; [assumption || exact (checksum_range _)|]). constructor.
Qed.

Lemma with_dst_ok e ip t dst port : in_u32 dst -> in_u16 port -> segment e ip t ->
  segment e (fst (with_dst dst port ip t)) (snd (with_dst dst port ip t)).
Proof.
  intros Hd Hp (He & Hi & Ht & Hr). split_fields Hi. split_fields Ht. split_and!; try done; try apply Hr; unfold hdr_ok;
    repeat (constructor; [assumption|]); constructor.
Qed.
Lemma with_src_ok e ip t src port : in_u32 src -> in_u16 port -> segment e ip t ->
  segment e (fst (with_src src port ip t)) (snd (with_src src port ip t)).
Proof.
  intros Hd Hp (He & Hi & Ht & Hr). split_fields Hi. split_fields Ht. split_and!; try done; try apply Hr; unfold hdr_ok;
    repeat (constructor; [assumption|]); constructor.
Qed.

Lemma readdress_ok tabs d e ip t : tables_ok tabs -> segment e ip t ->
  segment e (fst (readdress tabs d ip t)) (snd (readdress tabs d ip t)).
Proof.
  intros (_ & _ & _ & _ & Hp) Hs. unfold readdress. destruct (tabs DIP_PORT !! _) as [x|] eqn:Ex; [|done].
  case_decide; [|done]. destruct (Hp _ _ Ex). by apply with_dst_ok.
Qed.

Lemma answer_is_segment e ip t rest : segment e ip t ->
  exists e' ip' t', answer e ip t rest = tcp_packet e' ip' t' ([2; 4; 5; 180; 1; 1; 4; 2; 1; 3; 3; 7] ++ rest) /\ segment e' ip' t' /\
    (eth_dst_addr e', ip_src_addr ip', ip_dst_addr ip', total_len ip') = (eth_src_addr e, ip_dst_addr ip, ip_src_addr ip, 52) /\
    (tcp_src_port t', tcp_dst_port t', seq_no t', ack_no t', syn t', ack t') =
    (tcp_dst_port t, tcp_src_port t, seq_hasher (ip_src_addr ip) (tcp_src_port t), u32 (seq_no t + 1), 1, 1).
Proof.
  intros Hs. destruct (segment_reply e ip t Hs) as (He & _). destruct Hs as (_ & Hi & Ht & Hr). eexists _, _, _. split; [reflexivity|].
  split; [|by split]. split; [exact He|]. split_fields Hi. split_fields Ht. split_and!; try apply Hr; unfold hdr_ok;
    cbn [widths fields ipv4_header tcp_header update_ipv4 set_tcp_checksum].
  - repeat (constructor; [assumption || exact (checksum_range _) || (cbn; lia)|]). constructor.
  - repeat (constructor; [assumption || exact (checksum_range _) || exact (seq_hasher_range _ _) || exact (u32_range _) || (cbn; lia)|]).
    constructor.
Qed.

(** Both flags of a SYN-ACK, and no reset, whatever else is set. *)
Lemma syn_ack_flags e ip t rest : segment e ip t -> syn t = 1 -> ack t = 1 ->
  let b := le_at 1 (tcp_packet e ip t rest) off_flags in tcp_syn b = true /\ tcp_ack b = true.
Proof.
  intros Hs Es Ea. cbv zeta. rewrite flags_at, Es, Ea by done. destruct Hs as (_ & _ & Ht & _). split_fields Ht.
  unfold tcp_syn, tcp_ack. rewrite !Z.testbit_odd, !Z.shiftr_div_pow2 by lia. change (2 ^ 1) with 2 in *. change (2 ^ 4) with 16 in *.
  split; apply Z.odd_spec; [exists (res t mod 4 * 16 + urg t * 8 + 4 + psh t * 2 + rst t) | exists (res t mod 4 * 2 + urg t)]; modlia.
Qed.
End sends.

(** ** The tables of a running switch *)

(** The tables of the switch are those the configuration gives these back ends, and
    its offload table holds these clients. *)
Definition programmed (r : rt) (bes : list backend) (m : gmap (Z * Z) Z) : Prop :=
  table_of r DIP = list_to_map (entries_of dip_key dip_data (map backend_dip bes)) /\
  table_of r DIX = list_to_map (entries_of dix_key dix_data (map backend_egress bes)) /\
  table_of r DIP_PORT = list_to_map (entries_of dx_key dx_data (map backend_ip bes)) /\
  shows (table_of r OFT) m /\
  NoDup (entries_of dip_key dip_data (map backend_dip bes)).*1 /\
  NoDup (entries_of dix_key dix_data (map backend_egress bes)).*1 /\
  NoDup (entries_of dx_key dx_data (map backend_ip bes)).*1.

(** Such are the tables after the start, from empty ones, however the offload table
    changes afterwards. *)
Lemma loaded_programmed arps bes lbs dests r0 r1 r m : loaded arps bes lbs dests r0 r1 -> no_clash arps bes lbs dests r0 ->
  (forall T, table_of r0 T = ∅) -> (forall T, T <> OFT -> table_of r T = table_of r1 T) -> shows (table_of r OFT) m -> programmed r bes m.
Proof.
  intros (_ & E1 & E2 & E3 & _) (_ & [N1 _] & [N2 _] & [N3 _] & _) He Ho Hs. unfold programmed.
  rewrite !Ho by done. rewrite E1, E2, E3, !He, !(right_id_L ∅ (∪)). done.
Qed.

Lemma entries_lookup {E} (key : E -> entry_key) (data : E -> entry_data) es x : NoDup (entries_of key data es).*1 -> x ∈ es ->
  (list_to_map (entries_of key data es) : table) !! key x = Some (data x).
Proof. intros Hn Hx. apply elem_of_list_to_map_1; [done|]. apply list_elem_of_fmap. by exists x. Qed.

Lemma dip_key_inj x y : dip_key x = dip_key y -> src_ip x = src_ip y /\ src_port x = src_port y.
Proof.
  intros E. pose proof (f_equal (fun k : entry_key => k !! "hdr.tcp.src_port"%string) E) as E1.
  pose proof (f_equal (fun k : entry_key => k !! "hdr.ipv4.src_addr"%string) E) as E2. unfold dip_key in E1, E2.
  rewrite !lookup_insert_eq in E1. rewrite !lookup_insert_ne in E2 by done. rewrite !lookup_singleton_eq in E2. split; congruence.
Qed.

Section programmed.
Context (r : rt) (bes : list backend) (m : gmap (Z * Z) Z) (Hp : programmed r bes m).
Abbreviation tabs := (table_of r).

Lemma is_server b : b ∈ bes -> server_hit tabs (be_ip b) (be_port b) = true.
Proof using Hp.
  intros Hb. destruct Hp as (Ed & _ & _ & _ & Nd & _). unfold server_hit. rewrite Ed.
  pose proof (entries_lookup dip_key dip_data _ (backend_dip b) Nd ltac:(by apply list_elem_of_fmap_2)) as E.
  change (dip_key (backend_dip b)) with (<["hdr.tcp.src_port" := Exact (be_port b)]> {["hdr.ipv4.src_addr" := Exact (be_ip b)]} : entry_key) in E.
  by rewrite E.
Qed.

Lemma not_server ip port : (forall b, b ∈ bes -> (be_ip b, be_port b) <> (ip, port)) -> server_hit tabs ip port = false.
Proof using Hp.
  intros Hn. destruct Hp as (Ed & _). unfold server_hit. rewrite Ed. rewrite not_elem_of_list_to_map_1; [done|].
  intros ([k x] & Ek & [y [Ey Hy]]%list_elem_of_fmap)%list_elem_of_fmap. injection Ey as -> ->. cbn [fst] in Ek.
  apply list_elem_of_fmap in Hy as (b & -> & Hb).
  change (dip_key {| src_ip := ip; src_port := port |} = dip_key (backend_dip b)) in Ek.
  apply dip_key_inj in Ek as [E1 E2]. apply (Hn b Hb). cbn in E1, E2. congruence.
Qed.

Lemma offloaded_client ip port : oft_entry tabs ip port = m !! (ip, port).
Proof using Hp.
  destruct Hp as (_ & _ & _ & Hs & _). unfold oft_entry. change (<["ig_md.cport" := Exact port]> {["ig_md.cip" := Exact ip]} : entry_key) with (client_key (ip, port)).
  destruct (table_of r OFT !! client_key (ip, port)) as [x|] eqn:E.
  - apply Hs in E as (e & d & Ek & Em & ->). apply client_key_inj in Ek as <-. by rewrite Em.
  - symmetry. apply eq_None_not_Some. intros [d Ed]. assert (table_of r OFT !! client_key (ip, port) <> None) as Hne; [|done].
    assert (table_of r OFT !! client_key (ip, port) = Some ("SwitchIngress.oft_hit"%string, {["d_index" := d]})) as ->; [|done].
    apply Hs. by exists (ip, port), d.
Qed.

Lemma server_port b : b ∈ bes -> tabs DIX !! {["hdr.bridged.index" := Exact (be_index b)]} = Some (egress_data INBOUND_SRC_MAC (be_mac b) (be_egress b)).
Proof using Hp.
  intros Hb. destruct Hp as (_ & Ed & _ & _ & _ & Nd & _). rewrite Ed.
  exact (entries_lookup dix_key dix_data _ (backend_egress b) Nd ltac:(by apply list_elem_of_fmap_2)).
Qed.

Lemma server_address b ip t : b ∈ bes -> readdress tabs (be_index b) ip t = with_dst (be_ip b) (be_port b) ip t.
Proof using Hp.
  intros Hb. destruct Hp as (_ & _ & Ed & _ & _ & _ & Nd). unfold readdress. rewrite Ed.
  pose proof (entries_lookup dx_key dx_data _ (backend_ip b) Nd ltac:(by apply list_elem_of_fmap_2)) as E.
  change (dx_key (backend_ip b)) with ({["eg_md.bridged.index" := Exact (be_index b)]} : entry_key) in E. by rewrite E.
Qed.
End programmed.

(** ** There and back *)

Section path.
Context `{Tofino} `{!TofinoLaws}.
Context {Mp : Type} `{BpfHash Mp} `{!BpfHashLaws Mp} `{CD : CsumDiff} `{!CsumDiffLaws CD}.

(** A packet for this machine, end and number. *)
Definition addressed (mac src_ip src_port dst_ip dst_port seq ack : Z) (q : list Z) : Prop :=
  be_at 6 q 0 = mac /\ be_at 4 q off_saddr = src_ip /\ be_at 2 q off_source = src_port /\
  be_at 4 q off_daddr = dst_ip /\ be_at 2 q off_dest = dst_port /\ be_at 4 q off_seq = seq /\ be_at 4 q off_ack_seq = ack.

Lemma deparsed_addressed e ip t dep rest : segment e ip t -> bytes_ok rest ->
  let q := deparsed e ip t dep rest in
  addressed (eth_dst_addr e) (ip_src_addr ip) (tcp_src_port t) (ip_dst_addr ip) (tcp_dst_port t) (seq_no t) (ack_no t) q /\
  is_tcp4 q /\ ingress_key_of q = flow_key_of (ip_src_addr ip) (tcp_src_port t) /\ drop 54 q = rest.
Proof.
  intros Hs Hr. cbv zeta. destruct (deparsed_segment e ip t dep rest Hs) as (ip' & t' & -> & Hs' & [= E1 E2] & [= E3 E4 E5 E6]).
  split; [|split; [by apply packet_is_tcp4|]; split; [rewrite (proj1 (keys_at e ip' t' rest Hs')); by rewrite E1, E3 | apply payload_at]].
  destruct (macs_at e ip' t' rest Hs') as [Em _]. destruct (src_at e ip' t' rest Hs') as [Es Esp]. destruct (dst_at e ip' t' rest Hs') as [Et Etp].
  unfold addressed. rewrite (seq_at e ip' t' rest Hs'), (ack_at e ip' t' rest Hs'). split_and!; congruence.
Qed.

Lemma egress_data_params src dst port : let x := egress_data src dst port in
  fst x = SET_EGRESS /\ param x "src_mac" = src /\ param x "dst_mac" = dst /\ param x "dst_port" = port.
Proof.
  cbv zeta. split_and!; reflexivity.
Qed.

Lemma hop_egress src dst port e k : hop (Some (egress_data src dst port)) e k = Some (port, k (Ethernet dst src (ether_type e))).
Proof.
  destruct (egress_data_params src dst port) as (E1 & E2 & E3 & E4). unfold hop, with_macs. rewrite decide_True by done.
  by rewrite E2, E3, E4.
Qed.

(** C14: The switch answers a client's SYN itself.  The answer is a SYN-ACK from the
    virtual address with twelve bytes of options; its sequence number is a hash of
    the client, which is where the numbering starts that the hooks of the servers
    translate to.  The options of the SYN are taken to be twenty bytes: of a SYN
    with fewer, and nothing behind them, the egress parser runs out of packet. *)
Theorem syn_answered tabs port e ip t rest : tables_ok tabs -> segment e ip t -> bytes_ok rest ->
  server_hit tabs (ip_src_addr ip) (tcp_src_port t) = false ->
  ip_dst_addr ip = VIRTUAL_IP -> tcp_dst_port t = VIRTUAL_PORT -> syn t = 1 ->
  if decide (20 <= length rest)%nat then
    exists q, switch_packet tabs port (tcp_packet e ip t rest) = Some (port, q) /\
      addressed (eth_src_addr e) VIRTUAL_IP VIRTUAL_PORT (ip_src_addr ip) (tcp_src_port t)
        (seq_hasher (ip_src_addr ip) (tcp_src_port t)) (u32 (seq_no t + 1)) q /\
      is_tcp4 q /\ tcp_syn (le_at 1 q off_flags) = true /\ tcp_ack (le_at 1 q off_flags) = true /\
      drop 54 q = [2; 4; 5; 180; 1; 1; 4; 2; 1; 3; 3; 7] ++ drop 20 rest
  else switch_packet tabs port (tcp_packet e ip t rest) = None.
Proof.
  intros Ht Hs Hr Hc E1 E2 E3. rewrite switch_routes by done. unfold route. rewrite Hc, E1, E2, E3.
  change ((VIRTUAL_IP =? VIRTUAL_IP) && (VIRTUAL_PORT =? VIRTUAL_PORT)) with true. change (1 =? 1) with true. cbn [routed].
  case_decide; [|done]. eexists. split; [reflexivity|].
  destruct (answer_is_segment e ip t (drop 20 rest) Hs) as (e' & ip' & t' & -> & Hs' & [= F1 F2 F3 _] & [= G1 G2 G3 G4 G5 G6]).
  set (l := [2; 4; 5; 180; 1; 1; 4; 2; 1; 3; 3; 7] ++ drop 20 rest).
  assert (bytes_ok l) as Hl by (apply Forall_app; split; [decide_now | by apply Forall_drop]).
  destruct (macs_at e' ip' t' l Hs') as [Em _]. destruct (src_at e' ip' t' l Hs') as [Es Esp]. destruct (dst_at e' ip' t' l Hs') as [Et Etp].
  destruct (syn_ack_flags e' ip' t' l Hs' G5 G6). unfold addressed. rewrite (seq_at e' ip' t' l Hs'), (ack_at e' ip' t' l Hs').
  split; [split_and!; congruence|]. split; [by apply packet_is_tcp4|]. split; [done|]. split; [done | apply payload_at].
Qed.

(** C3: An offloaded connection passes the switch and the agent of its server, and no
    front end.  A segment of the client without payload, to the virtual address,
    leaves by the port of the server its entry names, addressed to the server, and
    the server's hook gives it the acknowledgement number the server expects; a
    segment of the server passes the hook and the switch and leaves by the port of
    the client's route, from the virtual address, with the sequence number the
    client expects and its payload as it was. *)
Theorem offloaded_connection r bes m b y (ag : agent Mp) cip cport d port e ip t rest :
  programmed r bes m -> tables_ok (table_of r) -> b ∈ bes -> m !! (cip, cport) = Some (be_index b) ->
  (forall b', b' ∈ bes -> (be_ip b', be_port b') <> (cip, cport)) ->
  flow_of ag (flow_key_of cip cport) = Some d ->
  segment e ip t -> bytes_ok rest -> syn t = 0 -> fin t = 0 -> rst t = 0 ->
  let p := tcp_packet e ip t rest in
  ((ip_src_addr ip, tcp_src_port t, ip_dst_addr ip, tcp_dst_port t) = (cip, cport, VIRTUAL_IP, VIRTUAL_PORT) -> has_payload ip t = false ->
   exists q, switch_packet (table_of r) port p = Some (be_egress b, q) /\
     addressed (be_mac b) cip cport (be_ip b) (be_port b) (seq_no t) (ack_no t) q /\
     forall o, sack_shape q o -> exists q', fst (on_event ag (Arrives q)) = Some q' /\ be_at 4 q' off_ack_seq = u32 (ack_no t + d)) /\
  ((ip_src_addr ip, tcp_src_port t, ip_dst_addr ip, tcp_dst_port t) = (be_ip b, be_port b, cip, cport) ->
   lpm_lookup (table_of r DEST) "hdr.ipv4.dst_addr" cip = Some (dest_data y) ->
   exists q q', fst (on_event ag (Leaves p)) = Some q /\ switch_packet (table_of r) port q = Some (de_dst_port y, q') /\
     addressed (de_dst_mac y) VIRTUAL_IP VIRTUAL_PORT cip cport (u32 (seq_no t - d)) (ack_no t) q' /\ drop 54 q' = rest).
Proof.
  intros Hp Ht Hb Hm Hc Hk Hs Hr Esyn Efin Erst p. split.
  - intros [= <- <- E3 E4] Hpay. unfold p. rewrite switch_routes by done. unfold route.
    rewrite (not_server r bes m Hp _ _ Hc), E3, E4, Esyn, Efin, Erst, (offloaded_client r bes m Hp), Hm, Hpay. cbn [Z.eqb Pos.eqb andb orb].
    change (VIRTUAL_IP =? VIRTUAL_IP) with true. change (VIRTUAL_PORT =? VIRTUAL_PORT) with true. cbn [andb]. unfold routed.
    rewrite (server_port r bes m Hp b Hb), (server_address r bes m Hp b _ _ Hb), hop_egress.
    pose proof Ht as (_ & Hx & _). destruct (Hx _ _ (server_port r bes m Hp b Hb)) as [Hd1 Hd2].
    destruct (egress_data_params INBOUND_SRC_MAC (be_mac b) (be_egress b)) as (_ & P2 & P3 & _). rewrite P3 in Hd1. rewrite P2 in Hd2.
    pose proof (segment_macs _ _ e ip t Hd1 Hd2 Hs) as Hs1. pose proof (readdress_ok (table_of r) (be_index b) _ ip t Ht Hs1) as Hs2.
    rewrite (server_address r bes m Hp b _ _ Hb) in Hs2.
    destruct (deparsed_addressed _ _ _ (residual ip t rest) rest Hs2 Hr) as (Ha & H4 & Hkey & _). cbn [with_dst fst snd ip_src_addr ip_dst_addr tcp_src_port tcp_dst_port seq_no ack_no eth_dst_addr] in Ha, Hkey.
    eexists. split; [reflexivity|]. split; [exact Ha|]. intros o Ho.
    destruct (arrives_known ag _ _ _ o H4 Hkey Ho Hk) as (q' & Eq & Ea). exists q'. split; [exact Eq|]. rewrite Ea. do 2 f_equal. apply Ha.
  - intros [= E1 E2 <- <-] Hy. destruct (leaves_segment ag e ip t rest d Hs Hr Hk) as (c & Hcr & Eq).
    set (t' := renumbered (u32 (seq_no t - d)) c t) in *. assert (segment e ip t') as Hs' by (apply renumbered_ok; [apply u32_range | done..]).
    exists (tcp_packet e ip t' rest). rewrite switch_routes by done. unfold route.
    change (tcp_src_port t') with (tcp_src_port t). change (tcp_dst_port t') with (tcp_dst_port t).
    change (fin t') with (fin t). change (rst t') with (rst t).
    rewrite E1, E2, (is_server r bes m Hp b Hb), Efin, Erst, (offloaded_client r bes m Hp), Hm. cbn [Z.eqb orb]. unfold routed.
    rewrite Hy. unfold dest_data at 1. rewrite hop_egress.
    destruct Ht as (_ & _ & Hx & _). destruct (lpm_lookup_in _ _ _ _ Hy) as [k Ek]. destruct (Hx _ _ Ek) as [Hd1 Hd2].
    destruct (egress_data_params (de_src_mac y) (de_dst_mac y) (de_dst_port y)) as (_ & P2 & P3 & _).
    unfold dest_data in Hd1, Hd2. rewrite P3 in Hd1. rewrite P2 in Hd2. pose proof (segment_macs _ _ e ip t' Hd1 Hd2 Hs') as Hs1.
    assert (in_u32 VIRTUAL_IP /\ in_u16 VIRTUAL_PORT) as [Hv1 Hv2] by (split; split; done).
    pose proof (with_src_ok _ ip t' VIRTUAL_IP VIRTUAL_PORT Hv1 Hv2 Hs1) as Hs2.
    destruct (deparsed_addressed _ _ _ (residual ip t' rest) rest Hs2 Hr) as (Ha & _ & _ & Hl).
    cbn [with_src fst snd ip_src_addr ip_dst_addr tcp_src_port tcp_dst_port seq_no ack_no eth_dst_addr t' renumbered] in Ha.
    eexists. split; [exact Eq|]. split; [reflexivity|]. split; [exact Ha | exact Hl].
Qed.
End path.

(** ** A switch in memory *)

Module TofinoSim.

#[export] Instance units : Tofino := {
  lb_index_hasher ip port := u8 (ip + port);
  seq_hasher ip port := u32 (ip * 65537 + port);
  checksum l := u16 (foldr Z.add 0 l);
  residual _ _ l := u16 (foldr Z.add 0 l);
  invalid_field := 0
}.
#[export] Instance units_laws : TofinoLaws.
Proof. split; intros; apply u8_range || apply u32_range || apply u16_range. Qed.

(** The back end 10.0.1.5:80 behind port 7, a front end behind port 9, the clients
    10.0.2.0/24 behind port 3; the client 10.0.2.1:40000 is offloaded. *)
Definition server : backend := Backend 5 167772421 80 0x0c42a14aff05 7.
Definition front_end : lb_index_to_egress_port_table_entry_t := {| lb_index := 65; lb_dst_mac := 0x0c42a14aff01; lb_dst_port := 9 |}.
Definition client_net : dest_to_egress_port_table_entry_t :=
  {| dst_addr := 167772672; prefix_len := 24; de_src_mac := 1; de_dst_mac := 0x0c42a14aff33; de_dst_port := 3 |}.
Definition gateway : arp_table_entry_t := {| opcode := 1; target_proto_addr := VIRTUAL_IP; arp_mac := 0xabababcdcdcd |}.

Definition sample_rt : rt := Rt
  (<[ARP := list_to_map (entries_of arp_key arp_data [gateway])]>
   (<[DIP := list_to_map (entries_of dip_key dip_data [backend_dip server])]>
    (<[DIX := list_to_map (entries_of dix_key dix_data [backend_egress server])]>
     (<[DIP_PORT := list_to_map (entries_of dx_key dx_data [backend_ip server])]>
      (<[LBX := list_to_map (entries_of lbx_key lbx_data [front_end])]>
       (<[DEST := list_to_map (entries_of dest_key dest_data [client_net])]>
        {[OFT := {[client_key (167772673, 40000) := ("SwitchIngress.oft_hit"%string, {["d_index" := 5]})]}]}))))))
  ∅ ∅ ∅ false.

Lemma sample_tables_ok : tables_ok (table_of sample_rt).
Proof. unfold tables_ok, egress_table_ok, in_u8, in_u16, in_u32. split_and!; match goal with |- forall k x, ?t !! k = Some x -> @?P x => change (map_Forall (fun _ => P) t) end; decide_now. Qed.

Lemma sample_programmed : programmed sample_rt [server] {[(167772673, 40000) := 5]}.
Proof.
  split_and!; try reflexivity; try (apply NoDup_singleton).
  intros k x. change (table_of sample_rt OFT) with ({[client_key (167772673, 40000) := ("SwitchIngress.oft_hit"%string, {["d_index" := 5]})]} : table).
  rewrite lookup_singleton_Some. split.
  - intros [<- <-]. exists (167772673, 40000), 5. by rewrite lookup_singleton_eq.
  - intros (e & d & -> & [<- <-]%lookup_singleton_Some & ->). done.
Qed.

(** Segments of the client and of the server. *)
Definition eth : ethernet_h := Ethernet 1 2 ETHERTYPE_IPV4.
Definition ip_to (src dst len : Z) : ipv4_h := Ipv4 4 5 0 len 0 0 0 64 6 0 src dst.
Definition tcp_to (src dst seq ack syn : Z) : tcp_h := Tcp src dst seq ack 5 0 0 (1 - syn) 0 0 syn 0 8192 0 0.
Definition client_ip : ipv4_h := ip_to 167772673 VIRTUAL_IP 40.
Definition server_ip : ipv4_h := ip_to 167772421 167772673 43.
Definition client_syn : tcp_h := tcp_to 40000 80 1000 0 1.
Definition client_ack : tcp_h := tcp_to 40000 80 1001 5004 0.
Definition server_data : tcp_h := tcp_to 80 40000 9001 1001 0.

Lemma samples_ok : segment eth client_ip client_syn /\ segment eth client_ip client_ack /\ segment eth server_ip server_data.
Proof. unfold segment, hdr_ok. decide_now. Qed.

(** A request goes to the front end of the client. *)
Lemma switch_routes_witness : exists q,
  switch_packet (table_of sample_rt) 3 (tcp_packet eth (ip_to 167772673 VIRTUAL_IP 43) client_ack [71; 69; 84]) = Some (9, q).
Proof.
  rewrite (switch_routes (table_of sample_rt) 3 eth (ip_to 167772673 VIRTUAL_IP 43) client_ack [71; 69; 84] sample_tables_ok);
    [eexists; vm_compute; reflexivity | unfold segment, hdr_ok; decide_now].
Defined.

Abbreviation answered := (switch_packet (table_of sample_rt) 3 (tcp_packet eth client_ip client_syn (replicate 20 1))).

Lemma sample_typed : tables_typed (table_of sample_rt).
Proof.
  split; unfold egress_entries_typed, is_mac48, is_port, in_u8, in_u16, in_u32;
    match goal with |- forall k x, ?t !! k = Some x -> @?P x => change (map_Forall (fun _ => P) t) end; decide_now.
Qed.


Lemma syn_answered_witness : exists q, answered = Some (3, q) /\ be_at 4 q off_ack_seq = 1001 /\ length q = 66%nat.
Proof.
  assert (Forall is_byte (replicate 20 1)) as Hb by decide_now.
  pose proof (syn_answered (table_of sample_rt) 3 eth client_ip client_syn (replicate 20 1) sample_tables_ok (proj1 samples_ok) Hb
    ltac:(vm_compute; reflexivity) eq_refl eq_refl eq_refl) as H. rewrite decide_True in H by (vm_compute; lia).
  destruct H as (q & E & (_ & _ & _ & _ & _ & _ & Ha) & _ & _ & _ & Hd). exists q. split; [exact E|]. split; [rewrite Ha; reflexivity|].
  vm_compute in E. injection E as <-. reflexivity.
Defined.

(** 10.0.2.1 asks for the virtual address. *)
Definition asked : list Z :=
  emit (Ethernet 0xffffffffffff 2 ETHERTYPE_ARP) ++ emit (Arp 1 0x0800 6 4 1 2 167772673 0 VIRTUAL_IP).

Lemma arp_answer_malformed_witness : exists q, switch_packet (table_of sample_rt) 3 asked = Some (3, q) /\
  take 8 q = [9; 0; 0; 0; 0; 0; 0; 2] /\ drop 40 q = [10; 0; 1; 10].
Proof.
  assert (hdr_ok (Ethernet 0xffffffffffff 2 ETHERTYPE_ARP) /\ hdr_ok (Arp 1 0x0800 6 4 1 2 167772673 0 VIRTUAL_IP)) as [He Ha]
    by (unfold hdr_ok; split; decide_now).
  pose proof (arp_answer_malformed (table_of sample_rt) 3 _ _ [] (arp_data gateway) He Ha eq_refl ltac:(vm_compute; reflexivity) eq_refl
    ltac:(vm_compute; reflexivity)) as E. rewrite app_nil_r in E. eexists. split; [exact E|]. split; vm_compute; reflexivity.
Defined.

#[local] Existing Instance csum_diff_portable.

(** The agent has learned that the server started 4000 further on. *)
Definition learned : agent (gmap key_t Z) := sample_agent {[flow_key_of 167772673 40000 := 4000]}.

Lemma offloaded_connection_witness :
  (exists q, switch_packet (table_of sample_rt) 3 (tcp_packet eth client_ip client_ack []) = Some (7, q) /\
     addressed 0x0c42a14aff05 167772673 40000 167772421 80 1001 5004 q) /\
  (exists q q', fst (on_event learned (Leaves (tcp_packet eth server_ip server_data [97; 98; 99]))) = Some q /\
     switch_packet (table_of sample_rt) 7 q = Some (3, q') /\
     addressed 0x0c42a14aff33 VIRTUAL_IP VIRTUAL_PORT 167772673 40000 5001 1001 q' /\ drop 54 q' = [97; 98; 99]).
Proof.
  assert (forall b', b' ∈ [server] -> (be_ip b', be_port b') <> (167772673, 40000)) as Hn by (intros b' ->%list_elem_of_singleton; discriminate).
  assert (flow_of learned (flow_key_of 167772673 40000) = Some 4000) as Hf by (vm_compute; reflexivity).
  pose proof (fun port e ip t rest => offloaded_connection sample_rt [server] {[(167772673, 40000) := 5]} server client_net learned
    167772673 40000 4000 port e ip t rest sample_programmed sample_tables_ok ltac:(by left) (lookup_singleton_eq _ _) Hn Hf) as Hc.
  destruct samples_ok as (_ & Ha & Hd). split.
  - destruct (proj1 (Hc 3 eth client_ip client_ack [] Ha ltac:(constructor) eq_refl eq_refl eq_refl) eq_refl) as (q & Eq & Hq & _);
      [vm_compute; reflexivity|]. exists q. split; [exact Eq | exact Hq].
  - assert (bytes_ok [97; 98; 99]) as Hb by decide_now.
    destruct (proj2 (Hc 7 eth server_ip server_data [97; 98; 99] Hd Hb eq_refl eq_refl eq_refl) eq_refl) as (q & q' & Eq & Eq' & Hq & Hl);
      [vm_compute; reflexivity|]. exists q, q'. split; [exact Eq|]. split; [exact Eq'|]. split; [exact Hq | exact Hl].
Defined.
End TofinoSim.
