(* ===== verification/Deployment.v ===== *)
(** * The deployed switch

    From the configuration files and the front end's flows to the packets: what
    the data plane does with every segment once the switch program has started
    from its files and has received the front end's messages. *)
From Stdlib Require Import ZArith Lia String.
From stdpp Require Import base list gmap strings.
From S2P Require Import Prelude Wire EntryController BfRt Json Client Controller ControllerProofs Main MainProofs System.
From S2P Require Import FlowSpec PktProcessor FlowHeap FrontEnd Worker Offload DataPlane DataPlaneProofs SwitchedPath.

(** ** The tables the configuration asks for *)

(** All tables but the offload table. *)
Definition config_tables (c : config) : tables := fun T =>
  if decide (T = ARP) then list_to_map (entries_of arp_key arp_data (c_arps c))
  else if decide (T = DIP) then list_to_map (entries_of dip_key dip_data (map backend_dip (c_backends c)))
  else if decide (T = DIX) then list_to_map (entries_of dix_key dix_data (map backend_egress (c_backends c)))
  else if decide (T = DIP_PORT) then list_to_map (entries_of dx_key dx_data (map backend_ip (c_backends c)))
  else if decide (T = LBX) then list_to_map (entries_of lbx_key lbx_data (c_lbs c))
  else if decide (T = DEST) then list_to_map (entries_of dest_key dest_data (c_dests c))
  else ∅.

Definition is_backend (c : config) (ip port : Z) : bool :=
  bool_decide ((ip, port) ∈ map (fun b => (be_ip b, be_port b)) (c_backends c)).

(** The hardware addresses of the files have 48 bits.  (The program computes them
    in 64 bits and does not look.) *)
Definition is_mac (x : Z) : Prop := 0 <= x < 2 ^ 48.
Definition macs_ok (c : config) : Prop :=
  Forall (fun b => is_mac (be_mac b)) (c_backends c) /\ Forall (fun e => is_mac (lb_dst_mac e)) (c_lbs c) /\
  Forall (fun e => is_mac (de_src_mac e) /\ is_mac (de_dst_mac e)) (c_dests c).

Lemma loaded_tables c r0 r1 T : loaded (c_arps c) (c_backends c) (c_lbs c) (c_dests c) r0 r1 ->
  (forall T, table_of r0 T = ∅) -> T ∈ [ARP; DIP; DIX; DIP_PORT; LBX; DEST] -> table_of r1 T = config_tables c T.
Proof.
  intros (E1 & E2 & E3 & E4 & E5 & E6 & _) He HT. rewrite !He, ?(right_id_L ∅ (∪)) in *.
  set_unfold in HT. by destruct_or! HT; subst T.
Qed.

(** What holds of all entries holds of what is looked up. *)
Lemma config_entry {E} (key : E -> entry_key) (data : E -> BfRt.entry_data) (P : BfRt.entry_data -> Prop) es k x :
  Forall (fun e => P (data e)) es -> (list_to_map (entries_of key data es) : table) !! k = Some x -> P x.
Proof.
  intros Hf Hk%elem_of_list_to_map_2. apply list_elem_of_fmap in Hk as (e & [= -> ->] & He).
  by eapply Forall_forall in Hf.
Qed.

Definition egress_ok (x : BfRt.entry_data) : Prop := is_mac (param x "dst_mac") /\ is_mac (param x "src_mac").
Lemma egress_data_ok src dst port : is_mac src -> is_mac dst -> egress_ok (egress_data src dst port).
Proof. intros Hs Hd. unfold egress_ok. destruct (egress_data_params src dst port) as (_ & -> & -> & _). done. Qed.

Lemma says_in_range {J A} `{CJson J} files path (says : J -> A -> Prop) (P : A -> Prop) es :
  file_says files path says es -> (forall j e, says j e -> P e) -> Forall P es.
Proof.
  intros (text & arr & _ & _ & H2) Hs. apply Forall_forall. intros e He.
  apply list_elem_of_lookup in He as [i Hi]. destruct (Forall2_lookup_r _ _ _ _ _ H2 Hi) as (j & _ & Hj). by eapply Hs.
Qed.

Lemma config_tables_ok {J} `{CJson J} (files : string -> option string) (c : config) (tabs : tables) (m : gmap client Z) : configured files c -> macs_ok c ->
  (forall T, T ∈ [ARP; DIP; DIX; DIP_PORT; LBX; DEST] -> tabs T = config_tables c T) ->
  shows (tabs OFT) m -> map_Forall (fun _ d => in_u8 d) m -> tables_ok tabs.
Proof.
  intros (_ & _ & Fb & _) (Mb & Ml & Md) Et Hs Hm. assert (is_mac INBOUND_SRC_MAC) as Hi by done.
  assert (Forall (fun b => in_u32 (be_ip b) /\ in_u16 (be_port b)) (c_backends c)) as Hb.
  { eapply says_in_range; [exact Fb|]. intros j b (i & ip & port & p & s & eg & _ & _ & _ & _ & _ & _ & ->).
    split; [apply u32_range | apply u16_range]. }
  unfold tables_ok, egress_table_ok. rewrite (Et LBX), (Et DIX), (Et DEST), (Et DIP_PORT) by set_solver. split_and!; intros k x.
  - refine (config_entry lbx_key lbx_data egress_ok (c_lbs c) k x _). eapply Forall_impl; [exact Ml|]. intros e He. exact (egress_data_ok _ _ _ Hi He).
  - refine (config_entry dix_key dix_data egress_ok (map backend_egress (c_backends c)) k x _). apply Forall_map. eapply Forall_impl; [exact Mb|]. intros b Hb'. exact (egress_data_ok _ _ _ Hi Hb').
  - refine (config_entry dest_key dest_data egress_ok (c_dests c) k x _). eapply Forall_impl; [exact Md|]. intros e [H1 H2]. exact (egress_data_ok _ _ _ H1 H2).
  - intros (e & d & _ & Ed & ->)%Hs. exact (Hm _ _ Ed).
  - refine (config_entry dx_key dx_data (fun x => in_u32 (param x "dst_ip") /\ in_u16 (param x "dst_port")) (map backend_ip (c_backends c)) k x _). apply Forall_map.
    eapply Forall_impl; [exact Hb|]. intros b Hb'. exact Hb'.
Qed.

(** ** Where a segment goes *)

Section routing.
Context `{Tofino}.

(** A verdict is carried out with the tables of the configuration alone. *)
Lemma routed_config c tabs port e ip t rest v : (forall T, T ∈ [ARP; DIP; DIX; DIP_PORT; LBX; DEST] -> tabs T = config_tables c T) ->
  routed tabs port e ip t rest v = routed (config_tables c) port e ip t rest v.
Proof. intros Et. unfold routed, readdress. by rewrite !Et by set_solver. Qed.

Lemma route_ext sv sv' off off' ip t : (forall i p, sv i p = sv' i p) -> (forall i p, off i p = off' i p) ->
  route sv off ip t = route sv' off' ip t.
Proof. intros Es Eo. unfold route. by rewrite Es, !Eo. Qed.
End routing.

Lemma server_is_backend r c m ip port : programmed r (c_backends c) m -> server_hit (table_of r) ip port = is_backend c ip port.
Proof.
  intros Hp. unfold is_backend. case_bool_decide as Hd.
  - apply list_elem_of_fmap in Hd as (b & [= -> ->] & Hb). by eapply is_server.
  - eapply not_server; [exact Hp|]. intros b Hb [= <- <-]. apply Hd, list_elem_of_fmap. by exists b.
Qed.

Section deployment.
Context {Mp QA QD D J : Type} `{CuckooMap Mp nat} `{!CuckooMapLaws Mp nat}.
Context `{BulkQueue QA my_pair_t} `{BulkQueue QD my_key_t} `{!BulkQueueLaws QA my_pair_t} `{!BulkQueueLaws QD my_key_t}.
Context `{BfRuntime D} `{BfSchema} `{!BfRuntimeLaws D} `{CJson J} `{!CJsonLaws J}.
Context `{Tofino} `{!TofinoLaws}.
Abbreviation rts s := (abs (driver (cl s))).

(** A switch that has just started is ready for the front ends. *)
Lemma started_ready c (s0 sw : proc D) : started c s0 sw -> (forall T, table_of (rts s0) T = ∅) ->
  in_batch (rts s0) = false -> length (recv_buffer s0) = RECV_SIZE ->
  ctl_ok sw /\ in_batch (rts sw) = false /\ table_of (rts sw) OFT = ∅ /\
  (forall r m, BfRt.frame OFT (rts sw) r -> shows (table_of r OFT) m -> programmed r (c_backends c) m /\
     forall T, T ∈ [ARP; DIP; DIX; DIP_PORT; LBX; DEST] -> table_of r T = config_tables c T).
Proof.
  intros (Hl & _ & Ha & Eb & Nc & _ & _ & _ & Er & _) He Hb Lr. split; [split; [congruence | apply Ha]|]. split; [congruence|]. split.
  - destruct Hl as (_ & _ & _ & _ & _ & _ & Eo). by rewrite Eo.
  - intros r m Hf Hs. split.
    + eapply loaded_programmed; try done. intros T HT. by eapply frame_table.
    + intros T HT. rewrite (frame_table OFT (rts sw)) by (done || set_unfold in HT; by destruct_or! HT; subst).
      by eapply loaded_tables.
Qed.

Lemma offloaded_in_u8 t : table_wf t -> map_Forall (fun _ d => in_u8 d) (omap offloaded t).
Proof.
  intros Ht e d Ed. rewrite lookup_omap in Ed. destruct (t !! e) as [[f|]|] eqn:Ee; try done. cbn in Ed.
  destruct (decide (f_phase f = Offloaded)); [|done]. injection Ed as <-. by eapply Ht.
Qed.

(** C1: From the flows to the packets.  The switch program has started, from empty
    tables, with the files that say [c]; a front end has run to the state [fe],
    with the table of flows [t], and its entries went out in [rounds], in each of
    which every client occurs once at most, with ticks for all entries of a round
    before the next.  When the switch has received the messages one by one, none
    longer than its buffer or ending at a leftover byte 3, its offload table holds
    the clients whose flows are offloaded, and no others; and it treats every
    segment as [route] says for the back ends of the files and the offloaded flows
    of the front end: to the front end of its client, straight to the server of the
    flow, back to the client under the address of the service, or answered; with
    the ports and addresses of the files. *)
Theorem deployment_follows_flows cap t (fe : pp Mp) rounds pad pairs keys (aq : QA) (dq : QD) buf
    (files : string -> option string) (sys : syscall -> Z) dir (c : config) (s0 sw : proc D) :
  running cap t fe -> concat rounds = enqueued fe -> Forall (fun ops => NoDup (map op_client ops)) rounds ->
  length pairs = 80%nat -> length keys = 80%nat -> queued aq = [] -> queued dq = [] -> length buf = ETH_FRAME_LEN ->
  configured files c -> macs_ok c -> (forall x, sys x <> -1) ->
  (String.length (dir ++ "/share/p4/targets/tofino/" ++ PROG_NAME ++ ".conf") < 256)%nat ->
  (forall T, table_of (rts s0) T = ∅) -> in_batch (rts s0) = false -> length (recv_buffer s0) = RECV_SIZE -> reliable D ->
  start_switch files sys (Some dir) s0 = (Ret tt, sw) ->
  exists batches buf' ec,
    ec_run pad (history rounds) ([], buf) (init_entry_controller pairs keys aq dq) = (Ret (frames pad batches, buf'), ec) /\
    (clean (recv_buffer sw) (frames pad batches) ->
     exists sw', receive (frames pad batches) sw = (Ret tt, sw') /\
       shows (table_of (rts sw') OFT) (omap offloaded t) /\
       forall port e ip h rest, segment e ip h ->
         switch_packet (table_of (rts sw')) port (tcp_packet e ip h rest) =
         routed (config_tables c) port e ip h rest (route (is_backend c) (fun i p => omap offloaded t !! (i, p)) ip h)).
Proof.
  intros Hrun Hc Hd Lp Lk Ea Ed Lb Hcf Hm Hsys Hdir He Hin Lr Rel Est.
  destruct (wp_run _ _ _ (wp_start_switch files sys dir c s0 Hcf Hsys Hdir)) as (r & s1 & E1 & Hst). rewrite Est in E1.
  injection E1 as <- <-. destruct (started_ready c s0 sw Hst He Hin Lr) as (Hok & Hb & Ho & Hnow).
  destruct (switch_follows_front cap t fe rounds pad pairs keys aq dq buf sw) as (batches & buf' & ec & E & Hs); try done.
  exists batches, buf', ec. split; [exact E|]. intros Hcl. destruct (Hs Hcl) as (sw' & E' & Hsh & Hf).
  exists sw'. split; [exact E'|]. split; [exact Hsh|]. intros port e ip h rest Hseg.
  destruct (Hnow _ _ Hf Hsh) as [Hp Ht].
  rewrite switch_routes; [|eapply config_tables_ok; try done; apply offloaded_in_u8, Hrun | done].
  rewrite (routed_config c) by done. f_equal. apply route_ext; intros i p; [by eapply server_is_backend | by eapply offloaded_client].
Qed.
End deployment.

(** ** A deployment in memory *)

Module DeploySim.
Import Sample TofinoSim.
#[local] Existing Instances Sim.schema Sim.runtime Sim.runtime_laws.

(** The files of a switch in front of the server 10.0.1.5:80 behind port 7, with a
    front end behind port 9 and clients in 10.0.2.0/24 behind port 3. *)
Definition int (name : string) (z : Z) : string * json := (name, JInt z).
Definition mac_array : string * json := ("mac_array"%string, JArr (map JInt [12; 66; 161; 74; 255; 2])).
Definition docs : list (string * json) := [
  (PORT_PATH, JArr [JObj [("port"%string, JStr "1/0"); int "speed" 100]]);
  (ARP_TABLE_PATH, JArr [JObj [int "opcode" 1; int "target_proto_addr" VIRTUAL_IP; int "mac_prefix" 803489; int "mac_suffix" 6]]);
  (D_INDEX_PATH, JArr [
    JObj [int "d_index" 5; int "ip" 167772421; int "port" 80; mac_array; int "mac_prefix" 803489; int "mac_suffix" 7; int "egress_port" 7]]);
  (LB_INDEX_PATH, JArr [JObj [int "lb_index" 65; int "mac_prefix" 803489; int "mac_suffix" 9; int "egress_port" 9]]);
  (DEST_TO_EGRESS_PATH, JArr [JObj [int "dst_addr" 167772672; int "prefix_len" 24; int "src_mac" 803489; int "src_mac_suffix" 1;
     int "dst_mac" 803489; int "dst_mac_suffix" 2; int "egress_port" 3]]);
  (RULE_PATH, JArr [JObj [("key"%string, JStr "/index"); int "d_index" 5; int "offload_flag" 1]]);
  (V_INFO_PATH, JObj [int "ip" VIRTUAL_IP; int "port" 80; mac_array])].
#[local] Instance the_json : CJson json := cjson docs.
#[local] Instance the_json_laws : CJsonLaws json := sample_laws docs.

Definition mac : list Z := SampleConfig.mac.
Definition conf : config := Config
  [(Some "1/0"%string, BF_SPEED_100G)]
  [{| opcode := 1; target_proto_addr := VIRTUAL_IP; arp_mac := make_mac 803489 6 |}]
  [Backend 5 167772421 80 (make_mac 803489 7) 7]
  [{| lb_index := 65; lb_dst_mac := make_mac 803489 9; lb_dst_port := 9 |}]
  [{| dst_addr := 167772672; prefix_len := 24; de_src_mac := make_mac 803489 1; de_dst_mac := make_mac 803489 2; de_dst_port := 3 |}]
  [Rule (c_string "/index") 5 1] [DIndex 5 (ServerInfo mac 167772421 80)] (ServerInfo mac VIRTUAL_IP 80).

Lemma conf_ok : configured SampleConfig.files conf.
Proof.
  pose proof SampleConfig.mac_ok as mac_ok. unfold configured, file_says. split_and!; try (by apply Nat.leb_le).
  all: SampleConfig.file_ok.
Qed.
Definition started_sw : proc rt :=
  snd (start_switch SampleConfig.files SampleConfig.sys (Some "/sde"%string) SampleConfig.proc_0).

(** The message about the one offloaded client. *)
Definition told_sw : outcome mem_fault (list (list Z) * list Z) * entry_controller_t (list my_pair_t) (list my_key_t) :=
  ec_run 0 (history [[EnqAdd (MyPair (my_key_of sample_client) (MyData 1 5))]]) ([], replicate ETH_FRAME_LEN 0)
    (init_entry_controller (QA := list my_pair_t) (QD := list my_key_t) blank_pairs blank_keys [] []).
Lemma told_clean ms buf ec : told_sw = (Ret (ms, buf), ec) -> clean (recv_buffer started_sw) ms.
Proof.
  intros E. assert (ms = match fst told_sw with Ret x => fst x | Err _ => [] end) as -> by (by rewrite E). vm_compute. intuition (lia || discriminate).
Qed.

(** A segment without payload of the offloaded client leaves for its server. *)
Lemma deployment_follows_flows_witness : exists ms buf ec sw' q,
  told_sw = (Ret (ms, buf), ec) /\ receive ms started_sw = (Ret tt, sw') /\
  switch_packet (table_of (abs (driver (cl sw')))) 3 (tcp_packet eth client_ip client_ack []) = Some (7, q).
Proof.
  destruct sample_fe_running as (t & Ht & He).
  destruct (deployment_follows_flows 96 t sample_fe [enqueued sample_fe] 0 blank_pairs blank_keys [] [] (replicate ETH_FRAME_LEN 0)
    SampleConfig.files SampleConfig.sys "/sde" conf SampleConfig.proc_0 started_sw) as (batches & buf' & ec & E & Hs).
  - exact Ht.
  - apply app_nil_r.
  - rewrite He. repeat constructor. apply not_elem_of_nil.
  - reflexivity.
  - reflexivity.
  - reflexivity.
  - reflexivity.
  - reflexivity.
  - exact conf_ok.
  - unfold macs_ok, is_mac. decide_now.
  - by intros [].
  - by apply Nat.ltb_lt.
  - reflexivity.
  - reflexivity.
  - reflexivity.
  - exact Sim.runtime_reliable.
  - unfold started_sw. apply run_eq. vm_compute. reflexivity.
  - rewrite He in E. change (ec_run _ _ _ _) with told_sw in E.
    destruct (Hs (told_clean _ _ _ E)) as (sw' & Er & _ & Hp).
    eexists _, _, _, sw', _. split; [exact E|]. split; [exact Er|].
    destruct Ht as (_ & _ & _ & _ & _ & _ & _ & Hm). rewrite He in Hm.
    rewrite (Hp 3 eth client_ip client_ack []) by apply samples_ok. rewrite <- Hm. vm_compute. reflexivity.
Defined.
End DeploySim.
